(* ===== verification/_CoqProject ===== *)
-Q . S2P
Prelude.v
GoStrings.v
GoEncoding.v
GoDecoding.v
Json.v
JsonStruct.v
GoText.v
Keys.v
Authctx.v
Inventory.v
Task.v
Schema.v
TaskPostgres.v
Reconciliation.v
Outbox.v
DeadLetter.v
Grants.v
Resolution.v
ResolutionPostgres.v
Planning.v
Approval.v
Worker.v
Artefacts.v
ArtefactStore.v
Lifecycle.v
Parsing.v
Identity.v
Http.v
ResolutionApi.v
OperatorApi.v
Migrations.v
Sanitise.v
Evidence.v
EvidenceStore.v
Normalise.v
Disclosure.v
DisclosureStore.v
Retrieval.v
Policy.v
PolicyStore.v
ControlPlane.v
