(* ===== verification/Prelude.v ===== *)
(** * Network Broker: a verification development

    The program (Go, under [src/]) brokers read-only access to network devices.
    A client creates a resolution over HTTP; a planner turns it into collector
    tasks; a collector leases a task, obtains a signed execution grant,
    exchanges it for a credential, talks to the device, has what it said stored,
    sanitised and parsed into signed evidence, and commits; readers receive
    fields of the evidence under disclosure decisions; every step of a workflow
    leaves an event in a transactional outbox, from which dispatchers deliver.
    The development translates these parts into Rocq functions and proves what
    makes them correct.

    ** How the code is translated

    A Go struct is a record in a module of its name ([Task.t], [Event.t]), and
    [r <| f := v |>] is an assignment to a field.  A method is a function from
    its arguments and the state to a [result] and the state afterwards; an
    error is a value whose wrapping [errors_Is] looks through.  A method that
    holds a mutex, or a transaction that commits, is one step, so interleavings
    are lists of operations given to [run]; where other sessions can act between
    two statements of a method, what they do is an argument.  Integers are [Z]
    with the wrap of their Go type ([int64], [uint64]) written out; an instant
    is a [Z] of nanoseconds since Go's zero time.  Where a nil slice and an
    empty one differ, a slice is an [option list].  A Go interface is a type
    class, with the in-memory and PostgreSQL implementations as instances where
    the program has both.

    What is not under [src/] is a parameter with its documented behaviour as
    laws, and an instance that shows the laws can hold:
    - PostgreSQL is the database state [Schema.DB.t] with its constraints; what
      is assumed of the server is listed in [Schema].  What a JSONB column makes
      of a document is a parameter ([ResolutionPostgres.JsonbLaws]), as are the
      server's catalogue of privileges and what a migration file does;
    - Ed25519 ([Keys]): what a private key signs, its public key verifies;
    - S3 ([Artefacts]): conditional writes;
    - [sort.Slice] leaves the order of equal elements open ([GoText.SortLaws]);
      the Unicode tables beyond Latin-1, lower case beyond ASCII and NFKC are
      functions without laws; decoding protobuf JSON ([Normalise]) yields valid
      text and time stamps of their type;
    - clocks, random identifiers, publishers and the certificate chains that TLS
      verified are arguments.

    ** The files

    Go's standard library, as far as the program uses it:
    - [Prelude]: records, errors, results, time, runs, lemmas on lists.
    - [GoStrings], [GoEncoding], [GoDecoding], [GoText]: UTF-8, hex, base64,
      SHA-256, RFC 3339, decimal numbers, text processing, sorting.
    - [Json], [JsonStruct]: [encoding/json] on documents and on structs, with
      the round trips the components need.
    - [Http]: [net/http], [net/url], [mime] and bounded JSON bodies; also the
      request limiter of [cmd/controlplane/main.go].

    Identity, keys and catalogues:
    - [Authctx]: [internal/authctx], the authenticated caller.
    - [Identity]: [internal/workloadidentity], [internal/operatorauth] and
      [internal/databaseauth].
    - [Keys]: [internal/keyprovider/keyprovider.go], [internal/cryptosign].
    - [Inventory]: [internal/inventory], [internal/contextstore].

    Tasks and their delivery:
    - [Task]: [internal/collector/task.go], the task life cycle and the
      in-memory store.
    - [Schema]: [migrations/*.up.sql].
    - [TaskPostgres]: [internal/collector/postgres_repository.go].
    - [Reconciliation]: [internal/collector/reconciliation.go] and
      [reconciliation_runner.go].
    - [Outbox]: [internal/outbox], store, dispatcher and runner.
    - [DeadLetter]: [internal/deadletter].
    - [Grants]: [internal/grants], issue and exchange of execution grants.
    - [Worker]: [internal/collector/worker.go], [internal/collectorruntime] and
      the contract of [internal/transport/transport.go].

    Workflows and decisions:
    - [Resolution], [ResolutionPostgres]: [internal/resolution].
    - [Planning]: [internal/collector/fanout.go], [internal/planning].
    - [Approval]: [internal/approval], service and both repositories.
    - [Policy], [PolicyStore]: [internal/policy].

    Evidence:
    - [Artefacts], [ArtefactStore], [Lifecycle]: [internal/artefacts].
    - [Sanitise]: [internal/sanitise]; [Normalise]: [internal/normalise];
      [Parsing]: [internal/parsing].
    - [Evidence], [EvidenceStore]: [internal/evidence].
    - [Disclosure], [DisclosureStore]: [internal/disclosure]; [Retrieval]:
      [internal/retrieval].

    The processes:
    - [ResolutionApi], [OperatorApi]: the HTTP handlers of [cmd/controlplane].
    - [Migrations]: [migrations/migrate.go].
    - [ControlPlane]: configuration and start of [cmd/controlplane] and
      [cmd/collector].

    ** What the theorems show

    Tasks (C1 to C4, C6 to C8): at most one result of a task is accepted, and
    only at the end of a complete attempt; fencing tokens grow; a held lease
    excludes others; the store refines a step relation, and the durable
    repository, on tasks added as queued and without other sessions inside an
    operation, refines the store and refuses nothing storable that the store
    accepts.

    Identity (C5): whom a certificate authenticates, and with what authority.

    Reconciliation (C9, C10): evidence is accepted only for the attempt it is
    bound to, a failed reconciliation writes nothing, and acceptance is final.
    A pass of the runner accounts for its candidates ([run_once_accounts]).

    Policy (C11): the bundle last activated decides.

    Outbox (C12 to C14, C16): delivered events are final; leases exclude; an
    available event with fewer than the limit before it is claimed and leased,
    whatever rows others have locked; replays are applied once.  A pass accounts
    for its batch ([dispatcher_accounts]), operators see their own tenant
    ([list_tenant_scoped]) and page through all of it ([pages_complete]).

    Signatures and grants (C18 to C23): signing domains are separated,
    signature sets survive key rotation, a signature covers every field of a
    grant, a grant is exchanged at most once and only for the running attempt,
    and an issued grant that has not been consumed does work.

    Resolutions and planning (C24, C25, C27 to C30): a watcher reads exactly the
    history of a resolution, in memory and in PostgreSQL; a workflow accepts at
    most four transitions and a terminal one never changes; the outcome of a
    transition, error by error; a plan is queued completely or not at all, and
    at most once.  Over HTTP: equal requests have one canonical document
    ([create_document_canonical]), a repeated creation is answered with the
    stored resolution or a conflict ([create_repeats]) and a watch streams the history
    ([watch_streams_history]).

    Approvals (C31, C33): an approval is never overused; the repositories agree
    on a request stamped with the database clock, and not on other stamps
    ([clocks_differ]); a consumption can be repeated ([consume_repeatable]).

    The worker (C34, C35): what precedes the one contact with a device whatever
    the collaborators answer, what more is known when the issuer keeps the terms
    it was asked for and when the tenant of a task is fixed (the authority of
    [Grants] does, and in PostgreSQL it is), and how an attempt ends.

    Artefacts (C36, C37): what was stored is readable with its digest; the
    ledger of an artefact tells its lawful history.

    From captured bytes to readers (C15, C17, C26, C32, C38 to C40): the string
    values that the sanitiser releases have been inspected (member names and
    values hidden by duplicates have not, [names_not_inspected]); a normalised
    observation is what the parser reads; evidence can be traced to what the
    device said and is immutable; disclosures are accounted for, and what is
    retrieved is permitted and exact; observations are typed.

    Starting up: migrations run in order, each once, whenever the connection is
    lost ([migrations_in_order]); the control plane starts only under a role
    with the expected privileges ([control_plane_privileges_exact],
    [starts_verified]) and serves each API to its role ([api_serves_role]).

    ** Bounds and fuel

    The JSON reader has fuel twice the length of its input plus two, which is
    enough because every recursive call consumes a byte or closes a value
    ([Json.parse_print] and [Json.parse_ok]), and the nesting limit of 10,000
    of the Go decoder.  Decimal printing has fuel for twenty digits, enough for
    every 64-bit integer.  Stripping terminal sequences, media type parameters
    and durations have fuel for the length of their input, of which each round
    consumes at least a byte.  [walk], the reading of all pages by a
    client, has a round per page; [pages_complete] shows that some number of
    rounds is enough.  The polling loops run over the list of signals they
    receive.  All other recursion is structural.

    ** What is not modelled

    The transport adapters (SSH, NETCONF, gNMI sessions), the AWS KMS provider
    and the NATS publisher are network input and output; the components are
    proved for any of them.  Of the commands, flags, the wiring of constructors,
    TLS and NATS connections, readiness, the metrics text and the serving loop
    are left out, and so is the tool that checks constructors.  Cancellation of
    contexts appears where a loop waits for it and not elsewhere; failures
    of the database connection appear in [Migrations] and at the commit of a
    policy activation only; nil receivers, logging, gaps in
    identity columns and serialization failures, which change nothing, are not
    represented. *)
From Stdlib Require Export ZArith Lia Ascii Sorted.
From stdpp Require Export base gmap strings list option.

Local Open Scope Z_scope.

(** ** Record update

    Go assigns to one field of a struct at a time.  [r <| f := v |>] is the
    record [r] with field [f] replaced.  The setter of a projection is found
    from the record's eta expansion, which every struct of the development
    declares as an instance of [Eta]. *)
Class Eta (R : Type) := eta : R -> R.
Class Setter {R T : Type} (p : R -> T) := set_field : T -> R -> R.
Arguments set_field {R T} p {_} v r : simpl nomatch.

Ltac build_setter :=
  lazymatch goal with
  | |- @Setter ?R ?T ?p =>
    let f := constr:(fun (set_v : T) (set_r : R) =>
      ltac:(let b := constr:(@eta R _ set_r) in
            let b := eval cbv delta [eta] in b in
            let b := eval hnf in b in
            lazymatch eval pattern (p set_r) in b with
            | ?g _ => let t := eval cbv beta in (g set_v) in exact t
            end)) in
    exact f
  end.
#[global] Hint Extern 0 (Setter _) => build_setter : typeclass_instances.

Notation "r <| p := v |>" := (set_field p v r)
  (at level 1, left associativity, p at level 9, v at level 200,
   format "r  <|  p  :=  v  |>").

(** ** Equality tests

    Go's [==] on strings and enumeration constants, as a boolean. *)
Notation "x ==? y" := (bool_decide (x = y)) (at level 70, no associativity).
Notation "x !=? y" := (negb (bool_decide (x = y))) (at level 70, no associativity).

(** ** Errors

    [New] is a package sentinel made by [errors.New]; its first component
    names it ("collector.ErrLeaseHeld").  [Text] is [fmt.Errorf] without a
    wrapped error, [Wrapf] is [fmt.Errorf] with one [%w] between two pieces
    of text, [Wrap2] with two of them, [Join] is [errors.Join] of two non-nil
    errors. *)
Inductive error : Type :=
| New (id text : string)
| Text (msg : string)
| Wrapf (before : string) (inner : error) (after : string)
| Wrap2 (e1 : error) (between : string) (e2 : error)
| Join (e1 e2 : error).

#[global] Instance error_eq_dec : EqDecision error.
Proof. solve_decision. Defined.

(** [errors.Is]: the target itself, anything that wraps it, or a join of which
    one side does. *)
Fixpoint errors_Is (e target : error) : bool :=
  (e ==? target) ||
  match e with
  | Wrapf _ inner _ => errors_Is inner target
  | Wrap2 a _ b | Join a b => errors_Is a target || errors_Is b target
  | _ => false
  end.

(** [errors.Join] over possibly nil errors: nil operands are dropped. *)
Definition errors_Join (a b : option error) : option error :=
  match a, b with
  | None, x | x, None => x
  | Some x, Some y => Some (Join x y)
  end.

(** The [Error] method: the text of an error. *)
Fixpoint Error (e : error) : string :=
  match e with
  | New _ text => text
  | Text msg => msg
  | Wrapf before inner after => before +:+ Error inner +:+ after
  | Wrap2 a between b => Error a +:+ between +:+ Error b
  | Join a b => Error a +:+ String (ascii_of_nat 10) EmptyString +:+ Error b
  end.

(** ** Results

    A Go function with results and a final [error] returns [Ok] or [Err]; one
    that returns only an [error] is a [result unit]. *)
Inductive result (A : Type) : Type :=
| Ok (a : A)
| Err (e : error).
Arguments Ok {A} a.
Arguments Err {A} e.

Definition is_ok {A} (r : result A) : bool :=
  match r with Ok _ => true | Err _ => false end.

(** The sentinel that [errors.Is] finds first in an error: what a caller can
    tell apart without reading the text. *)
Fixpoint sentinel (e : error) : option string :=
  match e with
  | New id _ => Some id
  | Text _ => None
  | Wrapf _ inner _ => sentinel inner
  | Wrap2 a _ b | Join a b => match sentinel a with Some s => Some s | None => sentinel b end
  end.

(** Two results a caller cannot tell apart except by error text. *)
Definition same_outcome {A} (r1 r2 : result A) : Prop :=
  match r1, r2 with
  | Ok a, Ok b => a = b
  | Err e, Err f => sentinel e = sentinel f
  | _, _ => False
  end.

(** ** Time

    [time.Time] is the number of nanoseconds since Go's zero time
    (0001-01-01T00:00:00Z), so the zero [Time] is 0; [UTC] does not change the
    instant.  [time.Duration] is a number of nanoseconds. *)
Definition IsZero (t : Z) : bool := t =? 0.
Definition Before (t u : Z) : bool := t <? u.
Definition After (t u : Z) : bool := u <? t.
Definition Microsecond : Z := 1000.
Definition Second : Z := 1000000000.
Definition Truncate (t d : Z) : Z := t - t mod d.
(** [Duration.Microseconds] divides towards zero. *)
Definition Microseconds (d : Z) : Z := Z.quot d 1000.

(** ** Machine integers *)
Definition int64 (z : Z) : Z := (z + 2 ^ 63) mod 2 ^ 64 - 2 ^ 63.
Arguments int64 : simpl never.
Definition uint64 (z : Z) : Z := z mod 2 ^ 64.
Arguments uint64 : simpl never.
Definition max_int64 : Z := 2 ^ 63 - 1.
Definition max_int32 : Z := 2 ^ 31 - 1.

(** ** Strings: Go strings are byte sequences *)
Definition len (s : string) : Z := Z.of_nat (String.length s).

(** ** Boolean reflection *)
Create Rewrite HintDb go_bool.
#[global] Hint Rewrite orb_true_iff orb_false_iff andb_true_iff andb_false_iff
  negb_true_iff negb_false_iff bool_decide_eq_true bool_decide_eq_false
  Z.ltb_lt Z.ltb_ge Z.leb_le Z.leb_gt Z.eqb_eq Z.eqb_neq : go_bool.

(** [reflect_bools] turns the boolean guards among the hypotheses into the
    propositions they decide; [case_guards] follows every branch of the goal
    and of the hypotheses. *)
Ltac reflect_bools :=
  unfold Before, After, IsZero in *; autorewrite with go_bool in *.
Ltac case_guards := repeat (case_match; simplify_eq/=; try done).
Ltac crush := repeat (case_match; simplify_eq/=); try done;
  reflect_bools; destruct_and?; simplify_eq/=; try done; try lia.

Lemma int64_small z : - 2 ^ 63 <= z <= max_int64 -> int64 z = z.
Proof.
  intros H. unfold int64, max_int64 in *. rewrite Z.mod_small; lia.
Qed.

Lemma uint64_small z : 0 <= z < 2 ^ 64 -> uint64 z = z.
Proof. intros H. unfold uint64. by rewrite Z.mod_small. Qed.

Lemma Truncate_le t d : 0 < d -> Truncate t d <= t.
Proof. intros H. unfold Truncate. pose proof (Z.mod_pos_bound t d H). lia. Qed.

Lemma Truncate_gt t d : 0 < d -> t - d < Truncate t d.
Proof. intros H. unfold Truncate. pose proof (Z.mod_pos_bound t d H). lia. Qed.

Lemma Truncate_mod t d : 0 < d -> Truncate t d mod d = 0.
Proof.
  intros H. unfold Truncate.
  rewrite Zminus_mod, Z.mod_mod, Z.sub_diag by lia. apply Z.mod_0_l. lia.
Qed.

(** Comparing an instant with an aligned deadline gives the same answer before
    and after the instant is truncated. *)
Lemma Truncate_lt_aligned t u d :
  0 < d -> u mod d = 0 -> (Truncate t d < u <-> t < u).
Proof.
  intros Hd Hu. split; [|pose proof (Truncate_le t d Hd); lia].
  intros Hlt. pose proof (Truncate_gt t d Hd).
  assert (Hdiv : (u - Truncate t d) mod d = 0).
  { rewrite Zminus_mod, Hu, (Truncate_mod t d Hd), Z.sub_diag. apply Z.mod_0_l. lia. }
  apply Z.mod_divide in Hdiv as [k Hk]; [|lia].
  assert (1 <= k) by nia. nia.
Qed.

Lemma omap_snoc {A B} (f : A -> option B) l x :
  omap f (l ++ [x]) = omap f l ++ match f x with Some y => [y] | None => [] end.
Proof. rewrite omap_app. simpl. by destruct (f x). Qed.

Lemma NoDup_snoc {A} (l : list A) x : NoDup l -> x ∉ l -> NoDup (l ++ [x]).
Proof.
  intros Hl Hx. apply list.NoDup_app. split; [done|]. split; [|apply list.NoDup_singleton].
  intros y Hy ->%list_elem_of_singleton. done.
Qed.

Lemma StronglySorted_snoc {A} (R : A -> A -> Prop) l x :
  StronglySorted R l -> Forall (fun y => R y x) l -> StronglySorted R (l ++ [x]).
Proof.
  induction 1 as [|y l Hs IH Hy]; simpl; intros Hx; [repeat constructor|].
  inversion_clear Hx. constructor; [by apply IH|].
  apply Forall_app. split; [done|by repeat constructor].
Qed.

Lemma StronglySorted_take {A} (R : A -> A -> Prop) n l :
  StronglySorted R l -> StronglySorted R (firstn n l).
Proof.
  intros H. revert n. induction H as [|x l _ IH Hx]; intros [|n]; simpl; try constructor; [done|].
  by apply Forall_take.
Qed.

Lemma StronglySorted_filter {A} (R : A -> A -> Prop) (f : A -> bool) l :
  StronglySorted R l -> StronglySorted R (List.filter f l).
Proof.
  induction 1 as [|x l _ IH Hx]; simpl; [constructor|]. destruct (f x); [|done]. constructor; [done|].
  apply list.Forall_forall. intros y [Hy _]%list_elem_of_In%filter_In. rewrite list.Forall_forall in Hx.
  apply Hx. by apply list_elem_of_In.
Qed.

Lemma filter_perm {A} (f : A -> bool) l k : l ≡ₚ k -> List.filter f l ≡ₚ List.filter f k.
Proof.
  induction 1 as [|x l k _ IH|x y l|l k m _ IH1 _ IH2]; simpl; [done|..].
  - destruct (f x); [by rewrite IH|done].
  - destruct (f x), (f y); try done. constructor.
  - by rewrite IH1.
Qed.

Lemma Forall2_filter {A B} (R : A -> B -> Prop) (f : A -> bool) (g : B -> bool) l k :
  (forall a b, R a b -> f a = g b) -> Forall2 R l k -> Forall2 R (List.filter f l) (List.filter g k).
Proof.
  intros Hfg. induction 1 as [|a b l k Hab _ IH]; simpl; [done|]. rewrite (Hfg _ _ Hab).
  destruct (g b); [by constructor|done].
Qed.

Lemma StronglySorted_rev {A} (R : A -> A -> Prop) l :
  StronglySorted R l -> StronglySorted (fun a b => R b a) (rev l).
Proof.
  induction 1 as [|x l _ IH Hx]; simpl; [constructor|]. apply StronglySorted_snoc; [done|].
  apply list.Forall_forall. intros y Hy%list_elem_of_In%in_rev. rewrite list.Forall_forall in Hx.
  apply Hx. by apply list_elem_of_In.
Qed.

(** ** Runs of operations

    A component guarded by one mutex, or a table changed by one statement at a
    time, is a function [exec] from an operation and a state to an outcome and
    a state.  Every interleaving of callers is a list of operations. *)
Section Runs.
Context {St Op Out : Type} (exec : Op -> St -> Out * St).

Fixpoint run (ops : list Op) (s : St) : list (Op * Out) * St :=
  match ops with
  | [] => ([], s)
  | op :: rest =>
    let '(out, s1) := exec op s in
    let '(log, s2) := run rest s1 in
    ((op, out) :: log, s2)
  end.

Lemma run_app ops1 ops2 s :
  run (ops1 ++ ops2) s =
  ((run ops1 s).1 ++ (run ops2 (run ops1 s).2).1, (run ops2 (run ops1 s).2).2).
Proof.
  revert s. induction ops1 as [|op ops1 IH]; intros s; simpl.
  - by destruct (run ops2 s).
  - destruct (exec op s) as [out s1]. rewrite IH.
    by destruct (run ops1 s1) as [log s2].
Qed.

(** An invariant of the state that every admissible operation preserves holds
    after every run of admissible operations. *)
Lemma run_invariant (ok : Op -> Prop) (I : St -> Prop) :
  (forall op s, ok op -> I s -> I (exec op s).2) ->
  forall ops s, Forall ok ops -> I s -> I (run ops s).2.
Proof.
  intros Hstep ops. induction ops as [|op ops IH]; intros s Hok Hs; simpl; [done|].
  inversion_clear Hok as [|? ? Hop Hrest].
  specialize (Hstep op s Hop Hs).
  destruct (exec op s) as [out s1]. simpl in Hstep.
  specialize (IH s1 Hrest Hstep). by destruct (run ops s1).
Qed.

(** The same for an invariant that also speaks of the log so far. *)
Lemma run_log_invariant (ok : Op -> Prop) (I : list (Op * Out) -> St -> Prop) :
  (forall log op s, ok op -> I log s -> I (log ++ [(op, (exec op s).1)]) (exec op s).2) ->
  forall ops s, Forall ok ops -> I [] s -> I (run ops s).1 (run ops s).2.
Proof.
  intros Hstep ops s0 Hok H0.
  assert (Hgen : forall log s, I log s -> I (log ++ (run ops s).1) (run ops s).2).
  { clear H0. induction Hok as [|op ops Hop _ IH]; intros log s Hs; simpl.
    - by rewrite app_nil_r.
    - specialize (Hstep log op s Hop Hs). destruct (exec op s) as [out s1]. simpl in Hstep.
      specialize (IH _ _ Hstep). destruct (run ops s1) as [log2 s2]. simpl in *.
      by rewrite <- app_assoc in IH. }
  by apply (Hgen [] s0).
Qed.

Lemma run_length ops s : List.length (run ops s).1 = List.length ops.
Proof.
  revert s. induction ops as [|op ops IH]; intros s; simpl; [done|].
  destruct (exec op s) as [out s1]. specialize (IH s1).
  destruct (run ops s1). simpl in *. by rewrite IH.
Qed.
Lemma run_ops ops s : map fst (run ops s).1 = ops.
Proof.
  revert s. induction ops as [|op ops IH]; intros s; simpl; [done|].
  destruct (exec op s) as [out s1]. specialize (IH s1). destruct (run ops s1). simpl in *. by rewrite IH.
Qed.
End Runs.
