(* ===== verification/GoStrings.v ===== *)
(** * Go strings

    The parts of Go's [unicode/utf8], [unicode], [strings], [strconv],
    [encoding/hex] and [sort] packages that the program uses, over byte
    strings.  A Go [string] or [[]byte] is a Rocq [string] whose characters are
    bytes; [bytes] exposes them as integers from 0 to 255.  The theorems are
    the ones the components need: UTF-8 decoding inverts encoding, and
    truncation by runes bounds the number of characters. *)
From Stdlib Require Import Sorting.Permutation Sorted.
From S2P Require Import Prelude.
Local Open Scope Z_scope.

(** ** Bytes *)
Definition byte_of (a : ascii) : Z := Z.of_N (N_of_ascii a).
Definition of_byte (b : Z) : ascii := ascii_of_N (Z.to_N b).
Definition bytes (s : string) : list Z := map byte_of (String.list_ascii_of_string s).
Definition of_bytes (bs : list Z) : string := String.string_of_list_ascii (map of_byte bs).

(** ** UTF-8 ([unicode/utf8]) *)
Definition RuneError : Z := 65533.
Definition in_range (lo b hi : Z) : bool := (lo <=? b) && (b <=? hi).
Definition cont (b : Z) : bool := in_range 128 b 191.

(** [utf8.DecodeRune]: the first rune and its width; an invalid sequence is
    [RuneError] of width 1, the empty input [RuneError] of width 0. *)
Definition DecodeRune (bs : list Z) : Z * nat :=
  match bs with
  | [] => (RuneError, 0%nat)
  | b0 :: t =>
    if b0 <? 128 then (b0, 1%nat)
    else if in_range 194 b0 223 then
      match t with
      | b1 :: _ => if cont b1 then ((b0 - 192) * 64 + (b1 - 128), 2%nat) else (RuneError, 1%nat)
      | _ => (RuneError, 1%nat)
      end
    else if in_range 224 b0 239 then
      match t with
      | b1 :: b2 :: _ =>
        let lo := if b0 =? 224 then 160 else 128 in
        let hi := if b0 =? 237 then 159 else 191 in
        if in_range lo b1 hi && cont b2
        then ((b0 - 224) * 4096 + (b1 - 128) * 64 + (b2 - 128), 3%nat) else (RuneError, 1%nat)
      | _ => (RuneError, 1%nat)
      end
    else if in_range 240 b0 244 then
      match t with
      | b1 :: b2 :: b3 :: _ =>
        let lo := if b0 =? 240 then 144 else 128 in
        let hi := if b0 =? 244 then 143 else 191 in
        if in_range lo b1 hi && cont b2 && cont b3
        then ((b0 - 240) * 262144 + (b1 - 128) * 4096 + (b2 - 128) * 64 + (b3 - 128), 4%nat)
        else (RuneError, 1%nat)
      | _ => (RuneError, 1%nat)
      end
    else (RuneError, 1%nat)
  end.

Definition valid_rune (r : Z) : bool :=
  in_range 0 r 55295 || in_range 57344 r 1114111.

(** [utf8.AppendRune]: surrogates and out-of-range values become [RuneError]. *)
Definition EncodeRune (r : Z) : list Z :=
  let r := if valid_rune r then r else RuneError in
  if r <? 128 then [r]
  else if r <? 2048 then [192 + r / 64; 128 + r mod 64]
  else if r <? 65536 then [224 + r / 4096; 128 + r / 64 mod 64; 128 + r mod 64]
  else [240 + r / 262144; 128 + r / 4096 mod 64; 128 + r / 64 mod 64; 128 + r mod 64].

(** Decoding a whole byte list; [skip] counts the bytes of the current rune
    still to pass over.  Each element is a rune and whether it is valid. *)
Fixpoint decode_skip (skip : nat) (bs : list Z) : list (Z * bool) :=
  match bs with
  | [] => []
  | b :: t =>
    match skip with
    | S k => decode_skip k t
    | O => let '(r, n) := DecodeRune bs in
           (r, negb ((r =? RuneError) && Nat.eqb n 1)) :: decode_skip (pred n) t
    end
  end.
Definition decode_bytes (bs : list Z) : list (Z * bool) := decode_skip 0 bs.

(** The conversion [[]rune(s)] and back. *)
Definition runes (s : string) : list Z := map fst (decode_bytes (bytes s)).
Definition of_runes (rs : list Z) : string := of_bytes (concat (map EncodeRune rs)).
Definition ValidString (s : string) : bool := forallb snd (decode_bytes (bytes s)).
Definition RuneCount (s : string) : Z := Z.of_nat (List.length (runes s)).

(** [strings.ToValidUTF8]: each run of invalid bytes becomes [RuneError]. *)
Fixpoint to_valid (inrun : bool) (ds : list (Z * bool)) : list Z :=
  match ds with
  | [] => []
  | (r, true) :: t => r :: to_valid false t
  | (_, false) :: t => if inrun then to_valid true t else RuneError :: to_valid true t
  end.
Definition ToValidUTF8 (s : string) : string :=
  of_runes (to_valid false (decode_bytes (bytes s))).

(** The longest prefix of at most [n] bytes that is valid UTF-8: the loop that
    drops one trailing byte at a time. *)
Fixpoint valid_prefix (n : nat) (s : string) : string :=
  let p := String.substring 0 n s in
  if ValidString p then p else match n with O => EmptyString | S k => valid_prefix k s end.

(** ** Character classes ([unicode]) *)
Definition IsControl (r : Z) : bool := in_range 0 r 31 || in_range 127 r 159.
Definition IsSpace (r : Z) : bool :=
  in_range 9 r 13 || (r =? 32) || (r =? 133) || (r =? 160) || (r =? 5760) ||
  in_range 8192 r 8202 || (r =? 8232) || (r =? 8233) || (r =? 8239) || (r =? 8287) || (r =? 12288).

(** [strings.IndexFunc(s, f) >= 0]. *)
Definition ContainsFunc (f : Z -> bool) (s : string) : bool := existsb f (runes s).

(** ** Substrings and trimming ([strings]) *)
Definition HasPrefix (s p : string) : bool := String.prefix p s.
Fixpoint Contains (s sub : string) : bool :=
  String.prefix sub s ||
  match s with EmptyString => false | String _ t => Contains t sub end.
Fixpoint drop_while {A} (f : A -> bool) (l : list A) : list A :=
  match l with [] => [] | x :: t => if f x then drop_while f t else l end.
(** [strings.TrimSpace(s) == ""]: nothing but white space. *)
Definition blank (s : string) : bool := forallb IsSpace (runes s).
(** The runes of a string with the bytes each one came from. *)
Fixpoint chunk_skip (skip : nat) (bs : list Z) : list (Z * list Z) :=
  match bs with
  | [] => []
  | b :: t =>
    match skip with
    | S k => chunk_skip k t
    | O => let '(r, n) := DecodeRune bs in (r, firstn n bs) :: chunk_skip (pred n) t
    end
  end.
(** [strings.TrimSpace] drops white space at both ends and keeps the other
    bytes as they are. *)
Definition TrimSpace (s : string) : string :=
  let space c := IsSpace (fst c) in
  of_bytes (concat (map snd
    (rev (drop_while space (rev (drop_while space (chunk_skip 0 (bytes s)))))))).
(** [strings.ContainsAny] for a set of ASCII characters. *)
Definition ContainsAny (s : string) (chars : list Z) : bool :=
  existsb (fun b => existsb (Z.eqb b) chars) (bytes s).

(** ** Numbers and hexadecimal ([strconv], [encoding/hex]) *)
Definition digit (d : Z) : ascii := of_byte (48 + d).
Fixpoint itoa_fuel (fuel : nat) (n : Z) (acc : string) : string :=
  match fuel with
  | O => acc
  | S k => let acc := String (digit (n mod 10)) acc in
           if n / 10 =? 0 then acc else itoa_fuel k (n / 10) acc
  end.
(** Decimal text of an integer below 10^20 in absolute value: twenty digits
    hold every [int64] and [uint64]. *)
Definition itoa (n : Z) : string :=
  if n <? 0 then String "-" (itoa_fuel 20 (- n) "") else itoa_fuel 20 n "".

Definition hexdigit (d : Z) : ascii := of_byte (if d <? 10 then 48 + d else 87 + d).
Definition hex_byte (b : Z) : string := String (hexdigit (b / 16)) (String (hexdigit (b mod 16)) "").
Definition hex_EncodeToString (bs : list Z) : string :=
  fold_right (fun b s => hex_byte b +:+ s) "" bs.

(** [%q]: a double-quoted Go string literal.  Runes from U+00A0 on are copied;
    control characters and invalid bytes are escaped. *)
Definition quote_rune (r : Z) : string :=
  if r =? 34 then of_bytes [92; 34] else if r =? 92 then of_bytes [92; 92]
  else if r =? 7 then "\a" else if r =? 8 then "\b" else if r =? 12 then "\f"
  else if r =? 10 then "\n" else if r =? 13 then "\r" else if r =? 9 then "\t"
  else if r =? 11 then "\v"
  else if (r <? 32) || (r =? 127) then "\x" +:+ hex_byte r
  else if in_range 128 r 159 then "\u00" +:+ hex_byte r
  else of_runes [r].
Fixpoint quote_skip (skip : nat) (bs : list Z) : string :=
  match bs with
  | [] => ""
  | b :: t =>
    match skip with
    | S k => quote_skip k t
    | O => let '(r, n) := DecodeRune bs in
           (if (r =? RuneError) && Nat.eqb n 1 then "\x" +:+ hex_byte b else quote_rune r)
           +:+ quote_skip (pred n) t
    end
  end.
Definition quote (s : string) : string :=
  of_bytes [34] +:+ quote_skip 0 (bytes s) +:+ of_bytes [34].

(** ** Sorting ([sort.Strings]): strings are ordered byte by byte *)
Definition str_leb (a b : string) : bool :=
  match String.compare a b with Gt => false | _ => true end.
Fixpoint insert_sorted {A} (leb : A -> A -> bool) (x : A) (l : list A) : list A :=
  match l with
  | [] => [x]
  | y :: t => if leb x y then x :: l else y :: insert_sorted leb x t
  end.
Definition isort {A} (leb : A -> A -> bool) (l : list A) : list A :=
  fold_right (insert_sorted leb) [] l.
Definition sort_Strings (l : list string) : list string := isort str_leb l.

Example quote_example : quote "a" = of_bytes [34; 97; 34] /\ itoa (-120) = "-120" /\
  hex_EncodeToString [0; 171; 255] = "00abff" /\ runes (of_bytes [226; 130; 172]) = [8364].
Proof. by vm_compute. Qed.

(** ** Bytes and strings *)
Lemma byte_of_range a : 0 <= byte_of a < 256.
Proof. unfold byte_of. pose proof (N_ascii_bounded a). lia. Qed.

Lemma of_byte_byte_of a : of_byte (byte_of a) = a.
Proof. unfold of_byte, byte_of. by rewrite N2Z.id, ascii_N_embedding. Qed.

Lemma byte_of_of_byte b : 0 <= b < 256 -> byte_of (of_byte b) = b.
Proof.
  intros H. unfold of_byte, byte_of. rewrite N_ascii_embedding by lia. lia.
Qed.

Lemma of_bytes_bytes s : of_bytes (bytes s) = s.
Proof.
  unfold of_bytes, bytes. rewrite map_map.
  erewrite map_ext by apply of_byte_byte_of.
  rewrite map_id. apply String.string_of_list_ascii_of_string.
Qed.

Lemma bytes_of_bytes bs : Forall (fun b => 0 <= b < 256) bs -> bytes (of_bytes bs) = bs.
Proof.
  intros H. unfold of_bytes, bytes.
  rewrite String.list_ascii_of_string_of_list_ascii, map_map.
  induction H as [|b bs Hb _ IH]; simpl; [done|]. by rewrite byte_of_of_byte, IH.
Qed.

(** ** UTF-8 *)
Lemma EncodeRune_bytes r : Forall (fun b => 0 <= b < 256) (EncodeRune r).
Proof.
  unfold EncodeRune. set (r' := if valid_rune r then r else RuneError).
  assert (0 <= r' <= 1114111).
  { unfold r', valid_rune, in_range. case_match; reflect_bools; unfold RuneError; lia. }
  clearbody r'. repeat case_match; reflect_bools;
    repeat constructor; Z.to_euclidean_division_equations; lia.
Qed.

Ltac decide_ranges :=
  repeat match goal with
  | |- context [if ?b then _ else _] =>
    first
      [ replace b with true by
          (symmetry; unfold cont, in_range; autorewrite with go_bool;
           Z.to_euclidean_division_equations; lia)
      | replace b with false by
          (symmetry; unfold cont, in_range; autorewrite with go_bool;
           Z.to_euclidean_division_equations; lia) ]
  end.

(** Decoding the encoding of a rune gives the rune and its width. *)
Lemma DecodeRune_EncodeRune r rest :
  valid_rune r = true ->
  DecodeRune (EncodeRune r ++ rest) = (r, List.length (EncodeRune r)).
Proof.
  intros Hv. unfold EncodeRune. rewrite Hv.
  unfold valid_rune, in_range in Hv. reflect_bools.
  destruct (r <? 128) eqn:H1; reflect_bools; [cbn [app List.length DecodeRune]; by decide_ranges|].
  destruct (r <? 2048) eqn:H2; reflect_bools.
  { cbn [app List.length DecodeRune]. decide_ranges.
    f_equal. Z.to_euclidean_division_equations. lia. }
  destruct (r <? 65536) eqn:H3; reflect_bools; cbn [app List.length DecodeRune]; cbv zeta.
  - assert (Hr : r = r / 4096 * 4096 + r / 64 mod 64 * 64 + r mod 64)
      by (Z.to_euclidean_division_equations; lia).
    destruct (224 + r / 4096 =? 224) eqn:E1; destruct (224 + r / 4096 =? 237) eqn:E2;
      reflect_bools; decide_ranges; f_equal; lia.
  - assert (Hr : r = r / 262144 * 262144 + r / 4096 mod 64 * 4096 + r / 64 mod 64 * 64 + r mod 64)
      by (Z.to_euclidean_division_equations; lia).
    destruct (240 + r / 262144 =? 240) eqn:E1; destruct (240 + r / 262144 =? 244) eqn:E2;
      reflect_bools; decide_ranges; f_equal; lia.
Qed.

Lemma EncodeRune_cons r : exists b t, EncodeRune r = b :: t.
Proof. unfold EncodeRune. repeat case_match; eauto. Qed.

Lemma decode_skip_app n bs rest :
  n = List.length bs -> decode_skip n (bs ++ rest) = decode_skip 0 rest.
Proof.
  intros ->. induction bs as [|b bs IH]; simpl; [done|].
  exact IH.
Qed.

Lemma decode_encode_app r rest :
  valid_rune r = true -> decode_bytes (EncodeRune r ++ rest) = (r, true) :: decode_bytes rest.
Proof.
  intros Hv. pose proof (DecodeRune_EncodeRune r rest Hv) as Hd.
  destruct (EncodeRune_cons r) as (b & t & Hbt). rewrite Hbt in *.
  unfold decode_bytes. cbn [app decode_skip] in *. rewrite Hd. cbn [List.length pred].
  rewrite decode_skip_app by done. do 2 f_equal.
  destruct (r =? RuneError) eqn:E; [|done]. apply Z.eqb_eq in E. subst r.
  vm_compute in Hbt. injection Hbt as <- <-. reflexivity.
Qed.

Lemma decode_bytes_encode rs :
  Forall (fun r => valid_rune r = true) rs ->
  decode_bytes (concat (map EncodeRune rs)) = map (fun r => (r, true)) rs.
Proof.
  induction 1 as [|r rs Hr _ IH]; simpl; [done|]. by rewrite decode_encode_app, IH.
Qed.

Lemma bytes_of_runes rs : bytes (of_runes rs) = concat (map EncodeRune rs).
Proof.
  apply bytes_of_bytes. apply Forall_concat, Forall_map, Forall_true.
  intros r. apply EncodeRune_bytes.
Qed.

Lemma runes_of_runes rs : Forall (fun r => valid_rune r = true) rs -> runes (of_runes rs) = rs.
Proof.
  intros H. unfold runes. rewrite bytes_of_runes, decode_bytes_encode, map_map by done.
  apply map_id.
Qed.

Lemma ValidString_of_runes rs :
  Forall (fun r => valid_rune r = true) rs -> ValidString (of_runes rs) = true.
Proof.
  intros H. unfold ValidString. rewrite bytes_of_runes, decode_bytes_encode by done.
  apply forallb_forall. intros x Hx. apply in_map_iff in Hx. by destruct Hx as (? & <- & _).
Qed.

Lemma in_range_spec lo b hi : in_range lo b hi = true <-> lo <= b <= hi.
Proof. unfold in_range. by rewrite andb_true_iff, !Z.leb_le. Qed.

Lemma valid_rune_spec r : valid_rune r = true <-> 0 <= r <= 55295 \/ 57344 <= r <= 1114111.
Proof. unfold valid_rune. by rewrite orb_true_iff, !in_range_spec. Qed.

Lemma DecodeRune_valid b t : 0 <= b -> valid_rune (DecodeRune (b :: t)).1 = true.
Proof.
  intros Hb. assert (Hre : valid_rune RuneError = true) by done.
  unfold DecodeRune, cont. destruct (b <? 128) eqn:E0.
  { apply Z.ltb_lt in E0. apply valid_rune_spec. simpl. lia. }
  destruct (in_range 194 b 223) eqn:E1.
  { apply in_range_spec in E1. destruct t as [|b1 t]; [done|].
    case_match eqn:C1; [|done]. apply in_range_spec in C1. apply valid_rune_spec. simpl. lia. }
  destruct (in_range 224 b 239) eqn:E2.
  { apply in_range_spec in E2. destruct t as [|b1 [|b2 t]]; [done..|]. cbv zeta.
    case_match eqn:C1; [|done]. rewrite andb_true_iff, !in_range_spec in C1.
    apply valid_rune_spec. simpl.
    destruct (Z.eqb_spec b 224), (Z.eqb_spec b 237); lia. }
  destruct (in_range 240 b 244) eqn:E3; [|done].
  apply in_range_spec in E3. destruct t as [|b1 [|b2 [|b3 t]]]; [done..|]. cbv zeta.
  case_match eqn:C1; [|done]. rewrite !andb_true_iff, !in_range_spec in C1.
  apply valid_rune_spec. simpl.
  destruct (Z.eqb_spec b 240), (Z.eqb_spec b 244); lia.
Qed.

(** Encoding a decoded rune gives back the bytes it came from. *)
Lemma EncodeRune_width r :
  valid_rune r = true ->
  (r < 128 -> EncodeRune r = [r]) /\
  (128 <= r < 2048 -> EncodeRune r = [192 + r / 64; 128 + r mod 64]) /\
  (2048 <= r < 65536 -> EncodeRune r = [224 + r / 4096; 128 + r / 64 mod 64; 128 + r mod 64]) /\
  (65536 <= r -> EncodeRune r = [240 + r / 262144; 128 + r / 4096 mod 64; 128 + r / 64 mod 64; 128 + r mod 64]).
Proof.
  intros Hv. unfold EncodeRune. rewrite Hv.
  destruct (Z.ltb_spec r 128), (Z.ltb_spec r 2048), (Z.ltb_spec r 65536); split_and!; intros; try done; lia.
Qed.

Lemma EncodeRune_DecodeRune b t r n :
  0 <= b -> DecodeRune (b :: t) = (r, n) -> (r =? RuneError) && Nat.eqb n 1 = false ->
  EncodeRune r = firstn n (b :: t).
Proof.
  intros Hb Hd Hok. pose proof (DecodeRune_valid b t Hb) as Hv. rewrite Hd in Hv. simpl in Hv.
  destruct (EncodeRune_width r Hv) as (W1 & W2 & W3 & W4).
  assert (Hne : (RuneError, 1%nat) <> (r, n)) by (intros [= <- <-]; done).
  unfold DecodeRune, cont in Hd. destruct (Z.ltb_spec b 128).
  { injection Hd as <- <-. by rewrite W1. }
  destruct (in_range 194 b 223) eqn:E1.
  { apply in_range_spec in E1. destruct t as [|b1 t]; [done|].
    case_match eqn:C1; [|done]. apply in_range_spec in C1. injection Hd as <- <-.
    rewrite W2 by lia. cbn [firstn]. repeat f_equal; Z.to_euclidean_division_equations; lia. }
  destruct (in_range 224 b 239) eqn:E2.
  { apply in_range_spec in E2. destruct t as [|b1 [|b2 t]]; [done..|]. cbv zeta in Hd.
    case_match eqn:C1; [|done]. rewrite andb_true_iff, !in_range_spec in C1. injection Hd as <- <-.
    assert (128 <= b1 <= 191) by (destruct (Z.eqb_spec b 224), (Z.eqb_spec b 237); lia).
    rewrite W3 by (destruct (Z.eqb_spec b 224), (Z.eqb_spec b 237); lia).
    cbn [firstn]. repeat f_equal; Z.to_euclidean_division_equations; lia. }
  destruct (in_range 240 b 244) eqn:E3; [|done].
  apply in_range_spec in E3. destruct t as [|b1 [|b2 [|b3 t]]]; [done..|]. cbv zeta in Hd.
  case_match eqn:C1; [|done]. rewrite !andb_true_iff, !in_range_spec in C1. injection Hd as <- <-.
  assert (128 <= b1 <= 191) by (destruct (Z.eqb_spec b 240), (Z.eqb_spec b 244); lia).
  rewrite W4 by (destruct (Z.eqb_spec b 240), (Z.eqb_spec b 244); lia).
  cbn [firstn]. repeat f_equal; Z.to_euclidean_division_equations; lia.
Qed.

Lemma decode_skip_encode n bs :
  Forall (fun b => 0 <= b < 256) bs -> forallb snd (decode_skip n bs) = true ->
  concat (map (fun x => EncodeRune (fst x)) (decode_skip n bs)) = skipn n bs.
Proof.
  intros Hb. revert n. induction Hb as [|b bs Hb Hbs IH]; intros n; [by destruct n|].
  destruct n as [|n]; cbn [decode_skip]; [|apply IH].
  destruct (DecodeRune (b :: bs)) as [r w] eqn:E. cbn [forallb snd map fst concat].
  intros [Hok%negb_true_iff Hrest]%andb_true_iff.
  rewrite (EncodeRune_DecodeRune b bs r w), IH by (done || lia).
  destruct w as [|w]; [|cbn [firstn pred skipn app]; by rewrite firstn_skipn].
  exfalso. clear -E. unfold DecodeRune in E. repeat case_match; simplify_eq.
Qed.

Lemma decode_skip_valid n bs :
  Forall (fun b => 0 <= b < 256) bs ->
  Forall (fun r => valid_rune r = true) (map fst (decode_skip n bs)).
Proof.
  intros H. revert n. induction H as [|b bs Hb _ IH]; intros n; [constructor|].
  destruct n as [|n]; cbn [decode_skip]; [|apply IH].
  pose proof (DecodeRune_valid b bs ltac:(lia)) as Hv.
  destruct (DecodeRune (b :: bs)) as [r w]. constructor; [exact Hv|apply IH].
Qed.

Lemma bytes_range s : Forall (fun b => 0 <= b < 256) (bytes s).
Proof. apply Forall_map, Forall_true, byte_of_range. Qed.

Lemma runes_valid s : Forall (fun r => valid_rune r = true) (runes s).
Proof. apply decode_skip_valid, bytes_range. Qed.

Lemma decode_skip_length n bs : (List.length (decode_skip n bs) <= List.length bs)%nat.
Proof.
  revert n. induction bs as [|b bs IH]; intros n; [done|].
  destruct n as [|n]; cbn [decode_skip List.length].
  - destruct (DecodeRune (b :: bs)) as [r w]. cbn [List.length]. specialize (IH (pred w)). lia.
  - specialize (IH n). lia.
Qed.

Lemma length_list_ascii s : List.length (String.list_ascii_of_string s) = String.length s.
Proof. induction s; simpl; congruence. Qed.

Lemma of_runes_runes s : ValidString s = true -> of_runes (runes s) = s.
Proof.
  unfold ValidString, of_runes, runes, decode_bytes. intros H. rewrite map_map.
  rewrite decode_skip_encode by (done || apply bytes_range). cbn [skipn]. apply of_bytes_bytes.
Qed.

(** A string has at most as many characters as bytes, and at least one when it
    is not empty. *)
Lemma RuneCount_le s : RuneCount s <= len s.
Proof.
  unfold RuneCount, len, runes, decode_bytes. rewrite length_map.
  pose proof (decode_skip_length 0 (bytes s)) as H.
  unfold bytes in H at 2. rewrite length_map, length_list_ascii in H. lia.
Qed.

Lemma RuneCount_pos s : s <> "" -> 1 <= RuneCount s.
Proof.
  destruct s as [|a s]; [done|]. intros _. unfold RuneCount, runes, decode_bytes, bytes.
  cbn [String.list_ascii_of_string map decode_skip]. destruct (DecodeRune _). simpl. lia.
Qed.

Lemma to_valid_valid b ds :
  Forall (fun r => valid_rune r = true) (map fst ds) ->
  Forall (fun r => valid_rune r = true) (to_valid b ds).
Proof.
  revert b. induction ds as [|[r v] ds IH]; intros b H; simpl; [constructor|].
  inversion_clear H. destruct v; [constructor; auto|].
  destruct b; [auto|]. constructor; auto.
Qed.

Lemma ToValidUTF8_valid s : ValidString (ToValidUTF8 s) = true.
Proof. apply ValidString_of_runes, to_valid_valid, runes_valid. Qed.

Lemma valid_prefix_valid n s : ValidString (valid_prefix n s) = true.
Proof. induction n; simpl; case_match; done. Qed.

Lemma substring_length n s : (String.length (String.substring 0 n s) <= n)%nat.
Proof.
  revert s. induction n as [|n IH]; intros [|a s]; simpl; [lia..|].
  specialize (IH s). lia.
Qed.

Lemma valid_prefix_length n s : (String.length (valid_prefix n s) <= n)%nat.
Proof.
  induction n as [|n IH]; cbn [valid_prefix]; case_match; simpl;
    [apply substring_length|simpl; lia|apply substring_length|lia].
Qed.

(** ** Sorting *)
Lemma insert_sorted_perm {A} (leb : A -> A -> bool) x l :
  Permutation (insert_sorted leb x l) (x :: l).
Proof.
  induction l as [|y l IH]; simpl; [done|]. case_match; [done|].
  rewrite IH. constructor.
Qed.

Lemma isort_perm {A} (leb : A -> A -> bool) l : Permutation (isort leb l) l.
Proof.
  induction l as [|x l IH]; simpl; [done|]. by rewrite insert_sorted_perm, IH.
Qed.
Lemma elem_of_sorted s l : s ∈ sort_Strings l <-> s ∈ l.
Proof. unfold sort_Strings. by rewrite isort_perm. Qed.

Lemma insert_sorted_sorted {A} (leb : A -> A -> bool) x l :
  (forall a b, leb a b = true \/ leb b a = true) ->
  Sorted (fun a b => leb a b = true) l ->
  Sorted (fun a b => leb a b = true) (insert_sorted leb x l).
Proof.
  intros Htot. induction 1 as [|y l Hs IH Hh]; simpl; [repeat constructor|].
  destruct (leb x y) eqn:E; [repeat constructor; done|].
  assert (Hyx : leb y x = true) by (destruct (Htot x y); congruence).
  constructor; [done|].
  destruct l as [|z l]; simpl in *; [by constructor|].
  inversion_clear Hh. case_match; by constructor.
Qed.

Lemma isort_sorted {A} (leb : A -> A -> bool) l :
  (forall a b, leb a b = true \/ leb b a = true) ->
  Sorted (fun a b => leb a b = true) (isort leb l).
Proof.
  intros Htot. induction l; simpl; [constructor|]. by apply insert_sorted_sorted.
Qed.

Lemma isort_StronglySorted {A} (leb : A -> A -> bool) l :
  (forall a b, leb a b = true \/ leb b a = true) ->
  (forall a b c, leb a b = true -> leb b c = true -> leb a c = true) ->
  StronglySorted (fun a b => leb a b = true) (isort leb l).
Proof.
  intros Htot Htrans. apply Sorted_StronglySorted; [|by apply isort_sorted].
  intros a b c. apply Htrans.
Qed.

Lemma str_leb_total a b : str_leb a b = true \/ str_leb b a = true.
Proof. unfold str_leb. rewrite String.compare_antisym. destruct (String.compare b a); auto. Qed.

(** A list already in order is left as it is. *)
Lemma isort_id {A} (leb : A -> A -> bool) l : StronglySorted (fun a b => leb a b = true) l -> isort leb l = l.
Proof.
  induction 1 as [|x l _ IH Hx]; [done|]. cbn. change (fold_right (insert_sorted leb) [] l) with (isort leb l).
  rewrite IH. destruct Hx as [|y l Hy _]; [done|]. cbn. by rewrite Hy.
Qed.
