(* ===== verification/GoEncoding.v ===== *)
(** * Encodings of the Go standard library

    What the program uses of [encoding/hex], [encoding/base64],
    [crypto/sha256], [strconv] and [time]: each is a function on bytes, with
    the facts the components rely on (lengths, ranges and that distinct inputs
    have distinct encodings). *)
From S2P Require Import Prelude GoStrings.
Local Open Scope Z_scope.

Definition is_byte (b : Z) : Prop := 0 <= b < 256.

(** ** [hex.DecodeString] *)
Definition unhex (b : Z) : option Z :=
  if in_range 48 b 57 then Some (b - 48)
  else if in_range 97 b 102 then Some (b - 87)
  else if in_range 65 b 70 then Some (b - 55) else None.

Fixpoint hex_decode (bs : list Z) : option (list Z) :=
  match bs with
  | [] => Some []
  | [_] => None
  | a :: b :: rest =>
    match unhex a, unhex b, hex_decode rest with
    | Some x, Some y, Some l => Some (16 * x + y :: l)
    | _, _, _ => None
    end
  end.
Definition hex_DecodeString (s : string) : option (list Z) := hex_decode (bytes s).

(** ** [base64.StdEncoding] *)
Definition base64_char (v : Z) : Z :=
  if v <? 26 then 65 + v else if v <? 52 then 71 + v else if v <? 62 then v - 4
  else if v =? 62 then 43 else 47.
Fixpoint base64_encode (bs : list Z) : list Z :=
  match bs with
  | [] => []
  | [a] => [base64_char (a / 4); base64_char (a mod 4 * 16); 61; 61]
  | [a; b] => [base64_char (a / 4); base64_char (a mod 4 * 16 + b / 16); base64_char (b mod 16 * 4); 61]
  | a :: b :: c :: rest =>
    base64_char (a / 4) :: base64_char (a mod 4 * 16 + b / 16) ::
    base64_char (b mod 16 * 4 + c / 64) :: base64_char (c mod 64) :: base64_encode rest
  end.

(** ** [sha256.Sum256] *)
Module Sha256.
Definition word (z : Z) : Z := Z.land z 4294967295.
Definition rotr (x n : Z) : Z := Z.lor (Z.shiftr x n) (word (Z.shiftl x (32 - n))).
Definition Ch (x y z : Z) : Z := Z.lxor (Z.land x y) (Z.land (Z.lxor x 4294967295) z).
Definition Maj (x y z : Z) : Z := Z.lxor (Z.lxor (Z.land x y) (Z.land x z)) (Z.land y z).
Definition Sigma0 (x : Z) : Z := Z.lxor (Z.lxor (rotr x 2) (rotr x 13)) (rotr x 22).
Definition Sigma1 (x : Z) : Z := Z.lxor (Z.lxor (rotr x 6) (rotr x 11)) (rotr x 25).
Definition sigma0 (x : Z) : Z := Z.lxor (Z.lxor (rotr x 7) (rotr x 18)) (Z.shiftr x 3).
Definition sigma1 (x : Z) : Z := Z.lxor (Z.lxor (rotr x 17) (rotr x 19)) (Z.shiftr x 10).

Definition K : list Z := [
  1116352408; 1899447441; 3049323471; 3921009573; 961987163; 1508970993; 2453635748; 2870763221;
  3624381080; 310598401; 607225278; 1426881987; 1925078388; 2162078206; 2614888103; 3248222580;
  3835390401; 4022224774; 264347078; 604807628; 770255983; 1249150122; 1555081692; 1996064986;
  2554220882; 2821834349; 2952996808; 3210313671; 3336571891; 3584528711; 113926993; 338241895;
  666307205; 773529912; 1294757372; 1396182291; 1695183700; 1986661051; 2177026350; 2456956037;
  2730485921; 2820302411; 3259730800; 3345764771; 3516065817; 3600352804; 4094571909; 275423344;
  430227734; 506948616; 659060556; 883997877; 958139571; 1322822218; 1537002063; 1747873779;
  1955562222; 2024104815; 2227730452; 2361852424; 2428436474; 2756734187; 3204031479; 3329325298].

Record state := mk { ha : Z; hb : Z; hc : Z; hd : Z; he : Z; hf : Z; hg : Z; hh : Z }.
Definition initial : state :=
  mk 1779033703 3144134277 1013904242 2773480762 1359893119 2600822924 528734635 1541459225.

Definition round (s : state) (kw : Z * Z) : state :=
  let '(mk a b c d e f g h) := s in
  let t1 := h + Sigma1 e + Ch e f g + fst kw + snd kw in
  let t2 := Sigma0 a + Maj a b c in
  mk (word (t1 + t2)) a b c (word (d + t1)) e f g.

(** The message schedule, most recent word first. *)
Fixpoint extend (n : nat) (ws : list Z) : list Z :=
  match n with
  | O => ws
  | S n => extend n (word (sigma1 (nth 1 ws 0) + nth 6 ws 0 + sigma0 (nth 14 ws 0) + nth 15 ws 0) :: ws)
  end.

Fixpoint words (bs : list Z) : list Z :=
  match bs with
  | a :: b :: c :: d :: rest => (((a * 256 + b) * 256 + c) * 256 + d) :: words rest
  | _ => []
  end.

Definition compress (s : state) (block : list Z) : state :=
  let ws := rev (extend 48 (rev (words block))) in
  let r := fold_left round (combine K ws) s in
  mk (word (ha s + ha r)) (word (hb s + hb r)) (word (hc s + hc r)) (word (hd s + hd r))
     (word (he s + he r)) (word (hf s + hf r)) (word (hg s + hg r)) (word (hh s + hh r)).

Definition be_bytes (n : nat) (z : Z) : list Z :=
  map (fun i => Z.land (Z.shiftr z (8 * Z.of_nat i)) 255) (rev (seq 0 n)).
Definition pad (bs : list Z) : list Z :=
  let l := Z.of_nat (List.length bs) in
  bs ++ 128 :: repeat 0 (Z.to_nat ((55 - l) mod 64)) ++ be_bytes 8 (8 * l).

Fixpoint blocks (n : nat) (bs : list Z) (s : state) : state :=
  match n with
  | O => s
  | S n => blocks n (skipn 64 bs) (compress s (firstn 64 bs))
  end.

Definition Sum256 (bs : list Z) : list Z :=
  let padded := pad bs in
  let '(mk a b c d e f g h) := blocks (Nat.div (List.length padded) 64) padded initial in
  concat (map (be_bytes 4) [a; b; c; d; e; f; g; h]).
End Sha256.
Definition Sum256 := Sha256.Sum256.
Definition sha256_hex (s : string) : string := hex_EncodeToString (Sum256 (bytes s)).

Example sha256_abc :
  sha256_hex "abc" = "ba7816bf8f01cfea414140de5dae2223b00361a396177a9cb410ff61f20015ad".
Proof. by vm_compute. Qed.
Example sha256_empty :
  sha256_hex "" = "e3b0c44298fc1c149afbf4c8996fb92427ae41e4649b934ca495991b7852b855".
Proof. by vm_compute. Qed.

(** ** [time.RFC3339Nano]

    Days are counted from 0001-01-01; the calendar is the proleptic Gregorian
    one, computed in 400-year eras of years that start on 1 March. *)
Definition year_of_era (doe : Z) : Z := (doe - doe / 1460 + doe / 36524 - doe / 146096) / 365.
Definition day_of_year (doe : Z) : Z :=
  let yoe := year_of_era doe in doe - (365 * yoe + yoe / 4 - yoe / 100).
Definition month_index (doy : Z) : Z := (5 * doy + 2) / 153.

Definition Date (days : Z) : Z * Z * Z :=
  let z := days + 306 in
  let doe := z mod 146097 in
  let doy := day_of_year doe in
  let mp := month_index doy in
  let m := if mp <? 10 then mp + 3 else mp - 9 in
  (year_of_era doe + z / 146097 * 400 + (if m <=? 2 then 1 else 0), m, doy - (153 * mp + 2) / 5 + 1).

Definition digits2 (n : Z) : list Z := [48 + n / 10; 48 + n mod 10].
Definition digits4 (n : Z) : list Z := digits2 (n / 100) ++ digits2 (n mod 100).
Fixpoint digits (k : nat) (n : Z) : list Z :=
  match k with O => [] | S k => digits k (n / 10) ++ [48 + n mod 10] end.
Fixpoint trim_zeros (ds : list Z) : list Z :=
  match ds with
  | [] => []
  | d :: rest => match trim_zeros rest with [] => if d =? 48 then [] else [d] | t => d :: t end
  end.

Definition fraction (ns : Z) : list Z := if ns =? 0 then [] else 46 :: trim_zeros (digits 9 ns).

Definition day_ns : Z := 86400 * Second.
Definition year (t : Z) : Z := (Date (t / day_ns)).1.1.
Definition RFC3339Nano (t : Z) : list Z :=
  let '(y, m, d) := Date (t / day_ns) in
  let s := t mod day_ns / Second in
  digits4 y ++ [45] ++ digits2 m ++ [45] ++ digits2 d ++ [84] ++
  digits2 (s / 3600) ++ [58] ++ digits2 (s / 60 mod 60) ++ [58] ++ digits2 (s mod 60) ++
  fraction (t mod Second) ++ [90].

Example RFC3339Nano_example :
  of_bytes (RFC3339Nano (63870000000 * Second + 120000000)) = "2024-12-17T02:40:00.12Z" /\
  of_bytes (RFC3339Nano 0) = "0001-01-01T00:00:00Z".
Proof. by vm_compute. Qed.

(** ** Digests *)
Lemma be_bytes_length n z : List.length (Sha256.be_bytes n z) = n.
Proof. unfold Sha256.be_bytes. by rewrite length_map, length_rev, length_seq. Qed.

Lemma land_byte z : is_byte (Z.land z 255).
Proof.
  unfold is_byte. change 255 with (Z.ones 8). rewrite Z.land_ones by lia.
  pose proof (Z.mod_pos_bound z (2 ^ 8) ltac:(lia)). lia.
Qed.

Lemma Sum256_length bs : List.length (Sum256 bs) = 32%nat.
Proof.
  unfold Sum256, Sha256.Sum256. destruct (Sha256.blocks _ _ _).
  unfold map, concat. by rewrite !length_app, !be_bytes_length.
Qed.

Lemma Sum256_bytes bs : Forall is_byte (Sum256 bs).
Proof.
  unfold Sum256, Sha256.Sum256. destruct (Sha256.blocks _ _ _).
  apply Forall_concat, Forall_map, Forall_true. intros w.
  apply Forall_map, Forall_true. intros i. apply land_byte.
Qed.

Lemma hexdigit_unhex d : 0 <= d < 16 -> unhex (byte_of (hexdigit d)) = Some d.
Proof.
  intros H. unfold hexdigit. rewrite byte_of_of_byte by (case_match; lia).
  unfold unhex, in_range. case_match; reflect_bools; repeat case_match; reflect_bools; f_equal; lia.
Qed.

Lemma bytes_app a b : bytes (a +:+ b) = bytes a ++ bytes b.
Proof.
  unfold bytes. induction a as [|c a IH]; [done|].
  change (String c a +:+ b) with (String c (a +:+ b)). simpl. by f_equal.
Qed.

Lemma len_app a b : len (a +:+ b) = len a + len b.
Proof.
  unfold len. induction a as [|c a IH]; [done|].
  change (String c a +:+ b) with (String c (a +:+ b)). cbn [String.length]. lia.
Qed.

Lemma hex_EncodeToString_len bs : len (hex_EncodeToString bs) = 2 * Z.of_nat (List.length bs).
Proof.
  unfold hex_EncodeToString. induction bs as [|b bs IH]; [done|]. cbn [fold_right List.length].
  rewrite len_app, IH. change (len (hex_byte b)) with 2. lia.
Qed.

(** [hex.DecodeString] inverts [hex.EncodeToString]. *)
Lemma hex_roundtrip bs :
  Forall is_byte bs -> hex_DecodeString (hex_EncodeToString bs) = Some bs.
Proof.
  unfold hex_DecodeString, hex_EncodeToString. induction 1 as [|b bs Hb _ IH]; [done|].
  cbn [fold_right]. rewrite bytes_app. cbn [bytes hex_byte].
  change (bytes (hex_byte b)) with [byte_of (hexdigit (b / 16)); byte_of (hexdigit (b mod 16))].
  unfold is_byte in Hb. cbn [app hex_decode].
  rewrite (hexdigit_unhex (b / 16)), (hexdigit_unhex (b mod 16)), IH by
    (Z.to_euclidean_division_equations; lia).
  do 2 f_equal. symmetry. by apply Z.div_mod.
Qed.

Lemma sha256_hex_len s : len (sha256_hex s) = 64.
Proof. unfold sha256_hex. by rewrite hex_EncodeToString_len, Sum256_length. Qed.

Lemma sha256_hex_decodes s : exists bs, hex_DecodeString (sha256_hex s) = Some bs.
Proof. eexists. apply hex_roundtrip, Sum256_bytes. Qed.

(** ** Decimal numbers *)
Fixpoint atoi_digits (bs : list Z) (acc : Z) : Z :=
  match bs with
  | [] => acc
  | b :: rest => atoi_digits rest (10 * acc + (b - 48))
  end.

Lemma bytes_digit_cons d s : 0 <= d < 10 -> bytes (String (digit d) s) = 48 + d :: bytes s.
Proof.
  intros H. unfold bytes, digit. cbn [String.list_ascii_of_string map]. by rewrite byte_of_of_byte by lia.
Qed.

Lemma itoa_fuel_value f n s :
  0 <= n < 10 ^ Z.of_nat (S f) ->
  atoi_digits (bytes (itoa_fuel (S f) n s)) 0 = atoi_digits (bytes s) n.
Proof.
  revert n s. induction f as [|f IH]; intros n s Hn;
    pose proof (Z.mod_pos_bound n 10 ltac:(lia)); pose proof (Z.div_mod n 10 ltac:(lia));
    cbn [itoa_fuel] in *; cbv zeta; destruct (Z.eqb_spec (n / 10) 0) as [E|E].
  - rewrite bytes_digit_cons by done. cbn [atoi_digits]. f_equal. lia.
  - change (10 ^ Z.of_nat 1) with 10 in Hn. lia.
  - rewrite bytes_digit_cons by done. cbn [atoi_digits]. f_equal. lia.
  - rewrite IH, bytes_digit_cons by
      (done || (rewrite Nat2Z.inj_succ, Z.pow_succ_r in Hn by lia; split; [lia|];
       apply Z.div_lt_upper_bound; lia)).
    cbn [atoi_digits]. f_equal. lia.
Qed.

(** The shape of a decimal number: digits without a leading zero. *)
Definition is_digit (b : Z) : bool := in_range 48 b 57.

Lemma itoa_fuel_shape f n s :
  0 <= n < 10 ^ Z.of_nat (S f) ->
  exists d ds, bytes (itoa_fuel (S f) n s) = d :: ds ++ bytes s /\
    forallb is_digit (d :: ds) = true /\ (d = 48 -> ds = [] /\ n = 0).
Proof.
  revert n s. induction f as [|f IH]; intros n s Hn;
    pose proof (Z.mod_pos_bound n 10 ltac:(lia)); pose proof (Z.div_mod n 10 ltac:(lia));
    cbn [itoa_fuel] in *; cbv zeta; destruct (Z.eqb_spec (n / 10) 0) as [E|E].
  2: { change (10 ^ Z.of_nat 1) with 10 in Hn. lia. }
  1,2: exists (48 + n mod 10), []; rewrite bytes_digit_cons by done; split; [done|];
    split; [unfold is_digit, in_range; cbn [forallb]; reflect_bools; lia|split; [done|lia]].
  destruct (IH (n / 10) (String (digit (n mod 10)) s)) as (d & ds & Hb & Hd & Hz).
  { rewrite Nat2Z.inj_succ, Z.pow_succ_r in Hn by lia. split; [lia|]. apply Z.div_lt_upper_bound; lia. }
  exists d, (ds ++ [48 + n mod 10]). rewrite Hb, bytes_digit_cons by done. split; [by rewrite <- app_assoc|].
  cbn [forallb] in *. rewrite forallb_app. apply andb_true_iff in Hd as [Hd Hds]. rewrite Hd, Hds.
  split; [unfold is_digit, in_range; cbn [forallb andb]; reflect_bools; lia|].
  intros [-> Hq]%Hz. done.
Qed.

Definition int64_range (z : Z) : Prop := - 2 ^ 63 <= z <= max_int64.

Lemma itoa_injective a b : int64_range a -> int64_range b -> itoa a = itoa b -> a = b.
Proof.
  unfold int64_range, max_int64, itoa. intros Ha Hb.
  assert (Hneg : forall n s, 0 <= n < 10 ^ Z.of_nat 20 -> String "-" s <> itoa_fuel 20 n "").
  { intros n s Hn E. destruct (itoa_fuel_shape 19 n "" Hn) as (d & ds & Hs & Hd & _). rewrite <- E in Hs.
    injection Hs as <- _. apply andb_true_iff in Hd as [Hd _]. by vm_compute in Hd. }
  assert (Hval : forall n, 0 <= n <= 2 ^ 63 -> atoi_digits (bytes (itoa_fuel 20 n "")) 0 = n).
  { intros n Hn. rewrite itoa_fuel_value; [done|]. change (10 ^ Z.of_nat 20) with (10 ^ 20). lia. }
  change (10 ^ Z.of_nat 20) with (10 ^ 20) in Hneg.
  generalize dependent (itoa_fuel 20). intros atoa Hneg Hval.
  case_match eqn:Ea; case_match eqn:Eb; reflect_bools; intros E.
  - injection E as E%(f_equal (fun s => atoi_digits (bytes s) 0)). rewrite !Hval in E by lia. lia.
  - exfalso. apply (Hneg b _ ltac:(lia) E).
  - exfalso. symmetry in E. apply (Hneg a _ ltac:(lia) E).
  - apply (f_equal (fun s => atoi_digits (bytes s) 0)) in E. by rewrite !Hval in E by lia.
Qed.

(** ** The calendar *)
Lemma year_of_era_range doe : 0 <= doe < 146097 -> 0 <= year_of_era doe < 400.
Proof. unfold year_of_era. intros H. Z.to_euclidean_division_equations. lia. Qed.

Lemma day_of_year_range doe : 0 <= doe < 146097 -> 0 <= day_of_year doe < 366.
Proof. unfold day_of_year, year_of_era. intros H. Z.to_euclidean_division_equations. lia. Qed.

Lemma month_index_range doy : 0 <= doy < 366 -> 0 <= month_index doy < 12.
Proof. unfold month_index. intros H. Z.to_euclidean_division_equations. lia. Qed.

Lemma Date_range days :
  let '(_, m, d) := Date days in 1 <= m <= 12 /\ 1 <= d <= 31.
Proof.
  unfold Date. pose proof (Z.mod_pos_bound (days + 306) 146097 ltac:(lia)) as Hdoe.
  set (doe := (days + 306) mod 146097) in *. pose proof (day_of_year_range doe Hdoe) as Hdoy.
  set (doy := day_of_year doe) in *. pose proof (month_index_range doy Hdoy) as Hmp.
  split; [case_match; reflect_bools; lia|].
  unfold month_index in *. Z.to_euclidean_division_equations. lia.
Qed.

(** The inverse of [Date]. *)
Definition days_of_date (date : Z * Z * Z) : Z :=
  let '(y, m, d) := date in
  let y := if m <=? 2 then y - 1 else y in
  let mp := if m <=? 2 then m + 9 else m - 3 in
  let yoe := y mod 400 in
  y / 400 * 146097 + (365 * yoe + yoe / 4 - yoe / 100 + ((153 * mp + 2) / 5 + d - 1)) - 306.

Lemma days_of_date_Date days : days_of_date (Date days) = days.
Proof.
  unfold days_of_date, Date. pose proof (Z.mod_pos_bound (days + 306) 146097 ltac:(lia)) as Hdoe.
  pose proof (Z.div_mod (days + 306) 146097 ltac:(lia)) as Hz.
  set (doe := (days + 306) mod 146097) in *. set (era := (days + 306) / 146097) in *.
  pose proof (year_of_era_range doe Hdoe) as Hyoe.
  pose proof (month_index_range _ (day_of_year_range doe Hdoe)) as Hmp.
  set (mp := month_index (day_of_year doe)) in *.
  assert (Hy : forall y, y = year_of_era doe + era * 400 ->
    y mod 400 = year_of_era doe /\ y / 400 = era).
  { intros y ->. split; [rewrite Z_mod_plus_full; by apply Z.mod_small|].
    rewrite Z_div_plus_full, Z.div_small by lia. lia. }
  assert (Hm : ((if mp <? 10 then mp + 3 else mp - 9) <=? 2) = negb (mp <? 10)).
  { destruct (Z.ltb_spec mp 10); simpl; [apply Z.leb_gt|apply Z.leb_le]; lia. }
  rewrite Hm. destruct (Z.ltb_spec mp 10); cbn [negb].
  - destruct (Hy (year_of_era doe + era * 400 + 0)) as [-> ->]; [lia|].
    replace (mp + 3 - 3) with mp by lia. unfold day_of_year in *. lia.
  - destruct (Hy (year_of_era doe + era * 400 + 1 - 1)) as [-> ->]; [lia|].
    replace (mp - 9 + 9) with mp by lia. unfold day_of_year in *. lia.
Qed.

(** ** Distinct instants have distinct texts *)
Lemma digits2_inj a b : digits2 a = digits2 b -> a = b.
Proof. intros [=]. rewrite (Z.div_mod a 10), (Z.div_mod b 10) by lia. lia. Qed.

Lemma digits4_inj a b : digits4 a = digits4 b -> a = b.
Proof.
  unfold digits4. intros [H1 H2]%app_inj_1; [|done]. apply digits2_inj in H1, H2.
  rewrite (Z.div_mod a 100), (Z.div_mod b 100) by lia. lia.
Qed.

Lemma trim_zeros_inj l1 l2 :
  List.length l1 = List.length l2 -> trim_zeros l1 = trim_zeros l2 -> l1 = l2.
Proof.
  revert l2. induction l1 as [|a l1 IH]; intros [|b l2] Hl; try done. injection Hl as Hl. simpl.
  specialize (IH l2 Hl).
  destruct (trim_zeros l1), (trim_zeros l2); repeat case_match; intros E; simplify_eq; reflect_bools;
    subst; f_equal; by apply IH.
Qed.

Lemma digits_length k n : List.length (digits k n) = k.
Proof. revert n. induction k as [|k IH]; intros n; simpl; [done|]. rewrite length_app, IH. simpl. lia. Qed.

Lemma digits_inj k a b :
  0 <= a < 10 ^ Z.of_nat k -> 0 <= b < 10 ^ Z.of_nat k -> digits k a = digits k b -> a = b.
Proof.
  revert a b. induction k as [|k IH]; intros a b Ha Hb; [simpl in *; lia|].
  rewrite Nat2Z.inj_succ, Z.pow_succ_r in Ha, Hb by lia. simpl.
  intros [H1%IH [= H2]]%app_inj_2; [|split; [apply Z.div_pos|apply Z.div_lt_upper_bound]; lia..|done].
  rewrite (Z.div_mod a 10), (Z.div_mod b 10) by lia. lia.
Qed.

Lemma fraction_inj a b :
  0 <= a < 10 ^ 9 -> 0 <= b < 10 ^ 9 -> trim_zeros (digits 9 a) = trim_zeros (digits 9 b) -> a = b.
Proof.
  intros Ha Hb H. apply (digits_inj 9); [done..|].
  apply trim_zeros_inj; [by rewrite !digits_length|done].
Qed.

Lemma fraction_text_inj a b :
  0 <= a < 10 ^ 9 -> 0 <= b < 10 ^ 9 -> fraction a = fraction b -> a = b.
Proof.
  unfold fraction. intros Ha Hb. repeat case_match; reflect_bools; intros E; simplify_eq; [lia|].
  by apply fraction_inj.
Qed.

Lemma clock_inj a b :
  a / 3600 = b / 3600 -> a / 60 mod 60 = b / 60 mod 60 -> a mod 60 = b mod 60 -> a = b.
Proof. intros. Z.to_euclidean_division_equations. lia. Qed.

Lemma instant_split t :
  t = t / day_ns * day_ns + t mod day_ns / Second * Second + t mod Second.
Proof.
  rewrite (Z.div_mod t day_ns) at 1 by done. rewrite (Z.div_mod (t mod day_ns) Second) at 1 by done.
  replace (t mod Second) with ((t mod day_ns) mod Second); [lia|].
  apply Z.mod_mod_divide. by exists 86400.
Qed.

Lemma RFC3339Nano_inj a b : RFC3339Nano a = RFC3339Nano b -> a = b.
Proof.
  unfold RFC3339Nano. intros H.
  pose proof (days_of_date_Date (a / day_ns)) as Ha. pose proof (days_of_date_Date (b / day_ns)) as Hb.
  destruct (Date (a / day_ns)) as [[ya ma] da], (Date (b / day_ns)) as [[yb mb] db].
  assert (Hns : forall t, 0 <= t mod Second < 10 ^ 9) by (intros; by apply Z.mod_pos_bound).
  apply app_inj_1 in H as [?%digits4_inj H]; [|done].
  do 5 (apply app_inj_1 in H as [_ H]; [|done]; apply app_inj_1 in H as [?%digits2_inj H]; [|done]).
  apply app_inj_2 in H as [Hf%fraction_text_inj _]; [|done..]. subst.
  rewrite (instant_split a), (instant_split b), <- Ha, <- Hb, Hf.
  by rewrite (clock_inj (a mod day_ns / Second) (b mod day_ns / Second)).
Qed.
