(* ===== verification/GoDecoding.v ===== *)
(** * Reading instants and bytes back

    [time.Time.UnmarshalJSON] on RFC 3339 text and [base64.StdEncoding], the
    inverses of the encoders of [GoEncoding]. *)
From S2P Require Import Prelude GoStrings GoEncoding.
Local Open Scope Z_scope.

(** ** Instants *)
Definition leap (y : Z) : bool := (y mod 4 =? 0) && (negb (y mod 100 =? 0) || (y mod 400 =? 0)).
Definition daysIn (m y : Z) : Z :=
  if m =? 2 then if leap y then 29 else 28
  else if existsb (Z.eqb m) [4; 6; 9; 11] then 30 else 31.

Definition parse_uint (lo hi : Z) (ds : list Z) : option Z :=
  if forallb is_digit ds then let x := atoi_digits ds 0 in if in_range lo x hi then Some x else None else None.

Fixpoint take_digits (bs : list Z) : list Z * list Z :=
  match bs with
  | b :: rest => if is_digit b then let '(ds, rest) := take_digits rest in (b :: ds, rest) else ([], bs)
  | [] => ([], [])
  end.
(** The nanoseconds of a fraction: digits beyond the ninth are dropped. *)
Definition nanoseconds (ds : list Z) : Z :=
  let ds := firstn 9 ds in atoi_digits ds 0 * 10 ^ (9 - Z.of_nat (List.length ds)).
Definition split_fraction (bs : list Z) : Z * list Z :=
  match bs with
  | 46 :: rest => let '(ds, rest') := take_digits rest in if ds ==? [] then (0, bs) else (nanoseconds ds, rest')
  | _ => (0, bs)
  end.
Definition zone_offset (bs : list Z) : option Z :=
  match bs with
  | [90] => Some 0
  | [sign; h1; h2; 58; m1; m2] =>
    match parse_uint 0 23 [h1; h2], parse_uint 0 59 [m1; m2] with
    | Some h, Some m =>
      if sign =? 43 then Some ((h * 60 + m) * 60) else if sign =? 45 then Some (- ((h * 60 + m) * 60)) else None
    | _, _ => None
    end
  | _ => None
  end.
Definition parse_RFC3339 (bs : list Z) : option Z :=
  match bs with
  | y1 :: y2 :: y3 :: y4 :: 45 :: m1 :: m2 :: 45 :: d1 :: d2 :: 84 :: h1 :: h2 :: 58 :: i1 :: i2 :: 58 :: s1 :: s2 :: rest =>
    match parse_uint 0 9999 [y1; y2; y3; y4], parse_uint 1 12 [m1; m2] with
    | Some y, Some m =>
      match parse_uint 1 (daysIn m y) [d1; d2], parse_uint 0 23 [h1; h2], parse_uint 0 59 [i1; i2], parse_uint 0 59 [s1; s2] with
      | Some d, Some h, Some i, Some s =>
        let '(ns, rest) := split_fraction rest in
        match zone_offset rest with
        | Some offset => Some ((days_of_date (y, m, d) * 86400 + h * 3600 + i * 60 + s - offset) * Second + ns)
        | None => None
        end
      | _, _, _, _ => None
      end
    | _, _ => None
    end
  | _ => None
  end.

Example parse_RFC3339_examples :
  parse_RFC3339 (bytes "2024-12-17T02:40:00.12Z") = Some (63870000000 * Second + 120000000) /\
  parse_RFC3339 (bytes "2024-12-17T04:40:00.1200000009+02:00") = Some (63870000000 * Second + 120000000) /\
  parse_RFC3339 (bytes "2023-02-29T00:00:00Z") = None.
Proof. vm_compute. done. Qed.

(** The day of a date is one of its month's. *)
Lemma day_of_year_leap doe : 0 <= doe < 146097 -> day_of_year doe = 365 -> leap (year_of_era doe + 1) = true.
Proof.
  intros Hd Hy. pose proof (year_of_era_range doe Hd) as Hr. unfold day_of_year in Hy.
  assert (Hdoe : doe = 365 * year_of_era doe + year_of_era doe / 4 - year_of_era doe / 100 + 365) by lia.
  assert (Hyoe : (doe - doe / 1460 + doe / 36524 - doe / 146096) / 365 = year_of_era doe) by done.
  set (y := year_of_era doe) in *. clearbody y. unfold leap.
  assert ((y + 1) mod 4 = 0 /\ ((y + 1) mod 100 <> 0 \/ (y + 1) mod 400 = 0)) as [-> H4].
  { split; Z.to_euclidean_division_equations; lia. }
  rewrite Z.eqb_refl. cbn [andb]. apply orb_true_iff. rewrite negb_true_iff, Z.eqb_neq, Z.eqb_eq. done.
Qed.

Lemma leap_period y era : leap (y + era * 400) = leap y.
Proof.
  unfold leap. replace (era * 400) with (era * 100 * 4) at 1 by lia. replace (era * 400) with (era * 4 * 100) at 1 by lia.
  by rewrite !Z_mod_plus_full.
Qed.

(** Days in the [mp]th month of a year that starts in March. *)
Lemma month_days doy (mp := month_index doy) :
  0 <= doy < 366 -> doy - (153 * mp + 2) / 5 + 1 <=
    (if mp =? 11 then if doy =? 365 then 29 else 28 else if existsb (Z.eqb mp) [1; 3; 6; 8] then 30 else 31).
Proof.
  intros Hd. pose proof (month_index_range doy Hd) as Hm. fold mp in Hm.
  assert (Hmp : 153 * mp <= 5 * doy + 2 < 153 * (mp + 1)).
  { subst mp. unfold month_index. Z.to_euclidean_division_equations; lia. }
  clearbody mp. assert (mp = 0 \/ mp = 1 \/ mp = 2 \/ mp = 3 \/ mp = 4 \/ mp = 5 \/ mp = 6 \/ mp = 7 \/ mp = 8 \/
    mp = 9 \/ mp = 10 \/ mp = 11) as Hc by lia.
  repeat (destruct Hc as [-> | Hc]; [vm_compute ((153 * _ + 2) / 5); cbn [existsb Z.eqb Pos.eqb orb]; lia|]).
  subst mp. change ((153 * 11 + 2) / 5) with 337. rewrite Z.eqb_refl. destruct (Z.eqb_spec doy 365); lia.
Qed.

Lemma Date_day days : let '(y, m, d) := Date days in d <= daysIn m y.
Proof.
  unfold Date. pose proof (Z.mod_pos_bound (days + 306) 146097 ltac:(lia)) as Hdoe.
  set (doe := (days + 306) mod 146097) in *. set (era := (days + 306) / 146097) in *.
  pose proof (day_of_year_range doe Hdoe) as Hdoy. pose proof (month_index_range _ Hdoy) as Hmp.
  pose proof (month_days _ Hdoy) as Hd. pose proof (day_of_year_leap doe Hdoe) as Hleap.
  set (doy := day_of_year doe) in *. set (mp := month_index doy) in *. clearbody mp doy.
  etransitivity; [exact Hd|]. clear Hd. unfold daysIn.
  assert (mp = 0 \/ mp = 1 \/ mp = 2 \/ mp = 3 \/ mp = 4 \/ mp = 5 \/ mp = 6 \/ mp = 7 \/ mp = 8 \/
    mp = 9 \/ mp = 10 \/ mp = 11) as Hc by lia.
  repeat (destruct Hc as [-> | Hc]; [by vm_compute|]). subst mp.
  change (11 =? 11) with true. change (11 <? 10) with false. cbv iota. change (11 - 9) with 2. change (2 =? 2) with true. change (2 <=? 2) with true. cbv iota.
  replace (year_of_era doe + era * 400 + 1) with (year_of_era doe + 1 + era * 400) by lia. rewrite leap_period.
  destruct (Z.eqb_spec doy 365) as [E|]; [by rewrite (Hleap E)|]. destruct (leap _); lia.
Qed.

(** ** Digits *)
Lemma parse_uint_digits2 lo hi n :
  0 <= n < 100 -> lo <= n <= hi -> parse_uint lo hi (digits2 n) = Some n.
Proof.
  intros Hn Hr. unfold parse_uint, digits2. cbn [forallb atoi_digits]. unfold is_digit, in_range.
  assert (H1 : 0 <= n / 10 < 10) by (Z.to_euclidean_division_equations; lia).
  pose proof (Z.mod_pos_bound n 10 ltac:(lia)). pose proof (Z.div_mod n 10 ltac:(lia)).
  replace (10 * (10 * 0 + (48 + n / 10 - 48)) + (48 + n mod 10 - 48)) with n by lia.
  repeat match goal with |- context [?a <=? ?b] => rewrite (proj2 (Z.leb_le a b)) by lia end. done.
Qed.
Lemma parse_uint_digits4 n : 0 <= n <= 9999 -> parse_uint 0 9999 (digits4 n) = Some n.
Proof.
  intros Hn. unfold parse_uint, digits4, digits2. cbn [app forallb atoi_digits]. unfold is_digit, in_range.
  set (a := n / 100 / 10). set (b := n / 100 mod 10). set (c := n mod 100 / 10). set (d := (n mod 100) mod 10).
  assert (0 <= a < 10 /\ 0 <= b < 10 /\ 0 <= c < 10 /\ 0 <= d < 10 /\ n = ((a * 10 + b) * 10 + c) * 10 + d) as (? & ? & ? & ? & Hv).
  { subst a b c d. Z.to_euclidean_division_equations; lia. }
  repeat match goal with |- context [?a <=? ?b] => rewrite (proj2 (Z.leb_le a b)) by lia end. cbn [andb]. f_equal. lia.
Qed.

Lemma atoi_app a b acc : atoi_digits (a ++ b) acc = atoi_digits b (atoi_digits a acc).
Proof. revert acc. induction a as [|x a IH]; intros acc; [done|]. cbn [app atoi_digits]. by rewrite IH. Qed.
Lemma atoi_zeros n acc : atoi_digits (List.repeat 48 n) acc = acc * 10 ^ Z.of_nat n.
Proof.
  revert acc. induction n as [|n IH]; intros acc; cbn [List.repeat atoi_digits]; [lia|].
  rewrite IH, Nat2Z.inj_succ, Z.pow_succ_r by lia. lia.
Qed.
Lemma digits_value k n : 0 <= n < 10 ^ Z.of_nat k -> atoi_digits (digits k n) 0 = n.
Proof.
  revert n. induction k as [|k IH]; intros n Hn; [simpl in *; lia|].
  rewrite Nat2Z.inj_succ, Z.pow_succ_r in Hn by lia. cbn [digits]. rewrite atoi_app, IH.
  - cbn [atoi_digits]. pose proof (Z.div_mod n 10 ltac:(lia)). lia.
  - split; [apply Z.div_pos|apply Z.div_lt_upper_bound]; lia.
Qed.
Lemma digits_all k n : forallb is_digit (digits k n) = true.
Proof.
  revert n. induction k as [|k IH]; intros n; [done|]. cbn [digits]. rewrite forallb_app, IH. cbn [forallb andb].
  pose proof (Z.mod_pos_bound n 10 ltac:(lia)). unfold is_digit. rewrite (proj2 (in_range_spec _ _ _)) by lia. done.
Qed.
Lemma trim_zeros_repeat ds : exists n, ds = trim_zeros ds ++ List.repeat 48 n.
Proof.
  induction ds as [|d ds [n IH]]; [by exists 0%nat|]. cbn [trim_zeros]. destruct (trim_zeros ds) as [|t ts] eqn:E.
  - destruct (Z.eqb_spec d 48) as [->|]; [exists (S n)|exists n]; cbn [app List.repeat]; by f_equal.
  - exists n. cbn [app]. by f_equal.
Qed.

Lemma take_digits_app ds rest :
  forallb is_digit ds = true -> match rest with c :: _ => is_digit c = false | [] => True end ->
  take_digits (ds ++ rest) = (ds, rest).
Proof.
  intros Hds Hr. induction ds as [|d ds IH].
  - destruct rest as [|c rest]; [done|]. cbn [app take_digits]. by rewrite Hr.
  - cbn [forallb] in Hds. apply andb_true_iff in Hds as [Hd Hds]. cbn [app take_digits]. by rewrite Hd, IH.
Qed.

Lemma split_fraction_fraction ns :
  0 <= ns < 10 ^ 9 -> split_fraction (fraction ns ++ [90]) = (ns, [90]).
Proof.
  intros Hn. unfold fraction. destruct (Z.eqb_spec ns 0) as [->|H0]; [done|].
  destruct (trim_zeros_repeat (digits 9 ns)) as [n Ht]. set (ds := trim_zeros (digits 9 ns)) in *.
  pose proof (digits_length 9 ns) as Hl. pose proof (digits_all 9 ns) as Ha. pose proof (digits_value 9 ns Hn) as Hv.
  rewrite Ht in Hl, Ha, Hv. rewrite length_app, repeat_length in Hl. rewrite forallb_app in Ha.
  apply andb_true_iff in Ha as [Ha _]. rewrite atoi_app, atoi_zeros in Hv.
  unfold split_fraction. cbn [app]. rewrite take_digits_app by done.
  assert (Hne : ds <> []) by (intros E; rewrite E in Hv; simpl in Hv; lia). rewrite bool_decide_eq_false_2 by done.
  unfold nanoseconds. rewrite firstn_all2 by lia. do 2 f_equal. etransitivity; [|exact Hv]. do 3 f_equal. lia.
Qed.

(** An instant that can be written is read back. *)
Lemma parse_RFC3339_RFC3339Nano t : in_range 0 (year t) 9999 = true -> parse_RFC3339 (RFC3339Nano t) = Some t.
Proof.
  rewrite in_range_spec. unfold year, RFC3339Nano. intros Hy. pose proof (days_of_date_Date (t / day_ns)) as Hd.
  pose proof (Date_range (t / day_ns)) as Hr. pose proof (Date_day (t / day_ns)) as Hday.
  destruct (Date (t / day_ns)) as [[y m] d]. cbn [fst] in Hy. destruct Hr as [Hm Hdd].
  pose proof (instant_split t) as Ht. set (s := t mod day_ns / Second) in *.
  assert (Hs : 0 <= s < 86400).
  { subst s. pose proof (Z.mod_pos_bound t day_ns ltac:(done)). unfold day_ns in *. split; [apply Z.div_pos|apply Z.div_lt_upper_bound]; lia. }
  assert (Hns : 0 <= t mod Second < 10 ^ 9) by (by apply Z.mod_pos_bound).
  assert (Hclock : 0 <= s / 3600 <= 23 /\ 0 <= s / 60 mod 60 <= 59 /\ 0 <= s mod 60 <= 59 /\
    s / 3600 * 3600 + s / 60 mod 60 * 60 + s mod 60 = s) by (Z.to_euclidean_division_equations; lia).
  destruct Hclock as (Hh & Hi & Hsec & Hsum).
  unfold parse_RFC3339. change (digits4 y) with [48 + y / 100 / 10; 48 + y / 100 mod 10; 48 + y mod 100 / 10; 48 + (y mod 100) mod 10].
  unfold digits2. cbn [app].
  pose proof (parse_uint_digits4 y Hy) as Hy4. unfold digits4, digits2 in Hy4. cbn [app] in Hy4. rewrite Hy4.
  fold (digits2 m). rewrite parse_uint_digits2 by lia. fold (digits2 d). rewrite parse_uint_digits2 by lia.
  fold (digits2 (s / 3600)). rewrite parse_uint_digits2 by lia. fold (digits2 (s / 60 mod 60)). rewrite parse_uint_digits2 by lia.
  fold (digits2 (s mod 60)). rewrite parse_uint_digits2 by lia. rewrite split_fraction_fraction by done.
  cbn [zone_offset]. f_equal. rewrite Hd, Z.sub_0_r. unfold day_ns in Ht at 2. clearbody s. lia.
Qed.

(** ** [base64.StdEncoding.DecodeString]

    Line breaks are skipped; the last group of four is padded; the bits that
    padding leaves over are ignored. *)
Definition base64_value (b : Z) : option Z :=
  if in_range 65 b 90 then Some (b - 65) else if in_range 97 b 122 then Some (b - 71)
  else if in_range 48 b 57 then Some (b + 4) else if b =? 43 then Some 62 else if b =? 47 then Some 63 else None.
Fixpoint base64_groups (text : list Z) : option (list Z) :=
  match text with
  | [] => Some []
  | a :: b :: c :: d :: rest =>
    match base64_value a, base64_value b with
    | Some a, Some b =>
      let first := a * 4 + b / 16 in
      if c =? 61 then if (d =? 61) && (rest ==? []) then Some [first] else None
      else match base64_value c with
      | None => None
      | Some c =>
        let second := b mod 16 * 16 + c / 4 in
        if d =? 61 then if rest ==? [] then Some [first; second] else None
        else match base64_value d with
        | Some d => option_map (fun t => first :: second :: c mod 4 * 64 + d :: t) (base64_groups rest)
        | None => None
        end
      end
    | _, _ => None
    end
  | _ => None
  end.
Definition base64_decode (text : list Z) : option (list Z) :=
  base64_groups (List.filter (fun b => negb (b =? 13) && negb (b =? 10)) text).

Lemma base64_value_char v : 0 <= v < 64 -> base64_value (base64_char v) = Some v.
Proof.
  intros Hv. unfold base64_char, base64_value, in_range.
  repeat match goal with |- context [?a <? ?b] => destruct (Z.ltb_spec a b) end;
    repeat match goal with |- context [?a =? ?b] => destruct (Z.eqb_spec a b) end; try lia;
    repeat match goal with |- context [?a <=? ?b] => destruct (Z.leb_spec a b) end; try lia; cbn [andb]; f_equal; lia.
Qed.
(** The digits are none of the padding and the line breaks. *)
Lemma base64_char_plain v : 0 <= v < 64 -> base64_char v <> 61 /\ base64_char v <> 13 /\ base64_char v <> 10.
Proof. intros Hv. unfold base64_char. repeat case_match; reflect_bools; lia. Qed.

Lemma base64_encode_ind (P : list Z -> Prop) :
  P [] -> (forall a, P [a]) -> (forall a b, P [a; b]) -> (forall a b c rest, P rest -> P (a :: b :: c :: rest)) -> forall l, P l.
Proof.
  intros H0 H1 H2 H3 l. cut (P l /\ (forall a, P (a :: l)) /\ (forall a b, P (a :: b :: l))); [tauto|].
  induction l as [|x l (IH1 & IH2 & IH3)]; split_and!; auto.
Qed.

Lemma base64_encode_no_breaks bs :
  Forall is_byte bs -> List.filter (fun b => negb (b =? 13) && negb (b =? 10)) (base64_encode bs) = base64_encode bs.
Proof.
  assert (Hkeep : forall v l, 0 <= v < 64 ->
    List.filter (fun b => negb (b =? 13) && negb (b =? 10)) (base64_char v :: l) =
    base64_char v :: List.filter (fun b => negb (b =? 13) && negb (b =? 10)) l).
  { intros v l (_ & H13 & H10)%base64_char_plain. cbn [List.filter].
    by rewrite (proj2 (Z.eqb_neq _ 13) H13), (proj2 (Z.eqb_neq _ 10) H10). }
  unfold is_byte. induction bs as [|a|a b|a b c rest IH] using base64_encode_ind; intros Hb; [done|..];
    repeat (apply list.Forall_cons in Hb as [? Hb]); cbn [base64_encode];
    rewrite !Hkeep by (Z.to_euclidean_division_equations; lia); [done|done|]. by rewrite IH.
Qed.

Lemma base64_roundtrip bs : Forall is_byte bs -> base64_decode (base64_encode bs) = Some bs.
Proof.
  intros Hb. unfold base64_decode. rewrite base64_encode_no_breaks by done. unfold is_byte in Hb.
  induction bs as [|a|a b|a b c rest IH] using base64_encode_ind; [done|..];
    repeat (apply list.Forall_cons in Hb as [? Hb]); cbn [base64_encode base64_groups];
    rewrite !base64_value_char by (Z.to_euclidean_division_equations; lia).
  - change (61 =? 61) with true. rewrite bool_decide_eq_true_2 by done. cbn [andb]. do 2 f_equal.
    Z.to_euclidean_division_equations; lia.
  - rewrite (proj2 (Z.eqb_neq (base64_char _) 61)) by (apply base64_char_plain; Z.to_euclidean_division_equations; lia).
    change (61 =? 61) with true. rewrite bool_decide_eq_true_2 by done. repeat f_equal; Z.to_euclidean_division_equations; lia.
  - rewrite !(proj2 (Z.eqb_neq (base64_char _) 61)) by (apply base64_char_plain; Z.to_euclidean_division_equations; lia).
    rewrite IH by done. cbn [option_map]. repeat f_equal; Z.to_euclidean_division_equations; lia.
Qed.

(** ** Valid text *)
Lemma of_runes_app a b : of_runes (a ++ b) = of_runes a +:+ of_runes b.
Proof.
  rewrite <- (of_bytes_bytes (of_runes a +:+ of_runes b)), bytes_app, !bytes_of_runes.
  unfold of_runes. by rewrite map_app, concat_app.
Qed.
Lemma ValidString_app a b : ValidString a = true -> ValidString b = true -> ValidString (a +:+ b) = true.
Proof.
  intros Ha Hb. rewrite <- (of_runes_runes a Ha), <- (of_runes_runes b Hb), <- of_runes_app.
  apply ValidString_of_runes, list.Forall_app. split; apply runes_valid.
Qed.
(** Encoding replaces what is not a rune. *)
Lemma ValidString_encoded rs : ValidString (of_runes rs) = true.
Proof.
  replace (of_runes rs) with (of_runes (map (fun r => if valid_rune r then r else RuneError) rs)).
  - apply ValidString_of_runes, Forall_map, Forall_true. intros r. by destruct (valid_rune r) eqn:E.
  - unfold of_runes. do 2 f_equal. rewrite map_map. apply map_ext. intros r. unfold EncodeRune.
    by destruct (valid_rune r) eqn:E; [rewrite E|].
Qed.
Lemma ValidString_ascii s : Forall (fun b => b < 128) (bytes s) -> ValidString s = true.
Proof.
  intros Hs. pose proof (bytes_range s) as Hr.
  assert (Hrs : s = of_runes (bytes s)).
  { rewrite <- (of_bytes_bytes s) at 1. unfold of_runes. f_equal. induction (bytes s) as [|b l IH]; [done|].
    apply list.Forall_cons in Hs as [Hb Hs], Hr as [Hb' Hr]. cbn [map concat]. unfold EncodeRune at 1.
    rewrite (proj2 (valid_rune_spec b)) by lia. rewrite (proj2 (Z.ltb_lt b 128)) by lia. cbn [app]. f_equal. by apply IH. }
  rewrite Hrs. apply ValidString_encoded.
Qed.
Lemma ValidString_itoa n : ValidString (itoa n) = true.
Proof.
  apply ValidString_ascii. assert (Hf : forall f n s, Forall (fun b => b < 128) (bytes s) -> Forall (fun b => b < 128) (bytes (itoa_fuel f n s))).
  { induction f as [|f IH]; intros m s Hs; cbn [itoa_fuel]; [done|]. pose proof (Z.mod_pos_bound m 10 ltac:(lia)).
    assert (Forall (fun b => b < 128) (bytes (String (digit (m mod 10)) s))) by (rewrite bytes_digit_cons by done; constructor; [lia|done]).
    case_match; [done|by apply IH]. }
  unfold itoa. case_match; [constructor; [vm_compute; reflexivity|]|]; by apply Hf.
Qed.
Lemma ValidString_hex bs : Forall is_byte bs -> ValidString (hex_EncodeToString bs) = true.
Proof.
  intros Hb. apply ValidString_ascii. unfold hex_EncodeToString, is_byte in *. induction Hb as [|b bs Hb _ IH]; [constructor|].
  cbn [fold_right]. rewrite bytes_app. apply list.Forall_app. split; [|done].
  assert (Hd : forall d, 0 <= d < 16 -> byte_of (hexdigit d) < 128).
  { intros d Hd. unfold hexdigit. rewrite byte_of_of_byte by (case_match; lia). case_match; lia. }
  change (bytes (hex_byte b)) with [byte_of (hexdigit (b / 16)); byte_of (hexdigit (b mod 16))].
  repeat constructor; apply Hd; Z.to_euclidean_division_equations; lia.
Qed.
