(* ===== verification/Json.v ===== *)
(** * JSON ([encoding/json])

    A JSON document is a tree whose strings keep their lexical form, so that
    one printer serves values that the program encodes and raw documents that
    it embeds.  [parse] reads a document as the library's scanner does,
    [print] writes a tree without white space; reading what was printed gives
    the tree back.  Go strings become trees by [jstr], with the escapes and the
    replacement of invalid UTF-8 that [json.Marshal] performs, and come back by
    [unquote]. *)
From S2P Require Import Prelude GoStrings GoEncoding.
Local Open Scope Z_scope.

(** A byte of a string as it stands, a two-character escape, or [\uXXXX]. *)
Inductive item := Raw (b : Z) | Esc (c : Z) | Uni (a b c d : Z).
#[global] Instance item_eq_dec : EqDecision item.
Proof. solve_decision. Defined.

Inductive jtree :=
| TNull
| TBool (b : bool)
| TNum (lit : list Z)
| TStr (s : list item)
| TArr (l : list jtree)
| TObj (fields : list (list item * jtree)).

(** ** Printing *)
Definition item_bytes (i : item) : list Z :=
  match i with Raw b => [b] | Esc c => [92; c] | Uni a b c d => [92; 117; a; b; c; d] end.
Definition quoted (s : list item) : list Z := 34 :: concat (map item_bytes s) ++ [34].
Fixpoint sep (l : list (list Z)) : list Z :=
  match l with [] => [] | [x] => x | x :: l => x ++ 44 :: sep l end.
Fixpoint print (t : jtree) : list Z :=
  match t with
  | TNull => bytes "null"
  | TBool true => bytes "true"
  | TBool false => bytes "false"
  | TNum lit => lit
  | TStr s => quoted s
  | TArr l => 91 :: sep (map print l) ++ [93]
  | TObj fs => 123 :: sep (map (fun kv => quoted (fst kv) ++ 58 :: print (snd kv)) fs) ++ [125]
  end.

(** ** Scanning *)
Definition is_ws (b : Z) : bool := existsb (Z.eqb b) [32; 9; 13; 10].
Definition skip_ws (bs : list Z) : list Z := drop_while is_ws bs.
Definition is_hex (b : Z) : bool := match unhex b with Some _ => true | None => false end.
Definition simple_escape (c : Z) : bool := existsb (Z.eqb c) [34; 92; 47; 98; 102; 110; 114; 116].

Definition cons_item (i : item) (r : option (list item * list Z)) : option (list item * list Z) :=
  match r with Some (l, rest) => Some (i :: l, rest) | None => None end.
Fixpoint scan_string (bs : list Z) : option (list item * list Z) :=
  match bs with
  | [] => None
  | x :: t =>
    if x =? 34 then Some ([], t)
    else if x =? 92 then
      match t with
      | [] => None
      | c :: t1 =>
        if c =? 117 then
          match t1 with
          | a :: b :: c :: d :: t2 =>
            if forallb is_hex [a; b; c; d] then cons_item (Uni a b c d) (scan_string t2) else None
          | _ => None
          end
        else if simple_escape c then cons_item (Esc c) (scan_string t1) else None
      end
    else if x <? 32 then None else cons_item (Raw x) (scan_string t)
  end.

Fixpoint span (p : Z -> bool) (bs : list Z) : list Z * list Z :=
  match bs with
  | [] => ([], [])
  | x :: t => if p x then let '(a, r) := span p t in (x :: a, r) else ([], bs)
  end.
Definition digits_plus (bs : list Z) : option (list Z * list Z) :=
  match span is_digit bs with ([], _) => None | r => Some r end.
Definition scan_opt (p : Z -> bool) (bs : list Z) : list Z * list Z :=
  match bs with x :: t => if p x then ([x], t) else ([], bs) | [] => ([], []) end.

Definition scan_int (bs : list Z) : option (list Z * list Z) :=
  match bs with
  | [] => None
  | x :: t => if x =? 48 then Some ([x], t) else if is_digit x then Some (span is_digit bs) else None
  end.
Definition scan_frac (bs : list Z) : option (list Z * list Z) :=
  match scan_opt (Z.eqb 46) bs with
  | ([], _) => Some ([], bs)
  | (p, t) => match digits_plus t with Some (ds, r) => Some (p ++ ds, r) | None => None end
  end.
Definition scan_exp (bs : list Z) : option (list Z * list Z) :=
  match scan_opt (fun c => (c =? 101) || (c =? 69)) bs with
  | ([], _) => Some ([], bs)
  | (p, t) =>
    let '(s, t) := scan_opt (fun c => (c =? 43) || (c =? 45)) t in
    match digits_plus t with Some (ds, r) => Some (p ++ s ++ ds, r) | None => None end
  end.
Definition scan_number (bs : list Z) : option (list Z * list Z) :=
  let '(s, b1) := scan_opt (Z.eqb 45) bs in
  match scan_int b1 with
  | None => None
  | Some (i, b2) =>
    match scan_frac b2 with
    | None => None
    | Some (f, b3) =>
      match scan_exp b3 with
      | None => None
      | Some (e, r) => Some (s ++ i ++ f ++ e, r)
      end
    end
  end.

(** ** Parsing

    Nesting is limited to ten thousand levels.  The fuel bounds the recursion;
    twice the length of the text is enough. *)
Definition max_depth : Z := 10000.
Fixpoint expect (p bs : list Z) : option (list Z) :=
  match p, bs with
  | [], _ => Some bs
  | x :: p, y :: bs => if x =? y then expect p bs else None
  | _, _ => None
  end.
Definition literal (word : string) (t : jtree) (bs : list Z) : option (jtree * list Z) :=
  match expect (bytes word) bs with Some r => Some (t, r) | None => None end.

Fixpoint parse_value (fuel : nat) (depth : Z) (bs : list Z) : option (jtree * list Z) :=
  match fuel with
  | O => None
  | S f =>
    match skip_ws bs with
    | [] => None
    | c :: t =>
      if c =? 34 then
        match scan_string t with Some (s, r) => Some (TStr s, r) | None => None end
      else if c =? 91 then
        if max_depth <=? depth then None
        else match expect [93] (skip_ws t) with
        | Some r => Some (TArr [], r)
        | None =>
          match parse_elems f (depth + 1) t with Some (l, r) => Some (TArr l, r) | None => None end
        end
      else if c =? 123 then
        if max_depth <=? depth then None
        else match expect [125] (skip_ws t) with
        | Some r => Some (TObj [], r)
        | None =>
          match parse_members f (depth + 1) t with Some (l, r) => Some (TObj l, r) | None => None end
        end
      else if c =? 116 then literal "true" (TBool true) (c :: t)
      else if c =? 102 then literal "false" (TBool false) (c :: t)
      else if c =? 110 then literal "null" TNull (c :: t)
      else match scan_number (c :: t) with Some (lit, r) => Some (TNum lit, r) | None => None end
    end
  end
with parse_elems (fuel : nat) (depth : Z) (bs : list Z) : option (list jtree * list Z) :=
  match fuel with
  | O => None
  | S f =>
    match parse_value f depth bs with
    | None => None
    | Some (v, r) =>
      match skip_ws r with
      | c :: r =>
        if c =? 44 then
          match parse_elems f depth r with Some (l, r) => Some (v :: l, r) | None => None end
        else if c =? 93 then Some ([v], r) else None
      | [] => None
      end
    end
  end
with parse_members (fuel : nat) (depth : Z) (bs : list Z) : option (list (list item * jtree) * list Z) :=
  match fuel with
  | O => None
  | S f =>
    match expect [34] (skip_ws bs) with
    | None => None
    | Some r =>
      match scan_string r with
      | None => None
      | Some (k, r) =>
        match expect [58] (skip_ws r) with
        | None => None
        | Some r =>
          match parse_value f depth r with
          | None => None
          | Some (v, r) =>
            match skip_ws r with
            | c :: r =>
              if c =? 44 then
                match parse_members f depth r with Some (l, r) => Some ((k, v) :: l, r) | None => None end
              else if c =? 125 then Some ([(k, v)], r) else None
            | [] => None
            end
          end
        end
      end
    end
  end.

Definition parse (bs : list Z) : option jtree :=
  match parse_value (2 * List.length bs + 2) 0 bs with
  | Some (t, r) => match skip_ws r with [] => Some t | _ => None end
  | None => None
  end.

(** [json.Valid]. *)
Definition Valid (doc : string) : bool := match parse (bytes doc) with Some _ => true | None => false end.

(** ** Strings *)
Definition hex_digit (d : Z) : Z := if d <? 10 then 48 + d else 87 + d.
Definition uni (r : Z) : item :=
  Uni (hex_digit (r / 4096)) (hex_digit (r / 256 mod 16)) (hex_digit (r / 16 mod 16)) (hex_digit (r mod 16)).

(** How [json.Marshal] writes a rune; an invalid byte becomes the escaped U+FFFD. *)
Definition rune_items (x : Z * bool) : list item :=
  let '(r, ok) := x in
  if negb ok then [uni RuneError]
  else if (r =? 34) || (r =? 92) then [Esc r]
  else if r =? 8 then [Esc 98] else if r =? 12 then [Esc 102] else if r =? 10 then [Esc 110]
  else if r =? 13 then [Esc 114] else if r =? 9 then [Esc 116]
  else if (r <? 32) || (r =? 60) || (r =? 62) || (r =? 38) || (r =? 8232) || (r =? 8233) then [uni r]
  else map Raw (EncodeRune r).
Definition str_items (s : string) : list item := concat (map rune_items (decode_bytes (bytes s))).

Definition escape_value (c : Z) : Z :=
  if c =? 98 then 8 else if c =? 102 then 12 else if c =? 110 then 10
  else if c =? 114 then 13 else if c =? 116 then 9 else c.
Definition hex_value (b : Z) : Z := match unhex b with Some v => v | None => 0 end.
Definition code_unit (a b c d : Z) : Z :=
  ((hex_value a * 16 + hex_value b) * 16 + hex_value c) * 16 + hex_value d.
Definition surrogate (r : Z) : bool := in_range 55296 r 57343.
(** [utf16.DecodeRune]. *)
Definition surrogate_pair (r1 r2 : Z) : option Z :=
  if in_range 55296 r1 56319 && in_range 56320 r2 57343
  then Some ((r1 - 55296) * 1024 + (r2 - 56320) + 65536) else None.

Fixpoint raw_prefix (l : list item) : list Z :=
  match l with Raw b :: t => b :: raw_prefix t | _ => [] end.
(** The runes of a string; [skip] items belong to the rune before. *)
Fixpoint unquote_skip (skip : nat) (l : list item) : list Z :=
  match l with
  | [] => []
  | i :: t =>
    match skip with
    | S k => unquote_skip k t
    | O =>
      match i with
      | Raw b => let '(r, n) := DecodeRune (b :: raw_prefix t) in r :: unquote_skip (n - 1) t
      | Esc c => escape_value c :: unquote_skip 0 t
      | Uni a b c d =>
        let r := code_unit a b c d in
        if surrogate r then
          match t with
          | Uni a b c d :: _ =>
            match surrogate_pair r (code_unit a b c d) with
            | Some r => r :: unquote_skip 1 t
            | None => RuneError :: unquote_skip 0 t
            end
          | _ => RuneError :: unquote_skip 0 t
          end
        else r :: unquote_skip 0 t
      end
    end
  end.
Definition unquote (l : list item) : string := of_runes (unquote_skip 0 l).

(** ** Go values as trees *)
Definition jstr (s : string) : jtree := TStr (str_items s).
Definition jint (n : Z) : jtree := TNum (bytes (itoa n)).
Definition key (k : string) (v : jtree) : list item * jtree := (str_items k, v).
(** A [[]byte]: nil is null, otherwise base64 text. *)
Definition jbytes (b : option (list Z)) : jtree :=
  match b with None => TNull | Some b => TStr (map Raw (base64_encode b)) end.
(** A [time.Time] in UTC; years outside 0..9999 cannot be encoded. *)
Definition jtime_ok (t : Z) : bool := in_range 0 (year t) 9999.
Definition jtime (t : Z) : jtree := TStr (map Raw (RFC3339Nano t)).

(** A [json.RawMessage] is rewritten without white space and with [<], [>],
    [&], U+2028 and U+2029 escaped. *)
Definition html_raw (b : Z) : item :=
  if (b =? 60) || (b =? 62) || (b =? 38) then uni b else Raw b.
Fixpoint html_items (l : list item) : list item :=
  match l with
  | [] => []
  | Raw b :: t =>
    match t with
    | Raw c :: Raw d :: t2 =>
      if (b =? 226) && (c =? 128) && ((d =? 168) || (d =? 169))
      then uni (8232 + (d - 168)) :: html_items t2 else html_raw b :: html_items t
    | _ => html_raw b :: html_items t
    end
  | i :: t => i :: html_items t
  end.
Fixpoint html_tree (t : jtree) : jtree :=
  match t with
  | TStr s => TStr (html_items s)
  | TArr l => TArr (map html_tree l)
  | TObj fs => TObj (map (fun kv => (html_items (fst kv), html_tree (snd kv))) fs)
  | _ => t
  end.
Definition jraw (doc : string) : option jtree := option_map html_tree (parse (bytes doc)).

Definition Marshal (t : jtree) : string := of_bytes (print t).

(** ** Decoding into struct fields

    Keys match field names up to case folding, later keys overwrite earlier
    ones, null leaves a field as it is, and a value of another type is an
    error. *)
Definition fold_rune (r : Z) : Z :=
  if in_range 97 r 122 then r - 32 else if r =? 383 then 83 else if r =? 8490 then 75 else r.
Definition fold_name (s : string) : list Z := map fold_rune (runes s).

Definition decode_field {A} (dec : jtree -> option A) (name : string) (zero : A)
    (fields : list (list item * jtree)) : option A :=
  fold_left (fun acc kv =>
    if fold_name (unquote (fst kv)) ==? fold_name name then
      match snd kv, acc with
      | TNull, _ => acc
      | v, Some _ => dec v
      | _, None => None
      end
    else acc) fields (Some zero).

Definition dec_string (t : jtree) : option string :=
  match t with TStr s => Some (unquote s) | _ => None end.
Definition parse_int (lit : list Z) : option Z :=
  let '(s, ds) := scan_opt (Z.eqb 45) lit in
  if forallb is_digit ds && negb (ds ==? []) then
    let v := atoi_digits ds 0 in
    let v := match s with [] => v | _ => - v end in
    if in_range (- 2 ^ 63) v max_int64 then Some v else None
  else None.
Definition dec_int64 (t : jtree) : option Z := match t with TNum lit => parse_int lit | _ => None end.

(** The members of the document that [json.Unmarshal] decodes into a struct;
    a null document leaves the struct as it is. *)
Definition members (doc : string) : option (list (list item * jtree)) :=
  match parse (bytes doc) with
  | Some (TObj fs) => Some fs
  | Some TNull => Some []
  | _ => None
  end.

(** ** Reading back what was printed *)
Definition raw_ok (b : Z) : Prop := 32 <= b < 256 /\ b <> 34 /\ b <> 92.
Definition item_ok (i : item) : Prop :=
  match i with
  | Raw b => raw_ok b
  | Esc c => simple_escape c = true
  | Uni a b c d => forallb is_hex [a; b; c; d] = true
  end.

(** The grammar of numbers. *)
Definition all_digits (l : list Z) : Prop := forallb is_digit l = true.
Definition int_ok (i : list Z) : Prop := i = [48] \/ exists d ds, i = d :: ds /\ d <> 48 /\ all_digits i.
Definition frac_ok (f : list Z) : Prop := f = [] \/ exists ds, f = 46 :: ds /\ ds <> [] /\ all_digits ds.
Definition exp_ok (e : list Z) : Prop :=
  e = [] \/ exists x sg ds, e = x :: sg ++ ds /\ (x = 101 \/ x = 69) /\
    (sg = [] \/ sg = [43] \/ sg = [45]) /\ ds <> [] /\ all_digits ds.
Definition num_ok (lit : list Z) : Prop :=
  exists s i f e, lit = s ++ i ++ f ++ e /\ (s = [] \/ s = [45]) /\ int_ok i /\ frac_ok f /\ exp_ok e.

Fixpoint tree_ok (t : jtree) : Prop :=
  match t with
  | TNull | TBool _ => True
  | TNum lit => num_ok lit
  | TStr s => Forall item_ok s
  | TArr l => foldr (fun x P => tree_ok x /\ P) True l
  | TObj fs => foldr (fun kv P => (Forall item_ok (fst kv) /\ tree_ok (snd kv)) /\ P) True fs
  end.
Fixpoint nesting (t : jtree) : Z :=
  match t with
  | TArr l => 1 + foldr (fun x n => Z.max (nesting x) n) 0 l
  | TObj fs => 1 + foldr (fun kv n => Z.max (nesting (snd kv)) n) 0 fs
  | _ => 0
  end.
(** The recursion that parsing a printed tree takes. *)
Fixpoint steps (t : jtree) : nat :=
  match t with
  | TArr l => S (foldr (fun x n => S (steps x + n)) 0 l)
  | TObj fs => S (foldr (fun kv n => S (steps (snd kv) + n)) 0 fs)
  | _ => 1
  end%nat.

(** What may follow a number. *)
Definition stops (p : Z -> bool) (l : list Z) : Prop :=
  match l with [] => True | c :: _ => p c = false end.
Definition number_char (c : Z) : bool :=
  is_digit c || (c =? 46) || (c =? 101) || (c =? 69) || (c =? 43) || (c =? 45).

Lemma stops_impl (p q : Z -> bool) l : (forall c, q c = true -> p c = true) -> stops p l -> stops q l.
Proof. intros H. destruct l as [|c l]; simpl; [done|]. intros Hp. destruct (q c) eqn:E; [|done]. by rewrite H in Hp. Qed.

Lemma span_app p l rest :
  forallb p l = true -> stops p rest -> span p (l ++ rest) = (l, rest).
Proof.
  induction l as [|x l IH]; simpl; intros Hl Hr.
  - destruct rest as [|c rest]; simpl in *; [done|]. by rewrite Hr.
  - apply andb_true_iff in Hl as [-> Hl]. by rewrite IH.
Qed.

Lemma scan_opt_none p l : stops p l -> scan_opt p l = ([], l).
Proof. destruct l as [|c l]; simpl; [done|]. by intros ->. Qed.

Lemma digits_plus_app ds rest :
  ds <> [] -> all_digits ds -> stops is_digit rest -> digits_plus (ds ++ rest) = Some (ds, rest).
Proof. intros Hne Hd Hr. unfold digits_plus. rewrite span_app by done. by destruct ds. Qed.

Lemma stops_sub rest q :
  stops number_char rest -> (forall c, q c = true -> number_char c = true) -> stops q rest.
Proof. intros Hr H. by eapply stops_impl. Qed.

Lemma is_digit_number c : is_digit c = true -> number_char c = true.
Proof. unfold number_char. by intros ->. Qed.
Ltac number_char_tac :=
  let c := fresh in intros c; unfold number_char; reflect_bools; (tauto || lia || intuition congruence).

Lemma digit_not c x : is_digit c = true -> ~ (48 <= x <= 57) -> c <> x.
Proof. unfold is_digit. rewrite in_range_spec. lia. Qed.

Lemma scan_exp_app e rest :
  exp_ok e -> stops number_char rest -> scan_exp (e ++ rest) = Some (e, rest).
Proof.
  intros He Hr. unfold scan_exp. pose proof (stops_sub _ is_digit Hr is_digit_number) as Hd.
  destruct He as [->|(x & sg & ds & -> & Hx & Hsg & Hne & Hds)].
  - simpl. rewrite scan_opt_none; [done|]. apply (stops_sub _ _ Hr). number_char_tac.
  - assert (E : scan_opt (fun c => (c =? 101) || (c =? 69)) ((x :: sg ++ ds) ++ rest) = ([x], sg ++ ds ++ rest)).
    { simpl. rewrite <- app_assoc. by destruct Hx as [-> | ->]. }
    rewrite E. assert (E2 : scan_opt (fun c => (c =? 43) || (c =? 45)) (sg ++ ds ++ rest) = (sg, ds ++ rest)).
    { destruct Hsg as [->|[->| ->]]; [|done..]. apply scan_opt_none. destruct ds as [|d ds]; [done|]. simpl.
      apply andb_true_iff in Hds as [Hds _].
      rewrite (proj2 (Z.eqb_neq d 43)), (proj2 (Z.eqb_neq d 45)) by (apply (digit_not d); [done|lia]). done. }
    by rewrite E2, digits_plus_app by done.
Qed.

Lemma exp_stops e rest :
  exp_ok e -> stops number_char rest -> stops (fun c => is_digit c || (c =? 46)) (e ++ rest).
Proof.
  intros [->|(x & sg & ds & -> & Hx & _)] Hr; simpl.
  - apply (stops_sub _ _ Hr). intros c. unfold number_char. reflect_bools. tauto.
  - by destruct Hx as [-> | ->].
Qed.

Lemma scan_frac_app f rest :
  frac_ok f -> stops (fun c => is_digit c || (c =? 46)) rest -> scan_frac (f ++ rest) = Some (f, rest).
Proof.
  intros [->|(ds & -> & Hne & Hds)] Hr; unfold scan_frac.
  - simpl. rewrite scan_opt_none; [done|]. eapply stops_impl; [|exact Hr]. intros c H%Z.eqb_eq. subst. done.
  - assert (E : scan_opt (Z.eqb 46) ((46 :: ds) ++ rest) = ([46], ds ++ rest)) by done.
    rewrite E, digits_plus_app; [done..|]. eapply stops_impl; [|exact Hr]. intros c. cbv beta. by intros ->.
Qed.

Lemma frac_stops f rest :
  frac_ok f -> stops is_digit rest -> stops is_digit (f ++ rest).
Proof. by intros [->|(ds & -> & _)] Hr. Qed.

Lemma scan_int_app i rest :
  int_ok i -> stops is_digit rest -> scan_int (i ++ rest) = Some (i, rest).
Proof.
  intros [->|(d & ds & -> & Hd & Hds)] Hr; [done|]. unfold scan_int.
  rewrite (span_app is_digit (d :: ds) rest) by done. cbn [app].
  rewrite (proj2 (Z.eqb_neq d 48)) by done. by pose proof Hds as [-> _]%andb_true_iff.
Qed.

Lemma scan_number_app lit rest :
  num_ok lit -> stops number_char rest -> scan_number (lit ++ rest) = Some (lit, rest).
Proof.
  intros (s & i & f & e & -> & Hs & Hi & Hf & He) Hr. unfold scan_number. rewrite <- !app_assoc.
  pose proof (exp_stops e rest He Hr) as Hes.
  assert (Hds : stops is_digit (e ++ rest)) by (eapply stops_impl; [|exact Hes]; intros c; cbv beta; by intros ->).
  assert (E : scan_opt (Z.eqb 45) (s ++ i ++ f ++ e ++ rest) = (s, i ++ f ++ e ++ rest)).
  { destruct Hs as [-> | ->]; [|done]. apply scan_opt_none.
    destruct Hi as [->|(d & ds & -> & _ & [Hd _]%andb_true_iff)]; [done|].
    apply Z.eqb_neq. by intros <-. }
  rewrite E, scan_int_app by (done || by apply frac_stops).
  by rewrite scan_frac_app, scan_exp_app.
Qed.

(** ** What the scanners accept is well formed *)
Lemma span_spec p bs a r : span p bs = (a, r) -> forallb p a = true.
Proof.
  revert a r. induction bs as [|x bs IH]; intros a r; simpl; [by intros [= <- <-]|].
  destruct (p x) eqn:Hp; [|by intros [= <- <-]].
  destruct (span p bs) as [a' r'] eqn:E. intros [= <- <-]. simpl. by rewrite Hp, (IH _ _ eq_refl).
Qed.

Lemma digits_plus_spec bs a r : digits_plus bs = Some (a, r) -> a <> [] /\ all_digits a.
Proof.
  unfold digits_plus. destruct (span is_digit bs) as [a' r'] eqn:E. apply span_spec in E.
  destruct a' as [|x a']; [done|]. intros [= <- <-]. by split.
Qed.

Lemma scan_opt_spec p bs a r : scan_opt p bs = (a, r) -> a = [] \/ exists x, a = [x] /\ p x = true.
Proof.
  unfold scan_opt. destruct bs as [|x bs]; [intros [= <- <-]; by left|].
  destruct (p x) eqn:E; intros [= <- <-]; [right; by exists x|by left].
Qed.

Lemma scan_number_ok bs lit r : scan_number bs = Some (lit, r) -> num_ok lit.
Proof.
  unfold scan_number. destruct (scan_opt (Z.eqb 45) bs) as [s b1] eqn:Hs.
  destruct (scan_int b1) as [[i b2]|] eqn:Hi; [|done].
  destruct (scan_frac b2) as [[f b3]|] eqn:Hf; [|done].
  destruct (scan_exp b3) as [[e b4]|] eqn:He; [|done]. intros [= <- <-].
  exists s, i, f, e. split; [done|]. split; [|split; [|split]].
  - apply scan_opt_spec in Hs as [->|(x & -> & Hx%Z.eqb_eq)]; [by left|right; by subst].
  - unfold scan_int in Hi. destruct b1 as [|x b1]; [done|]. destruct (Z.eqb_spec x 48) as [->|Hx].
    { injection Hi as <- <-. by left. }
    destruct (is_digit x) eqn:Hd; [|done]. injection Hi as Hi. pose proof (span_spec is_digit (x :: b1) _ _ Hi) as Ha.
    rewrite Hd in Hi. destruct (span is_digit b1) as [ds r']. injection Hi as <- <-.
    right. by exists x, ds.
  - unfold scan_frac in Hf. destruct (scan_opt (Z.eqb 46) b2) as [p t] eqn:Hp.
    apply scan_opt_spec in Hp as [->|(x & -> & <-%Z.eqb_eq)]; [injection Hf as <- <-; by left|].
    destruct (digits_plus t) as [[ds r']|] eqn:Hds; [|done]. injection Hf as <- <-.
    apply digits_plus_spec in Hds as [??]. right. by exists ds.
  - unfold scan_exp in He. destruct (scan_opt _ b3) as [p t] eqn:Hp.
    apply scan_opt_spec in Hp as [->|(x & -> & Hx)]; [injection He as <- <-; by left|].
    destruct (scan_opt _ t) as [sg t'] eqn:Hsg. apply scan_opt_spec in Hsg.
    destruct (digits_plus t') as [[ds r']|] eqn:Hds; [|done]. injection He as <- <-.
    apply digits_plus_spec in Hds as [??]. right. exists x, sg, ds. reflect_bools.
    split; [done|]. split; [done|]. split; [|done].
    destruct Hsg as [->|(y & -> & Hy)]; [by left|]. reflect_bools. destruct Hy; subst; auto.
Qed.

Lemma scan_string_app s rest :
  Forall item_ok s -> scan_string (concat (map item_bytes s) ++ 34 :: rest) = Some (s, rest).
Proof.
  induction 1 as [|i s Hi Hs IH]; [done|]. cbn [map concat]. rewrite <- app_assoc.
  destruct i as [b|c|a b c d]; cbn [item_bytes app scan_string] in *.
  - destruct Hi as (Hb & H1 & H2).
    rewrite (proj2 (Z.eqb_neq b 34)), (proj2 (Z.eqb_neq b 92)), (proj2 (Z.ltb_ge b 32)) by (done || lia).
    by rewrite IH.
  - assert (Hu : (c =? 117) = false) by (apply Z.eqb_neq; by intros ->).
    simpl. simpl in Hi. by rewrite Hu, Hi, IH.
  - simpl in Hi. simpl. by rewrite Hi, IH.
Qed.

Lemma scan_string_ok bs s r :
  Forall is_byte bs -> scan_string bs = Some (s, r) -> Forall item_ok s /\ Forall is_byte r.
Proof.
  intros Hbs. assert (Hlen : exists n, (List.length bs <= n)%nat) by by exists (List.length bs).
  destruct Hlen as [n Hlen]. revert bs s r Hbs Hlen.
  induction n as [|n IH]; intros [|x bs] s r Hbs Hlen; simpl in *; try done; try lia.
  apply list.Forall_cons in Hbs as [Hx Hbs].
  destruct (Z.eqb_spec x 34); [by intros [= <- <-]|].
  destruct (Z.eqb_spec x 92) as [->|].
  - destruct bs as [|c bs]; [done|]. apply list.Forall_cons in Hbs as [Hc Hbs].
    destruct (c =? 117).
    + destruct bs as [|a [|b [|c' [|d bs]]]]; try done.
      destruct (forallb is_hex [a; b; c'; d]) eqn:Hh; simpl in Hh; rewrite Hh; [|done].
      destruct (scan_string bs) as [[l r']|] eqn:E; [|done]. intros [= <- <-].
      do 4 (apply list.Forall_cons in Hbs as [_ Hbs]).
      destruct (IH bs l r' Hbs ltac:(simpl in Hlen; lia) E). split; [by constructor|done].
    + destruct (simple_escape c) eqn:Hh; [|done].
      destruct (scan_string bs) as [[l r']|] eqn:E; [|done]. intros [= <- <-].
      destruct (IH bs l r' Hbs ltac:(simpl in Hlen; lia) E). split; [by constructor|done].
  - destruct (Z.ltb_spec x 32); [done|]. destruct (scan_string bs) as [[l r']|] eqn:E; [|done].
    intros [= <- <-]. destruct (IH bs l r' Hbs ltac:(lia) E). split; [|done].
    constructor; [|done]. unfold is_byte in Hx. by repeat split; try lia.
Qed.

(** Induction over trees. *)
Section TreeInd.
Context (P : jtree -> Prop).
Context (HNull : P TNull) (HBool : forall b, P (TBool b)) (HNum : forall l, P (TNum l)) (HStr : forall s, P (TStr s))
  (HArr : forall l, Forall P l -> P (TArr l)) (HObj : forall fs, Forall (fun kv => P (snd kv)) fs -> P (TObj fs)).
Fixpoint jtree_ind_nested (t : jtree) : P t :=
  match t with
  | TNull => HNull
  | TBool b => HBool b
  | TNum l => HNum l
  | TStr s => HStr s
  | TArr l => HArr l ((fix go l : Forall P l := match l with
      | [] => Forall_nil_2 P | x :: l => Forall_cons_2 P x l (jtree_ind_nested x) (go l) end) l)
  | TObj fs => HObj fs ((fix go fs : Forall (fun kv => P (snd kv)) fs := match fs with
      | [] => Forall_nil_2 _ | x :: fs => Forall_cons_2 _ x fs (jtree_ind_nested (snd x)) (go fs) end) fs)
  end.
End TreeInd.

Lemma print_head t : tree_ok t ->
  exists c cs, print t = c :: cs /\ is_ws c = false /\ c <> 93 /\ c <> 44.
Proof.
  destruct t as [| [|] | lit | s | l | fs]; simpl; intros H; try by eexists _, _; split_and!.
  destruct H as (s & i & f & e & -> & Hs & Hi & _).
  destruct Hs as [-> | ->]; [|by eexists _, _; split_and!].
  destruct Hi as [->|(d & ds & -> & _ & [Hd _]%andb_true_iff)]; [by eexists _, _; split_and!|].
  eexists d, _. split; [done|]. unfold is_digit in Hd. apply in_range_spec in Hd.
  unfold is_ws. simpl. rewrite !(proj2 (Z.eqb_neq d _)) by lia. split; [done|lia].
Qed.

Lemma skip_ws_head c cs : is_ws c = false -> skip_ws (c :: cs) = c :: cs.
Proof. unfold skip_ws. cbn [drop_while]. by intros ->. Qed.

Lemma expect_no c d cs : c <> d -> expect [c] (d :: cs) = None.
Proof. intros H. simpl. by rewrite (proj2 (Z.eqb_neq c d)). Qed.

Definition reads (t : jtree) : Prop :=
  tree_ok t -> forall f d rest, (steps t <= f)%nat -> d + nesting t <= max_depth ->
  stops number_char rest -> parse_value f d (print t ++ rest) = Some (t, rest).

Lemma parse_elems_print l f d rest :
  l <> [] -> Forall reads l -> foldr (fun x P => tree_ok x /\ P) True l ->
  (foldr (fun x n => S (steps x + n)) 0 l <= f)%nat ->
  d + foldr (fun x n => Z.max (nesting x) n) 0 l <= max_depth ->
  parse_elems f d (sep (map print l) ++ 93 :: rest) = Some (l, rest).
Proof.
  intros Hne Hr. revert f. induction Hr as [|x l Hx Hl IH]; intros f Hok Hf Hd; [done|].
  simpl in Hok, Hf, Hd. destruct Hok as [Hokx Hok]. destruct f as [|f]; [lia|].
  destruct l as [|y l].
  - cbn [map sep parse_elems]. by rewrite Hx by (done || simpl in *; lia).
  - change (sep (map print (x :: y :: l))) with (print x ++ 44 :: sep (map print (y :: l))).
    rewrite <- app_assoc. cbn [parse_elems]. rewrite Hx by (done || lia). cbn [app].
    by rewrite skip_ws_head, Z.eqb_refl, IH by (done || lia).
Qed.

Lemma parse_members_print fs f d rest :
  fs <> [] -> Forall (fun kv => reads (snd kv)) fs ->
  foldr (fun kv P => (Forall item_ok (fst kv) /\ tree_ok (snd kv)) /\ P) True fs ->
  (foldr (fun kv n => S (steps (snd kv) + n)) 0 fs <= f)%nat ->
  d + foldr (fun kv n => Z.max (nesting (snd kv)) n) 0 fs <= max_depth ->
  parse_members f d
    (sep (map (fun kv => quoted (fst kv) ++ 58 :: print (snd kv)) fs) ++ 125 :: rest) = Some (fs, rest).
Proof.
  intros Hne Hr. revert f. induction Hr as [|[k v] fs Hx Hl IH]; intros f Hok Hf Hd; [done|].
  simpl in Hok, Hf, Hd, Hx. destruct Hok as [[Hk Hokx] Hok]. destruct f as [|f]; [lia|].
  assert (Hread : forall rest', expect [34] (skip_ws ((quoted k ++ 58 :: print v) ++ rest')) =
    Some (concat (map item_bytes k) ++ 34 :: 58 :: print v ++ rest')).
  { intros rest'. unfold quoted. cbn [app]. rewrite skip_ws_head by done.
    cbn [expect]. rewrite Z.eqb_refl. by rewrite <- !app_assoc. }
  destruct fs as [|y fs].
  - cbn [map sep parse_members fst snd]. rewrite Hread, scan_string_app by done.
    rewrite skip_ws_head by done. cbn [expect]. rewrite Z.eqb_refl.
    by rewrite Hx by (done || simpl in *; lia).
  - change (sep (map (fun kv => quoted (fst kv) ++ 58 :: print (snd kv)) ((k, v) :: y :: fs))) with
      ((quoted k ++ 58 :: print v) ++ 44 :: sep (map (fun kv => quoted (fst kv) ++ 58 :: print (snd kv)) (y :: fs))).
    rewrite <- app_assoc. cbn [parse_members]. rewrite Hread, scan_string_app by done.
    rewrite skip_ws_head by done. cbn [expect]. rewrite Z.eqb_refl, Hx by (done || lia). cbn [app].
    by rewrite skip_ws_head, Z.eqb_refl, IH by (done || lia).
Qed.

Lemma sep_head x l : exists tail, sep (x :: l) = x ++ tail.
Proof. destruct l; [exists []; by rewrite app_nil_r|by eexists]. Qed.

Lemma foldr_max_nonneg {A} (g : A -> Z) l : 0 <= foldr (fun x n => Z.max (g x) n) 0 l.
Proof. induction l; simpl; lia. Qed.

Lemma parse_value_print t : reads t.
Proof.
  induction t as [|b|lit|s|l IH|fs IH] using jtree_ind_nested; intros Hok f d rest Hf Hd Hr;
    (destruct f as [|f]; [simpl in Hf; lia|]); simpl in Hok.
  - done.
  - by destruct b.
  - pose proof (print_head (TNum lit) Hok) as (c & cs & Hc & Hws & _).
    pose proof (scan_number_app lit rest Hok Hr) as Hn. cbn [print] in *.
    cbn [parse_value]. rewrite Hc in *. cbn [app] in *. rewrite skip_ws_head by done.
    assert (Hch : number_char c = true).
    { destruct Hok as (s & i & f' & e & E & Hs & Hi & _).
      destruct Hs as [-> | ->]; [|by simplify_eq/=].
      destruct Hi as [->|(d' & ds & -> & _ & [Hd' _]%andb_true_iff)]; simplify_eq/=; [done|].
      by apply is_digit_number. }
    unfold number_char, is_digit, in_range in Hch. reflect_bools.
    rewrite !(proj2 (Z.eqb_neq c _)) by lia. by rewrite Hn.
  - cbn [print quoted app parse_value]. rewrite skip_ws_head, Z.eqb_refl by done.
    rewrite <- app_assoc. cbn [app]. by rewrite scan_string_app.
  - cbn [print app parse_value nesting steps] in *. rewrite skip_ws_head by done. cbn [Z.eqb Pos.eqb].
    rewrite (proj2 (Z.leb_gt max_depth d)) by (pose proof (foldr_max_nonneg nesting l); lia).
    destruct l as [|x l]; [done|]. rewrite <- app_assoc. cbn [app].
    destruct (sep_head (print x) (map print l)) as [tail Htail].
    destruct (print_head x) as (c & cs & Hc & Hws & H93 & _); [apply Hok|].
    assert (E : expect [93] (skip_ws (sep (map print (x :: l)) ++ 93 :: rest)) = None).
    { cbn [map]. rewrite Htail, Hc, <- !app_comm_cons, skip_ws_head by done. apply expect_no. congruence. }
    rewrite E, parse_elems_print by (done || lia). done.
  - cbn [print app parse_value nesting steps] in *. rewrite skip_ws_head by done. cbn [Z.eqb Pos.eqb].
    rewrite (proj2 (Z.leb_gt max_depth d)) by (pose proof (foldr_max_nonneg (fun kv => nesting (snd kv)) fs); lia).
    destruct fs as [|[k v] fs]; [done|]. rewrite <- app_assoc. cbn [app].
    assert (E : expect [125] (skip_ws (sep (map (fun kv => quoted (fst kv) ++ 58 :: print (snd kv)) ((k, v) :: fs)) ++
      125 :: rest)) = None).
    { cbn [map]. destruct (sep_head (quoted (fst (k, v)) ++ 58 :: print (snd (k, v)))
        (map (fun kv => quoted (fst kv) ++ 58 :: print (snd kv)) fs)) as [tail ->].
      unfold quoted. rewrite <- !app_comm_cons, skip_ws_head by done. by apply expect_no. }
    rewrite E, parse_members_print by (done || lia). done.
Qed.

Lemma sep_steps {A} (g : A -> list Z) (n : A -> nat) l :
  Forall (fun x => n x + 1 <= 2 * List.length (g x))%nat l ->
  (foldr (fun x k => S (n x + k)) 0 l <= 2 * List.length (sep (map g l)))%nat.
Proof.
  induction 1 as [|x l Hx Hl IH]; [simpl; lia|]. destruct l as [|y l]; [simpl in *; lia|].
  change (sep (map g (x :: y :: l))) with (g x ++ 44 :: sep (map g (y :: l))).
  rewrite length_app. cbn [List.length]. simpl in IH |- *. lia.
Qed.

Lemma steps_print t : tree_ok t -> (steps t + 1 <= 2 * List.length (print t))%nat.
Proof.
  induction t as [|b|lit|s|l IH|fs IH] using jtree_ind_nested; intros Hok; simpl in Hok.
  - simpl; lia.
  - destruct b; simpl; lia.
  - destruct (print_head (TNum lit) Hok) as (c & cs & Hc & _). rewrite Hc. simpl. lia.
  - simpl. rewrite length_app. simpl. lia.
  - cbn [print steps List.length]. rewrite length_app.
    opose proof (sep_steps print steps l _) as H; [|cbn [List.length]; lia].
    induction IH as [|x l Hx _ IHl]; constructor; simpl in Hok; [apply Hx, Hok|apply IHl, Hok].
  - cbn [print steps List.length]. rewrite length_app.
    opose proof (sep_steps (fun kv => quoted (fst kv) ++ 58 :: print (snd kv)) (fun kv => steps (snd kv)) fs _) as H;
      [|cbv beta in H; cbn [List.length]; lia].
    induction IH as [|x l Hx _ IHl]; constructor; simpl in Hok; [|apply IHl, Hok].
    rewrite length_app. cbn [List.length]. specialize (Hx (proj2 (proj1 Hok))). lia.
Qed.

(** Reading a printed tree gives the tree. *)
Theorem parse_print t : tree_ok t -> nesting t <= max_depth -> parse (print t) = Some t.
Proof.
  intros Hok Hn. unfold parse. pose proof (steps_print t Hok).
  rewrite <- (app_nil_r (print t)) at 2. by rewrite parse_value_print by (done || lia).
Qed.

(** ** What the parser accepts is well formed *)
Lemma drop_while_incl {A} (p : A -> bool) (P : A -> Prop) l : Forall P l -> Forall P (drop_while p l).
Proof. induction 1; simpl; [constructor|]. case_match; [done|by constructor]. Qed.

Lemma expect_incl (P : Z -> Prop) p bs r : Forall P bs -> expect p bs = Some r -> Forall P r.
Proof.
  revert bs. induction p as [|x p IH]; intros bs Hbs; simpl; [by intros [= <-]|].
  destruct bs as [|y bs]; [done|]. case_match; [|done]. apply IH. by inversion Hbs.
Qed.

Lemma span_split p bs a r : span p bs = (a, r) -> bs = a ++ r.
Proof.
  revert a r. induction bs as [|x bs IH]; intros a r; simpl; [by intros [= <- <-]|].
  case_match; [|by intros [= <- <-]]. destruct (span p bs) as [a' r'] eqn:E. intros [= <- <-].
  by rewrite (IH _ _ eq_refl).
Qed.

Lemma scan_opt_split p bs a r : scan_opt p bs = (a, r) -> bs = a ++ r.
Proof. destruct bs as [|x bs]; simpl; [by intros [= <- <-]|]. case_match; by intros [= <- <-]. Qed.

Lemma digits_plus_split bs a r : digits_plus bs = Some (a, r) -> bs = a ++ r.
Proof.
  unfold digits_plus. destruct (span is_digit bs) as [a' r'] eqn:E. apply span_split in E.
  destruct a'; [done|]. by intros [= <- <-].
Qed.

Lemma scan_int_split bs a r : scan_int bs = Some (a, r) -> bs = a ++ r.
Proof.
  unfold scan_int. destruct bs as [|x bs]; [done|]. case_match; [by intros [= <- <-]|].
  case_match; [|done]. intros [= E]. by apply (span_split is_digit).
Qed.

Lemma scan_frac_split bs a r : scan_frac bs = Some (a, r) -> bs = a ++ r.
Proof.
  unfold scan_frac. destruct (scan_opt _ bs) as [p t] eqn:E. apply scan_opt_split in E as ->.
  destruct p as [|x p]; [by intros [= <- <-]|]. destruct (digits_plus t) as [[ds r']|] eqn:E; [|done].
  apply digits_plus_split in E as ->. intros [= <- <-]. by rewrite app_comm_cons, app_assoc.
Qed.

Lemma scan_exp_split bs a r : scan_exp bs = Some (a, r) -> bs = a ++ r.
Proof.
  unfold scan_exp. destruct (scan_opt _ bs) as [p t] eqn:E. apply scan_opt_split in E as ->.
  destruct p as [|x p]; [by intros [= <- <-]|]. destruct (scan_opt _ t) as [s t'] eqn:E.
  apply scan_opt_split in E as ->. destruct (digits_plus t') as [[ds r']|] eqn:E; [|done].
  apply digits_plus_split in E as ->. intros [= <- <-]. by rewrite !app_comm_cons, <- !app_assoc.
Qed.

Lemma scan_number_split bs a r : scan_number bs = Some (a, r) -> bs = a ++ r.
Proof.
  unfold scan_number. destruct (scan_opt _ bs) as [s b1] eqn:E. apply scan_opt_split in E as ->.
  destruct (scan_int b1) as [[i b2]|] eqn:E; [|done]. apply scan_int_split in E as ->.
  destruct (scan_frac b2) as [[f b3]|] eqn:E; [|done]. apply scan_frac_split in E as ->.
  destruct (scan_exp b3) as [[e b4]|] eqn:E; [|done]. apply scan_exp_split in E as ->.
  intros [= <- <-]. by rewrite <- !app_assoc.
Qed.

Definition tree_at (d : Z) (t : jtree) : Prop := tree_ok t /\ d + nesting t <= max_depth.

Definition fields_at (d : Z) (fs : list (list item * jtree)) : Prop :=
  Forall (fun kv => Forall item_ok (fst kv) /\ tree_at d (snd kv)) fs.

Lemma tree_at_arr d l : d + 1 <= max_depth -> Forall (tree_at (d + 1)) l -> tree_at d (TArr l).
Proof.
  intros Hd Hl. unfold tree_at. cbn [tree_ok nesting].
  induction Hl as [|x l [Hx1 Hx2] _ [IH1 IH2]]; simpl in *; [split; [done|lia]|]. split; [done|lia].
Qed.

Lemma tree_at_obj d fs : d + 1 <= max_depth -> fields_at (d + 1) fs -> tree_at d (TObj fs).
Proof.
  intros Hd Hl. unfold tree_at. cbn [tree_ok nesting].
  induction Hl as [|x l [Hk [Hx1 Hx2]] _ [IH1 IH2]]; simpl in *; [split; [done|lia]|]. split; [done|lia].
Qed.

Definition value_reader (f : nat) : Prop := forall d bs t r, d <= max_depth -> Forall is_byte bs ->
  parse_value f d bs = Some (t, r) -> tree_at d t /\ Forall is_byte r.
Definition elems_reader (f : nat) : Prop := forall d bs l r, d <= max_depth -> Forall is_byte bs ->
  parse_elems f d bs = Some (l, r) -> Forall (tree_at d) l /\ Forall is_byte r.
Definition members_reader (f : nat) : Prop := forall d bs l r, d <= max_depth -> Forall is_byte bs ->
  parse_members f d bs = Some (l, r) -> fields_at d l /\ Forall is_byte r.

Lemma skip_ws_bytes bs : Forall is_byte bs -> Forall is_byte (skip_ws bs).
Proof. apply drop_while_incl. Qed.

Lemma literal_ok word t bs d v r :
  tree_ok t -> nesting t = 0 -> d <= max_depth -> Forall is_byte bs ->
  literal word t bs = Some (v, r) -> tree_at d v /\ Forall is_byte r.
Proof.
  intros Ht Hn Hd Hbs. unfold literal. destruct (expect _ bs) as [r'|] eqn:E; [|done].
  apply expect_incl with (P := is_byte) in E; [|done]. intros [= <- <-].
  split; [split; [done|lia]|done].
Qed.

Lemma value_reader_S f : elems_reader f -> members_reader f -> value_reader (S f).
Proof.
  intros He Hm d bs t r Hd Hbs%skip_ws_bytes. cbn [parse_value].
  destruct (skip_ws bs) as [|c cs] eqn:Ews; [done|]. pose proof Hbs as [_ Hcs]%list.Forall_cons.
  destruct (c =? 34).
  { destruct (scan_string cs) as [[s r']|] eqn:E; [|done]. apply scan_string_ok in E as [??]; [|done].
    intros [= <- <-]. split; [split; [done|simpl; lia]|done]. }
  destruct (c =? 91).
  { destruct (Z.leb_spec max_depth d); [done|]. destruct (expect [93] (skip_ws cs)) as [r'|] eqn:E.
    - apply expect_incl with (P := is_byte) in E; [|by apply skip_ws_bytes]. intros [= <- <-].
      split; [apply tree_at_arr; [lia|constructor]|done].
    - destruct (parse_elems f (d + 1) cs) as [[l r']|] eqn:E2; [|done]. apply He in E2 as [??]; [|lia|done].
      intros [= <- <-]. split; [apply tree_at_arr; [lia|done]|done]. }
  destruct (c =? 123).
  { destruct (Z.leb_spec max_depth d); [done|]. destruct (expect [125] (skip_ws cs)) as [r'|] eqn:E.
    - apply expect_incl with (P := is_byte) in E; [|by apply skip_ws_bytes]. intros [= <- <-].
      split; [apply tree_at_obj; [lia|constructor]|done].
    - destruct (parse_members f (d + 1) cs) as [[l r']|] eqn:E2; [|done]. apply Hm in E2 as [??]; [|lia|done].
      intros [= <- <-]. split; [apply tree_at_obj; [lia|done]|done]. }
  do 3 (destruct (_ =? _); [by apply literal_ok|]).
  destruct (scan_number (c :: cs)) as [[lit r']|] eqn:E; [|done]. intros [= <- <-].
  pose proof (scan_number_ok _ _ _ E). apply scan_number_split in E. rewrite E in Hbs.
  apply Forall_app in Hbs as [_ ?]. split; [split; [done|simpl; lia]|done].
Qed.

Lemma elems_reader_S f : value_reader f -> elems_reader f -> elems_reader (S f).
Proof.
  intros Hv He d bs l r Hd Hbs. cbn [parse_elems].
  destruct (parse_value f d bs) as [[v r1]|] eqn:E; [|done]. apply Hv in E as [Hv1 Hr1%skip_ws_bytes]; [|done..].
  destruct (skip_ws r1) as [|c r2]; [done|]. apply list.Forall_cons in Hr1 as [_ Hr2].
  destruct (c =? 44).
  - destruct (parse_elems f d r2) as [[l' r3]|] eqn:E2; [|done]. apply He in E2 as [??]; [|done..].
    intros [= <- <-]. split; [by constructor|done].
  - case_match; [|done]. intros [= <- <-]. split; [by apply list.Forall_singleton|done].
Qed.

Lemma members_reader_S f : value_reader f -> members_reader f -> members_reader (S f).
Proof.
  intros Hv Hm d bs l r Hd Hbs. cbn [parse_members].
  destruct (expect [34] _) as [r0|] eqn:E0; [|done].
  apply expect_incl with (P := is_byte) in E0; [|by apply skip_ws_bytes].
  destruct (scan_string r0) as [[k r1]|] eqn:E1; [|done]. apply scan_string_ok in E1 as [Hk Hr1]; [|done].
  destruct (expect [58] _) as [r2|] eqn:E2; [|done].
  apply expect_incl with (P := is_byte) in E2; [|by apply skip_ws_bytes].
  destruct (parse_value f d r2) as [[v r3]|] eqn:E; [|done]. apply Hv in E as [Hv1 Hr3%skip_ws_bytes]; [|done..].
  destruct (skip_ws r3) as [|c r4]; [done|]. apply list.Forall_cons in Hr3 as [_ Hr4].
  destruct (c =? 44).
  - destruct (parse_members f d r4) as [[l' r5]|] eqn:E3; [|done]. apply Hm in E3 as [??]; [|done..].
    intros [= <- <-]. split; [by constructor|done].
  - case_match; [|done]. intros [= <- <-]. split; [by apply list.Forall_singleton|done].
Qed.

Lemma parse_readers f : value_reader f /\ elems_reader f /\ members_reader f.
Proof.
  induction f as [|f (Hv & He & Hm)]; [by repeat split|].
  split; [by apply value_reader_S|]. split; [by apply elems_reader_S|by apply members_reader_S].
Qed.

Lemma parse_ok bs t : Forall is_byte bs -> parse bs = Some t -> tree_ok t /\ nesting t <= max_depth.
Proof.
  unfold parse. intros Hbs. destruct (parse_value _ 0 bs) as [[t' r]|] eqn:E; [|done].
  apply parse_readers in E as [[H1 H2] _]; [|done..]. case_match; [|done]. intros [= <-]. split; [done|lia].
Qed.

(** ** Values the program encodes *)
Lemma hex_digit_is_hex d : 0 <= d < 16 -> unhex (hex_digit d) = Some d.
Proof.
  intros H. unfold hex_digit, unhex, in_range. case_match; reflect_bools;
    repeat case_match; reflect_bools; f_equal; lia.
Qed.

Lemma uni_nibbles r : 0 <= r < 65536 ->
  exists a b c d, uni r = Uni a b c d /\ unhex a = Some (r / 4096) /\ unhex b = Some (r / 256 mod 16) /\
    unhex c = Some (r / 16 mod 16) /\ unhex d = Some (r mod 16).
Proof.
  intros H. unfold uni. do 4 eexists. split; [done|].
  rewrite !hex_digit_is_hex by (Z.to_euclidean_division_equations; lia). done.
Qed.

Lemma uni_ok r : 0 <= r < 65536 -> item_ok (uni r).
Proof.
  intros (a & b & c & d & -> & Ha & Hb & Hc & Hd)%uni_nibbles. simpl. unfold is_hex. by rewrite Ha, Hb, Hc, Hd.
Qed.

Lemma uni_value r : 0 <= r < 65536 ->
  exists a b c d, uni r = Uni a b c d /\ code_unit a b c d = r.
Proof.
  intros H. destruct (uni_nibbles r H) as (a & b & c & d & -> & Ha & Hb & Hc & Hd).
  exists a, b, c, d. split; [done|]. unfold code_unit, hex_value. rewrite Ha, Hb, Hc, Hd.
  Z.to_euclidean_division_equations. lia.
Qed.

(** The bytes of a rune from 128 on are all at least 128. *)
Lemma EncodeRune_high r : 128 <= r -> valid_rune r = true -> Forall (fun b => 128 <= b < 256) (EncodeRune r).
Proof.
  intros Hr Hv. pose proof Hv as Hs%valid_rune_spec. unfold EncodeRune. rewrite Hv.
  repeat case_match; reflect_bools; try lia; repeat constructor; Z.to_euclidean_division_equations; lia.
Qed.

Lemma rune_items_ok r ok : valid_rune r = true -> Forall item_ok (rune_items (r, ok)).
Proof.
  intros Hv. pose proof Hv as Hs%valid_rune_spec. unfold rune_items.
  destruct ok; [|by apply list.Forall_singleton]. simpl.
  destruct (_ || _) eqn:E0; [apply list.Forall_singleton; reflect_bools; by destruct E0 as [-> | ->]|].
  apply orb_false_iff in E0 as [?%Z.eqb_neq ?%Z.eqb_neq].
  do 5 (destruct (_ =? _); [by apply list.Forall_singleton|]).
  destruct (_ || _) eqn:E in |- *; [apply list.Forall_singleton, uni_ok; reflect_bools; lia|].
  reflect_bools. apply Forall_map. destruct (Z.ltb_spec r 128).
  - unfold EncodeRune. rewrite Hv, (proj2 (Z.ltb_lt r 128)) by done. apply list.Forall_singleton.
    unfold item_ok, raw_ok. lia.
  - eapply List.Forall_impl; [|by apply EncodeRune_high]. intros b Hb. cbv beta in Hb.
    unfold item_ok, raw_ok. lia.
Qed.

Lemma decode_bytes_valid s : Forall (fun x => valid_rune (fst x) = true) (decode_bytes (bytes s)).
Proof. pose proof (runes_valid s) as H. unfold runes in H. by rewrite Forall_map in H. Qed.

Lemma str_items_ok s : Forall item_ok (str_items s).
Proof.
  unfold str_items. apply Forall_concat, Forall_map. eapply List.Forall_impl; [|apply decode_bytes_valid].
  intros [r ok] H. by apply rune_items_ok.
Qed.

Lemma unquote_uni r rest :
  0 <= r < 65536 -> surrogate r = false -> unquote_skip 0 (uni r :: rest) = r :: unquote_skip 0 rest.
Proof.
  intros H Hs. destruct (uni_value r H) as (a & b & c & d & -> & Hv).
  cbn [unquote_skip]. by rewrite Hv, Hs.
Qed.

Lemma raw_prefix_app l rest : raw_prefix (map Raw l ++ rest) = l ++ raw_prefix rest.
Proof. induction l; simpl; [done|by f_equal]. Qed.

Lemma unquote_skip_app n l rest :
  n = List.length l -> unquote_skip n (map Raw l ++ rest) = unquote_skip 0 rest.
Proof. intros ->. by induction l. Qed.

Lemma unquote_raw r rest :
  valid_rune r = true ->
  unquote_skip 0 (map Raw (EncodeRune r) ++ rest) = r :: unquote_skip 0 rest.
Proof.
  intros Hv. pose proof (DecodeRune_EncodeRune r (raw_prefix rest) Hv) as Hd.
  destruct (EncodeRune_cons r) as (b & t & E). rewrite E in *. cbn [map app unquote_skip].
  rewrite raw_prefix_app. cbn [app] in Hd. rewrite Hd. f_equal.
  apply unquote_skip_app. simpl. lia.
Qed.

Lemma unquote_rune r ok rest :
  valid_rune r = true -> (ok = false -> r = RuneError) ->
  unquote_skip 0 (rune_items (r, ok) ++ rest) = r :: unquote_skip 0 rest.
Proof.
  intros Hv Hok. pose proof Hv as Hs%valid_rune_spec. unfold rune_items.
  destruct ok; cbn [negb]; [|rewrite (Hok eq_refl); by apply unquote_uni].
  destruct (_ || _) eqn:E0; [reflect_bools; by destruct E0 as [-> | ->]|].
  apply orb_false_iff in E0 as [?%Z.eqb_neq ?%Z.eqb_neq].
  destruct (Z.eqb_spec r 8) as [->|]; [done|]. destruct (Z.eqb_spec r 12) as [->|]; [done|].
  destruct (Z.eqb_spec r 10) as [->|]; [done|]. destruct (Z.eqb_spec r 13) as [->|]; [done|].
  destruct (Z.eqb_spec r 9) as [->|]; [done|].
  destruct (_ || _) eqn:E in |- *; [|by apply unquote_raw]. reflect_bools.
  apply unquote_uni; [lia|]. unfold surrogate, in_range. reflect_bools. lia.
Qed.

Lemma decode_skip_bad n bs : Forall (fun x => snd x = false -> fst x = RuneError) (decode_skip n bs).
Proof.
  revert n. induction bs as [|b bs IH]; intros n; cbn [decode_skip]; [constructor|].
  destruct n as [|n]; [|apply IH]. destruct (DecodeRune (b :: bs)) as [r w]. constructor; [|apply IH].
  simpl. intros H. reflect_bools. by destruct H.
Qed.

(** A string read back: invalid bytes have become U+FFFD. *)
Lemma unquote_str_items s : unquote (str_items s) = of_runes (runes s).
Proof.
  unfold unquote, str_items, runes. f_equal.
  pose proof (decode_bytes_valid s) as Hv. pose proof (decode_skip_bad 0 (bytes s)) as Hb.
  fold (decode_bytes (bytes s)) in Hb. revert Hv Hb.
  induction (decode_bytes (bytes s)) as [|[r ok] l IH]; intros Hv Hb; [done|].
  apply list.Forall_cons in Hv as [Hr Hv], Hb as [Ho Hb]. cbn [map concat].
  by rewrite unquote_rune, IH.
Qed.

Lemma unquote_valid s : ValidString s = true -> unquote (str_items s) = s.
Proof. intros H. rewrite unquote_str_items. by apply of_runes_runes. Qed.

Lemma str_items_inj a b :
  ValidString a = true -> ValidString b = true -> str_items a = str_items b -> a = b.
Proof. intros Ha Hb H%(f_equal unquote). by rewrite !unquote_valid in H. Qed.

Lemma jint_ok n : int64_range n -> tree_ok (jint n).
Proof.
  unfold int64_range, max_int64. intros Hn. simpl. unfold num_ok, itoa.
  assert (Hi : forall m, 0 <= m <= 2 ^ 63 -> int_ok (bytes (itoa_fuel 20 m ""))).
  { intros m Hm. destruct (itoa_fuel_shape 19 m "") as (d & ds & -> & Hd & H0); [lia|].
    rewrite app_nil_r. destruct (Z.eq_dec d 48) as [->|]; [left; by destruct H0 as [-> _]|right; eauto]. }
  destruct (Z.ltb_spec n 0).
  - exists [45], (bytes (itoa_fuel 20 (- n) "")), [], []. rewrite !app_nil_r.
    split; [done|]. split; [by right|]. split; [apply Hi; lia|]. split; by left.
  - exists [], (bytes (itoa_fuel 20 n "")), [], []. rewrite !app_nil_r.
    split; [done|]. split; [by left|]. split; [apply Hi; lia|]. split; by left.
Qed.

Lemma jint_inj a b : int64_range a -> int64_range b -> jint a = jint b -> a = b.
Proof.
  intros Ha Hb [= H]. apply itoa_injective; [done..|].
  by rewrite <- (of_bytes_bytes (itoa a)), H, of_bytes_bytes.
Qed.

Lemma raw_items_ok l : Forall raw_ok l -> Forall item_ok (map Raw l).
Proof. intros H. by apply Forall_map. Qed.

Lemma raw_items_inj a b : map Raw a = map Raw b -> a = b.
Proof. revert b. induction a as [|x a IH]; intros [|y b] [=]; [done|]. f_equal; auto. Qed.

Lemma jtime_inj a b : jtime a = jtime b -> a = b.
Proof.
  unfold jtime. generalize (RFC3339Nano_inj a b). generalize (RFC3339Nano a), (RFC3339Nano b).
  intros la lb Hinj [= H%raw_items_inj]. by apply Hinj.
Qed.

Lemma digit_raw d : 0 <= d < 10 -> raw_ok (48 + d).
Proof. unfold raw_ok. lia. Qed.

Lemma digits2_raw n : 0 <= n < 100 -> Forall raw_ok (digits2 n).
Proof.
  intros H. repeat constructor; try apply digit_raw; Z.to_euclidean_division_equations; lia.
Qed.

Lemma digits_raw k n : Forall raw_ok (digits k n).
Proof.
  revert n. induction k as [|k IH]; intros n; simpl; [constructor|].
  apply Forall_app. split; [apply IH|]. apply list.Forall_singleton, digit_raw. by apply Z.mod_pos_bound.
Qed.

Lemma trim_zeros_raw l : Forall raw_ok l -> Forall raw_ok (trim_zeros l).
Proof.
  induction 1 as [|x l Hx Hl IH]; simpl; [constructor|].
  destruct (trim_zeros l); [case_match; [constructor|by apply list.Forall_singleton]|by constructor].
Qed.

Lemma jtime_tree_ok t : jtime_ok t = true -> tree_ok (jtime t).
Proof.
  unfold jtime_ok, year. intros Hy%in_range_spec. apply raw_items_ok.
  unfold RFC3339Nano. pose proof (Date_range (t / day_ns)) as Hd.
  destruct (Date (t / day_ns)) as [[y m] d]. simpl in Hy. destruct Hd as [Hm Hd].
  assert (Hs : 0 <= t mod day_ns / Second < 86400).
  { pose proof (Z.mod_pos_bound t day_ns ltac:(done)). split; [apply Z.div_pos; [lia|done]|].
    apply Z.div_lt_upper_bound; [done|]. unfold day_ns in *. lia. }
  unfold digits4. rewrite !Forall_app. split_and!; try (apply list.Forall_singleton; unfold raw_ok; lia);
    try (apply digits2_raw; Z.to_euclidean_division_equations; lia).
  unfold fraction. case_match; [constructor|]. constructor; [unfold raw_ok; lia|].
  apply trim_zeros_raw, digits_raw.
Qed.

Lemma html_items_ok l : Forall item_ok l -> Forall item_ok (html_items l).
Proof.
  assert (Hraw : forall b, item_ok (Raw b) -> item_ok (html_raw b)).
  { intros b Hb. unfold html_raw. case_match eqn:E; [|done]. apply uni_ok. reflect_bools. lia. }
  assert (H : forall n l, (List.length l <= n)%nat -> Forall item_ok l -> Forall item_ok (html_items l)).
  { clear l. induction n as [|n IH]; intros [|i l] Hn Hl; try (simpl in Hn; lia); try constructor.
    apply list.Forall_cons in Hl as [Hi Hl]. simpl in Hn.
    assert (IHl := IH l ltac:(lia) Hl). destruct i as [b|c|a b c d]; cbn [html_items]; [|by constructor..].
    assert (Hdefault : Forall item_ok (html_raw b :: html_items l)) by (constructor; [by apply Hraw|done]).
    destruct l as [|[c| |] [|[d| |] l]]; try done. case_match eqn:E; [|done].
    apply list.Forall_cons in Hl as [_ Hl]. apply list.Forall_cons in Hl as [_ Hl].
    constructor; [apply uni_ok; reflect_bools; lia|]. apply IH; [simpl in Hn; lia|done]. }
  by apply (H (List.length l)).
Qed.

Lemma html_tree_ok t : tree_ok t -> tree_ok (html_tree t) /\ nesting (html_tree t) = nesting t.
Proof.
  induction t as [|b|lit|s|l IH|fs IH] using jtree_ind_nested; simpl; intros Hok; try done.
  - split; [by apply html_items_ok|done].
  - induction IH as [|x l Hx _ IHl]; simpl in *; [done|]. destruct Hok as [H1 H2].
    destruct (Hx H1) as [? ->], (IHl H2) as [? ?]. split; [done|lia].
  - induction IH as [|x l Hx _ IHl]; simpl in *; [done|]. destruct Hok as [[H0 H1] H2].
    destruct (Hx H1) as [? ->], (IHl H2) as [? ?]. split; [|lia]. split; [|done].
    split; [by apply html_items_ok|done].
Qed.

Lemma jraw_ok doc t : jraw doc = Some t -> tree_ok t /\ nesting t <= max_depth.
Proof.
  unfold jraw. destruct (parse (bytes doc)) as [t'|] eqn:E; [|done]. intros [= <-].
  apply parse_ok in E as [H1 H2]; [|apply bytes_range]. destruct (html_tree_ok t' H1) as [? ->]. done.
Qed.

(** ** Documents as strings *)
Lemma is_hex_byte b : is_hex b = true -> is_byte b.
Proof.
  unfold is_hex, unhex, is_byte. repeat case_match; try done; intros _;
    match goal with H : in_range _ _ _ = true |- _ => apply in_range_spec in H; lia end.
Qed.

Lemma item_bytes_ok i : item_ok i -> Forall is_byte (item_bytes i).
Proof.
  destruct i as [b|c|a b c d]; simpl; intros H.
  - apply list.Forall_singleton. unfold raw_ok, is_byte in *. lia.
  - assert (is_byte c).
    { unfold simple_escape in H. apply existsb_exists in H as (x & Hx & ->%Z.eqb_eq).
      unfold is_byte. simpl in Hx. intuition lia. }
    by repeat (constructor; [done|]).
  - rewrite !andb_true_iff in H. destruct H as (?%is_hex_byte & ?%is_hex_byte & ?%is_hex_byte & ?%is_hex_byte & _).
    by repeat (constructor; [done|]).
Qed.

Lemma quoted_bytes s : Forall item_ok s -> Forall is_byte (quoted s).
Proof.
  intros H. unfold quoted. constructor; [done|]. apply Forall_app. split; [|by apply list.Forall_singleton].
  apply Forall_concat, Forall_map. eapply List.Forall_impl; [|exact H]. apply item_bytes_ok.
Qed.

Lemma digits_bytes ds : all_digits ds -> Forall is_byte ds.
Proof.
  unfold all_digits. rewrite forallb_forall. intros H. apply list.Forall_forall. intros d Hd%list_elem_of_In%H.
  unfold is_digit in Hd. apply in_range_spec in Hd. unfold is_byte. lia.
Qed.

Lemma num_bytes lit : num_ok lit -> Forall is_byte lit.
Proof.
  intros (s & i & f & e & -> & Hs & Hi & Hf & He). rewrite !Forall_app. split_and!.
  - destruct Hs as [-> | ->]; [constructor|by apply list.Forall_singleton].
  - destruct Hi as [->|(d & ds & -> & _ & H)]; [by apply list.Forall_singleton|by apply digits_bytes].
  - destruct Hf as [->|(ds & -> & _ & H)]; [constructor|constructor; [done|by apply digits_bytes]].
  - destruct He as [->|(x & sg & ds & -> & Hx & Hsg & _ & H)]; [constructor|].
    constructor; [by destruct Hx as [-> | ->]|]. apply Forall_app. split; [|by apply digits_bytes].
    destruct Hsg as [->|[->| ->]]; [constructor|by apply list.Forall_singleton..].
Qed.

Lemma sep_bytes l : Forall (Forall is_byte) l -> Forall is_byte (sep l).
Proof.
  induction 1 as [|x l Hx Hl IH]; [constructor|]. destruct l as [|y l]; [done|].
  change (sep (x :: y :: l)) with (x ++ 44 :: sep (y :: l)). apply Forall_app. split; [done|by constructor].
Qed.

Lemma print_bytes t : tree_ok t -> Forall is_byte (print t).
Proof.
  induction t as [|b|lit|s|l IH|fs IH] using jtree_ind_nested; intros Hok; cbn [print].
  - apply bytes_range.
  - destruct b; apply bytes_range.
  - by apply num_bytes.
  - by apply quoted_bytes.
  - constructor; [done|]. apply Forall_app. split; [|by apply list.Forall_singleton]. apply sep_bytes, Forall_map.
    simpl in Hok. induction IH as [|x l Hx _ IHl]; constructor; [apply Hx, Hok|apply IHl, Hok].
  - constructor; [done|]. apply Forall_app. split; [|by apply list.Forall_singleton]. apply sep_bytes, Forall_map.
    simpl in Hok. induction IH as [|x l Hx _ IHl]; constructor; [|apply IHl, Hok].
    destruct Hok as [[Hk Hv] _]. apply Forall_app. split; [by apply quoted_bytes|].
    constructor; [done|]. by apply Hx.
Qed.

Lemma parse_Marshal t : tree_ok t -> nesting t <= max_depth -> parse (bytes (Marshal t)) = Some t.
Proof.
  intros Hok Hn. unfold Marshal. rewrite bytes_of_bytes; [by apply parse_print|by apply print_bytes].
Qed.

Lemma Marshal_inj t1 t2 :
  tree_ok t1 -> tree_ok t2 -> nesting t1 <= max_depth -> nesting t2 <= max_depth ->
  Marshal t1 = Marshal t2 -> t1 = t2.
Proof.
  intros H1 H2 N1 N2 E. pose proof (parse_Marshal t1 H1 N1) as P1. rewrite E, parse_Marshal in P1 by done.
  by injection P1.
Qed.

Lemma key_ok k v : tree_ok v -> Forall item_ok (fst (key k v)) /\ tree_ok (snd (key k v)).
Proof. intros H. split; [apply str_items_ok|done]. Qed.

Lemma jstr_ok s : tree_ok (jstr s).
Proof. apply str_items_ok. Qed.

Lemma jstr_inj a b : ValidString a = true -> ValidString b = true -> jstr a = jstr b -> a = b.
Proof. intros Ha Hb [= H]. by apply str_items_inj. Qed.

Lemma base64_raw bs : Forall is_byte bs -> Forall raw_ok (base64_encode bs).
Proof.
  assert (Hc : forall v, 0 <= v < 64 -> raw_ok (base64_char v)).
  { intros v Hv. unfold base64_char, raw_ok. repeat case_match; reflect_bools; lia. }
  assert (H61 : raw_ok 61) by (unfold raw_ok; lia). unfold is_byte.
  assert (H : forall n bs, (List.length bs <= n)%nat -> Forall (fun b => 0 <= b < 256) bs -> Forall raw_ok (base64_encode bs)).
  { clear bs. induction n as [|n IH]; intros [|a [|b [|c bs]]] Hn Hbs; try (simpl in Hn; lia); try constructor;
      repeat match goal with H : Forall _ (_ :: _) |- _ => apply list.Forall_cons in H as [? H] end;
      repeat (constructor; [try done; apply Hc; Z.to_euclidean_division_equations; lia|]); try constructor;
      try (apply Hc; Z.to_euclidean_division_equations; lia).
    apply IH; [simpl in *; lia|done]. }
  intros Hbs. by apply (H (List.length bs)).
Qed.

Lemma jbytes_ok o : tree_ok (jbytes (option_map bytes o)).
Proof.
  destruct o as [s|]; simpl; [|done]. apply raw_items_ok, base64_raw, bytes_range.
Qed.

(** ** Reading numbers and fields back *)
Lemma parse_int_itoa n : int64_range n -> parse_int (bytes (itoa n)) = Some n.
Proof.
  unfold int64_range, max_int64, parse_int, itoa. intros Hn.
  assert (Hpos : forall m, 0 <= m <= 2 ^ 63 -> exists d ds, bytes (itoa_fuel 20 m "") = d :: ds /\
    forallb is_digit (d :: ds) = true /\ atoi_digits (d :: ds) 0 = m).
  { intros m Hm. destruct (itoa_fuel_shape 19 m "") as (d & ds & E & Hd & _); [lia|].
    rewrite app_nil_r in E. exists d, ds. split; [done|]. split; [done|]. rewrite <- E.
    rewrite itoa_fuel_value; [done|lia]. }
  assert (Hr : forall v, - 2 ^ 63 <= v <= 2 ^ 63 - 1 -> in_range (- 2 ^ 63) v max_int64 = true).
  { intros v Hv. apply in_range_spec. unfold max_int64. lia. }
  destruct (Z.ltb_spec n 0).
  - destruct (Hpos (- n) ltac:(lia)) as (d & ds & E & Hd & Hv).
    change (bytes (String "-" (itoa_fuel 20 (- n) ""))) with (45 :: bytes (itoa_fuel 20 (- n) "")).
    rewrite E. cbn [scan_opt]. rewrite Z.eqb_refl, Hd. cbn [negb andb]. rewrite bool_decide_eq_false_2 by done.
    cbn [negb andb]. rewrite Hv, Hr by lia. f_equal. lia.
  - destruct (Hpos n ltac:(lia)) as (d & ds & E & Hd & Hv). rewrite E. cbn [scan_opt].
    assert (Hne : (45 =? d) = false).
    { apply Z.eqb_neq. intros <-. by apply andb_true_iff in Hd as [Hd _]. }
    rewrite Hne, Hd. rewrite bool_decide_eq_false_2 by done. cbn [negb andb]. by rewrite Hv, Hr by lia.
Qed.

Lemma dec_int64_jint n : int64_range n -> dec_int64 (jint n) = Some n.
Proof. apply parse_int_itoa. Qed.

Lemma dec_string_jstr s : ValidString s = true -> dec_string (jstr s) = Some s.
Proof. intros H. simpl. by rewrite unquote_valid. Qed.

Definition key_is (k name : string) : bool := fold_name (unquote (str_items k)) ==? fold_name name.

(** Decoding a field from members written by [key]. *)
Lemma decode_field_key {A} (dec : jtree -> option A) name zero pre k v post x :
  Forall (fun kv => key_is (fst kv) name = false) pre -> Forall (fun kv => key_is (fst kv) name = false) post ->
  key_is k name = true -> v <> TNull -> dec v = Some x ->
  decode_field dec name zero (map (fun kv => key (fst kv) (snd kv)) pre ++ key k v ::
    map (fun kv => key (fst kv) (snd kv)) post) = Some x.
Proof.
  intros Hpre Hpost Hk Hv Hx.
  assert (Hskip : forall l acc, Forall (fun kv => key_is (fst kv) name = false) l ->
    fold_left (fun acc kv => if fold_name (unquote (fst kv)) ==? fold_name name then
      match snd kv, acc with TNull, _ => acc | v, Some _ => dec v | _, None => None end else acc)
      (map (fun kv => key (fst kv) (snd kv)) l) acc = acc).
  { induction l as [|[k' v'] l IH]; intros acc Hl; [done|]. apply list.Forall_cons in Hl as [H Hl].
    cbn [map fold_left key fst snd]. unfold key_is in H. cbn [fst] in H. rewrite H. by apply IH. }
  unfold decode_field. rewrite fold_left_app, Hskip by done. cbn [fold_left key fst snd].
  unfold key_is in Hk. rewrite Hk. destruct v; try done; rewrite Hx; by apply Hskip.
Qed.
