(* ===== verification/JsonStruct.v ===== *)
(** * JSON and Go structs

    [encoding/json] on structs, slices and maps beyond single fields: members
    left out when empty, slices that may be nil, unsigned numbers and booleans;
    and what a document keeps when its members are reordered and its text is
    written anew, which is what a JSONB column does. *)
From S2P Require Import Prelude GoStrings GoEncoding GoDecoding Json.
Local Open Scope Z_scope.

(** ** Slices

    A nil slice and an empty one differ, so a slice is an [option list]. *)
Definition elems {A} (s : option (list A)) : list A := match s with Some l => l | None => [] end.
(** [append([]T(nil), s...)]: nil when there is nothing to copy. *)
Definition copy_slice {A} (s : option (list A)) : option (list A) :=
  match elems s with [] => None | l => Some l end.
Definition slice_len {A} (s : option (list A)) : Z := Z.of_nat (List.length (elems s)).
Definition no_elems {A} (s : option (list A)) : bool := match elems s with [] => true | _ => false end.

Lemma elems_copy_slice {A} (s : option (list A)) : elems (copy_slice s) = elems s.
Proof. unfold copy_slice. by destruct (elems s). Qed.

Lemma copy_slice_idemp {A} (s : option (list A)) : copy_slice (copy_slice s) = copy_slice s.
Proof. by destruct s as [[|]|]. Qed.

(** ** Encoding *)
Definition omitempty (empty : bool) (k : string) (v : jtree) : list (list item * jtree) :=
  if empty then [] else [key k v].
Definition jslice {A} (f : A -> jtree) (s : option (list A)) : jtree :=
  match s with Some l => TArr (map f l) | None => TNull end.

(** A map: members sorted by name. *)
Definition name_leb (a b : string * string) : bool := str_leb a.1 b.1.
Definition map_tree (m : gmap string string) : jtree :=
  TObj (map (fun kv => key kv.1 (jstr kv.2)) (isort name_leb (map_to_list m))).

(** ** Decoding *)
Definition max_uint64 : Z := 2 ^ 64 - 1.
Definition uint64_range (n : Z) : Prop := 0 <= n <= max_uint64.
Definition dec_uint64 (t : jtree) : option Z :=
  match t with
  | TNum lit =>
    if forallb is_digit lit && negb (lit ==? []) then
      let v := atoi_digits lit 0 in if in_range 0 v max_uint64 then Some v else None
    else None
  | _ => None
  end.
Definition dec_bool (t : jtree) : option bool := match t with TBool b => Some b | _ => None end.
(** A null element is the zero value; an array, even an empty one, makes a
    slice that is not nil. *)
Definition dec_elem {A} (dec : jtree -> option A) (zero : A) (t : jtree) : option A :=
  match t with TNull => Some zero | _ => dec t end.
Definition dec_slice {A} (dec : jtree -> option A) (zero : A) (t : jtree) : option (option (list A)) :=
  match t with TArr l => option_map Some (mapM (dec_elem dec zero) l) | _ => None end.
Definition dec_strings : jtree -> option (option (list string)) := dec_slice dec_string "".
(** A [time.Time] is parsed from the text between the quotes as it stands; a
    [[]byte] from the base64 that the string contains. *)
Definition dec_time (t : jtree) : option Z :=
  match t with TStr s => parse_RFC3339 (concat (map item_bytes s)) | _ => None end.
Definition dec_bytes (t : jtree) : option (option string) :=
  match t with TStr s => option_map (fun b => Some (of_bytes b)) (base64_decode (bytes (unquote s))) | _ => None end.
(** Members are added to the map the field has; the last of several counts. *)
Definition dec_pair (kv : list item * jtree) : option (string * string) :=
  option_map (pair (unquote (fst kv))) (dec_elem dec_string "" (snd kv)).
Definition dec_map (old : option (gmap string string)) (t : jtree) : option (option (gmap string string)) :=
  match t with
  | TObj fs => option_map (fun l => Some (list_to_map (reverse l) ∪ default ∅ old)) (mapM dec_pair fs)
  | _ => None
  end.
(** A field that is a struct: the members are decoded into the value it has. *)
Definition dec_struct {A} (dec : A -> list (list item * jtree) -> option A) (old : A) (t : jtree) : option A :=
  match t with TObj fs => dec old fs | _ => None end.
Definition decode_into {A} (dec : A -> jtree -> option A) (name : string) (zero : A) (fields : list (list item * jtree)) :
    option A :=
  fold_left (fun acc kv =>
    if fold_name (unquote (fst kv)) ==? fold_name name then
      match snd kv, acc with
      | TNull, _ => acc
      | v, Some a => dec a v
      | _, None => None
      end
    else acc) fields (Some zero).

(** ** Reading back what was written *)
Definition fkey (kv : list item * jtree) : list Z := fold_name (unquote (fst kv)).

Section Fields.
Context {A : Type} (dec : A -> jtree -> option A) (name : string).
Definition absorb (acc : option A) (kv : list item * jtree) : option A :=
  if fkey kv ==? fold_name name then
    match snd kv, acc with
    | TNull, _ => acc
    | v, Some a => dec a v
    | _, None => None
    end
  else acc.
Lemma decode_into_absorb zero fs : decode_into dec name zero fs = fold_left absorb fs (Some zero).
Proof. reflexivity. Qed.

Lemma absorb_other acc k v : key_is k name = false -> absorb acc (key k v) = acc.
Proof. unfold absorb, fkey, key_is, key. cbn [fst snd]. by intros ->. Qed.
Lemma absorb_hit a k v x : key_is k name = true -> v <> TNull -> dec a v = Some x -> absorb (Some a) (key k v) = Some x.
Proof. unfold absorb, fkey, key_is, key. cbn [fst snd]. intros -> Hv Hx. by destruct v. Qed.
Lemma absorb_omit_other acc c k v : key_is k name = false -> fold_left absorb (omitempty c k v) acc = acc.
Proof. intros Hk. unfold omitempty. destruct c; [done|]. by apply absorb_other. Qed.
Lemma absorb_omit_hit zero c k v x :
  key_is k name = true -> (c = false -> v <> TNull /\ dec zero v = Some x) -> (c = true -> zero = x) ->
  fold_left absorb (omitempty c k v) (Some zero) = Some x.
Proof.
  intros Hk Hv Hz. unfold omitempty. destruct c; cbn [fold_left]; [by rewrite Hz|].
  destruct (Hv eq_refl). by apply absorb_hit.
Qed.

(** Members under other names do not matter. *)
Lemma absorb_filter fs acc :
  fold_left absorb fs acc = fold_left absorb (List.filter (fun kv => fkey kv ==? fold_name name) fs) acc.
Proof.
  revert acc. induction fs as [|kv fs IH]; intros acc; [done|]. cbn [fold_left List.filter].
  destruct (fkey kv ==? fold_name name) eqn:E; cbn [fold_left]; [by rewrite IH|].
  unfold absorb at 2. by rewrite E, IH.
Qed.
End Fields.
Lemma decode_field_absorb {A} (dec : jtree -> option A) name zero fs :
  decode_field dec name zero fs = fold_left (absorb (fun _ => dec) name) fs (Some zero).
Proof. reflexivity. Qed.

Lemma dec_uint64_jint n : uint64_range n -> dec_uint64 (jint n) = Some n.
Proof.
  unfold uint64_range, max_uint64. intros Hn. unfold dec_uint64, jint, itoa.
  rewrite (proj2 (Z.ltb_ge n 0)) by lia.
  destruct (itoa_fuel_shape 19 n "") as (d & ds & E & Hd & _); [lia|]. rewrite app_nil_r in E.
  pose proof (itoa_fuel_value 19 n "" ltac:(lia)) as Hv. rewrite E in Hv |- *. rewrite Hd.
  rewrite bool_decide_eq_false_2 by done. cbn [negb andb]. rewrite Hv.
  cbn [bytes atoi_digits String.list_ascii_of_string map]. by rewrite (proj2 (in_range_spec _ _ _)) by (unfold max_uint64; lia).
Qed.

Lemma dec_slice_map {A} (f : A -> jtree) dec zero l :
  Forall (fun x => f x <> TNull /\ dec (f x) = Some x) l -> dec_slice dec zero (TArr (map f l)) = Some (Some l).
Proof.
  intros Hl. cbn [dec_slice]. assert (Hm : mapM (dec_elem dec zero) (map f l) = Some l); [|by rewrite Hm].
  induction Hl as [|x l [Hn Hx] _ IH]; [done|]. cbn [map mapM]. unfold mapM in *. cbn.
  replace (dec_elem dec zero (f x)) with (Some x) by (unfold dec_elem; by destruct (f x)).
  cbn. by rewrite IH.
Qed.

Lemma concat_raw l : concat (map item_bytes (map Raw l)) = l.
Proof. induction l as [|b l IH]; [done|]. cbn [map concat item_bytes app]. by rewrite IH. Qed.
Lemma dec_time_jtime t : jtime_ok t = true -> dec_time (jtime t) = Some t.
Proof. intros Ht. unfold dec_time, jtime. rewrite concat_raw. by apply parse_RFC3339_RFC3339Nano. Qed.

(** Text without quotes, escapes and wide runes stands for itself. *)
Lemma unquote_ascii l : Forall (fun b => 0 <= b < 128) l -> bytes (unquote (map Raw l)) = l.
Proof.
  intros Hl. unfold unquote.
  assert (Hu : unquote_skip 0 (map Raw l) = l).
  { induction Hl as [|b l Hb _ IH]; [done|]. cbn [map unquote_skip].
    assert (E : forall r, DecodeRune (b :: r) = (b, 1%nat)).
    { intros r. unfold DecodeRune. by rewrite (proj2 (Z.ltb_lt b 128)) by lia. }
    rewrite E. cbn [Nat.sub]. by rewrite IH. }
  rewrite Hu, bytes_of_runes. clear Hu. induction Hl as [|b l Hb _ IH]; [done|]. cbn [map concat].
  unfold EncodeRune at 1. rewrite (proj2 (valid_rune_spec b)) by lia. rewrite (proj2 (Z.ltb_lt b 128)) by lia.
  cbn [app]. by rewrite IH.
Qed.
Lemma base64_ascii bs : Forall is_byte bs -> Forall (fun b => 0 <= b < 128) (base64_encode bs).
Proof.
  assert (Hc : forall v, 0 <= v < 64 -> 0 <= base64_char v < 128).
  { intros v Hv. unfold base64_char. repeat case_match; reflect_bools; lia. }
  unfold is_byte. induction bs as [|a|a b|a b c rest IH] using base64_encode_ind; intros Hb;
    repeat (apply list.Forall_cons in Hb as [? Hb]); cbn [base64_encode];
    repeat (apply list.Forall_cons; split; [first [lia | apply Hc; Z.to_euclidean_division_equations; lia]|]); auto.
Qed.
Lemma dec_bytes_jbytes s : dec_bytes (jbytes (Some (bytes s))) = Some (Some s).
Proof.
  unfold dec_bytes, jbytes. rewrite unquote_ascii, base64_roundtrip by (apply base64_ascii || idtac; apply bytes_range).
  cbn [option_map]. by rewrite of_bytes_bytes.
Qed.

(** A map comes back as it was written. *)
Definition map_fits (m : gmap string string) : Prop :=
  map_Forall (fun k v => ValidString k = true /\ ValidString v = true) m.
Lemma dec_map_tree m : map_fits m -> dec_map None (map_tree m) = Some (Some m).
Proof.
  intros Hm. unfold dec_map, map_tree. pose proof (isort_perm name_leb (map_to_list m)) as Hperm.
  assert (Hl : Forall (fun kv => ValidString kv.1 = true /\ ValidString kv.2 = true) (isort name_leb (map_to_list m))).
  { rewrite Hperm. apply list.Forall_forall. intros [k v] Hin%elem_of_map_to_list. exact (Hm _ _ Hin). }
  assert (Hmap : mapM dec_pair (map (fun kv => key kv.1 (jstr kv.2)) (isort name_leb (map_to_list m))) =
    Some (isort name_leb (map_to_list m))).
  { apply mapM_Some, Forall2_fmap_l, Forall_Forall2_diag. eapply List.Forall_impl; [|exact Hl]. intros [k v] [Hk Hv].
    change (dec_pair (key k (jstr v)) = Some (k, v)). unfold dec_pair, key. cbn [fst snd]. rewrite unquote_valid by done.
    pose proof (dec_string_jstr v Hv) as Hd. unfold dec_elem. unfold jstr in *. by rewrite Hd. }
  rewrite Hmap. cbn [option_map default]. do 2 f_equal. rewrite map_union_empty.
  rewrite <- (list_to_map_to_list m) at 2. apply list_to_map_proper; [|by rewrite reverse_Permutation].
  rewrite reverse_Permutation, Hperm. apply NoDup_fst_map_to_list.
Qed.

(** A slice member, written as null when nil; one that is left out when it has
    no elements comes back as nil. *)
Section SliceFields.
Context {A : Type} (f : A -> jtree) (dec : jtree -> option A) (zero : A) (name k : string).
Hypothesis Hk : key_is k name = true.
Definition elem_reads (x : A) : Prop := f x <> TNull /\ dec (f x) = Some x.

Lemma absorb_slice s :
  Forall elem_reads (elems s) -> absorb (fun _ => dec_slice dec zero) name (Some None) (key k (jslice f s)) = Some s.
Proof.
  intros Hs. destruct s as [l|]; [by apply absorb_hit; [..|apply dec_slice_map]|].
  unfold absorb, key. cbn [snd jslice]. by destruct (_ ==? _).
Qed.
Lemma absorb_omit_slice s v :
  Forall elem_reads (elems s) -> (no_elems s = false -> v = TArr (map f (elems s))) ->
  fold_left (absorb (fun _ => dec_slice dec zero) name) (omitempty (no_elems s) k v) (Some None) = Some (copy_slice s).
Proof.
  intros Hs Hv. apply absorb_omit_hit; [done|..]; unfold no_elems, copy_slice in *; destruct (elems s) as [|x l]; try done.
  intros _. rewrite Hv by done. split; [done|]. by apply dec_slice_map.
Qed.
End SliceFields.

(** [skip_members] drops the members under other names. *)
Ltac skip_members :=
  first [rewrite decode_field_absorb | rewrite decode_into_absorb]; rewrite ?fold_left_app; cbn [fold_left];
  repeat match goal with
  | |- context [absorb ?d ?n ?acc (key ?k ?v)] => rewrite (absorb_other d n acc k v) by (vm_compute; reflexivity)
  | |- context [fold_left (absorb ?d ?n) (omitempty ?c ?k ?v) ?acc] =>
    rewrite (absorb_omit_other d n acc c k v) by (vm_compute; reflexivity)
  end.
Lemma jslice_elems {A} (f : A -> jtree) s : no_elems s = false -> jslice f s = TArr (map f (elems s)).
Proof. by destruct s. Qed.

(** [hit] decodes the member that is left, present or left out as empty. *)
Ltac hit :=
  first [ eapply absorb_slice; [vm_compute; reflexivity|eassumption]
        | eapply absorb_omit_slice; [vm_compute; reflexivity|eassumption|first [by apply jslice_elems | done]]
        | apply absorb_hit; [vm_compute; reflexivity|done|]
        | apply absorb_omit_hit; [vm_compute; reflexivity|intros Hc; split; [done|]|intros Hc] ];
  cbv beta;
  first [ apply dec_string_jstr; assumption | apply dec_uint64_jint; assumption | apply dec_int64_jint; assumption
        | apply dec_time_jtime; assumption | apply dec_bytes_jbytes | reflexivity | eassumption | idtac ];
  try (reflect_bools; congruence).
Ltac decode_members :=
  repeat match goal with
  | |- context [decode_field ?d ?k ?z ?fs] =>
    let E := fresh in eassert (E : decode_field d k z fs = Some _) by (skip_members; hit); rewrite E; clear E
  | |- context [decode_into ?d ?k ?z ?fs] =>
    let E := fresh in eassert (E : decode_into d k z fs = Some _) by (skip_members; hit); rewrite E; clear E
  end.

(** ** Documents that carry the same values

    Objects may list their members in another order, strings may be escaped
    differently, though no escapes are made where there were none; numbers are
    integers written in the usual way.  Names of members are distinct, also up
    to case. *)
Definition unescaped (s : list item) : bool := forallb (fun i => match i with Raw _ => true | _ => false end) s.
Inductive jequiv : jtree -> jtree -> Prop :=
| jequiv_null : jequiv TNull TNull
| jequiv_bool b : jequiv (TBool b) (TBool b)
| jequiv_num lit : jequiv (TNum lit) (TNum lit)
| jequiv_str a b : unquote a = unquote b -> (unescaped a = true -> b = a) -> jequiv (TStr a) (TStr b)
| jequiv_arr l l' : Forall2 jequiv l l' -> jequiv (TArr l) (TArr l')
| jequiv_obj fs fs1 fs' :
    NoDup (map fkey fs) -> fs ≡ₚ fs1 ->
    Forall2 (fun a b => unquote (fst a) = unquote (fst b) /\ jequiv (snd a) (snd b)) fs1 fs' ->
    jequiv (TObj fs) (TObj fs').

Fixpoint plain (t : jtree) : Prop :=
  match t with
  | TNum lit => exists n, lit = bytes (itoa n)
  | TArr l => foldr (fun x P => plain x /\ P) True l
  | TObj fs => NoDup (map fkey fs) /\ foldr (fun kv P => plain (snd kv) /\ P) True fs
  | _ => True
  end.

Lemma foldr_and_Forall {A} (P : A -> Prop) l : foldr (fun x Q => P x /\ Q) True l <-> Forall P l.
Proof. induction l as [|x l IH]; cbn [foldr]; [by split|]. by rewrite IH, list.Forall_cons. Qed.

Lemma jequiv_refl t : plain t -> jequiv t t.
Proof.
  induction t as [| | | | l IH | fs IH] using jtree_ind_nested; intros Hp; try by constructor.
  - constructor. cbn [plain] in Hp. rewrite foldr_and_Forall in Hp. apply Forall2_same_length_lookup_2; [done|].
    intros i x y Hx Hy. simplify_eq. rewrite list.Forall_lookup in IH, Hp. eauto.
  - cbn [plain] in Hp. destruct Hp as [Hnd Hp]. rewrite foldr_and_Forall in Hp. eapply jequiv_obj; [done|done|].
    apply Forall2_same_length_lookup_2; [done|]. intros i x y Hx Hy. simplify_eq.
    rewrite list.Forall_lookup in IH, Hp. eauto.
Qed.

Lemma NoDup_filter_one {A B} `{EqDecision B} (f : A -> B) (x : B) l :
  NoDup (map f l) -> (List.length (List.filter (fun a => f a ==? x) l) <= 1)%nat.
Proof.
  intros Hnd. induction l as [|a l IH]; [simpl; lia|]. apply list.NoDup_cons in Hnd as [Ha Hnd]. cbn [List.filter].
  destruct (f a ==? x) eqn:E; [|by apply IH]. reflect_bools. cbn [List.length].
  destruct (List.filter _ l) as [|b l'] eqn:El; [simpl; lia|]. exfalso. apply Ha.
  assert (Hb : In b (List.filter (fun a => f a ==? x) l)) by (rewrite El; by left).
  apply filter_In in Hb as [Hb Hx]. reflect_bools. apply list_elem_of_In, in_map_iff. exists b. by split; [congruence|].
Qed.

(** A field is decoded alike from documents that carry the same values, when
    its decoder gives the same for the values of that field. *)
Lemma decode_into_equiv {A} (dec : A -> jtree -> option A) name zero fs fs' :
  (forall kv v', kv ∈ fs -> fkey kv = fold_name name -> jequiv (snd kv) v' -> forall a, dec a (snd kv) = dec a v') ->
  jequiv (TObj fs) (TObj fs') ->
  decode_into dec name zero fs = decode_into dec name zero fs'.
Proof.
  intros Hdec He. inversion He as [| | | | |? fs1 ? Hnd Hperm Hf]; subst. rewrite !decode_into_absorb.
  rewrite (absorb_filter _ _ fs), (absorb_filter _ _ fs').
  assert (H1 : List.filter (fun kv => fkey kv ==? fold_name name) fs =
    List.filter (fun kv => fkey kv ==? fold_name name) fs1).
  { pose proof (NoDup_filter_one fkey (fold_name name) fs Hnd) as Hone.
    pose proof (filter_perm (fun kv => fkey kv ==? fold_name name) _ _ Hperm) as Hp.
    destruct (List.filter _ fs) as [|a [|]] eqn:E; cbn [List.length] in Hone; [| |lia].
    - by apply Permutation_nil_l in Hp.
    - by apply Permutation_singleton_l in Hp. }
  assert (Hdec1 : Forall (fun kv => forall v', fkey kv = fold_name name -> jequiv (snd kv) v' ->
    forall a, dec a (snd kv) = dec a v') fs1).
  { apply list.Forall_forall. intros kv Hin v'. apply Hdec. by rewrite Hperm. }
  rewrite H1. clear H1 Hperm Hnd He Hdec. generalize (Some zero).
  induction Hf as [|[k v] [k' v'] fs1 fs' [Hk Hv] _ IH]; intros acc; [done|].
  apply list.Forall_cons in Hdec1 as [Hd Hdec1].
  assert (Hfk : fkey (k, v) = fkey (k', v')) by (unfold fkey; cbn [fst] in *; by rewrite Hk).
  cbn [List.filter snd] in *. rewrite Hfk. destruct (fkey (k', v') ==? fold_name name) eqn:E; [|by apply IH].
  cbn [fold_left]. rewrite IH by done. f_equal. unfold absorb. rewrite Hfk, E. cbn [snd]. reflect_bools.
  specialize (Hd v' ltac:(congruence) Hv). by inversion Hv; subst; destruct acc.
Qed.
Lemma decode_field_equiv {A} (dec : jtree -> option A) name zero fs fs' :
  (forall v v', jequiv v v' -> dec v = dec v') -> jequiv (TObj fs) (TObj fs') ->
  decode_field dec name zero fs = decode_field dec name zero fs'.
Proof. intros Hdec. apply (decode_into_equiv (fun _ => dec)). intros kv v' _ _ Hv _. by apply Hdec. Qed.

Lemma dec_string_equiv v v' : jequiv v v' -> dec_string v = dec_string v'.
Proof. inversion 1; subst; simpl; by f_equal. Qed.
Lemma dec_uint64_equiv v v' : jequiv v v' -> dec_uint64 v = dec_uint64 v'.
Proof. by inversion 1; subst. Qed.
Lemma dec_int64_equiv v v' : jequiv v v' -> dec_int64 v = dec_int64 v'.
Proof. by inversion 1; subst. Qed.
Lemma dec_bool_equiv v v' : jequiv v v' -> dec_bool v = dec_bool v'.
Proof. by inversion 1; subst. Qed.
Lemma dec_slice_equiv {A} (dec : jtree -> option A) zero v v' :
  (forall v v', jequiv v v' -> dec v = dec v') -> jequiv v v' -> dec_slice dec zero v = dec_slice dec zero v'.
Proof.
  intros Hdec Hv. inversion Hv as [| | | |l l' Hl|]; subst; try done. cbn [dec_slice]. f_equal.
  induction Hl as [|x x' l l' Hx Hl IH]; [done|]. unfold mapM in *. cbn. rewrite IH; [|by constructor].
  assert (Hel : dec_elem dec zero x = dec_elem dec zero x').
  { unfold dec_elem. specialize (Hdec x x' Hx). by inversion Hx; subst. }
  by rewrite Hel.
Qed.

Lemma dec_bytes_equiv v v' : jequiv v v' -> dec_bytes v = dec_bytes v'.
Proof. inversion 1 as [| | |a b Hu| |]; subst; try done. cbn [dec_bytes]. by rewrite Hu. Qed.
(** The order of the entries of a map does not matter. *)
Lemma mapM_perm {A B} (f : A -> option B) l l' :
  l ≡ₚ l' -> match mapM f l, mapM f l' with Some x, Some y => x ≡ₚ y | None, None => True | _, _ => False end.
Proof.
  assert (Hcons : forall a l, mapM f (a :: l) = match f a, mapM f l with Some b, Some k => Some (b :: k) | _, _ => None end).
  { intros a k. change (mapM f (a :: k)) with (f a ≫= fun y => mapM f k ≫= fun ys => Some (y :: ys)).
    by destruct (f a), (mapM f k). }
  induction 1 as [|a l l' _ IH|a b l|l1 l2 l3 _ IH1 _ IH2]; rewrite ?Hcons; [constructor|..].
  - destruct (mapM f l), (mapM f l'), (f a); try done. by constructor.
  - destruct (mapM f l), (f a), (f b); try done. by constructor.
  - destruct (mapM f l1), (mapM f l2), (mapM f l3); try done. by etrans.
Qed.
Lemma mapM_names fs l : mapM dec_pair fs = Some l -> map fst l = map (fun kv => unquote (fst kv)) fs.
Proof.
  intros Hl%mapM_Some. induction Hl as [|kv [k v] fs l Hkv _ IH]; [done|]. cbn [map fst]. rewrite IH. f_equal.
  unfold dec_pair in Hkv. destruct (dec_elem _ _ _); [|done]. by injection Hkv.
Qed.
Lemma dec_map_equiv v v' : jequiv v v' -> forall old, dec_map old v = dec_map old v'.
Proof.
  intros Hv old. inversion Hv as [| | | | |fs fs1 fs' Hnd Hperm Hf]; subst; try done. cbn [dec_map].
  assert (Heq : mapM dec_pair fs1 = mapM dec_pair fs').
  { apply Forall2_mapM_ext. eapply list.Forall2_impl; [exact Hf|]. intros [k a] [k' a'] [Hk Ha]. unfold dec_pair.
    cbn [fst snd] in *. rewrite Hk. f_equal. unfold dec_elem. pose proof (dec_string_equiv a a' Ha) as Hs. by inversion Ha; subst. }
  pose proof (mapM_perm dec_pair fs fs1 Hperm) as Hp. rewrite Heq in Hp.
  destruct (mapM dec_pair fs) as [l|] eqn:Hl, (mapM dec_pair fs') as [l'|]; try done. cbn [option_map]. do 2 f_equal.
  f_equal. apply list_to_map_proper; [|by rewrite !reverse_Permutation, Hp].
  change (NoDup (map fst (reverse l))). rewrite reverse_Permutation, (mapM_names fs l Hl).
  apply (NoDup_fmap_1 fold_name). by rewrite <- list_fmap_compose.
Qed.

(** A time is written without escapes, so it is read as it was written. *)
Lemma unescaped_raw l : unescaped (map Raw l) = true.
Proof. by induction l. Qed.
Lemma dec_time_equiv t v' : jequiv (jtime t) v' -> dec_time v' = dec_time (jtime t).
Proof. unfold jtime. inversion 1 as [| | |a b _ Hr| |]; subst. by rewrite Hr by apply unescaped_raw. Qed.

Create HintDb json.
#[export] Hint Resolve dec_string_equiv dec_uint64_equiv dec_int64_equiv dec_bool_equiv dec_bytes_equiv dec_slice_equiv decode_field_equiv : json.

(** ** Trees that print, parse and carry plain values *)
Definition good (depth : Z) (t : jtree) : Prop := tree_ok t /\ plain t /\ nesting t <= depth.
Definition good_member (depth : Z) (kv : list item * jtree) : Prop := Forall item_ok (fst kv) /\ good depth (snd kv).

Lemma good_key d k v : good d v -> Forall (good_member d) [key k v].
Proof. intros Hv. constructor; [|done]. split; [apply str_items_ok|done]. Qed.
Lemma good_omitempty d c k v : (c = false -> good d v) -> Forall (good_member d) (omitempty c k v).
Proof. intros Hv. unfold omitempty. destruct c; [done|]. by apply good_key, Hv. Qed.
Lemma good_str d s : 0 <= d -> good d (jstr s).
Proof. intros Hd. split_and!; [apply jstr_ok|done|cbn [nesting jstr]; lia]. Qed.
Lemma good_bool d b : 0 <= d -> good d (TBool b).
Proof. intros Hd. split_and!; [done|done|cbn [nesting]; lia]. Qed.
Lemma good_uint d n : 0 <= d -> uint64_range n -> good d (jint n).
Proof.
  unfold uint64_range, max_uint64. intros Hd Hn. split_and!; [|by eexists|cbn [nesting jint]; lia].
  cbn [tree_ok jint]. unfold num_ok, itoa. rewrite (proj2 (Z.ltb_ge n 0)) by lia.
  destruct (itoa_fuel_shape 19 n "") as (x & ds & -> & Hx & H0); [lia|]. rewrite app_nil_r.
  exists [], (x :: ds), [], []. rewrite !app_nil_r. split; [done|]. split; [by left|]. split; [|by split; left].
  destruct (Z.eq_dec x 48) as [->|]; [left; by destruct H0 as [-> _]|right; eauto].
Qed.
Lemma good_arr {A} d (f : A -> jtree) l : 1 <= d -> Forall (fun x => good (d - 1) (f x)) l -> good d (TArr (map f l)).
Proof.
  intros Hd Hl. split_and!; cbn [tree_ok plain nesting].
  1,2: apply foldr_and_Forall, Forall_map; eapply List.Forall_impl; [|exact Hl]; intros x Hx; apply Hx.
  induction Hl as [|x l (_ & _ & Hx) _ IH]; cbn [map foldr]; lia.
Qed.
Lemma good_slice {A} d (f : A -> jtree) s : 1 <= d -> Forall (fun x => good (d - 1) (f x)) (elems s) -> good d (jslice f s).
Proof. intros Hd Hs. destruct s as [l|]; [by apply good_arr|]. split_and!; [done|done|cbn [nesting jslice]; lia]. Qed.
Lemma good_obj d fs : 1 <= d -> NoDup (map fkey fs) -> Forall (good_member (d - 1)) fs -> good d (TObj fs).
Proof.
  intros Hd Hnd Hfs. split_and!; cbn [tree_ok plain nesting].
  - apply (foldr_and_Forall (fun kv => Forall item_ok (fst kv) /\ tree_ok (snd kv))).
    eapply List.Forall_impl; [|exact Hfs]. intros kv (Hk & Ht & _). by split.
  - split; [done|]. apply (foldr_and_Forall (fun kv => plain (snd kv))). eapply List.Forall_impl; [|exact Hfs].
    intros kv (_ & _ & Hp & _). done.
  - clear Hnd. induction Hfs as [|kv fs (_ & _ & _ & Hn) _ IH]; cbn [foldr]; lia.
Qed.

Lemma good_member_key d k v : good d v -> good_member d (key k v).
Proof. intros Hv. split; [apply str_items_ok|done]. Qed.

(** A map whose names are distinct up to case. *)
Definition map_plain (m : gmap string string) : Prop := map_fits m /\ NoDup (map (fun kv => fold_name kv.1) (map_to_list m)).
Lemma good_map d m : 1 <= d -> map_plain m -> good d (map_tree m).
Proof.
  intros Hd [Hf Hnd]. apply good_obj; [done|..].
  - rewrite map_map. erewrite map_ext_in, (isort_perm name_leb); [exact Hnd|]. intros [k v] Hin. unfold fkey. cbn [fst key].
    rewrite unquote_valid; [done|]. apply list_elem_of_In in Hin. rewrite (isort_perm name_leb) in Hin.
    apply elem_of_map_to_list in Hin. by apply Hf in Hin as [? _].
  - apply Forall_map, Forall_true. intros [k v]. apply good_member_key, good_str. lia.
Qed.

(** The names of an object with members left out are among the names of the
    full one. *)
Definition names (l : list string) : list (list Z) := map (fun k => fold_name (unquote (str_items k))) l.
Lemma names_key k v : map fkey [key k v] = names [k].
Proof. done. Qed.
Lemma names_omitempty c k v : map fkey (omitempty c k v) `sublist_of` names [k].
Proof. unfold omitempty. destruct c; [apply sublist_nil_l|done]. Qed.
Lemma names_NoDup fs l : map fkey fs `sublist_of` names l -> NoDup (names l) -> NoDup (map fkey fs).
Proof. intros Hs Hn. by eapply sublist_NoDup. Qed.

(** [good_members] splits the members of an object; [distinct l] shows their
    names distinct, [l] being the names part by part. *)
Ltac good_members := rewrite ?list.Forall_app, ?list.Forall_cons; split_and!;
  try first [apply good_member_key | apply good_omitempty; intros _ | apply list.Forall_nil; exact I].
Ltac distinct l :=
  apply (names_NoDup _ l);
  [ rewrite ?map_app; unfold names; rewrite ?map_app; repeat (apply sublist_app; [first [apply names_omitempty | reflexivity]|]);
    first [apply names_omitempty | reflexivity]
  | apply (bool_decide_unpack _); vm_compute; exact I ].
