(* ===== verification/GoText.v ===== *)
(** * Go text processing

    The parts of Go's [bytes], [strings], [unicode] and [sort] packages that
    the sanitiser, the normaliser and the catalogues use beyond [GoStrings]:
    counting and replacing substrings, splitting into fields, lower case,
    compaction, and sorting by a comparison.

    [sort.Slice] promises a sorted permutation and leaves the order of equal
    elements open, so it is a class with that law; insertion sort is an
    instance.  Unicode lower case beyond ASCII is the table of the Unicode
    version in use, a class without laws. *)
From Stdlib Require Import Sorting.Permutation Sorted.
From S2P Require Import Prelude GoStrings GoDecoding Json.
Local Open Scope Z_scope.

(** ** Replacing substrings *)

(** Occurrences are found from the left and do not overlap; [skip] counts the
    bytes of the current occurrence still to pass over. *)
Fixpoint replace_skip (skip : nat) (old new bs : list Z) : list Z * Z :=
  match bs with
  | [] => ([], 0)
  | b :: t =>
    match skip with
    | S k => replace_skip k old new t
    | O =>
      match expect old bs with
      | Some _ => let '(out, n) := replace_skip (pred (List.length old)) old new t in (new ++ out, n + 1)
      | None => let '(out, n) := replace_skip 0 old new t in (b :: out, n)
      end
    end
  end.
(** [bytes.ReplaceAll] and [bytes.Count] for a non-empty [old]. *)
Definition ReplaceAll (s old new : string) : string :=
  of_bytes (replace_skip 0 (bytes old) (bytes new) (bytes s)).1.
Definition bytes_Count (s sub : string) : Z := (replace_skip 0 (bytes sub) [] (bytes s)).2.

(** ** Fields and joining *)

(** [strings.Fields]: the maximal runs without white space. *)
Fixpoint fields_from (cur : list Z) (cs : list (Z * list Z)) : list (list Z) :=
  match cs with
  | [] => match cur with [] => [] | _ => [cur] end
  | (r, raw) :: t =>
    if IsSpace r then match cur with [] => fields_from [] t | _ => cur :: fields_from [] t end
    else fields_from (cur ++ raw) t
  end.
Definition Fields (s : string) : list string := map of_bytes (fields_from [] (chunk_skip 0 (bytes s))).
Fixpoint strings_Join (l : list string) (sep : string) : string :=
  match l with [] => "" | [x] => x | x :: t => x +:+ sep +:+ strings_Join t sep end.

(** [slices.Compact]: runs of equal elements become one. *)
Fixpoint Compact (l : list string) : list string :=
  match l with
  | x :: ((y :: _) as t) => if x ==? y then Compact t else x :: Compact t
  | _ => l
  end.

(** ** Lower case *)
Class LowerTable := { lower_table : Z -> Z }.
Definition unicode_ToLower `{LowerTable} (r : Z) : Z :=
  if r <? 128 then if in_range 65 r 90 then r + 32 else r else lower_table r.
(** [strings.ToLower] maps every rune; invalid bytes become [RuneError]. *)
Definition ToLower `{LowerTable} (s : string) : string := of_runes (map unicode_ToLower (runes s)).

(** ** Sorting by a comparison *)
Definition str_ltb (a b : string) : bool := negb (str_leb b a).
Class SortSlice := { sort_Slice {A : Type} : (A -> A -> bool) -> list A -> list A }.
(** A strict weak order: what [sort.Slice] asks of its comparison. *)
Definition strict_weak {A} (less : A -> A -> bool) : Prop :=
  (forall x, less x x = false) /\
  (forall x y z, less x y = true -> less y z = true -> less x z = true) /\
  (forall x y z, less x y = false -> less y z = false -> less x z = false).
Class SortLaws `{SortSlice} : Prop := {
  sort_Slice_perm {A} (less : A -> A -> bool) l : Permutation (sort_Slice less l) l;
  sort_Slice_sorted {A} (less : A -> A -> bool) l :
    strict_weak less -> StronglySorted (fun x y => less y x = false) (sort_Slice less l) }.

Definition insertion_sort : SortSlice := {| sort_Slice A less := isort (fun x y => negb (less y x)) |}.

Example text_example :
  ReplaceAll "aaaa" "aa" "b" = "bb" /\ bytes_Count "aaaa" "aa" = 2 /\ Fields " a  bc " = ["a"; "bc"] /\
  strings_Join ["a"; "b"; "c"] ", " = "a, b, c" /\ Compact ["a"; "a"; "b"] = ["a"; "b"].
Proof. by vm_compute. Qed.

Lemma insert_sorted_strong {A} (less : A -> A -> bool) x l :
  strict_weak less -> StronglySorted (fun x y => less y x = false) l ->
  StronglySorted (fun x y => less y x = false) (insert_sorted (fun x y => negb (less y x)) x l).
Proof.
  intros (Hirr & Htr & Hneg) Hl. induction Hl as [|y t Hs IH Hall]; cbn; [repeat constructor|].
  destruct (less y x) eqn:E; cbn; constructor; try done.
  - apply list.Forall_forall. intros z Hz.
    assert (Hz' : z ∈ x :: t) by (by rewrite <- (insert_sorted_perm (fun x y => negb (less y x)) x t)).
    apply elem_of_cons in Hz' as [->|Hz'].
    + destruct (less x y) eqn:E'; [|done]. pose proof (Htr _ _ _ E' E). by rewrite Hirr in *.
    + by eapply list.Forall_forall in Hz'; [|exact Hall].
  - by constructor.
  - constructor; [done|]. eapply List.Forall_impl; [|exact Hall]. intros z Hz. cbn in Hz. by apply (Hneg z y x).
Qed.
#[global] Instance insertion_sort_laws : @SortLaws insertion_sort.
Proof.
  constructor.
  - intros A less l. apply isort_perm.
  - intros A less l Hw. cbn. induction l as [|x l IH]; cbn; [constructor|]. by apply insert_sorted_strong.
Qed.

Lemma Compact_elem x l : x ∈ Compact l <-> x ∈ l.
Proof.
  induction l as [|y t IH]; [done|]. destruct t as [|z t]; [done|].
  change (Compact (y :: z :: t)) with (if y ==? z then Compact (z :: t) else y :: Compact (z :: t)).
  destruct (y ==? z) eqn:E.
  - reflect_bools. subst. rewrite IH. rewrite !elem_of_cons. tauto.
  - rewrite !(elem_of_cons _ x y), IH. done.
Qed.

(** ** The order of strings *)
Lemma compare_cons a b s t : String.compare (String a s) (String b t) =
  match (byte_of a ?= byte_of b)%Z with Eq => String.compare s t | c => c end.
Proof. cbn. unfold Ascii.compare, byte_of. rewrite N2Z.inj_compare. by destruct (Z.of_N (N_of_ascii a) ?= Z.of_N (N_of_ascii b)). Qed.
Lemma str_leb_trans a b c : str_leb a b = true -> str_leb b c = true -> str_leb a c = true.
Proof.
  unfold str_leb. revert b c. induction a as [|x a IH]; intros [|y b] [|z c]; try done. rewrite !compare_cons.
  destruct (Z.compare_spec (byte_of x) (byte_of y)), (Z.compare_spec (byte_of y) (byte_of z)),
    (Z.compare_spec (byte_of x) (byte_of z)); try done; try lia. apply IH.
Qed.
Lemma str_leb_antisym a b : str_leb a b = true -> str_leb b a = true -> a = b.
Proof.
  unfold str_leb. rewrite (String.compare_antisym b a). destruct (String.compare a b) eqn:E; try done.
  intros _ _. by apply String.compare_eq_iff.
Qed.
Lemma str_ltb_strict : strict_weak str_ltb.
Proof.
  unfold str_ltb, strict_weak. assert (Hrefl : forall x, str_leb x x = true) by (intros x; by destruct (str_leb_total x x)).
  split_and!.
  - intros x. by rewrite Hrefl.
  - intros x y z. rewrite !negb_true_iff. intros H1 H2. destruct (str_leb z x) eqn:E; [|done].
    assert (Hxy : str_leb x y = true) by (destruct (str_leb_total x y); congruence). by rewrite (str_leb_trans _ _ _ E Hxy) in H2.
  - intros x y z. rewrite !negb_false_iff. intros H1 H2. by eapply str_leb_trans.
Qed.
Lemma less_by {A} (f : A -> string) : strict_weak (fun a b => str_ltb (f a) (f b)).
Proof. destruct str_ltb_strict as (H1 & H2 & H3). split_and!; eauto. Qed.
