(* ===== verification/Keys.v ===== *)
(** * Signing keys and signature sets

    [internal/keyprovider]: the signing provider that the components use, as a
    type class, and the in-process Ed25519 keyring that implements it.
    [internal/cryptosign]: signature sets, which bind a payload to a domain and
    carry one signature per provider.  The Ed25519 primitives are parameters. *)
From S2P Require Import Prelude GoStrings.
Local Open Scope Z_scope.

Definition Ed25519Algorithm : string := "Ed25519".
Definition PrivateKeySize : Z := 64.
Definition ErrKeyNotFound := New "keyprovider.ErrKeyNotFound" "key reference was not found".
Definition ErrInvalidSignature := New "keyprovider.ErrInvalidSignature" "signature verification failed".

Module SigningKey.
Record t := mk { Reference : string; Algorithm : string }.
End SigningKey.

(** What a provider offers: the key for a purpose, a signature under a key
    reference, and the verification of one. *)
Class SigningProvider (P : Type) := {
  CurrentSigningKey : P -> string -> result SigningKey.t;
  Sign : P -> string -> string -> result string;
  Verify : P -> string -> string -> string -> string -> option error }.

(** What the callers rely on: the signature a provider makes under the key it
    reports verifies under that key's reference and algorithm. *)
Class SigningLaws (P : Type) `{SigningProvider P} := {
  provider_ok : P -> Prop;
  sign_verifies : forall p purpose k payload s, provider_ok p ->
    CurrentSigningKey p purpose = Ok k -> Sign p (SigningKey.Reference k) payload = Ok s ->
    Verify p (SigningKey.Reference k) (SigningKey.Algorithm k) payload s = None }.

(** ** The Ed25519 keyring *)
Module Keyring.
Record t := mk { current : string; private : gmap string string; public : gmap string string }.
#[global] Instance eta_t : Eta t := fun x => mk (current x) (private x) (public x).
Definition empty : t := mk "" ∅ ∅.

Section Ed25519.
Context (ed_public : string -> string) (ed_sign : string -> string -> string)
  (ed_verify : string -> string -> string -> bool).

Definition Rotate (k : t) (reference privateKey : string) : result t :=
  if (reference ==? "") || negb (len privateKey =? PrivateKeySize) then
    Err (Text "signing key reference and Ed25519 private key are required")
  else match private k !! reference with
  | Some _ => Err (Text "signing key reference already exists")
  | None => Ok (mk reference (<[reference := privateKey]> (private k))
                  (<[reference := ed_public privateKey]> (public k)))
  end.

Definition NewEd25519Keyring (reference privateKey : string) : result t :=
  Rotate empty reference privateKey.

Definition current_key (k : t) (purpose : string) : result SigningKey.t :=
  if purpose ==? "" then Err (Text "signing purpose is required")
  else if current k ==? "" then Err ErrKeyNotFound
  else Ok (SigningKey.mk (current k) Ed25519Algorithm).

Definition sign (k : t) (reference payload : string) : result string :=
  if (reference ==? "") || (payload ==? "") then Err (Text "signing key reference and payload are required")
  else match private k !! reference with
  | None => Err ErrKeyNotFound
  | Some key => Ok (ed_sign key payload)
  end.

Definition verify (k : t) (reference algorithm payload signature : string) : option error :=
  if (reference ==? "") || (algorithm !=? Ed25519Algorithm) || (payload ==? "") then Some ErrInvalidSignature
  else match public k !! reference with
  | None => Some ErrKeyNotFound
  | Some key => if ed_verify key payload signature then None else Some ErrInvalidSignature
  end.

Definition provider : SigningProvider t := {|
  CurrentSigningKey := current_key; Sign := sign; Verify := verify |}.

(** Every key has its public half under the same reference. *)
Definition keyring_ok (k : t) : Prop := public k = ed_public <$> private k.
End Ed25519.
End Keyring.

(** Tenant encryption keys: references only. *)
Module EncryptionKeyring.
Definition t := gmap string string.
Definition Rotate (k : t) (tenantID reference : string) : result t :=
  if (tenantID ==? "") || (reference ==? "") then
    Err (Text "tenant and encryption key reference are required")
  else Ok (<[tenantID := reference]> k).
Definition CurrentEncryptionKey (k : t) (tenantID purpose : string) : result string :=
  if (tenantID ==? "") || (purpose ==? "") then Err (Text "tenant and encryption purpose are required")
  else match k !! tenantID with Some r => Ok r | None => Err ErrKeyNotFound end.
(** The provider with one fixed reference. *)
Definition StaticCurrentEncryptionKey (reference tenantID purpose : string) : result string :=
  if (reference ==? "") || (tenantID ==? "") || (purpose ==? "") then
    Err (Text "encryption key reference, tenant and purpose are required")
  else Ok reference.
End EncryptionKeyring.

(** ** Signature sets *)
Definition SetVersionV1 : string := "network-broker-signature-set/v1".
Definition CanonicalJSONV1 : string := "network-broker-json/v1".
Definition maximumSignatures : Z := 8.
Definition maximumDomainBytes : Z := 128.
Definition maximumPayloadSize : Z := 16777216.
Definition ErrInvalidSet := New "cryptosign.ErrInvalidSet" "signature set is invalid".
Definition ErrPolicyUnsatisfied := New "cryptosign.ErrPolicyUnsatisfied" "signature policy is not satisfied".
Definition nul : string := of_bytes [0].

Module Entry.
Record t := mk { Algorithm : string; KeyReference : string; Value : string }.
End Entry.
Module SignatureSet.
Record t := mk { Version : string; Canonicalisation : string; Domain : string; Signatures : list Entry.t }.
End SignatureSet.
Module Policy.
Record t := mk { MinimumValidSignatures : Z; RequiredAlgorithms : list string }.
End Policy.

Definition entry_leb (a b : Entry.t) : bool :=
  if Entry.Algorithm a ==? Entry.Algorithm b then str_leb (Entry.KeyReference a) (Entry.KeyReference b)
  else str_leb (Entry.Algorithm a) (Entry.Algorithm b).

(** [signingPayload]: version, canonicalisation and domain, each ended by a
    zero byte, then the canonical bytes. *)
Definition signingPayload (domain canonical : string) : result string :=
  if (domain ==? "") || (maximumDomainBytes <? len domain) || ContainsAny domain [0] ||
     (canonical ==? "") || (maximumPayloadSize <? len canonical) then
    Err (Wrapf "domain or canonical payload is invalid: " ErrInvalidSet "")
  else Ok (SetVersionV1 +:+ nul +:+ CanonicalJSONV1 +:+ nul +:+ domain +:+ nul +:+ canonical).

Definition identity (algorithm reference : string) : string := algorithm +:+ nul +:+ reference.

Section Manager.
Context {P : Type} `{SigningProvider P}.

Record Manager := mkManager { providers : list P; policy : Policy.t }.

Fixpoint duplicate_or_empty (l : list string) : bool :=
  match l with
  | [] => false
  | x :: t => (x ==? "") || match t with y :: _ => x ==? y | [] => false end || duplicate_or_empty t
  end.

Definition NewManager (ps : list P) (pol : Policy.t) : result Manager :=
  let n := Z.of_nat (List.length ps) in
  if (n =? 0) || (maximumSignatures <? n) || (Policy.MinimumValidSignatures pol <=? 0) ||
     (n <? Policy.MinimumValidSignatures pol) then
    Err (Wrapf "providers and signature policy are invalid: " ErrPolicyUnsatisfied "")
  else
    let required := sort_Strings (Policy.RequiredAlgorithms pol) in
    if duplicate_or_empty required then
      Err (Wrapf "required algorithms are invalid: " ErrPolicyUnsatisfied "")
    else Ok (mkManager ps (Policy.mk (Policy.MinimumValidSignatures pol) required)).

Definition policySatisfied (m : Manager) (signatures : list Entry.t) : option error :=
  if Z.of_nat (List.length signatures) <? Policy.MinimumValidSignatures (policy m) then Some ErrPolicyUnsatisfied
  else if forallb (fun required => bool_decide (required ∈ map Entry.Algorithm signatures))
            (Policy.RequiredAlgorithms (policy m))
  then None else Some ErrPolicyUnsatisfied.

(** The loop of [Sign]: one signature per provider, keys all different. *)
Fixpoint sign_all (ps : list P) (purpose payload : string) (seen : gset string) : result (list Entry.t) :=
  match ps with
  | [] => Ok []
  | p :: rest =>
    match CurrentSigningKey p purpose with
    | Err e => Err (Wrapf "resolve signing key: " e "")
    | Ok k =>
      let alg := SigningKey.Algorithm k in
      let ref := SigningKey.Reference k in
      if (alg ==? "") || (ref ==? "") then
        Err (Wrapf "provider returned incomplete key metadata: " ErrInvalidSet "")
      else if bool_decide (identity alg ref ∈ seen) then
        Err (Wrapf ("duplicate signature key " +:+ quote ref +:+ ": ") ErrInvalidSet "")
      else match Sign p ref payload with
      | Err e => Err (Wrapf ("sign with " +:+ quote ref +:+ ": ") e "")
      | Ok value =>
        if value ==? "" then Err (Wrapf "provider returned an empty signature: " ErrInvalidSet "")
        else match sign_all rest purpose payload ({[identity alg ref]} ∪ seen) with
        | Err e => Err e
        | Ok l => Ok (Entry.mk alg ref value :: l)
        end
      end
    end
  end.

Definition manager_Sign (m : Manager) (purpose domain canonical : string) : result SignatureSet.t :=
  match signingPayload domain canonical with
  | Err e => Err e
  | Ok payload =>
    match sign_all (providers m) purpose payload ∅ with
    | Err e => Err e
    | Ok l =>
      let signatures := isort entry_leb l in
      match policySatisfied m signatures with
      | Some e => Err e
      | None => Ok (SignatureSet.mk SetVersionV1 CanonicalJSONV1 domain signatures)
      end
    end
  end.

Definition verified (m : Manager) (payload : string) (s : Entry.t) : bool :=
  existsb (fun p => match Verify p (Entry.KeyReference s) (Entry.Algorithm s) payload (Entry.Value s) with
                    | None => true | Some _ => false end) (providers m).

Fixpoint verify_all (m : Manager) (payload : string) (l : list Entry.t) (seen : gset string) : bool :=
  match l with
  | [] => true
  | s :: rest =>
    let id := identity (Entry.Algorithm s) (Entry.KeyReference s) in
    negb ((Entry.Algorithm s ==? "") || (Entry.KeyReference s ==? "") || (Entry.Value s ==? "")) &&
    negb (bool_decide (id ∈ seen)) && verified m payload s && verify_all m payload rest ({[id]} ∪ seen)
  end.

Definition manager_Verify (m : Manager) (expectedDomain canonical : string) (set : SignatureSet.t) : option error :=
  let n := Z.of_nat (List.length (SignatureSet.Signatures set)) in
  if (SignatureSet.Version set !=? SetVersionV1) || (SignatureSet.Canonicalisation set !=? CanonicalJSONV1) ||
     (SignatureSet.Domain set !=? expectedDomain) || (n =? 0) || (maximumSignatures <? n) then Some ErrInvalidSet
  else match signingPayload expectedDomain canonical with
  | Err e => Some e
  | Ok payload =>
    if verify_all m payload (SignatureSet.Signatures set) ∅ then policySatisfied m (SignatureSet.Signatures set)
    else Some ErrInvalidSet
  end.
End Manager.

(** ** Domain separation *)
Lemma append_assoc (a b c : string) : (a +:+ b) +:+ c = a +:+ b +:+ c.
Proof.
  induction a as [|x a IH]; [done|].
  change (String x a +:+ b) with (String x (a +:+ b)). change (String x (a +:+ b) +:+ c) with (String x ((a +:+ b) +:+ c)).
  change (String x a +:+ (b +:+ c)) with (String x (a +:+ b +:+ c)). by rewrite IH.
Qed.

Lemma append_inj_l (a b c : string) : a +:+ b = a +:+ c -> b = c.
Proof. induction a as [|x a IH]; [done|]. intros H. injection H as H. by apply IH. Qed.

(** A field ended by a zero byte that does not contain one is determined. *)
Lemma nul_terminated_inj a b x y :
  ContainsAny a [0] = false -> ContainsAny b [0] = false ->
  a +:+ nul +:+ x = b +:+ nul +:+ y -> a = b /\ x = y.
Proof.
  assert (Hhead : forall c t, ContainsAny (String c t) [0] = false -> c <> of_byte 0 /\ ContainsAny t [0] = false).
  { intros c t. unfold ContainsAny, bytes. simpl. rewrite orb_false_iff, orb_false_r.
    intros [Hc Ht]. split; [|done]. intros ->. done. }
  revert b. induction a as [|c a IH]; intros [|d b] Ha Hb H.
  - split; [done|]. by apply (append_inj_l nul) in H.
  - apply Hhead in Hb as [Hd _]. injection H as H _. by destruct Hd.
  - apply Hhead in Ha as [Hc _]. injection H as H _. by destruct Hc.
  - apply Hhead in Ha as [_ Ha], Hb as [_ Hb]. injection H as -> H.
    destruct (IH b Ha Hb H) as [-> ->]. done.
Qed.

Lemma signingPayload_Ok domain canonical payload :
  signingPayload domain canonical = Ok payload ->
  payload = SetVersionV1 +:+ nul +:+ CanonicalJSONV1 +:+ nul +:+ domain +:+ nul +:+ canonical /\
  ContainsAny domain [0] = false /\ canonical <> "".
Proof.
  unfold signingPayload. case_match eqn:E; [done|]. rewrite !orb_false_iff in E.
  destruct E as ((((_ & _) & Hd) & Hc) & _). intros [= <-]. split; [done|]. split; [done|].
  by apply bool_decide_eq_false in Hc.
Qed.

(** C18.  Signatures are separated by domain: two requests that are signed over
    the same bytes have the same domain and the same canonical document, so a
    signature made for one kind of object never covers another. *)
Theorem signing_payload_separates d1 c1 d2 c2 p
    (H1 : signingPayload d1 c1 = Ok p) (H2 : signingPayload d2 c2 = Ok p) :
  d1 = d2 /\ c1 = c2.
Proof.
  apply signingPayload_Ok in H1 as (-> & Hn1 & _). apply signingPayload_Ok in H2 as (H & Hn2 & _).
  do 4 apply append_inj_l in H. by apply nul_terminated_inj in H.
Qed.

Lemma signing_payload_separates_witness :
  exists p, signingPayload "policy-bundle" "{}" = Ok p /\
    forall d c, signingPayload d c = Ok p -> d = "policy-bundle" /\ c = "{}".
Proof.
  eexists. split; [by vm_compute|]. intros d c H.
  exact (signing_payload_separates d c "policy-bundle" "{}" _ H ltac:(by vm_compute)).
Defined.

(** ** Signed sets verify *)
Definition entry_id (e : Entry.t) : string := identity (Entry.Algorithm e) (Entry.KeyReference e).
Definition entry_complete (e : Entry.t) : Prop :=
  Entry.Algorithm e <> "" /\ Entry.KeyReference e <> "" /\ Entry.Value e <> "".

Section SignedSets.
Context {P : Type} `{SL : SigningLaws P}.

Lemma verify_all_intro (m : Manager) payload l seen :
  Forall entry_complete l -> Forall (fun e => verified m payload e = true) l ->
  NoDup (map entry_id l) -> Forall (fun e => entry_id e ∉ seen) l ->
  verify_all m payload l seen = true.
Proof.
  intros Hc. revert seen. induction Hc as [|e l (Ha & Hr & Hv) _ IH]; intros seen Hver Hnd Hns; [done|].
  simpl. apply list.Forall_cons in Hver as [Hve Hver], Hns as [Hse Hns].
  simpl in Hnd. apply list.NoDup_cons in Hnd as [Hne Hnd]. rewrite !bool_decide_eq_false_2, Hve by done. simpl.
  apply IH; [done..|]. apply list.Forall_forall. intros e' He'. rewrite list.Forall_forall in Hns.
  apply not_elem_of_union. split; [|by apply Hns]. rewrite elem_of_singleton. intros Heq. apply Hne.
  apply list_elem_of_fmap. exists e'. split; [|done]. symmetry. exact Heq.
Qed.

Lemma sign_all_verifies (ps : list P) purpose payload seen l :
  Forall provider_ok ps -> sign_all ps purpose payload seen = Ok l ->
  List.length l = List.length ps /\ Forall entry_complete l /\ NoDup (map entry_id l) /\ Forall (fun e => entry_id e ∉ seen) l /\
  Forall (fun e => exists p, p ∈ ps /\ Verify p (Entry.KeyReference e) (Entry.Algorithm e) payload (Entry.Value e) = None) l.
Proof.
  intros Hps. revert seen l. induction Hps as [|p ps Hp _ IH]; intros seen l; cbn [sign_all].
  { intros [= <-]. split_and!; try done; constructor. }
  destruct (CurrentSigningKey p purpose) as [k|] eqn:Hk; [|done].
  case_match eqn:E; [done|]. rewrite orb_false_iff, !bool_decide_eq_false in E. destruct E as [Ha Hr].
  case_bool_decide as Hseen; [done|].
  destruct (Sign p _ payload) as [value|] eqn:Hs; [|done]. case_bool_decide as Hv; [done|].
  destruct (sign_all ps _ _ _) as [l'|] eqn:Hl; [|done]. intros [= <-].
  destruct (IH _ _ Hl) as (Hlen & Hcomp & Hnd & Hns & Hver). split_and!.
  - simpl. by f_equal.
  - by constructor.
  - simpl. constructor; [|done]. intros (e & He & Hin)%list_elem_of_fmap.
    rewrite list.Forall_forall in Hns. apply (Hns e Hin). rewrite <- He. set_solver.
  - constructor; [done|]. eapply List.Forall_impl; [|exact Hns]. cbv beta. set_solver.
  - constructor; [exists p; split; [left|by eapply sign_verifies]|]. eapply List.Forall_impl; [|exact Hver].
    intros e (q & Hq & Hrest). exists q. split; [by right|done].
Qed.

(** A signature carries the key its provider named. *)
Lemma sign_all_keys (ps : list P) purpose payload seen l :
  sign_all ps purpose payload seen = Ok l ->
  Forall (fun e => exists p k, p ∈ ps /\ CurrentSigningKey p purpose = Ok k /\
    Entry.Algorithm e = SigningKey.Algorithm k /\ Entry.KeyReference e = SigningKey.Reference k) l.
Proof.
  revert seen l. induction ps as [|p ps IH]; intros seen l; cbn [sign_all]; [by intros [= <-]|].
  destruct (CurrentSigningKey p purpose) as [k|] eqn:Hk; [|done]. destruct (_ || _); [done|]. case_bool_decide; [done|].
  destruct (Sign p _ payload) as [value|]; [|done]. case_bool_decide; [done|].
  destruct (sign_all ps _ _ _) as [l'|] eqn:Hl; [|done]. intros [= <-]. constructor.
  - exists p, k. split; [left|done].
  - eapply List.Forall_impl; [|exact (IH _ _ Hl)]. intros e (q & k' & Hq & Hrest). exists q, k'. split; [by right|done].
Qed.

Lemma manager_sign_verifies (m : Manager) purpose domain canonical set :
  Forall provider_ok (providers m) -> 0 < Z.of_nat (List.length (providers m)) <= maximumSignatures ->
  manager_Sign m purpose domain canonical = Ok set -> manager_Verify m domain canonical set = None.
Proof.
  intros Hps Hlen Hsign. unfold manager_Sign in Hsign. destruct (signingPayload domain canonical) as [payload|] eqn:Hp; [|done].
  destruct (sign_all _ _ _ _) as [l|] eqn:Hl; [|done].
  apply sign_all_verifies in Hl as (Hn & Hcomp & Hnd & _ & Hver); [|done].
  destruct (policySatisfied m _) eqn:Hpol; [done|]. injection Hsign as <-.
  pose proof (isort_perm entry_leb l) as Hperm. unfold manager_Verify. simpl.
  rewrite Hp, !bool_decide_eq_true_2 by done. rewrite (Permutation_length Hperm), Hn. simpl.
  rewrite (proj2 (Z.eqb_neq _ _)), (proj2 (Z.ltb_ge _ _)) by lia. simpl.
  rewrite verify_all_intro; [exact Hpol|by rewrite Hperm| |by rewrite Hperm|by apply Forall_true; set_solver].
  rewrite Hperm. eapply List.Forall_impl; [|exact Hver]. intros e (p & Hin & Hv).
  apply existsb_exists. exists p. split; [by apply list_elem_of_In|]. by rewrite Hv.
Qed.
End SignedSets.

(** ** Keyrings *)
Section Keyrings.
Import Keyring.
Context (ed_public : string -> string) (ed_sign : string -> string -> string)
  (ed_verify : string -> string -> string -> bool).
(** [ed25519.Verify] accepts what [ed25519.Sign] made with the private half. *)
Hypothesis ed_correct : forall k m, ed_verify (ed_public k) m (ed_sign k m) = true.

Abbreviation Rotate_ := (Rotate ed_public).
Abbreviation keyring_ok_ := (keyring_ok ed_public).
#[local] Instance keyring_provider : SigningProvider Keyring.t := provider ed_sign ed_verify.

(** Later keyrings: the result of successful rotations. *)
Inductive rotations : Keyring.t -> Keyring.t -> Prop :=
| rot_refl k : rotations k k
| rot_step k reference privateKey k1 k2 :
    Rotate_ k reference privateKey = Ok k1 -> rotations k1 k2 -> rotations k k2.

Lemma Rotate_ok k reference privateKey k' :
  keyring_ok_ k -> Rotate_ k reference privateKey = Ok k' ->
  keyring_ok_ k' /\ private k ⊆ private k' /\ private k' !! reference = Some privateKey /\
  current k' = reference /\ reference <> "".
Proof.
  intros Hok. unfold Rotate. case_match eqn:E; [done|]. rewrite orb_false_iff, bool_decide_eq_false in E.
  destruct (private k !! reference) eqn:Hr; [done|]. intros [= <-]. simpl.
  split; [unfold keyring_ok in *; simpl; by rewrite fmap_insert, Hok|].
  split; [by apply insert_subseteq|]. split; [apply lookup_insert_eq|]. by destruct E.
Qed.

Lemma rotations_ok k k' : rotations k k' -> keyring_ok_ k -> keyring_ok_ k' /\ private k ⊆ private k'.
Proof.
  induction 1 as [k|k r pk k1 k2 Hr _ IH]; intros Hok; [done|].
  apply Rotate_ok in Hr as (Hok1 & Hsub & _); [|done]. destruct (IH Hok1). split; [done|by etrans].
Qed.

(** A signature verifies under every later keyring. *)
Lemma rotated_verifies k k' reference payload s :
  keyring_ok_ k -> rotations k k' -> Sign k reference payload = Ok s ->
  Verify k' reference Ed25519Algorithm payload s = None.
Proof.
  intros Hok Hrot. destruct (rotations_ok k k' Hrot Hok) as [Hok' Hsub]. simpl. unfold sign, verify.
  case_match eqn:E; [done|]. rewrite orb_false_iff in E. destruct E as [-> ->].
  destruct (private k !! reference) as [key|] eqn:Hk; [|done]. intros [= <-]. simpl.
  rewrite Hok', lookup_fmap, (lookup_weaken _ _ _ _ Hk Hsub). simpl. by rewrite ed_correct.
Qed.

Lemma keyring_key k purpose key :
  CurrentSigningKey k purpose = Ok key -> SigningKey.Algorithm key = Ed25519Algorithm.
Proof. simpl. unfold current_key. repeat case_match; by intros [= <-]. Qed.

Lemma keyring_sign_verifies k purpose key payload s :
  keyring_ok_ k -> CurrentSigningKey k purpose = Ok key -> Sign k (SigningKey.Reference key) payload = Ok s ->
  Verify k (SigningKey.Reference key) (SigningKey.Algorithm key) payload s = None.
Proof.
  intros Hok Hk Hs. rewrite (keyring_key _ _ _ Hk). by eapply rotated_verifies; [|apply rot_refl|].
Qed.

#[export] Instance keyring_laws : SigningLaws Keyring.t := {|
  provider_ok := keyring_ok_; sign_verifies := keyring_sign_verifies |}.

(** ** Signing and verifying sets *)
Definition signed_by (ps : list Keyring.t) (payload : string) (e : Entry.t) : Prop :=
  exists p, p ∈ ps /\ Sign p (Entry.KeyReference e) payload = Ok (Entry.Value e) /\
    Entry.Algorithm e = Ed25519Algorithm.

Lemma sign_all_spec ps purpose payload seen l :
  sign_all ps purpose payload seen = Ok l ->
  List.length l = List.length ps /\ Forall (signed_by ps payload) l /\ Forall entry_complete l /\
  NoDup (map entry_id l) /\ Forall (fun e => entry_id e ∉ seen) l.
Proof.
  revert seen l. induction ps as [|p ps IH]; intros seen l; simpl.
  { intros [= <-]. split_and!; try done; constructor. }
  destruct (current_key p purpose) as [k|] eqn:Hk; [|done]. apply (keyring_key p purpose) in Hk.
  case_match eqn:E; [done|]. rewrite orb_false_iff, !bool_decide_eq_false in E. destruct E as [Ha Hr].
  case_bool_decide as Hseen; [done|].
  destruct (sign _ p _ payload) as [value|] eqn:Hs; [|done]. case_bool_decide as Hv; [done|].
  destruct (sign_all ps _ _ _) as [l'|] eqn:Hl; [|done]. intros [= <-].
  destruct (IH _ _ Hl) as (Hlen & Hby & Hcomp & Hnd & Hns). split_and!.
  - simpl. by f_equal.
  - constructor; [exists p; split; [left|done]|]. eapply List.Forall_impl; [|exact Hby].
    intros e (q & Hq & Hrest). exists q. split; [by right|done].
  - by constructor.
  - simpl. constructor; [|done]. intros (e & He & Hin)%list_elem_of_fmap.
    rewrite list.Forall_forall in Hns. apply (Hns e Hin). rewrite <- He. set_solver.
  - constructor; [done|]. eapply List.Forall_impl; [|exact Hns]. cbv beta. set_solver.
Qed.

Lemma NewManager_Ok (ps : list Keyring.t) pol m :
  NewManager ps pol = Ok m ->
  providers m = ps /\ 0 < Z.of_nat (List.length ps) <= maximumSignatures /\
  forall ps' : list Keyring.t, List.length ps' = List.length ps -> NewManager ps' pol = Ok (mkManager ps' (policy m)).
Proof.
  unfold NewManager. case_match eqn:E; [done|]. case_match eqn:E2; [done|]. intros [= <-].
  split; [done|]. split; [reflect_bools; lia|]. intros ps' Hl. by rewrite Hl, E.
Qed.

(** C19.  Signature sets survive key rotation: a set that a manager over
    Ed25519 keyrings produced is accepted, for the same domain and document,
    by a manager with the same policy over the keyrings as they are after any
    number of rotations. *)
Theorem sets_survive_rotation ks ks' pol m purpose domain canonical set
    (Hks : Forall keyring_ok_ ks) (Hrot : Forall2 rotations ks ks') (Hm : NewManager ks pol = Ok m)
    (Hsign : manager_Sign m purpose domain canonical = Ok set) :
  exists m', NewManager ks' pol = Ok m' /\ manager_Verify m' domain canonical set = None.
Proof.
  destruct (NewManager_Ok _ _ _ Hm) as (Hps & Hlen & Hnew).
  exists (mkManager ks' (policy m)). split; [apply Hnew; symmetry; by eapply Forall2_length|].
  unfold manager_Sign in Hsign. destruct (signingPayload domain canonical) as [payload|] eqn:Hp; [|done].
  destruct (sign_all _ _ _ _) as [l|] eqn:Hl; [|done]. rewrite Hps in Hl.
  apply sign_all_spec in Hl as (Hn & Hby & Hcomp & Hnd & _).
  destruct (policySatisfied m _) eqn:Hpol; [done|]. injection Hsign as <-.
  pose proof (isort_perm entry_leb l) as Hperm. unfold manager_Verify. simpl.
  rewrite Hp, !bool_decide_eq_true_2 by done. rewrite (Permutation_length Hperm), Hn. simpl.
  rewrite (proj2 (Z.eqb_neq _ _)), (proj2 (Z.ltb_ge _ _)) by lia. simpl.
  rewrite verify_all_intro; [exact Hpol|by rewrite Hperm| |by rewrite Hperm|by apply Forall_true; set_solver].
  rewrite Hperm. eapply List.Forall_impl; [|exact Hby]. intros e (k & Hk & Hs & Halg).
  apply list_elem_of_lookup in Hk as [i Hi]. destruct (Forall2_lookup_l _ _ _ _ _ Hrot Hi) as (k' & Hi' & Hkk).
  apply existsb_exists. exists k'. split; [by apply list_elem_of_In; eapply list_elem_of_lookup_2|].
  rewrite Halg, (rotated_verifies k k' _ payload _); [done| |done|done].
  by eapply Forall_lookup_1.
Qed.
End Keyrings.

(** ** Witness: a toy scheme whose signature is the key followed by the message *)
Definition demo_public (k : string) : string := k.
Definition demo_sign (k m : string) : string := k +:+ m.
Definition demo_verify (pub m s : string) : bool := s ==? pub +:+ m.
Definition demo_key (c : ascii) : string := String.string_of_list_ascii (repeat c 64).
Definition demo_keyring (r : string) (c : ascii) : Keyring.t :=
  match Keyring.NewEd25519Keyring demo_public r (demo_key c) with Ok k => k | Err _ => Keyring.empty end.
Definition demo_rotated : Keyring.t :=
  match Keyring.Rotate demo_public (demo_keyring "k1" "a") "k2" (demo_key "b") with Ok k => k | Err _ => Keyring.empty end.

Lemma demo_correct k m : demo_verify (demo_public k) m (demo_sign k m) = true.
Proof. unfold demo_verify, demo_public, demo_sign. by rewrite bool_decide_eq_true_2. Qed.
(** A shorter one, for longer documents. *)
Definition size_sign (k m : string) : string := k +:+ itoa (len m).
Definition size_verify (pub m s : string) : bool := s ==? pub +:+ itoa (len m).
Lemma size_correct k m : size_verify (demo_public k) m (size_sign k m) = true.
Proof. by apply bool_decide_eq_true_2. Qed.

Lemma sets_survive_rotation_witness :
  let P := Keyring.provider demo_sign demo_verify in
  exists m set m', NewManager [demo_keyring "k1" "a"] (Policy.mk 1 [Ed25519Algorithm]) = Ok m /\
    manager_Sign m "receipts" "disclosure-receipt" "{}" = Ok set /\
    NewManager [demo_rotated] (Policy.mk 1 [Ed25519Algorithm]) = Ok m' /\
    manager_Verify m' "disclosure-receipt" "{}" set = None.
Proof.
  intros P. eexists (mkManager [demo_keyring "k1" "a"] (Policy.mk 1 [Ed25519Algorithm])), _.
  destruct (sets_survive_rotation demo_public demo_sign demo_verify demo_correct
    [demo_keyring "k1" "a"] [demo_rotated] (Policy.mk 1 [Ed25519Algorithm]) _ "receipts" "disclosure-receipt" "{}" _
    ltac:(apply list.Forall_singleton; by vm_compute)
    ltac:(constructor; [apply (rot_step _ _ "k2" (demo_key "b") demo_rotated); [by vm_compute|apply rot_refl]|constructor])
    ltac:(by vm_compute) ltac:(by vm_compute)) as (m' & H1 & H2).
  exists m'. split; [by vm_compute|]. split; [by vm_compute|]. done.
Defined.
