(* ===== verification/Authctx.v ===== *)
(** * Authenticated callers

    [internal/authctx]: the identity and scope derived from the caller's
    credential. *)
From S2P Require Import Prelude.
Local Open Scope Z_scope.

Module AuthContext.
Record t := mk {
  SubjectID : string; SPIFFEID : string; TenantID : string; Roles : list string;
  AllowedScopes : list string; DataClearances : list string; CredentialClass : string;
  AuthenticatedAt : Z; IdentityRevision : string }.
#[global] Instance eta_t : Eta t := fun x =>
  mk (SubjectID x) (SPIFFEID x) (TenantID x) (Roles x) (AllowedScopes x) (DataClearances x)
     (CredentialClass x) (AuthenticatedAt x) (IdentityRevision x).

Definition Validate (a : t) : option error :=
  if SubjectID a ==? "" then Some (Text "subject id is required")
  else if TenantID a ==? "" then Some (Text "tenant id is required")
  else if IsZero (AuthenticatedAt a) then Some (Text "authenticated at timestamp is required")
  else None.
End AuthContext.

(** [slices.Contains] and its siblings: membership in a list of strings. *)
Definition contains (values : list string) (expected : string) : bool :=
  existsb (fun value => value ==? expected) values.

Lemma contains_spec values expected : contains values expected = true <-> expected ∈ values.
Proof.
  unfold contains. rewrite existsb_exists. setoid_rewrite bool_decide_eq_true.
  rewrite list_elem_of_In. naive_solver.
Qed.

Lemma Validate_tenant a : AuthContext.Validate a = None -> AuthContext.TenantID a <> "".
Proof. unfold AuthContext.Validate. intros H. repeat case_bool_decide; try done. Qed.
