(* ===== verification/Inventory.v ===== *)
(** * Target inventory and context store ([internal/inventory],
    [internal/contextstore])

    A selector of target identifiers becomes a snapshot of catalogue entries of
    the caller's tenant; queries answer from observations already present.  The
    slices of the context store are shared with their readers, and a query sorts
    them in place, so a query returns the store it leaves behind. *)
From Stdlib Require Import Sorting.Permutation Sorted.
From S2P Require Import Prelude GoStrings GoText Authctx.
Local Open Scope Z_scope.

Module ResolvedTarget.
Record t := mk {
  TargetID : string; TenantID : string; SiteID : string; Platform : string; SoftwareFamily : string; DeviceClass : string;
  MetadataDigest : string }.
End ResolvedTarget.
Module ResolvedTargetSnapshot.
Record t := mk {
  SnapshotID : string; TenantID : string; SelectorDigest : string; InventoryRevision : string;
  Targets : list ResolvedTarget.t }.
End ResolvedTargetSnapshot.
Module Selector.
Record t := mk { TargetIDs : list string }.
End Selector.
Module Resolver.
Record t := mk { Catalog : gmap string ResolvedTarget.t }.
End Resolver.

(** The loop over the identifiers. *)
Fixpoint lookup_targets (catalog : gmap string ResolvedTarget.t) (tenantID : string) (ids : list string) :
    result (list ResolvedTarget.t) :=
  match ids with
  | [] => Ok []
  | id :: rest =>
    match catalog !! id with
    | None => Err (Text ("target " +:+ quote id +:+ " not found"))
    | Some target =>
      if ResolvedTarget.TenantID target !=? tenantID then Err (Text ("target " +:+ quote id +:+ " is outside tenant scope"))
      else match lookup_targets catalog tenantID rest with Ok l => Ok (target :: l) | Err e => Err e end
    end
  end.

Section Catalogue.
Context `{SortSlice}.

Definition target_less (a b : ResolvedTarget.t) : bool := str_ltb (ResolvedTarget.TargetID a) (ResolvedTarget.TargetID b).
Definition Resolve (r : Resolver.t) (auth : AuthContext.t) (selector : Selector.t) : result ResolvedTargetSnapshot.t :=
  match AuthContext.Validate auth with
  | Some e => Err e
  | None =>
    if Selector.TargetIDs selector ==? [] then Err (Text "selector must include at least one target id")
    else if Nat.eqb (size (Resolver.Catalog r)) 0 then Err (Text "inventory catalog is empty")
    else match lookup_targets (Resolver.Catalog r) (AuthContext.TenantID auth) (Selector.TargetIDs selector) with
    | Err e => Err e
    | Ok targets =>
      Ok (ResolvedTargetSnapshot.mk ("snapshot-" +:+ AuthContext.TenantID auth) (AuthContext.TenantID auth)
            ("targets:" +:+ strings_Join (Selector.TargetIDs selector) ",") "rev-1" (sort_Slice target_less targets))
    end
  end.
End Catalogue.

Module Observation.
Record t := mk { ClaimType : string; Value : string }.
End Observation.
Module QueryResult.
Record t := mk { Complete : bool; Observations : list Observation.t; GapDescription : string }.
End QueryResult.
Module Store.
Record t := mk { Observations : gmap string (list Observation.t) }.
End Store.

Section Query.
Context `{SortSlice}.

Definition observation_less (a b : Observation.t) : bool := str_ltb (Observation.Value a) (Observation.Value b).
(** The answer shares the slice of the store, which is sorted in place. *)
Definition Query (s : Store.t) (auth : AuthContext.t) (claimType : string) (targets : ResolvedTargetSnapshot.t) :
    result QueryResult.t * Store.t :=
  match AuthContext.Validate auth with
  | Some e => (Err e, s)
  | None =>
    if claimType ==? "" then (Err (Text "claim type is required"), s)
    else if ResolvedTargetSnapshot.TenantID targets !=? AuthContext.TenantID auth then
      (Err (Text "snapshot tenant does not match caller scope"), s)
    else match default [] (Store.Observations s !! claimType) with
    | [] => (Ok (QueryResult.mk false [] "no observations available"), s)
    | items =>
      let items := sort_Slice observation_less items in
      (Ok (QueryResult.mk true items ""), Store.mk (<[claimType := items]> (Store.Observations s)))
    end
  end.
End Query.

(** ** Snapshots *)
Definition in_scope (catalog : gmap string ResolvedTarget.t) (tenantID id : string) (t : ResolvedTarget.t) : Prop :=
  catalog !! id = Some t /\ ResolvedTarget.TenantID t = tenantID.
Lemma lookup_targets_spec catalog tenantID ids :
  match lookup_targets catalog tenantID ids with
  | Ok l => Forall2 (in_scope catalog tenantID) ids l
  | Err _ => exists id, id ∈ ids /\ forall t, ~ in_scope catalog tenantID id t
  end.
Proof.
  induction ids as [|id rest IH]; cbn [lookup_targets]; [constructor|].
  destruct (catalog !! id) as [t|] eqn:Hid; [|exists id; split; [left|]; intros t [Ht _]; congruence].
  destruct (_ !=? tenantID) eqn:Ht; reflect_bools.
  - exists id. split; [left|]. intros t' [Ht' ?]. congruence.
  - destruct (lookup_targets catalog tenantID rest); [by constructor|]. destruct IH as (id' & Hin & Hno). exists id'.
    split; [by right|done].
Qed.

(** A snapshot is all or nothing: every identifier names an entry of the
    caller's tenant, and the snapshot has exactly these entries, in order. *)
Theorem snapshot_tenant_scoped `{SortLaws} r auth selector :
  match Resolve r auth selector with
  | Ok snapshot =>
    ResolvedTargetSnapshot.TenantID snapshot = AuthContext.TenantID auth /\
    Forall (fun t => ResolvedTarget.TenantID t = AuthContext.TenantID auth) (ResolvedTargetSnapshot.Targets snapshot) /\
    StronglySorted (fun a b => target_less b a = false) (ResolvedTargetSnapshot.Targets snapshot) /\
    exists l, Permutation (ResolvedTargetSnapshot.Targets snapshot) l /\
      Forall2 (in_scope (Resolver.Catalog r) (AuthContext.TenantID auth)) (Selector.TargetIDs selector) l
  | Err _ => AuthContext.Validate auth <> None \/ Selector.TargetIDs selector = [] \/
      exists id, id ∈ Selector.TargetIDs selector /\ forall t, ~ in_scope (Resolver.Catalog r) (AuthContext.TenantID auth) id t
  end.
Proof.
  unfold Resolve. destruct (AuthContext.Validate auth); [by left|]. destruct (_ ==? []) eqn:He; reflect_bools; [by auto|].
  destruct (Nat.eqb _ 0) eqn:Hs.
  - right. right. destruct (Selector.TargetIDs selector) as [|id rest]; [done|]. exists id. split; [left|].
    intros t [Ht _]. apply Nat.eqb_eq, map_size_empty_inv in Hs. by rewrite Hs, lookup_empty in Ht.
  - pose proof (lookup_targets_spec (Resolver.Catalog r) (AuthContext.TenantID auth) (Selector.TargetIDs selector)) as Hl.
    destruct (lookup_targets _ _ _) as [l|]; [|by auto]. cbn. split; [done|]. split; [|split].
    + rewrite sort_Slice_perm. clear -Hl. induction Hl as [|? ? ? ? [_ ?]]; by constructor.
    + apply sort_Slice_sorted, less_by.
    + exists l. split; [apply sort_Slice_perm|done].
Qed.

(** ** Queries *)

(** Every observation is filed under its claim type. *)
Definition filed (s : Store.t) : Prop :=
  map_Forall (fun claimType items => Forall (fun o => Observation.ClaimType o = claimType) items) (Store.Observations s).
Lemma sorted_observations_unique claimType l l' :
  Forall (fun o => Observation.ClaimType o = claimType) l -> Permutation l l' ->
  StronglySorted (fun a b => observation_less b a = false) l -> StronglySorted (fun a b => observation_less b a = false) l' -> l = l'.
Proof.
  intros Hl Hp Hs Hs'. revert l' Hp Hs'. induction Hs as [|x l Hs IH Hx]; intros l' Hp Hs'; [by apply Permutation_nil in Hp|].
  destruct Hs' as [|y l' Hs' Hy]; [by apply Permutation_sym, Permutation_nil in Hp|].
  apply list.Forall_cons in Hl as [Hcx Hl].
  assert (Hleb : forall a b, observation_less b a = false -> str_leb (Observation.Value a) (Observation.Value b) = true).
  { intros a b. unfold observation_less, str_ltb. by rewrite negb_false_iff. }
  assert (Heq : x = y).
  { assert (Hyin : y ∈ x :: l) by (rewrite Hp; left). assert (Hxin : x ∈ y :: l') by (rewrite <- Hp; left).
    apply elem_of_cons in Hyin as [->|Hyin]; [done|]. apply elem_of_cons in Hxin as [->|Hxin]; [done|].
    rewrite list.Forall_forall in Hx. rewrite list.Forall_forall in Hy. rewrite list.Forall_forall in Hl.
    pose proof (str_leb_antisym _ _ (Hleb _ _ (Hx y Hyin)) (Hleb _ _ (Hy x Hxin))) as Hv. specialize (Hl y Hyin).
    destruct x, y. cbn in *. congruence. }
  subst y. f_equal. apply IH; [done| |done]. by eapply Permutation_cons_inv.
Qed.

(** A query leaves every slice with the same observations, and asking again
    gives the same answer and changes nothing more. *)
Theorem query_repeatable `{SortLaws} s auth claimType targets (Hs : filed s) :
  let '(r, s') := Query s auth claimType targets in
  filed s' /\ (forall k, Permutation (default [] (Store.Observations s' !! k)) (default [] (Store.Observations s !! k))) /\
  Query s' auth claimType targets = (r, s').
Proof.
  unfold Query. destruct (AuthContext.Validate auth); [done|]. destruct (claimType ==? ""); [done|]. destruct (_ !=? _); [done|].
  destruct (Store.Observations s !! claimType) as [[|x items]|] eqn:Hk; cbn [default id]; rewrite ?Hk; try done.
  set (sorted := sort_Slice observation_less (x :: items)). pose proof (Hs _ _ Hk) as Hfiled.
  assert (Hp : Permutation sorted (x :: items)) by apply sort_Slice_perm.
  assert (Hsorted : StronglySorted (fun a b => observation_less b a = false) sorted) by apply sort_Slice_sorted, less_by.
  cbn [Store.Observations]. split; [|split].
  - intros k l Hl. cbn [Store.Observations] in Hl. apply lookup_insert_Some in Hl as [[<- <-]|[_ Hl]]; [by rewrite Hp|by apply Hs].
  - intros k. destruct (decide (k = claimType)) as [->|Hne]; [by rewrite lookup_insert_eq, Hk|by rewrite lookup_insert_ne].
  - rewrite lookup_insert_eq. cbn [default id]. destruct sorted as [|y rest] eqn:E; [by apply Permutation_length in Hp|].
    rewrite <- E in *. assert (Hagain : sort_Slice observation_less sorted = sorted).
    { apply (sorted_observations_unique claimType); [by rewrite sort_Slice_perm, Hp|apply sort_Slice_perm| |done].
      apply sort_Slice_sorted, less_by. }
    rewrite Hagain. by rewrite insert_insert_eq.
Qed.

(** ** Runs *)
#[local] Existing Instance insertion_sort.
Definition operator : AuthContext.t := AuthContext.mk "alice" "" "tenant" [] [] [] "" 1000 "".
Definition router (id : string) : ResolvedTarget.t := ResolvedTarget.mk id "tenant" "site" "ios" "xe" "router" "m".
Definition demo_catalog : Resolver.t := Resolver.mk {["r1" := router "r1"; "r2" := router "r2"]}.
Definition demo_store : Store.t :=
  Store.mk {["interface" := [Observation.mk "interface" "up"; Observation.mk "interface" "down"]]}.
Definition demo_snapshot : ResolvedTargetSnapshot.t :=
  ResolvedTargetSnapshot.mk "snapshot-tenant" "tenant" "targets:r2,r1" "rev-1" [router "r1"; router "r2"].

(** A query changes the order of what the store holds, different selections
    have one snapshot identifier, and different selectors can have one digest. *)
Example catalogue_run :
  Resolve demo_catalog operator (Selector.mk ["r2"; "r1"]) = Ok demo_snapshot /\
  (Query demo_store operator "interface" demo_snapshot).2 =
    Store.mk {["interface" := [Observation.mk "interface" "down"; Observation.mk "interface" "up"]]} /\
  match Resolve demo_catalog operator (Selector.mk ["r1"]) with
  | Ok snapshot => ResolvedTargetSnapshot.SnapshotID snapshot = ResolvedTargetSnapshot.SnapshotID demo_snapshot
  | Err _ => False
  end /\
  strings_Join ["r1,r2"] "," = strings_Join ["r1"; "r2"] ",".
Proof. split_and!; vm_compute; reflexivity. Qed.
