(* ===== verification/Task.v ===== *)
(** * Collector tasks and the in-memory task store

    [internal/collector/task.go].  [Task.t] and [Lease.t] are the structs,
    [Store] is the map guarded by the store's mutex, and each method is a
    function from its arguments and the store to its result and the store
    afterwards.  Every method holds the mutex for its whole body, so an
    interleaving of callers is a list of operations, run by [exec].

    The theorems show the lease protocol: fencing tokens grow, a held lease
    excludes everyone but its holder, a stale holder can change nothing, a
    result is accepted at most once and only through the whole lifecycle, and
    the store refines a step relation on single tasks. *)
From S2P Require Import Prelude GoStrings.
Local Open Scope Z_scope.

Create HintDb collector.

(** ** Data *)

(** The task states; [TaskOther] is any other string, the empty one included. *)
Inductive TaskState : Type :=
| TaskQueued | TaskLeased | TaskExecuting | TaskCommitting | TaskSucceeded
| TaskRetryWait | TaskFailed | TaskDenied | TaskCancelled | TaskExpired
| TaskDeadLetter | TaskOther (s : string).

#[global] Instance TaskState_eq_dec : EqDecision TaskState.
Proof. solve_decision. Defined.

Definition TaskState_string (st : TaskState) : string :=
  match st with
  | TaskQueued => "queued" | TaskLeased => "leased" | TaskExecuting => "executing"
  | TaskCommitting => "committing" | TaskSucceeded => "succeeded"
  | TaskRetryWait => "retry_wait" | TaskFailed => "failed" | TaskDenied => "denied"
  | TaskCancelled => "cancelled" | TaskExpired => "expired"
  | TaskDeadLetter => "dead_letter" | TaskOther s => s
  end.

Definition ErrTaskNotFound := New "collector.ErrTaskNotFound" "collector task not found".
Definition ErrLeaseHeld := New "collector.ErrLeaseHeld" "collector task lease is held".
Definition ErrStaleFence := New "collector.ErrStaleFence" "collector task fencing token is stale".
Definition ErrLeaseExpired := New "collector.ErrLeaseExpired" "collector task lease has expired".
Definition ErrInvalidState :=
  New "collector.ErrInvalidState" "collector task state transition is invalid".
Definition ErrDuplicateCommit :=
  New "collector.ErrDuplicateCommit" "collector task already has an accepted result".
Definition ErrEvidenceNotFound :=
  New "collector.ErrEvidenceNotFound" "reconcilable evidence envelope was not found".

Module Task.
Record t := mk {
  ID : string; TenantID : string; ResolutionID : string; ClaimFingerprint : string;
  TargetSnapshotID : string; TargetSnapshotHash : string; TargetID : string;
  TargetEndpoint : string; RecipeID : string; RecipeVersion : string;
  TriggerDecisionID : string; PlanningDecisionID : string;
  ExecutionDecisionID : string; ExecutionGrantID : string; ApprovalGrantID : string;
  CompatibilityHash : string; State : TaskState; AttemptCount : Z;
  LeaseOwner : string; LeaseExpiry : Z; FencingToken : Z;
  AcceptedAttemptID : string; AcceptedEvidenceID : string; LastError : string }.
#[global] Instance eta_t : Eta t := fun x =>
  mk (ID x) (TenantID x) (ResolutionID x) (ClaimFingerprint x) (TargetSnapshotID x)
     (TargetSnapshotHash x) (TargetID x) (TargetEndpoint x) (RecipeID x) (RecipeVersion x)
     (TriggerDecisionID x) (PlanningDecisionID x) (ExecutionDecisionID x)
     (ExecutionGrantID x) (ApprovalGrantID x) (CompatibilityHash x) (State x)
     (AttemptCount x) (LeaseOwner x) (LeaseExpiry x) (FencingToken x)
     (AcceptedAttemptID x) (AcceptedEvidenceID x) (LastError x).
#[global] Instance eq_dec : EqDecision t.
Proof. solve_decision. Defined.
End Task.

Module Lease.
Record t := mk { TaskID : string; Owner : string; FencingToken : Z; ExpiresAt : Z }.
#[global] Instance eq_dec : EqDecision t.
Proof. solve_decision. Defined.
End Lease.

(** The mutex-guarded map.  Stored tasks are private copies: [Add] copies its
    argument and [Get] returns a copy, so no caller shares them. *)
Abbreviation Store := (gmap string Task.t).
Definition NewStore : Store := ∅.

(** [boundedError] keeps at most 2048 runes. *)
Definition boundedError (value : string) : string :=
  if Nat.ltb 2048 (List.length (runes value)) then of_runes (firstn 2048 (runes value)) else value.

(** ** Operations *)
Definition taskLocked (s : Store) (taskID : string) : result Task.t :=
  match s !! taskID with
  | Some task => Ok task
  | None => Err (Wrapf "" ErrTaskNotFound (": " +:+ quote taskID))
  end.

Definition requireLease (task : Task.t) (owner : string) (token now : Z) : option error :=
  if (Task.LeaseOwner task !=? owner) || (Task.FencingToken task !=? token) then Some ErrStaleFence
  else if IsZero now || negb (Before now (Task.LeaseExpiry task)) then Some ErrLeaseExpired
  else None.

Definition leaseFor (task : Task.t) : Lease.t :=
  Lease.mk (Task.ID task) (Task.LeaseOwner task) (Task.FencingToken task) (Task.LeaseExpiry task).

Definition invalidState (text : string) (st : TaskState) : error :=
  Wrapf "" ErrInvalidState (": " +:+ text +:+ " " +:+ quote (TaskState_string st)).

Definition Add (task : Task.t) (s : Store) : result unit * Store :=
  if (Task.ID task ==? "") || (Task.TargetID task ==? "") || (Task.RecipeID task ==? "") then
    (Err (Text "task id, target id and recipe id are required"), s)
  else match s !! Task.ID task with
  | Some _ => (Err (Text ("task " +:+ quote (Task.ID task) +:+ " already exists")), s)
  | None =>
    let task := if Task.State task ==? TaskOther "" then task <| Task.State := TaskQueued |> else task in
    if Task.State task !=? TaskQueued then
      (Err (Wrapf "" ErrInvalidState ": new task must be queued"), s)
    else (Ok tt, <[Task.ID task := task]> s)
  end.

Definition Acquire (taskID owner : string) (now duration : Z) (s : Store) : result Lease.t * Store :=
  if owner ==? "" then (Err (Text "lease owner is required"), s)
  else if IsZero now || (duration <=? 0) then
    (Err (Text "lease time and positive duration are required"), s)
  else match taskLocked s taskID with
  | Err e => (Err e, s)
  | Ok task =>
    let acquire :=
      let task := task <| Task.State := TaskLeased |>
                       <| Task.LeaseOwner := owner |>
                       <| Task.LeaseExpiry := now + duration |>
                       <| Task.FencingToken := int64 (Task.FencingToken task + 1) |>
                       <| Task.AttemptCount := int64 (Task.AttemptCount task + 1) |>
                       <| Task.ExecutionDecisionID := "" |>
                       <| Task.ExecutionGrantID := "" |>
                       <| Task.LastError := "" |> in
      (Ok (leaseFor task), <[taskID := task]> s) in
    match Task.State task with
    | TaskQueued | TaskRetryWait => acquire
    | TaskLeased | TaskExecuting | TaskCommitting =>
      if Before now (Task.LeaseExpiry task) then (Err ErrLeaseHeld, s) else acquire
    | st => (Err (invalidState "cannot lease task in state" st), s)
    end
  end.

Definition Renew (taskID owner : string) (token now duration : Z) (s : Store) :
    result Lease.t * Store :=
  if IsZero now || (duration <=? 0) then
    (Err (Text "lease time and positive duration are required"), s)
  else match taskLocked s taskID with
  | Err e => (Err e, s)
  | Ok task =>
    match requireLease task owner token now with
    | Some e => (Err e, s)
    | None =>
      if (Task.State task !=? TaskLeased) && (Task.State task !=? TaskExecuting) then
        (Err (invalidState "cannot renew task in state" (Task.State task)), s)
      else
        let task := task <| Task.LeaseExpiry := now + duration |> in
        (Ok (leaseFor task), <[taskID := task]> s)
    end
  end.

Definition transitionOwned (taskID owner : string) (token now : Z) (from to : TaskState)
    (s : Store) : result unit * Store :=
  match taskLocked s taskID with
  | Err e => (Err e, s)
  | Ok task =>
    match requireLease task owner token now with
    | Some e => (Err e, s)
    | None =>
      if Task.State task !=? from then
        (Err (Wrapf "" ErrInvalidState
           (": expected state " +:+ quote (TaskState_string from) +:+ ", got " +:+
            quote (TaskState_string (Task.State task)))), s)
      else (Ok tt, <[taskID := task <| Task.State := to |>]> s)
    end
  end.

Definition StartExecution (taskID owner : string) (token now : Z) : Store -> result unit * Store :=
  transitionOwned taskID owner token now TaskLeased TaskExecuting.

Definition BeginCommit (taskID owner : string) (token now : Z) : Store -> result unit * Store :=
  transitionOwned taskID owner token now TaskExecuting TaskCommitting.

Definition RecordExecutionAuthority (taskID owner : string) (token : Z)
    (decisionID grantID : string) (now : Z) (s : Store) : result unit * Store :=
  if (decisionID ==? "") || (grantID ==? "") then
    (Err (Text "execution decision id and grant id are required"), s)
  else match taskLocked s taskID with
  | Err e => (Err e, s)
  | Ok task =>
    match requireLease task owner token now with
    | Some e => (Err e, s)
    | None =>
      if Task.State task !=? TaskExecuting then
        (Err (invalidState "cannot record execution authority in state" (Task.State task)), s)
      else (Ok tt, <[taskID := task <| Task.ExecutionDecisionID := decisionID |>
                                    <| Task.ExecutionGrantID := grantID |>]> s)
    end
  end.

Definition Commit (taskID owner : string) (token : Z) (attemptID evidenceID : string) (now : Z)
    (s : Store) : result unit * Store :=
  if (attemptID ==? "") || (evidenceID ==? "") then
    (Err (Text "attempt id and evidence id are required"), s)
  else match taskLocked s taskID with
  | Err e => (Err e, s)
  | Ok task =>
    if Task.AcceptedAttemptID task !=? "" then (Err ErrDuplicateCommit, s)
    else match requireLease task owner token now with
    | Some e => (Err e, s)
    | None =>
      if Task.State task !=? TaskCommitting then
        (Err (invalidState "cannot commit task in state" (Task.State task)), s)
      else (Ok tt, <[taskID := task <| Task.AcceptedAttemptID := attemptID |>
                                    <| Task.AcceptedEvidenceID := evidenceID |>
                                    <| Task.State := TaskSucceeded |>]> s)
    end
  end.

Definition Retry (taskID owner : string) (token now : Z) (cause : option error) (s : Store) :
    result unit * Store :=
  match taskLocked s taskID with
  | Err e => (Err e, s)
  | Ok task =>
    match requireLease task owner token now with
    | Some e => (Err e, s)
    | None =>
      if (Task.State task !=? TaskLeased) && (Task.State task !=? TaskExecuting) &&
         (Task.State task !=? TaskCommitting) then
        (Err (invalidState "cannot retry task in state" (Task.State task)), s)
      else
        let task := task <| Task.State := TaskRetryWait |>
                         <| Task.LeaseOwner := "" |>
                         <| Task.LeaseExpiry := 0 |> in
        let task := match cause with
                    | Some cause => task <| Task.LastError := boundedError (Error cause) |>
                    | None => task
                    end in
        (Ok tt, <[taskID := task]> s)
    end
  end.

Definition Get (taskID : string) (s : Store) : result Task.t := taskLocked s taskID.

Definition CurrentFence (taskID : string) (s : Store) : result Z :=
  match taskLocked s taskID with
  | Err e => Err e
  | Ok task => Ok (Task.FencingToken task)
  end.

Definition VerifyCurrentAttempt (taskID collectorID : string) (fencingToken at_ : Z) (s : Store) :
    result unit :=
  match taskLocked s taskID with
  | Err e => Err e
  | Ok task =>
    match requireLease task collectorID fencingToken at_ with
    | Some e => Err e
    | None =>
      if (Task.State task !=? TaskExecuting) && (Task.State task !=? TaskCommitting) then
        Err (invalidState "cannot assemble evidence in state" (Task.State task))
      else Ok tt
    end
  end.

(** ** Interleavings

    The mutating methods as one type of operations; [exec] runs one of them.
    The reading methods do not change the store. *)
Inductive Op : Type :=
| OpAdd (task : Task.t)
| OpAcquire (taskID owner : string) (now duration : Z)
| OpRenew (taskID owner : string) (token now duration : Z)
| OpStart (taskID owner : string) (token now : Z)
| OpAuthority (taskID owner : string) (token : Z) (decisionID grantID : string) (now : Z)
| OpBegin (taskID owner : string) (token now : Z)
| OpCommit (taskID owner : string) (token : Z) (attemptID evidenceID : string) (now : Z)
| OpRetry (taskID owner : string) (token now : Z) (cause : option error).

(** What a successful operation returns: nothing, or a lease. *)
Definition Reply : Type := option Lease.t.

Definition reply {A St} (f : A -> Reply) (r : result A * St) : result Reply * St :=
  (match r.1 with Ok a => Ok (f a) | Err e => Err e end, r.2).

Definition exec (op : Op) (s : Store) : result Reply * Store :=
  match op with
  | OpAdd task => reply (fun _ => None) (Add task s)
  | OpAcquire id owner now d => reply Some (Acquire id owner now d s)
  | OpRenew id owner token now d => reply Some (Renew id owner token now d s)
  | OpStart id owner token now => reply (fun _ => None) (StartExecution id owner token now s)
  | OpAuthority id owner token dec grant now =>
    reply (fun _ => None) (RecordExecutionAuthority id owner token dec grant now s)
  | OpBegin id owner token now => reply (fun _ => None) (BeginCommit id owner token now s)
  | OpCommit id owner token att ev now => reply (fun _ => None) (Commit id owner token att ev now s)
  | OpRetry id owner token now cause => reply (fun _ => None) (Retry id owner token now cause s)
  end.

Definition op_id (op : Op) : string :=
  match op with
  | OpAdd task => Task.ID task
  | OpAcquire id _ _ _ | OpRenew id _ _ _ _ | OpStart id _ _ _ | OpAuthority id _ _ _ _ _
  | OpBegin id _ _ _ | OpCommit id _ _ _ _ _ | OpRetry id _ _ _ _ => id
  end.

(** The owner, token and time an operation presents, for those that act under
    a lease. *)
Definition op_holder (op : Op) : option (string * Z * Z) :=
  match op with
  | OpAdd _ | OpAcquire _ _ _ _ => None
  | OpRenew _ o k now _ | OpStart _ o k now | OpAuthority _ o k _ _ now
  | OpBegin _ o k now | OpCommit _ o k _ _ now | OpRetry _ o k now _ => Some (o, k, now)
  end.

Definition active (st : TaskState) : bool :=
  match st with TaskLeased | TaskExecuting | TaskCommitting => true | _ => false end.
Definition available (st : TaskState) : bool :=
  match st with TaskQueued | TaskRetryWait => true | _ => false end.

(** ** The abstract step relation

    [change op before after r]: the operation is allowed on the task, turns
    [before] into [after] and replies [r].  A lease is [held] when owner and
    token match and it has not expired. *)
Definition held (t : Task.t) (owner : string) (token now : Z) : Prop :=
  Task.LeaseOwner t = owner /\ Task.FencingToken t = token /\
  now <> 0 /\ now < Task.LeaseExpiry t.

Definition acquired (t : Task.t) (owner : string) (expiry : Z) : Task.t :=
  t <| Task.State := TaskLeased |> <| Task.LeaseOwner := owner |>
    <| Task.LeaseExpiry := expiry |>
    <| Task.FencingToken := int64 (Task.FencingToken t + 1) |>
    <| Task.AttemptCount := int64 (Task.AttemptCount t + 1) |>
    <| Task.ExecutionDecisionID := "" |> <| Task.ExecutionGrantID := "" |>
    <| Task.LastError := "" |>.

Definition released (t : Task.t) (cause : option error) : Task.t :=
  t <| Task.State := TaskRetryWait |> <| Task.LeaseOwner := "" |> <| Task.LeaseExpiry := 0 |>
    <| Task.LastError := match cause with
                         | Some c => boundedError (Error c) | None => Task.LastError t end |>.

Inductive change : Op -> option Task.t -> Task.t -> Reply -> Prop :=
| change_add t :
    Task.ID t <> "" -> Task.TargetID t <> "" -> Task.RecipeID t <> "" ->
    Task.State t = TaskQueued \/ Task.State t = TaskOther "" ->
    change (OpAdd t) None (t <| Task.State := TaskQueued |>) None
| change_acquire id owner now d t :
    owner <> "" -> now <> 0 -> 0 < d ->
    available (Task.State t) = true \/
      active (Task.State t) = true /\ Task.LeaseExpiry t <= now ->
    change (OpAcquire id owner now d) (Some t) (acquired t owner (now + d))
      (Some (leaseFor (acquired t owner (now + d))))
| change_renew id owner k now d t :
    0 < d -> held t owner k now ->
    Task.State t = TaskLeased \/ Task.State t = TaskExecuting ->
    change (OpRenew id owner k now d) (Some t) (t <| Task.LeaseExpiry := now + d |>)
      (Some (leaseFor (t <| Task.LeaseExpiry := now + d |>)))
| change_start id owner k now t :
    held t owner k now -> Task.State t = TaskLeased ->
    change (OpStart id owner k now) (Some t) (t <| Task.State := TaskExecuting |>) None
| change_authority id owner k dec grant now t :
    dec <> "" -> grant <> "" -> held t owner k now -> Task.State t = TaskExecuting ->
    change (OpAuthority id owner k dec grant now) (Some t)
      (t <| Task.ExecutionDecisionID := dec |> <| Task.ExecutionGrantID := grant |>) None
| change_begin id owner k now t :
    held t owner k now -> Task.State t = TaskExecuting ->
    change (OpBegin id owner k now) (Some t) (t <| Task.State := TaskCommitting |>) None
| change_commit id owner k att ev now t :
    att <> "" -> ev <> "" -> Task.AcceptedAttemptID t = "" ->
    held t owner k now -> Task.State t = TaskCommitting ->
    change (OpCommit id owner k att ev now) (Some t)
      (t <| Task.AcceptedAttemptID := att |> <| Task.AcceptedEvidenceID := ev |>
         <| Task.State := TaskSucceeded |>) None
| change_retry id owner k now cause t :
    held t owner k now -> active (Task.State t) = true ->
    change (OpRetry id owner k now cause) (Some t) (released t cause) None.
#[global] Hint Constructors change : collector.

(** ** The store implements the relation *)
Lemma requireLease_held t owner token now :
  requireLease t owner token now = None <-> held t owner token now.
Proof.
  unfold requireLease, held. split.
  - intros H. repeat case_match; try done. reflect_bools. naive_solver lia.
  - intros (-> & -> & Hn & Hlt). rewrite !bool_decide_true by done. simpl.
    case_match; [|done]. reflect_bools. lia.
Qed.

Lemma taskLocked_ok s id t : taskLocked s id = Ok t <-> s !! id = Some t.
Proof. unfold taskLocked. case_match; naive_solver. Qed.

Lemma released_None t :
  released t None = t <| Task.State := TaskRetryWait |> <| Task.LeaseOwner := "" |>
                      <| Task.LeaseExpiry := 0 |>.
Proof. by destruct t. Qed.

(** [open_op] follows the operation of the goal down every branch, keeping
    what the guards established. *)
Ltac open_op :=
  repeat match goal with
  | |- context [taskLocked ?s ?id] =>
    let E := fresh "Hget" in destruct (taskLocked s id) eqn:E; simpl; try done;
    apply taskLocked_ok in E
  | |- context [requireLease ?t ?o ?k ?n] =>
    let E := fresh "Hheld" in destruct (requireLease t o k n) eqn:E; simpl; try done;
    apply requireLease_held in E
  | |- context [match Task.State ?t with _ => _ end] =>
    let E := fresh "Hstate" in destruct (Task.State t) eqn:E; simpl; try done
  | |- context [if ?b then _ else _] => let E := fresh "E" in destruct b eqn:E; simpl; try done
  | |- context [match ?x with _ => _ end] =>
    let E := fresh "E" in destruct x eqn:E; simpl; try done
  end.

(** Whatever an operation does, it either fails and changes nothing, or it
    makes one allowed change to its own task. *)
Lemma exec_sound op s :
  match exec op s with
  | (Err _, s') => s' = s
  | (Ok r, s') => exists t', change op (s !! op_id op) t' r /\ s' = <[op_id op := t']> s
  end.
Proof.
  destruct op; simpl; unfold reply, Add, Acquire, Renew, StartExecution, BeginCommit,
    transitionOwned, RecordExecutionAuthority, Commit, Retry; open_op;
    eexists; (split; [|reflexivity]);
    repeat match goal with H : s !! _ = _ |- _ => rewrite H; clear H end; reflect_bools;
    destruct_and?.
  2: { replace task with (task <| Task.State := TaskQueued |>) at 2 by by (destruct task; simpl in *; subst).
       by constructor; auto. }
  all: first
    [ by constructor; auto with lia
    | by apply change_acquire; [done..|]; rewrite Hstate; simpl; auto
    | by apply change_renew; [..|destruct (Task.State a); naive_solver]
    | idtac ].
  - apply (change_retry _ _ _ _ (Some e)); [done|]. by destruct E as [[-> | ->] | ->].
  - rewrite <- released_None. apply change_retry; [done|]. by destruct E as [[-> | ->] | ->].
Qed.

Lemma held_requireLease t owner token now :
  held t owner token now -> requireLease t owner token now = None.
Proof. apply requireLease_held. Qed.

Ltac decide_guards :=
  repeat match goal with
  | H : held ?t ?o ?k ?n |- context [requireLease ?t ?o ?k ?n] =>
    rewrite (held_requireLease t o k n H)
  | |- context [bool_decide ?P] =>
    first [rewrite (bool_decide_true P) by done | rewrite (bool_decide_false P) by done]
  | |- context [IsZero ?n] => replace (IsZero n) with false by (symmetry; apply Z.eqb_neq; lia)
  | |- context [?a <=? ?b] => replace (a <=? b) with false by (symmetry; apply Z.leb_gt; lia)
  end; simpl.

(** Conversely, every allowed change is made. *)
Lemma exec_complete op s t' r :
  change op (s !! op_id op) t' r -> exec op s = (Ok r, <[op_id op := t']> s).
Proof.
  remember (s !! op_id op) as before eqn:Hs. intros Hc.
  destruct Hc as [t H1 H2 H3 H4|id owner now d t H1 H2 H3 H4|id owner k now d t H1 H2 H3
    |id owner k now t H1 H2|id owner k dec grant now t H1 H2 H3 H4|id owner k now t H1 H2
    |id owner k att ev now t H1 H2 H3 H4 H5|id owner k now cause t H1 H2];
    symmetry in Hs; simpl in Hs; simpl;
    unfold reply, Add, Acquire, Renew, StartExecution, BeginCommit,
      transitionOwned, RecordExecutionAuthority, Commit, Retry, taskLocked; rewrite Hs;
    try (pose proof H2 as (? & ? & ? & ?)); decide_guards; try done.
  - by destruct t; simpl in *; destruct H4 as [-> | ->].
  - assert (Hb : active (Task.State t) = true -> Before now (Task.LeaseExpiry t) = false).
    { intros Ha. apply Z.ltb_ge. destruct H4 as [Hv|[_ ?]]; [|lia]. by destruct (Task.State t). }
    destruct (Task.State t); try (by destruct H4 as [?|[? ?]]); rewrite ?Hb; done.
  - by destruct H3 as [-> | ->].
  - replace (released t cause) with (match cause with
      | Some c => released t (Some c) | None => released t None end) by by destruct cause.
    rewrite released_None. by destruct (Task.State t).
Qed.

Lemma exec_ok_iff op s r s' :
  exec op s = (Ok r, s') <->
  exists t', change op (s !! op_id op) t' r /\ s' = <[op_id op := t']> s.
Proof.
  split.
  - intros H. pose proof (exec_sound op s) as Hs. by rewrite H in Hs.
  - intros (t' & Hc & ->). by apply exec_complete.
Qed.

(** ** Consequences of the relation *)

(** [exec_step op s] replaces a run of [op] by its two outcomes. *)
Ltac exec_step op s :=
  let Hs := fresh "Hs" in
  pose proof (exec_sound op s) as Hs;
  destruct (exec op s) as [[?r|?e] ?s']; cbn [fst snd] in *;
  [destruct Hs as (?t' & ?Hc & ->)|subst].

Lemma change_live op t t' r :
  change op (Some t) t' r -> available (Task.State t) = true \/ active (Task.State t) = true.
Proof. inversion 1; subst; auto; repeat match goal with H : _ \/ _ |- _ => destruct H end;
  destruct_and?; repeat match goal with H : Task.State t = _ |- _ => rewrite H end; auto. Qed.

Lemma change_holder op t t' r owner token now :
  change op t t' r -> op_holder op = Some (owner, token, now) ->
  exists t0, t = Some t0 /\ held t0 owner token now.
Proof. inversion 1; subst; simpl; intros; simplify_eq; eauto. Qed.

(** The identifier and the planning authority of a task never change. *)
Lemma change_ID op t t' r : change op (Some t) t' r -> Task.ID t' = Task.ID t.
Proof. by inversion 1; subst. Qed.

(** ** Logs *)
Definition Entry : Type := Op * result Reply.

(** The results accepted for a task, in order. *)
Definition accepted (id : string) (e : Entry) : option (string * string) :=
  match e with
  | (OpCommit i _ _ att ev _, Ok _) => if i ==? id then Some (att, ev) else None
  | _ => None
  end.
Definition accepted_results (id : string) (log : list Entry) : list (string * string) :=
  omap (accepted id) log.

(** The fencing tokens granted for a task, in order. *)
Definition granted (id : string) (e : Entry) : option Z :=
  match e with
  | (OpAcquire i _ _ _, Ok (Some l)) => if i ==? id then Some (Lease.FencingToken l) else None
  | _ => None
  end.
Definition granted_tokens (id : string) (log : list Entry) : list Z := omap (granted id) log.

(** A task as [CreateFanout] and the durable repository create it: no lifecycle
    history of its own yet. *)
Definition fresh_task (t : Task.t) : Prop :=
  Task.LeaseOwner t = "" /\ Task.LeaseExpiry t = 0 /\ Task.FencingToken t = 0 /\
  Task.AttemptCount t = 0 /\ Task.AcceptedAttemptID t = "" /\ Task.AcceptedEvidenceID t = "" /\
  Task.ExecutionDecisionID t = "" /\ Task.ExecutionGrantID t = "" /\ Task.LastError t = "".
Definition fresh_op (op : Op) : Prop :=
  match op with OpAdd t => fresh_task t | _ => True end.

(** The life-cycle conditions of a stored task after at most [n] acquisitions.
    The [broker_collector_tasks] table checks most of them too; what it checks
    beyond them (required identities, lengths) the in-memory store does not. *)
Definition task_ok (n : Z) (id : string) (t : Task.t) : Prop :=
  Task.ID t = id /\
  0 <= Task.FencingToken t <= n /\ Task.AttemptCount t = Task.FencingToken t /\
  (Task.ExecutionDecisionID t = "" <-> Task.ExecutionGrantID t = "") /\
  match Task.State t with
  | TaskQueued => Task.LeaseOwner t = "" /\ Task.LeaseExpiry t = 0 /\ Task.FencingToken t = 0 /\
      Task.AcceptedAttemptID t = "" /\ Task.AcceptedEvidenceID t = ""
  | TaskRetryWait => Task.LeaseOwner t = "" /\ Task.LeaseExpiry t = 0 /\ 0 < Task.FencingToken t /\
      Task.AcceptedAttemptID t = "" /\ Task.AcceptedEvidenceID t = ""
  | TaskLeased | TaskExecuting | TaskCommitting =>
      Task.LeaseOwner t <> "" /\ 0 < Task.FencingToken t /\
      Task.AcceptedAttemptID t = "" /\ Task.AcceptedEvidenceID t = "" /\ Task.LastError t = ""
  | TaskSucceeded => Task.LeaseOwner t <> "" /\ 0 < Task.FencingToken t /\
      Task.AcceptedAttemptID t <> "" /\ Task.AcceptedEvidenceID t <> "" /\ Task.LastError t = ""
  | _ => False
  end.
Definition store_ok (n : Z) (s : Store) : Prop := map_Forall (task_ok n) s.

Lemma change_ok n op t t' r :
  fresh_op op -> 0 <= n < max_int64 ->
  (forall t0, t = Some t0 -> task_ok n (op_id op) t0) ->
  change op t t' r -> task_ok (n + 1) (op_id op) t'.
Proof.
  intros Hf Hn Hok Hc. unfold task_ok in *.
  destruct Hc as [t H1 H2 H3 H4|id owner now d t H1 H2 H3 H4|id owner k now d t H1 H2 H3
    |id owner k now t H1 H2|id owner k dec grant now t H1 H2 H3 H4|id owner k now t H1 H2
    |id owner k att ev now t H1 H2 H3 H4 H5|id owner k now cause t H1 H2];
    simpl in *; try (destruct (Hok t eq_refl) as (HID & Htok & Hatt & Hauth & Hst); clear Hok).
  - unfold fresh_task in Hf. naive_solver lia.
  - rewrite Hatt, !int64_small by (unfold max_int64 in *; lia).
    destruct (Task.State t); naive_solver lia.
  - destruct H3 as [E|E]; rewrite E in *; naive_solver lia.
  - rewrite H2 in *. naive_solver lia.
  - rewrite H4 in *. naive_solver lia.
  - rewrite H2 in *. naive_solver lia.
  - rewrite H5 in *. naive_solver lia.
  - destruct (Task.State t); naive_solver lia.
Qed.

Lemma exec_store_ok n op s :
  fresh_op op -> 0 <= n < max_int64 -> store_ok n s -> store_ok (n + 1) (exec op s).2.
Proof.
  intros Hf Hn Hs. assert (Hmono : store_ok (n + 1) s).
  { intros id t Ht. specialize (Hs id t Ht). unfold task_ok in *. naive_solver lia. }
  exec_step op s; [|done].
  apply map_Forall_insert_2; [|done]. eapply change_ok; eauto.
Qed.

Lemma run_store_ok ops :
  Forall fresh_op ops -> Z.of_nat (List.length ops) <= max_int64 ->
  store_ok (Z.of_nat (List.length ops)) (run exec ops NewStore).2.
Proof.
  intros Hf Hlen. rewrite <- (run_length exec ops NewStore) in *.
  revert Hlen. apply (run_log_invariant exec fresh_op
    (fun log s => Z.of_nat (List.length log) <= max_int64 ->
                  store_ok (Z.of_nat (List.length log)) s)); [|done|].
  - intros log op s Hop Hs Hl. rewrite length_app in *. cbn [List.length] in *.
    replace (Z.of_nat (List.length log + 1)) with (Z.of_nat (List.length log) + 1) in * by lia.
    apply exec_store_ok; [done|lia|apply Hs; lia].
  - intros _. apply map_Forall_empty.
Qed.

(** ** Invariants of logs *)
Lemma accepted_other id op r : op_id op <> id -> accepted id (op, r) = None.
Proof. intros H. destruct op, r; simpl in *; try done. by rewrite bool_decide_false. Qed.

Lemma accepted_err id op e : accepted id (op, Err e) = None.
Proof. by destruct op. Qed.

Definition accepted_inv (id : string) (log : list Entry) (s : Store) : Prop :=
  accepted_results id log = [] \/
  exists t, s !! id = Some t /\ Task.State t = TaskSucceeded /\
    Task.AcceptedAttemptID t <> "" /\
    accepted_results id log = [(Task.AcceptedAttemptID t, Task.AcceptedEvidenceID t)].

Lemma change_not_succeeded op t t' r :
  change op (Some t) t' r -> Task.State t <> TaskSucceeded.
Proof. intros Hc E. apply change_live in Hc. rewrite E in Hc. naive_solver. Qed.

Lemma accepted_step id log op s :
  accepted_inv id log s -> accepted_inv id (log ++ [(op, (exec op s).1)]) (exec op s).2.
Proof.
  intros Hinv. unfold accepted_inv, accepted_results in *. rewrite omap_snoc.
  exec_step op s; [|by rewrite accepted_err, app_nil_r].
  destruct (decide (op_id op = id)) as [<-|Hne].
  - rewrite lookup_insert_eq. destruct Hinv as [Hnil|(t & Ht & Hst & _)].
    + rewrite Hnil. inversion Hc; subst; simpl in *; auto.
      rewrite bool_decide_true by done. right. eexists. by repeat split.
    + exfalso. rewrite Ht in Hc. by eapply change_not_succeeded.
  - rewrite accepted_other, app_nil_r, lookup_insert_ne by done. exact Hinv.
Qed.

Lemma granted_other id op r : op_id op <> id -> granted id (op, r) = None.
Proof.
  intros H. destruct op, r as [[l|]|]; simpl in *; try done. by rewrite bool_decide_false.
Qed.

Lemma granted_err id op e : granted id (op, Err e) = None.
Proof. by destruct op. Qed.

Definition fence (s : Store) (id : string) : Z :=
  match s !! id with Some t => Task.FencingToken t | None => 0 end.

Definition granted_inv (id : string) (log : list Entry) (s : Store) : Prop :=
  Z.of_nat (List.length log) <= max_int64 ->
  store_ok (Z.of_nat (List.length log)) s /\
  StronglySorted Z.lt (granted_tokens id log) /\
  Forall (fun k => k <= fence s id) (granted_tokens id log).

Lemma granted_step id log op s :
  fresh_op op -> granted_inv id log s ->
  granted_inv id (log ++ [(op, (exec op s).1)]) (exec op s).2.
Proof.
  intros Hf Hinv Hlen. rewrite length_app in *. cbn [List.length] in *.
  destruct Hinv as (Hok & Hsorted & Hle); [lia|]. split.
  { replace (Z.of_nat (List.length log + 1)) with (Z.of_nat (List.length log) + 1) by lia.
    apply exec_store_ok; [done|lia|done]. }
  unfold granted_tokens in *. rewrite omap_snoc.
  exec_step op s; [|by rewrite granted_err, app_nil_r].
  destruct (decide (op_id op = id)) as [<-|Hne].
  2: { rewrite granted_other, app_nil_r by done. unfold fence. by rewrite lookup_insert_ne. }
  unfold fence in *. rewrite lookup_insert_eq.
  destruct (s !! op_id op) as [t|] eqn:Ht.
  - pose proof (Hok _ _ Ht) as (_ & Htok & _).
    inversion Hc; subst; simpl in *; rewrite ?app_nil_r; try (by split).
    rewrite bool_decide_true by done. rewrite int64_small by (unfold max_int64 in *; lia).
    split; [apply StronglySorted_snoc; [done|]; eapply List.Forall_impl; [|exact Hle]; simpl; lia|].
    apply Forall_app. split; [eapply List.Forall_impl; [|exact Hle]; simpl; lia|].
    constructor; [lia|constructor].
  - inversion Hc; subst; simpl in *. rewrite app_nil_r. split; [done|].
    destruct Hf as (_ & _ & -> & _). done.
Qed.

(** The log entries that lead to the current state of a task's attempt. *)
Definition acquire_entry id owner now d l : Entry := (OpAcquire id owner now d, Ok (Some l)).
Definition start_entry id owner token now : Entry := (OpStart id owner token now, Ok None).
Definition begin_entry id owner token now : Entry := (OpBegin id owner token now, Ok None).

Definition history (id : string) (log : list Entry) (t : Task.t) : Prop :=
  let owner := Task.LeaseOwner t in
  let token := Task.FencingToken t in
  match Task.State t with
  | TaskLeased => exists n1 d l, Lease.FencingToken l = token /\
      [acquire_entry id owner n1 d l] `sublist_of` log
  | TaskExecuting => exists n1 d l n2, Lease.FencingToken l = token /\
      [acquire_entry id owner n1 d l; start_entry id owner token n2] `sublist_of` log
  | TaskCommitting => exists n1 d l n2 n3, Lease.FencingToken l = token /\
      [acquire_entry id owner n1 d l; start_entry id owner token n2;
       begin_entry id owner token n3] `sublist_of` log
  | _ => True
  end.

Definition committed (id : string) (log : list Entry) (e : Entry) : Prop :=
  match e with
  | (OpCommit i owner token _ _ _, Ok _) => i = id ->
    exists n1 d l n2 n3, Lease.FencingToken l = token /\
      [acquire_entry id owner n1 d l; start_entry id owner token n2;
       begin_entry id owner token n3; e] `sublist_of` log
  | _ => True
  end.

Definition history_inv (id : string) (log : list Entry) (s : Store) : Prop :=
  (forall t, s !! id = Some t -> history id log t) /\
  (forall e, e ∈ log -> committed id log e).

Lemma history_weaken id log e t : history id log t -> history id (log ++ [e]) t.
Proof.
  unfold history. intros H. destruct (Task.State t); try done; naive_solver (eauto using sublist_inserts_r).
Qed.

Lemma committed_weaken id log x e : committed id log e -> committed id (log ++ [x]) e.
Proof.
  destruct e as [[] []]; simpl; try done. intros H ->.
  destruct (H eq_refl) as (n1 & d & l & n2 & n3 & Hl & Hsub).
  exists n1, d, l, n2, n3. split; [done|]. by apply sublist_inserts_r.
Qed.

Lemma sublist_snoc {A} (l1 l2 : list A) x : l1 `sublist_of` l2 -> l1 ++ [x] `sublist_of` l2 ++ [x].
Proof. intros H. by apply sublist_app. Qed.

Lemma history_change id log op t t' r :
  op_id op = id -> (forall t0, t = Some t0 -> history id log t0) -> change op t t' r ->
  history id (log ++ [(op, Ok r)]) t' /\ committed id (log ++ [(op, Ok r)]) (op, Ok r).
Proof.
  intros Hid Hh Hc.
  destruct Hc as [t H1 H2 H3 H4|i owner now d t H1 H2 H3 H4|i owner k now d t H1 H2 H3
    |i owner k now t H1 H2|i owner k dec grant now t H1 H2 H3 H4|i owner k now t H1 H2
    |i owner k att ev now t H1 H2 H3 H4 H5|i owner k now cause t H1 H2];
    simpl in Hid; subst; try (specialize (Hh t eq_refl)); unfold history in *; simpl.
  - done.
  - split; [|done]. exists now, d, (leaseFor (acquired t owner (now + d))).
    split; [reflexivity|]. by apply sublist_inserts_l.
  - split; [|done]. destruct H3 as [E|E]; rewrite E in *;
      naive_solver (eauto using sublist_inserts_r).
  - split; [|done]. rewrite H2 in Hh. destruct Hh as (n1 & d & l & Hl & Hsub).
    exists n1, d, l, now. destruct H1 as (<- & <- & _). split; [done|].
    by apply (sublist_snoc [_]).
  - split; [|done]. rewrite H4 in *. naive_solver (eauto using sublist_inserts_r).
  - split; [|done]. rewrite H2 in Hh. destruct Hh as (n1 & d & l & n2 & Hl & Hsub).
    exists n1, d, l, n2, now. destruct H1 as (<- & <- & _). split; [done|].
    by apply (sublist_snoc [_; _]).
  - split; [done|]. intros _. rewrite H5 in Hh. destruct Hh as (n1 & d & l & n2 & n3 & Hl & Hsub).
    exists n1, d, l, n2, n3. destruct H4 as (<- & <- & _). split; [done|].
    by apply (sublist_snoc [_; _; _]).
  - done.
Qed.

Lemma history_step id log op s :
  history_inv id log s -> history_inv id (log ++ [(op, (exec op s).1)]) (exec op s).2.
Proof.
  intros [Hh Hlog].
  assert (Hkeep : forall x e, e ∈ log -> committed id (log ++ [x]) e)
    by (intros; apply committed_weaken; auto).
  exec_step op s.
  - destruct (decide (op_id op = id)) as [<-|Hne].
    + destruct (history_change _ log _ _ _ _ eq_refl Hh Hc) as [Ht Hcom]. split.
      * intros t. rewrite lookup_insert_eq. by intros [= <-].
      * intros e He. apply elem_of_app in He as [He|He%list_elem_of_singleton]; [auto|by subst].
    + split.
      * intros t. rewrite lookup_insert_ne by done. intros Ht. apply history_weaken. auto.
      * intros e He. apply elem_of_app in He as [He|He%list_elem_of_singleton]; [auto|subst].
        destruct op; simpl in *; done || (intros ?; congruence).
  - split; [intros t Ht; apply history_weaken; auto|].
    intros e' He. apply elem_of_app in He as [He|He%list_elem_of_singleton]; [auto|subst].
    by destruct op.
Qed.

(** ** Properties *)

(** C1.  Exactly one accepted result: whatever operations run, in whatever
    order and on whatever store, at most one result is accepted for a task, and
    from then on the stored task carries exactly that attempt and evidence and
    stays succeeded. *)
Theorem accepted_once ops s id :
  let '(log, s') := run exec ops s in
  accepted_results id log = [] \/
  exists t, s' !! id = Some t /\ Task.State t = TaskSucceeded /\
    Task.AcceptedAttemptID t <> "" /\
    accepted_results id log = [(Task.AcceptedAttemptID t, Task.AcceptedEvidenceID t)].
Proof.
  pose proof (run_log_invariant exec (fun _ => True) (accepted_inv id)
    (fun log op s _ => accepted_step id log op s) ops s (Forall_true _ _ (fun _ => I))
    (or_introl eq_refl)) as H.
  by destruct (run exec ops s).
Qed.

(** C2.  Fencing: the tokens granted for a task by successive acquisitions are
    strictly increasing, for every interleaving of fewer than 2^63 operations on
    tasks that start fresh.  Once a newer token has been granted, every
    operation presenting an older one fails and leaves the store as it is. *)
Theorem fencing_tokens_increase ops id
    (Hfresh : Forall fresh_op ops) (Hlen : Z.of_nat (List.length ops) <= max_int64) :
  let '(log, s) := run exec ops NewStore in
  StronglySorted Z.lt (granted_tokens id log) /\
  forall op owner token newer now,
    op_id op = id -> op_holder op = Some (owner, token, now) ->
    newer ∈ granted_tokens id log -> token < newer ->
    exists e, exec op s = (Err e, s).
Proof.
  pose proof (run_log_invariant exec fresh_op (granted_inv id)
    (fun log op s Hf => granted_step id log op s Hf) ops NewStore Hfresh) as H.
  rewrite <- (run_length exec ops NewStore) in Hlen.
  destruct (run exec ops NewStore) as [log s]. cbn [fst snd] in *.
  destruct H as (_ & Hsorted & Hle); [|done|].
  { intros _. split; [apply map_Forall_empty|]. split; constructor. }
  split; [done|]. intros op owner token newer now <- Hop Hin Hlt.
  exec_step op s; [|by eexists].
  destruct (change_holder _ _ _ _ _ _ _ Hc Hop) as (t & Ht & (_ & Htok & _)).
  rewrite list.Forall_forall in Hle. specialize (Hle newer Hin).
  unfold fence in Hle. rewrite Ht in Hle. lia.
Qed.

(** C3.  Mutual exclusion: while a task is leased, executing or committing, an
    operation changes it only if it presents the current owner and fencing
    token before the lease expires, or if it acquires the task after the lease
    has expired. *)
Theorem lease_exclusive op s id t
    (Hget : s !! id = Some t) (Hactive : active (Task.State t) = true)
    (Hchanged : (exec op s).2 !! id <> Some t) :
  op_id op = id /\
  match op_holder op with
  | Some (owner, token, now) =>
    owner = Task.LeaseOwner t /\ token = Task.FencingToken t /\ now < Task.LeaseExpiry t
  | None => exists owner now d, op = OpAcquire id owner now d /\ Task.LeaseExpiry t <= now
  end.
Proof.
  exec_step op s; [|done].
  destruct (decide (op_id op = id)) as [<-|Hne]; [|by rewrite lookup_insert_ne in Hchanged].
  split; [done|]. rewrite Hget in Hc. destruct (op_holder op) as [[[owner token] now]|] eqn:Hop.
  - destruct (change_holder _ _ _ _ _ _ _ Hc Hop) as (t0 & [= <-] & (-> & -> & _ & ?)). done.
  - inversion Hc; subst; try done. simpl. do 3 eexists. split; [done|].
    match goal with H : available _ = true \/ _ |- _ => destruct H as [Hav|[_ ?]] end; [|done].
    by destruct (Task.State t).
Qed.

(** C4.  A result is accepted only at the end of one complete attempt: every
    successful commit is preceded, in this order, by the acquisition that
    granted its token to its owner, by that owner starting execution and by
    that owner beginning the commit, all under the same fencing token. *)
Theorem commit_follows_attempt ops id owner token att ev now r
    (Hin : (OpCommit id owner token att ev now, Ok r) ∈ (run exec ops NewStore).1) :
  exists n1 d l n2 n3, Lease.FencingToken l = token /\
    [acquire_entry id owner n1 d l; start_entry id owner token n2;
     begin_entry id owner token n3; (OpCommit id owner token att ev now, Ok r)]
    `sublist_of` (run exec ops NewStore).1.
Proof.
  destruct (run_log_invariant exec (fun _ => True) (history_inv id)
    (fun log op s _ => history_step id log op s) ops NewStore (Forall_true _ _ (fun _ => I)))
    as [_ H]; [by split; [|set_solver]|].
  exact (H _ Hin eq_refl).
Qed.

(** Every task the store holds is in order, if tasks are added without a
    history of their own and no counter can overflow: it is stored under its
    identifier, its fencing token counts its attempts, execution authority comes
    in pairs, it has no lease while it waits for its first or next attempt and an
    owner otherwise, and an accepted result exactly when it has succeeded. *)
Theorem reachable_tasks_ok ops
    (Hfresh : Forall fresh_op ops) (Hlen : Z.of_nat (List.length ops) <= max_int64) :
  store_ok (Z.of_nat (List.length ops)) (run exec ops NewStore).2.
Proof. by apply run_store_ok. Qed.

(** C6.  The store implements the step relation on tasks: an operation succeeds
    with a reply exactly when the relation allows that change of its own task,
    it then makes that change and no other, and an operation that fails changes
    nothing. *)
Theorem store_implements_change op s :
  (forall r s', exec op s = (Ok r, s') <->
    exists t', change op (s !! op_id op) t' r /\ s' = <[op_id op := t']> s) /\
  (forall e s', exec op s = (Err e, s') -> s' = s).
Proof.
  split; [intros; apply exec_ok_iff|].
  intros e s' H. pose proof (exec_sound op s) as Hs. by rewrite H in Hs.
Qed.

(** ** Witnesses *)
Definition demo_task : Task.t :=
  Task.mk "t1" "tenant" "res-1" "claim" "snap" "sha256:0" "r1" "10.0.0.1:22" "recipe" "v1"
    "d1" "d2" "" "" "" "sha256:1" TaskQueued 0 "" 0 0 "" "" "".

(** The first holder lets its lease expire and the second completes. *)
Definition demo_ops : list Op :=
  [OpAdd demo_task; OpAcquire "t1" "w1" 10 5; OpStart "t1" "w1" 1 11;
   OpAcquire "t1" "w2" 20 5; OpStart "t1" "w2" 2 21;
   OpAuthority "t1" "w2" 2 "d3" "g1" 21; OpBegin "t1" "w2" 2 22;
   OpCommit "t1" "w1" 1 "a1" "e1" 23; OpCommit "t1" "w2" 2 "a2" "e2" 23;
   OpCommit "t1" "w2" 2 "a3" "e3" 23].

Lemma demo_fresh : Forall fresh_op demo_ops.
Proof. by repeat constructor. Qed.

Lemma fencing_tokens_increase_witness :
  granted_tokens "t1" (run exec demo_ops NewStore).1 = [1; 2] /\
  exists e, exec (OpStart "t1" "w1" 1 21) (run exec demo_ops NewStore).2 =
    (Err e, (run exec demo_ops NewStore).2).
Proof.
  assert (Hg : granted_tokens "t1" (run exec demo_ops NewStore).1 = [1; 2]) by by vm_compute.
  split; [exact Hg|].
  pose proof (fencing_tokens_increase demo_ops "t1" demo_fresh ltac:(vm_compute; discriminate)) as H.
  destruct (run exec demo_ops NewStore) as [log s]. cbn [fst snd] in *.
  destruct H as [_ H]. apply (H _ "w1" 1 2 21); [done|done| |lia].
  rewrite Hg. set_solver.
Defined.

Lemma lease_exclusive_witness :
  let s := (run exec (firstn 5 demo_ops) NewStore).2 in
  exists t, s !! "t1" = Some t /\ (2 = Task.FencingToken t) /\
    (exec (OpBegin "t1" "w2" 2 22) s).2 !! "t1" <> Some t.
Proof.
  cbv zeta. eexists. split; [vm_compute; reflexivity|].
  assert (Hch : (exec (OpBegin "t1" "w2" 2 22) (run exec (firstn 5 demo_ops) NewStore).2).2 !! "t1"
    <> (run exec (firstn 5 demo_ops) NewStore).2 !! "t1") by by vm_compute.
  split; [|exact Hch].
  refine (proj1 (proj2 (proj2 (lease_exclusive (OpBegin "t1" "w2" 2 22)
    (run exec (firstn 5 demo_ops) NewStore).2 "t1" _ _ _ _)))); [by vm_compute|done|exact Hch].
Defined.

Lemma commit_follows_attempt_witness :
  exists n1 d l n2 n3, Lease.FencingToken l = 2 /\
    [acquire_entry "t1" "w2" n1 d l; start_entry "t1" "w2" 2 n2; begin_entry "t1" "w2" 2 n3;
     (OpCommit "t1" "w2" 2 "a2" "e2" 23, Ok None)] `sublist_of` (run exec demo_ops NewStore).1.
Proof.
  apply (commit_follows_attempt demo_ops "t1" "w2" 2 "a2" "e2" 23 None).
  apply (list_elem_of_lookup_2 _ 8). by vm_compute.
Defined.

Lemma reachable_tasks_ok_witness : store_ok 10 (run exec demo_ops NewStore).2.
Proof. apply (reachable_tasks_ok demo_ops); [exact demo_fresh|vm_compute; discriminate]. Defined.

Example demo_accepts :
  accepted_results "t1" (run exec demo_ops NewStore).1 = [("a2", "e2")].
Proof. by vm_compute. Qed.
