(* ===== verification/Schema.v ===== *)
(** * The PostgreSQL schema

    [migrations/*.up.sql]: the tables the repositories read and write, their
    rows as records and their CHECK constraints as boolean functions, gathered
    in one database state [DB.t].  The durable repositories are modelled on
    this state.

    What is assumed of PostgreSQL and its driver is its documented behaviour:
    a statement either applies completely or changes nothing; a row that
    violates a CHECK, UNIQUE or FOREIGN KEY constraint is refused; INTEGER and
    BIGINT arithmetic outside the column's range is refused; a text parameter
    that is not valid UTF-8 or contains a NUL byte is refused; [TIMESTAMPTZ]
    has microsecond precision; [char_length] counts characters. *)
From S2P Require Import Prelude GoStrings Task.
Local Open Scope Z_scope.

(** ** SQL primitives *)

(** Refusals by the database.  No code tests for them: they carry no sentinel. *)
Definition check_violation : error := Text "SQLSTATE 23514: check constraint violated".
Definition unique_violation : error := Text "SQLSTATE 23505: unique constraint violated".
Definition foreign_key_violation : error := Text "SQLSTATE 23503: foreign key violated".
Definition out_of_range : error := Text "SQLSTATE 22003: numeric value out of range".
Definition invalid_text : error := Text "SQLSTATE 22021: invalid byte sequence for encoding UTF8".

Definition NUL : string := String (ascii_of_nat 0) EmptyString.
(** A text parameter the server accepts. *)
Definition encodable (s : string) : bool := ValidString s && negb (Contains s NUL).
Definition all_encodable (params : list string) : bool := forallb encodable params.

Definition char_length (s : string) : Z := RuneCount s.
Definition between (lo x hi : Z) : bool := (lo <=? x) && (x <=? hi).
Definition ident (s : string) : bool := between 1 (char_length s) 512.
Definition opt_ident (hi : Z) (s : option string) : bool :=
  match s with None => true | Some s => between 1 (char_length s) hi end.
Definition in_int4 (z : Z) : bool := between (- 2 ^ 31) z max_int32.
Definition in_int8 (z : Z) : bool := between (- 2 ^ 63) z max_int64.

(** [NULLIF(s, '')] and [COALESCE(s, '')]. *)
Definition NULLIF (s : string) : option string := if s ==? "" then None else Some s.
Definition COALESCE (s : option string) : string := match s with Some s => s | None => "" end.
Definition is_null {A} (o : option A) : bool := match o with None => true | Some _ => false end.
(** [column = parameter] is not true of a NULL column. *)
Definition col_eq {A} `{EqDecision A} (c : option A) (v : A) : bool := c ==? Some v.
(** [column > t] and [column <= t] on nullable instants. *)
Definition col_gt (c : option Z) (t : Z) : bool := match c with Some e => t <? e | None => false end.
Definition col_le (c : option Z) (t : Z) : bool := match c with Some e => e <=? t | None => false end.

(** [normaliseTime] and the driver's encoding of an instant. *)
Definition normaliseTime (t : Z) : Z := Truncate t Microsecond.

Definition lower_hex (a : ascii) : bool :=
  let b := byte_of a in in_range 48 b 57 || in_range 97 b 102.
(** [value ~ '^[0-9a-f]{64}$']. *)
Definition digest_check (s : string) : bool :=
  (len s =? 64) && forallb lower_hex (String.list_ascii_of_string s).

(** ** Collector tasks (000007, 000008) *)
Module TaskRow.
Record t := mk {
  id : string; tenant_id : string; resolution_id : string; claim_fingerprint : string;
  target_snapshot_id : string; target_snapshot_hash : string; target_id : string;
  target_endpoint : option string; recipe_id : string; recipe_version : string;
  trigger_decision_id : string; planning_decision_id : string;
  execution_decision_id : option string; execution_grant_id : option string;
  approval_grant_id : option string; compatibility_hash : string;
  state : TaskState; attempt_count : Z; lease_owner : option string;
  lease_expiry : option Z; fencing_token : Z; accepted_attempt_id : option string;
  accepted_evidence_id : option string; last_error : option string;
  created_at : Z; updated_at : Z }.
#[global] Instance eta_t : Eta t := fun x =>
  mk (id x) (tenant_id x) (resolution_id x) (claim_fingerprint x) (target_snapshot_id x)
     (target_snapshot_hash x) (target_id x) (target_endpoint x) (recipe_id x) (recipe_version x)
     (trigger_decision_id x) (planning_decision_id x) (execution_decision_id x)
     (execution_grant_id x) (approval_grant_id x) (compatibility_hash x) (state x)
     (attempt_count x) (lease_owner x) (lease_expiry x) (fencing_token x)
     (accepted_attempt_id x) (accepted_evidence_id x) (last_error x) (created_at x) (updated_at x).

(** The CHECK constraints of [broker_collector_tasks]. *)
Definition check (r : t) : bool :=
  match state r with TaskOther _ => false | _ => true end &&
  (0 <=? attempt_count r) && (0 <=? fencing_token r) &&
  forallb ident [id r; tenant_id r; resolution_id r; claim_fingerprint r; target_snapshot_id r;
    target_snapshot_hash r; target_id r; recipe_id r; recipe_version r; trigger_decision_id r;
    planning_decision_id r; compatibility_hash r] &&
  opt_ident 2048 (target_endpoint r) &&
  forallb (opt_ident 512) [execution_decision_id r; execution_grant_id r; approval_grant_id r;
    lease_owner r; accepted_attempt_id r; accepted_evidence_id r] &&
  Bool.eqb (is_null (execution_decision_id r)) (is_null (execution_grant_id r)) &&
  Bool.eqb (is_null (accepted_attempt_id r)) (is_null (accepted_evidence_id r)) &&
  Bool.eqb (state r ==? TaskSucceeded) (negb (is_null (accepted_attempt_id r))) &&
  (negb (active (state r)) ||
   negb (is_null (lease_owner r)) && negb (is_null (lease_expiry r)) && (0 <? fencing_token r)) &&
  (negb (available (state r)) || is_null (lease_owner r) && is_null (lease_expiry r)) &&
  opt_ident 2048 (last_error r) &&
  (created_at r <=? updated_at r).
(** The column types. *)
Definition in_range (r : t) : bool := in_int4 (attempt_count r) && in_int8 (fencing_token r).
End TaskRow.

(** ** Evidence envelopes (000008, 000011) *)
Module EnvelopeRow.
Record t := mk {
  evidence_id : string; tenant_id : string; task_id : string; accepted_attempt_id : string;
  fencing_token : Z; target_id : string; recipe_id : string; observed_at : Z; valid_until : Z;
  document : string; document_digest : string; recorded_at : Z; execution_grant_id : string }.
#[global] Instance eta_t : Eta t := fun x =>
  mk (evidence_id x) (tenant_id x) (task_id x) (accepted_attempt_id x) (fencing_token x)
     (target_id x) (recipe_id x) (observed_at x) (valid_until x) (document x) (document_digest x)
     (recorded_at x) (execution_grant_id x).
Definition check (r : t) : bool :=
  (0 <? fencing_token r) && between 1 (len (document r)) 16777216 &&
  digest_check (document_digest r) &&
  forallb ident [evidence_id r; tenant_id r; task_id r; accepted_attempt_id r; target_id r;
    recipe_id r; execution_grant_id r] &&
  (observed_at r <? valid_until r).
End EnvelopeRow.

(** ** Execution-grant consumptions (000010) *)
Module ConsumptionRow.
Record t := mk {
  grant_id : string; nonce_digest : string; grant_digest : string; tenant_id : string;
  task_id : string; collector_spiffe_id : string; target_id : string; recipe_id : string;
  recipe_version : string; fencing_token : Z; grant_expires_at : Z; requested_at : Z;
  consumed_at : Z }.
Definition check (r : t) : bool :=
  digest_check (nonce_digest r) && digest_check (grant_digest r) && (0 <? fencing_token r) &&
  forallb ident [grant_id r; tenant_id r; task_id r; collector_spiffe_id r; target_id r;
    recipe_id r; recipe_version r] &&
  (requested_at r <? grant_expires_at r) && (consumed_at r <? grant_expires_at r).
End ConsumptionRow.

(** ** The outbox (000001, 000002) and its audited replays (000003) *)
Module OutboxRow.
Record t := mk {
  sequence : Z; id : string; tenant_id : string; aggregate_type : string;
  aggregate_id : string; event_type : string; payload : string; occurred_at : Z;
  published_at : option Z; attempts : Z; last_error : option string;
  available_at : Z; lease_owner : option string; lease_expires_at : option Z;
  dead_lettered_at : option Z }.
#[global] Instance eta_t : Eta t := fun x =>
  mk (sequence x) (id x) (tenant_id x) (aggregate_type x) (aggregate_id x) (event_type x)
     (payload x) (occurred_at x) (published_at x) (attempts x) (last_error x)
     (available_at x) (lease_owner x) (lease_expires_at x) (dead_lettered_at x).
#[global] Instance eq_dec : EqDecision t.
Proof. solve_decision. Defined.
Definition check (r : t) : bool :=
  (0 <=? attempts r) && Bool.eqb (is_null (lease_owner r)) (is_null (lease_expires_at r)).
End OutboxRow.

Module ActionRow.
Record t := mk {
  action_id : string; tenant_id : string; outbox_sequence : Z; event_id : string;
  actor_id : string; spiffe_id : string; identity_revision : string; action : string;
  idempotency_key : string; reason : string; prior_dead_lettered_at : Z;
  attempts_at_action : Z; last_error_at_action : string; requested_at : Z; available_at : Z }.
Definition check (r : t) : bool :=
  (action r ==? "replay") && (0 <=? attempts_at_action r) &&
  between 1 (char_length (reason r)) 512 && between 1 (char_length (idempotency_key r)) 128.
End ActionRow.

(** ** Resolutions and their idempotency keys (000001, 000012) *)
Module ResolutionRow.
Record t := mk {
  id : string; actor_id : string; tenant_id : string; idempotency_key : string; request_digest : string;
  request_document : option string; state : string; target_count : Z; completed : bool; version : Z;
  created_at : Z; updated_at : Z }.
#[global] Instance eta_t : Eta t := fun x =>
  mk (id x) (actor_id x) (tenant_id x) (idempotency_key x) (request_digest x) (request_document x) (state x)
     (target_count x) (completed x) (version x) (created_at x) (updated_at x).
Definition states : list string :=
  ["received"; "resolving_targets"; "planning"; "queued"; "complete"; "partial"; "denied"; "failed"; "cancelled"; "expired"].
Definition check (r : t) : bool :=
  existsb (fun s => s ==? state r) states && (0 <=? target_count r) && (0 <? version r) &&
  (char_length (idempotency_key r) <=? 128) && (char_length (request_digest r) <=? 128) &&
  (created_at r <=? updated_at r) &&
  match request_document r with None => true | Some doc => len doc <=? 65536 end.
Definition in_range (r : t) : bool := in_int4 (target_count r) && in_int8 (version r).
End ResolutionRow.

Module IdempotencyRow.
Record t := mk {
  tenant_id : string; actor_id : string; idempotency_key : string; request_digest : string; resolution_id : string;
  created_at : Z }.
Definition check (r : t) : bool :=
  (char_length (idempotency_key r) <=? 128) && (char_length (request_digest r) <=? 128).
Definition primary_key (r : t) : string * string * string := (tenant_id r, actor_id r, idempotency_key r).
End IdempotencyRow.

(** ** Approval grants and their consumptions (000006) *)
Module ApprovalRow.
Record t := mk {
  grant_id : string; tenant_id : string; recipe_id : string; target_subset_hash : string; max_uses : Z; used : Z;
  expires_at : Z; created_by : string; policy_decision_id : string; version : Z; created_at : Z }.
#[global] Instance eta_t : Eta t := fun x =>
  mk (grant_id x) (tenant_id x) (recipe_id x) (target_subset_hash x) (max_uses x) (used x) (expires_at x)
     (created_by x) (policy_decision_id x) (version x) (created_at x).
Definition check (r : t) : bool := (0 <? max_uses r) && between 0 (used r) (max_uses r) && (0 <? version r).
Definition in_range (r : t) : bool := in_int4 (max_uses r) && in_int4 (used r) && in_int8 (version r).
End ApprovalRow.

Module ApprovalConsumptionRow.
Record t := mk {
  consumption_id : string; grant_id : string; tenant_id : string; task_id : string; actor_id : string;
  consumed_at : Z; grant_version : Z }.
Definition check (r : t) : bool := 1 <? grant_version r.
End ApprovalConsumptionRow.

(** ** Artefacts and their lifecycle (000004, 000005)

    [transformation_manifest] holds the text of the stored JSONB document. *)
Module ArtefactRow.
Record t := mk {
  artefact_id : string; tenant_id : string; class : string; uri : string; object_key : string; sha256_digest : string;
  byte_count : Z; media_type : string; transport : option string; attempt_id : option string;
  encryption_key_ref : option string; parent_artefact_id : option string; parent_digest : option string;
  transformation_manifest : option string; manifest_digest : option string; created_at : Z; recorded_at : Z }.
#[global] Instance eta_t : Eta t := fun x =>
  mk (artefact_id x) (tenant_id x) (class x) (uri x) (object_key x) (sha256_digest x) (byte_count x) (media_type x)
     (transport x) (attempt_id x) (encryption_key_ref x) (parent_artefact_id x) (parent_digest x)
     (transformation_manifest x) (manifest_digest x) (created_at x) (recorded_at x).
(** [column ~ pattern] is not true of a NULL column. *)
Definition digest_column (c : option string) : bool := match c with Some s => digest_check s | None => false end.
Definition check (r : t) : bool :=
  ((class r ==? "captured") || (class r ==? "sanitised")) && digest_check (sha256_digest r) &&
  between 1 (byte_count r) 16777216 && (uri r ==? "artefact://" +:+ artefact_id r) &&
  ((class r ==? "captured") && negb (is_null (transport r)) && negb (is_null (attempt_id r)) &&
     negb (is_null (encryption_key_ref r)) && is_null (parent_artefact_id r) && is_null (parent_digest r) &&
     is_null (transformation_manifest r) && is_null (manifest_digest r) ||
   (class r ==? "sanitised") && is_null (transport r) && is_null (attempt_id r) &&
     is_null (encryption_key_ref r) && negb (is_null (parent_artefact_id r)) && digest_column (parent_digest r) &&
     negb (is_null (transformation_manifest r)) && digest_column (manifest_digest r)).
End ArtefactRow.

Module LifecycleRow.
Record t := mk {
  tenant_id : string; artefact_id : string; state : string; retain_until : option Z; legal_hold : bool; version : Z;
  updated_at : Z }.
#[global] Instance eta_t : Eta t := fun x =>
  mk (tenant_id x) (artefact_id x) (state x) (retain_until x) (legal_hold x) (version x) (updated_at x).
Definition primary_key (r : t) : string * string := (tenant_id r, artefact_id r).
Definition check (r : t) : bool :=
  existsb (fun s => s ==? state r) ["active"; "pending_deletion"; "deleted"] && (0 <? version r) &&
  ((state r !=? "deleted") || negb (legal_hold r)).
End LifecycleRow.

Module LifecycleEventRow.
Record t := mk {
  tenant_id : string; artefact_id : string; version : Z; action : string; previous_state : option string;
  next_state : string; previous_retain_until : option Z; next_retain_until : option Z; previous_legal_hold : option bool;
  next_legal_hold : bool; actor_id : string; reason : string; occurred_at : Z }.
Definition check (r : t) : bool :=
  (0 <? version r) && between 1 (char_length (reason r)) 512 &&
  existsb (fun a => a ==? action r)
    ["created"; "retain"; "place_hold"; "release_hold"; "request_deletion"; "confirm_deletion"].
(** [UNIQUE (tenant_id, artefact_id, version)]. *)
Definition unique_key (r : t) : string * string * Z := (tenant_id r, artefact_id r, version r).
End LifecycleEventRow.

(** ** Policy bundles, activations and decisions (000006) *)
Module BundleRow.
Record t := mk {
  bundle_id : string; version : Z; scope : string; issued_at : Z; document : string; document_digest : string;
  signing_key_ref : string; signature_algorithm : string; signature : string; stored_at : Z }.
Definition primary_key (r : t) : string * Z := (bundle_id r, version r).
Definition check (r : t) : bool :=
  (0 <? version r) && (char_length (document_digest r) =? 64) && (0 <? len (signature r)).
End BundleRow.

Module ActivationRow.
Record t := mk { scope : string; bundle_id : string; version : Z; activated_at : Z; activated_by : string }.
End ActivationRow.

Module ActivationEventRow.
Record t := mk { scope : string; bundle_id : string; version : Z; actor_id : string; occurred_at : Z }.
End ActivationEventRow.

Module PolicyDecisionRow.
Record t := mk {
  decision_id : string; tenant_id : string; actor_id : string; phase : string; scope : string; recipe_id : string;
  target_class : string; input_digest : string; bundle_id : string; bundle_version : Z; bundle_digest : string;
  allow : bool; requires_approval : bool; denials : string; obligations : string; evaluated_at : Z }.
Definition check (r : t) : bool :=
  existsb (fun p => phase r ==? p) ["trigger"; "candidate"; "execution"; "disclosure"] &&
  (char_length (input_digest r) =? 64) && (char_length (bundle_digest r) =? 64).
End PolicyDecisionRow.

(** ** Disclosure decisions and receipts (000009) *)
Module DisclosureDecisionRow.
Record t := mk {
  decision_id : string; tenant_id : string; actor_id : string; evidence_id : string; evaluated_at : Z; expires_at : Z;
  document : string; document_digest : string; recorded_at : Z }.
Definition check (r : t) : bool :=
  between 1 (len (document r)) 1048576 && digest_check (document_digest r) &&
  forallb ident [decision_id r; tenant_id r; actor_id r; evidence_id r] && (evaluated_at r <? expires_at r).
(** [UNIQUE (tenant_id, decision_id, evidence_id, actor_id)], which receipts
    refer to. *)
Definition reference (r : t) : string * string * string * string := (tenant_id r, decision_id r, evidence_id r, actor_id r).
End DisclosureDecisionRow.

Module ReceiptRow.
Record t := mk {
  receipt_id : string; tenant_id : string; evidence_id : string; actor_id : string; disclosure_decision_id : string;
  request_id : string; delivered_payload_digest : string; delivered_at : Z; schema_version : string; document : string;
  document_digest : string; recorded_at : Z }.
Definition check (r : t) : bool :=
  digest_check (delivered_payload_digest r) &&
  existsb (fun v => schema_version r ==? v)
    ["network-broker-disclosure-receipt/v1"; "network-broker-disclosure-receipt/v2"; "network-broker-disclosure-receipt/v3"] &&
  between 1 (len (document r)) 1048576 && digest_check (document_digest r) &&
  forallb ident [receipt_id r; tenant_id r; evidence_id r; actor_id r; disclosure_decision_id r; request_id r].
Definition decision_reference (r : t) : string * string * string * string :=
  (tenant_id r, disclosure_decision_id r, evidence_id r, actor_id r).
(** [UNIQUE (tenant_id, actor_id, request_id)]. *)
Definition request_key (r : t) : string * string * string := (tenant_id r, actor_id r, request_id r).
End ReceiptRow.

(** ** The database

    [outbox_next] is the next value of the outbox identity column; the lifecycle
    and activation events are in the order of their serial keys. *)
Module DB.
Record t := mk {
  tasks : gmap string TaskRow.t;
  envelopes : gmap string EnvelopeRow.t;
  consumptions : gmap string ConsumptionRow.t;
  outbox : gmap Z OutboxRow.t;
  outbox_next : Z;
  dead_letter_actions : gmap string ActionRow.t;
  resolutions : gmap string ResolutionRow.t;
  resolution_idempotency : gmap (string * string * string) IdempotencyRow.t;
  policy_decisions : gmap string PolicyDecisionRow.t;
  approval_grants : gmap string ApprovalRow.t;
  approval_consumptions : gmap string ApprovalConsumptionRow.t;
  artefacts : gmap string ArtefactRow.t;
  lifecycles : gmap (string * string) LifecycleRow.t;
  lifecycle_events : list LifecycleEventRow.t;
  policy_bundles : gmap (string * Z) BundleRow.t;
  policy_activations : gmap string ActivationRow.t;
  policy_activation_events : list ActivationEventRow.t;
  disclosure_decisions : gmap string DisclosureDecisionRow.t;
  disclosure_receipts : gmap string ReceiptRow.t }.
#[global] Instance eta_t : Eta t := fun x =>
  mk (tasks x) (envelopes x) (consumptions x) (outbox x) (outbox_next x) (dead_letter_actions x)
     (resolutions x) (resolution_idempotency x) (policy_decisions x) (approval_grants x) (approval_consumptions x)
     (artefacts x) (lifecycles x) (lifecycle_events x) (policy_bundles x) (policy_activations x)
     (policy_activation_events x) (disclosure_decisions x) (disclosure_receipts x).
Definition empty : t := mk ∅ ∅ ∅ ∅ 1 ∅ ∅ ∅ ∅ ∅ ∅ ∅ ∅ [] ∅ ∅ [] ∅ ∅.
End DB.

(** Another row of the table has the same non-null value of a unique column. *)
Definition conflicts {R} (col : R -> option string) (table : gmap string R) (key : string) (row : R) : bool :=
  match col row with
  | None => false
  | Some v => existsb (fun '(k, r) => (k !=? key) && (col r ==? Some v)) (map_to_list table)
  end.

(** [broker_collector_tasks_accepted_evidence]: the accepted envelope exists
    for this tenant and task. *)
Definition accepted_evidence_exists (db : DB.t) (row : TaskRow.t) : bool :=
  match TaskRow.accepted_evidence_id row with
  | None => true
  | Some ev =>
    match DB.envelopes db !! ev with
    | Some e => (EnvelopeRow.tenant_id e ==? TaskRow.tenant_id row) &&
                (EnvelopeRow.task_id e ==? TaskRow.id row)
    | None => false
    end
  end.

(** Writing a task row: column ranges, CHECKs, unique indexes, foreign key.
    The foreign key is examined when the referencing column changes. *)
Definition task_row_error (db : DB.t) (old : option TaskRow.t) (row : TaskRow.t) : option error :=
  if negb (TaskRow.in_range row) then Some out_of_range
  else if negb (TaskRow.check row) then Some check_violation
  else if conflicts TaskRow.accepted_attempt_id (DB.tasks db) (TaskRow.id row) row ||
          conflicts TaskRow.accepted_evidence_id (DB.tasks db) (TaskRow.id row) row
  then Some unique_violation
  else if (from_option TaskRow.accepted_evidence_id None old !=? TaskRow.accepted_evidence_id row) &&
          negb (accepted_evidence_exists db row)
  then Some foreign_key_violation
  else None.

Definition put_task (row : TaskRow.t) (db : DB.t) : DB.t :=
  db <| DB.tasks := <[TaskRow.id row := row]> (DB.tasks db) |>.

(** [UPDATE broker_collector_tasks SET ... WHERE id = $1 AND ...]: the updated
    row, or [None] when no row matches. *)
Definition update_task (params : list string) (id : string)
    (where_ : TaskRow.t -> bool) (set : TaskRow.t -> TaskRow.t) (db : DB.t) :
    result (option TaskRow.t) * DB.t :=
  if negb (all_encodable (id :: params)) then (Err invalid_text, db)
  else match DB.tasks db !! id with
  | None => (Ok None, db)
  | Some row =>
    if where_ row then
      match task_row_error db (Some row) (set row) with
      | Some e => (Err e, db)
      | None => (Ok (Some (set row)), put_task (set row) db)
      end
    else (Ok None, db)
  end.

(** [INSERT INTO broker_collector_tasks]. *)
Definition insert_task (params : list string) (row : TaskRow.t) (db : DB.t) : result unit * DB.t :=
  if negb (all_encodable params) then (Err invalid_text, db)
  else match task_row_error db None row with
  | Some e => (Err e, db)
  | None =>
    match DB.tasks db !! TaskRow.id row with
    | Some _ => (Err unique_violation, db)
    | None => (Ok tt, put_task row db)
    end
  end.
