(* ===== verification/TaskPostgres.v ===== *)
(** * The durable task repository

    [internal/collector/postgres_repository.go] on the database of [Schema].
    Each method is one guarded UPDATE or INSERT; when no row matches, a second
    SELECT classifies the failure.  Other sessions may run between the two
    statements: [env] is what they do to the database in between.

    The refinement theorem shows that every method, on a database whose rows
    satisfy the table's constraints, either is refused by the database with
    nothing changed or behaves as the in-memory store does on the decoded
    rows. *)
From S2P Require Import Prelude GoStrings Task Schema.
Local Open Scope Z_scope.

(** The row as [taskColumns] selects it and [scanTask] reads it. *)
Definition scanTask (r : TaskRow.t) : Task.t :=
  Task.mk (TaskRow.id r) (TaskRow.tenant_id r) (TaskRow.resolution_id r)
    (TaskRow.claim_fingerprint r) (TaskRow.target_snapshot_id r) (TaskRow.target_snapshot_hash r)
    (TaskRow.target_id r) (COALESCE (TaskRow.target_endpoint r)) (TaskRow.recipe_id r)
    (TaskRow.recipe_version r) (TaskRow.trigger_decision_id r) (TaskRow.planning_decision_id r)
    (COALESCE (TaskRow.execution_decision_id r)) (COALESCE (TaskRow.execution_grant_id r))
    (COALESCE (TaskRow.approval_grant_id r)) (TaskRow.compatibility_hash r) (TaskRow.state r)
    (TaskRow.attempt_count r) (COALESCE (TaskRow.lease_owner r))
    (match TaskRow.lease_expiry r with Some e => e | None => 0 end)
    (TaskRow.fencing_token r) (COALESCE (TaskRow.accepted_attempt_id r))
    (COALESCE (TaskRow.accepted_evidence_id r)) (COALESCE (TaskRow.last_error r)).

Definition validateDurableTask (task : Task.t) : option error :=
  let required := [Task.ID task; Task.TenantID task; Task.ResolutionID task;
    Task.ClaimFingerprint task; Task.TargetSnapshotID task; Task.TargetSnapshotHash task;
    Task.TargetID task; Task.RecipeID task; Task.RecipeVersion task; Task.TriggerDecisionID task;
    Task.PlanningDecisionID task; Task.CompatibilityHash task] in
  if existsb (fun value => (value ==? "") || (512 <? len value)) required
  then Some (Text "complete bounded collector task authority is required") else None.

Definition validateLeaseInput (taskID owner : string) (now duration : Z) : option error :=
  if (taskID ==? "") || (owner ==? "") then Some (Text "task id and lease owner are required")
  else if IsZero now || (Microseconds duration <=? 0) then
    Some (Text "lease time and positive microsecond duration are required")
  else None.

(** The row [AddContext] and [insertTaskTx] insert: the columns not named take
    their defaults, [current_timestamp] among them. *)
Definition new_row (current_timestamp : Z) (task : Task.t) : TaskRow.t :=
  TaskRow.mk (Task.ID task) (Task.TenantID task) (Task.ResolutionID task)
    (Task.ClaimFingerprint task) (Task.TargetSnapshotID task) (Task.TargetSnapshotHash task)
    (Task.TargetID task) (NULLIF (Task.TargetEndpoint task)) (Task.RecipeID task)
    (Task.RecipeVersion task) (Task.TriggerDecisionID task) (Task.PlanningDecisionID task)
    None None (NULLIF (Task.ApprovalGrantID task)) (Task.CompatibilityHash task)
    (Task.State task) 0 None None 0 None None None
    current_timestamp current_timestamp.

Definition task_params (task : Task.t) : list string :=
  [Task.ID task; Task.TenantID task; Task.ResolutionID task; Task.ClaimFingerprint task;
   Task.TargetSnapshotID task; Task.TargetSnapshotHash task; Task.TargetID task;
   Task.TargetEndpoint task; Task.RecipeID task; Task.RecipeVersion task;
   Task.TriggerDecisionID task; Task.PlanningDecisionID task; Task.ApprovalGrantID task;
   Task.CompatibilityHash task; TaskState_string (Task.State task)].

Section Repository.
(** What other sessions do between the two statements of a method. *)
Variable env : DB.t -> DB.t.
(** The database clock, for column defaults. *)
Variable current_timestamp : Z.

Definition AddContext (task : Task.t) (db : DB.t) : result unit * DB.t :=
  match validateDurableTask task with
  | Some e => (Err e, db)
  | None =>
    let task := if Task.State task ==? TaskOther "" then task <| Task.State := TaskQueued |> else task in
    if Task.State task !=? TaskQueued then
      (Err (Wrapf "" ErrInvalidState ": new task must be queued"), db)
    else
      match insert_task (task_params task) (new_row current_timestamp task) db with
      | (Err e, db) => (Err (Wrapf "insert collector task: " e ""), db)
      | (Ok _, db) => (Ok tt, db)
      end
  end.

Definition GetContext (taskID : string) (db : DB.t) : result Task.t :=
  if taskID ==? "" then Err (Text "collector task database and id are required")
  else if negb (encodable taskID) then Err (Wrapf "get collector task: " invalid_text "")
  else match DB.tasks db !! taskID with
  | Some row => Ok (scanTask row)
  | None => Err (Wrapf "" ErrTaskNotFound (": " +:+ quote taskID))
  end.

Definition classifyAcquire (taskID : string) (now : Z) (db : DB.t) : error :=
  match GetContext taskID db with
  | Err e => e
  | Ok task =>
    if ((Task.State task ==? TaskLeased) || (Task.State task ==? TaskExecuting) ||
        (Task.State task ==? TaskCommitting)) && Before now (Task.LeaseExpiry task)
    then ErrLeaseHeld
    else invalidState "cannot lease task in state" (Task.State task)
  end.

Definition classifyOwned (taskID owner : string) (token now : Z) (states : list TaskState)
    (db : DB.t) : error :=
  match GetContext taskID db with
  | Err e => e
  | Ok task =>
    match requireLease task owner token now with
    | Some e => e
    | None =>
      if existsb (fun st => Task.State task ==? st) states then ErrStaleFence
      else invalidState "task is in state" (Task.State task)
    end
  end.

Definition AcquireContext (taskID owner : string) (now duration : Z) (db : DB.t) :
    result Lease.t * DB.t :=
  match validateLeaseInput taskID owner now duration with
  | Some e => (Err e, db)
  | None =>
    let at_ := normaliseTime now in
    match update_task [owner] taskID
      (fun r => available (TaskRow.state r) ||
                active (TaskRow.state r) && col_le (TaskRow.lease_expiry r) at_)
      (fun r => r <| TaskRow.state := TaskLeased |>
                  <| TaskRow.lease_owner := Some owner |>
                  <| TaskRow.lease_expiry := Some (at_ + Microseconds duration * Microsecond) |>
                  <| TaskRow.fencing_token := TaskRow.fencing_token r + 1 |>
                  <| TaskRow.attempt_count := TaskRow.attempt_count r + 1 |>
                  <| TaskRow.execution_decision_id := None |>
                  <| TaskRow.execution_grant_id := None |>
                  <| TaskRow.last_error := None |>
                  <| TaskRow.updated_at := at_ |>) db with
    | (Err e, db) => (Err (Wrapf "acquire collector task: " e ""), db)
    | (Ok None, db) => (Err (classifyAcquire taskID now (env db)), env db)
    | (Ok (Some row), db) => (Ok (leaseFor (scanTask row)), db)
    end
  end.

(** The part of every guarded UPDATE that names the lease holder. *)
Definition owned (owner : string) (token at_ : Z) (r : TaskRow.t) : bool :=
  col_eq (TaskRow.lease_owner r) owner && (TaskRow.fencing_token r =? token) &&
  col_gt (TaskRow.lease_expiry r) at_.

Definition RenewContext (taskID owner : string) (token now duration : Z) (db : DB.t) :
    result Lease.t * DB.t :=
  match validateLeaseInput taskID owner now duration with
  | Some e => (Err e, db)
  | None =>
    if token <=? 0 then (Err (Text "positive fencing token is required"), db) else
    let at_ := normaliseTime now in
    match update_task [owner] taskID
      (fun r => owned owner token at_ r &&
                ((TaskRow.state r ==? TaskLeased) || (TaskRow.state r ==? TaskExecuting)))
      (fun r => r <| TaskRow.lease_expiry := Some (at_ + Microseconds duration * Microsecond) |>
                  <| TaskRow.updated_at := at_ |>) db with
    | (Err e, db) => (Err (Wrapf "renew collector task: " e ""), db)
    | (Ok None, db) =>
      (Err (classifyOwned taskID owner token now [TaskLeased; TaskExecuting] (env db)), env db)
    | (Ok (Some row), db) => (Ok (leaseFor (scanTask row)), db)
    end
  end.

(** [requireChanged]: success when one row changed, else the classification. *)
Definition requireChanged (label : string) (r : result (option TaskRow.t) * DB.t)
    (taskID owner : string) (token now : Z) (states : list TaskState) : result unit * DB.t :=
  match r with
  | (Err e, db) => (Err (Wrapf (label +:+ ": ") e ""), db)
  | (Ok (Some _), db) => (Ok tt, db)
  | (Ok None, db) => (Err (classifyOwned taskID owner token now states (env db)), env db)
  end.

Definition transitionOwned (taskID owner : string) (token now : Z) (from to : TaskState)
    (db : DB.t) : result unit * DB.t :=
  let at_ := normaliseTime now in
  requireChanged "transition collector task"
    (update_task [owner; TaskState_string to; TaskState_string from] taskID
      (fun r => owned owner token at_ r && (TaskRow.state r ==? from))
      (fun r => r <| TaskRow.state := to |> <| TaskRow.updated_at := at_ |>) db)
    taskID owner token now [from].

Definition StartExecutionContext (taskID owner : string) (token now : Z) :=
  transitionOwned taskID owner token now TaskLeased TaskExecuting.

Definition BeginCommitContext (taskID owner : string) (token now : Z) :=
  transitionOwned taskID owner token now TaskExecuting TaskCommitting.

Definition RecordExecutionAuthorityContext (taskID owner : string) (token : Z)
    (decisionID grantID : string) (now : Z) (db : DB.t) : result unit * DB.t :=
  if (decisionID ==? "") || (grantID ==? "") then
    (Err (Text "execution decision id and grant id are required"), db)
  else
    let at_ := normaliseTime now in
    requireChanged "record collector execution authority"
      (update_task [owner; decisionID; grantID] taskID
        (fun r => owned owner token at_ r && (TaskRow.state r ==? TaskExecuting))
        (fun r => r <| TaskRow.execution_decision_id := Some decisionID |>
                    <| TaskRow.execution_grant_id := Some grantID |>
                    <| TaskRow.updated_at := at_ |>) db)
      taskID owner token now [TaskExecuting].

Definition CommitContext (taskID owner : string) (token : Z) (attemptID evidenceID : string)
    (now : Z) (db : DB.t) : result unit * DB.t :=
  if (attemptID ==? "") || (evidenceID ==? "") then
    (Err (Text "attempt id and evidence id are required"), db)
  else
    let at_ := normaliseTime now in
    match update_task [owner; attemptID; evidenceID] taskID
      (fun r => owned owner token at_ r && (TaskRow.state r ==? TaskCommitting) &&
                is_null (TaskRow.accepted_attempt_id r) && is_null (TaskRow.accepted_evidence_id r))
      (fun r => r <| TaskRow.accepted_attempt_id := Some attemptID |>
                  <| TaskRow.accepted_evidence_id := Some evidenceID |>
                  <| TaskRow.state := TaskSucceeded |>
                  <| TaskRow.updated_at := at_ |>) db with
    | (Err e, db) => (Err (Wrapf "commit collector task result: " e ""), db)
    | (Ok (Some _), db) => (Ok tt, db)
    | (Ok None, db) =>
      let db := env db in
      match GetContext taskID db with
      | Err e => (Err e, db)
      | Ok task =>
        if Task.AcceptedAttemptID task !=? "" then (Err ErrDuplicateCommit, db)
        else match requireLease task owner token now with
        | Some e => (Err e, db)
        | None => (Err (invalidState "cannot commit task in state" (Task.State task)), db)
        end
      end
    end.

Definition RetryContext (taskID owner : string) (token now : Z) (cause : option error)
    (db : DB.t) : result unit * DB.t :=
  let lastError := match cause with Some c => boundedError (Error c) | None => "" end in
  let at_ := normaliseTime now in
  requireChanged "return collector task to retry"
    (update_task [owner; lastError] taskID
      (fun r => owned owner token at_ r && active (TaskRow.state r))
      (fun r => r <| TaskRow.state := TaskRetryWait |>
                  <| TaskRow.lease_owner := None |>
                  <| TaskRow.lease_expiry := None |>
                  <| TaskRow.last_error := NULLIF lastError |>
                  <| TaskRow.updated_at := at_ |>) db)
    taskID owner token now [TaskLeased; TaskExecuting; TaskCommitting].

Definition CurrentFence (taskID : string) (db : DB.t) : result Z :=
  if taskID ==? "" then Err (Text "collector task database and id are required")
  else if negb (encodable taskID) then Err (Wrapf "get collector task fence: " invalid_text "")
  else match DB.tasks db !! taskID with
  | Some row => Ok (TaskRow.fencing_token row)
  | None => Err (Wrapf "" ErrTaskNotFound (": " +:+ quote taskID))
  end.

Definition VerifyCurrentAttempt (taskID collectorID : string) (fencingToken at_ : Z) (db : DB.t) :
    result unit :=
  match GetContext taskID db with
  | Err e => Err e
  | Ok task =>
    match requireLease task collectorID fencingToken at_ with
    | Some e => Err e
    | None =>
      if (Task.State task !=? TaskExecuting) && (Task.State task !=? TaskCommitting) then
        Err (invalidState "cannot assemble evidence in state" (Task.State task))
      else Ok tt
    end
  end.
End Repository.

(** ** One type of operations for both repositories *)
Definition pg_exec (env : DB.t -> DB.t) (current_timestamp : Z) (op : Op) (db : DB.t) :
    result Reply * DB.t :=
  match op with
  | OpAdd task => reply (fun _ => None) (AddContext current_timestamp task db)
  | OpAcquire id owner now d => reply Some (AcquireContext env id owner now d db)
  | OpRenew id owner token now d => reply Some (RenewContext env id owner token now d db)
  | OpStart id owner token now => reply (fun _ => None) (StartExecutionContext env id owner token now db)
  | OpAuthority id owner token dec grant now =>
    reply (fun _ => None) (RecordExecutionAuthorityContext env id owner token dec grant now db)
  | OpBegin id owner token now => reply (fun _ => None) (BeginCommitContext env id owner token now db)
  | OpCommit id owner token att ev now =>
    reply (fun _ => None) (CommitContext env id owner token att ev now db)
  | OpRetry id owner token now cause =>
    reply (fun _ => None) (RetryContext env id owner token now cause db)
  end.

(** ** The refinement relation *)

(** The store a database stands for. *)
Definition abs (db : DB.t) : Store := scanTask <$> DB.tasks db.

(** What a row satisfies besides the CHECKs: its key, microsecond-aligned lease
    times, and no error text while an attempt is active. *)
Definition row_ok (id : string) (r : TaskRow.t) : Prop :=
  TaskRow.id r = id /\ TaskRow.check r = true /\ TaskRow.in_range r = true /\
  (forall e, TaskRow.lease_expiry r = Some e -> e mod Microsecond = 0) /\
  (active (TaskRow.state r) = true -> TaskRow.last_error r = None).
Definition db_ok (db : DB.t) : Prop := map_Forall row_ok (DB.tasks db).

(** The operation on the store that a durable operation amounts to: lease times
    at microsecond precision, and only the persisted fields of a new task. *)
Definition persisted (task : Task.t) : Task.t :=
  scanTask (new_row 0 task).
Definition durable (op : Op) : Op :=
  match op with
  | OpAdd task => OpAdd (persisted task)
  | OpAcquire id owner now d =>
    OpAcquire id owner (normaliseTime now) (Microseconds d * Microsecond)
  | OpRenew id owner token now d =>
    OpRenew id owner token (normaliseTime now) (Microseconds d * Microsecond)
  | op => op
  end.

Definition op_time (op : Op) : option Z :=
  match op with
  | OpAdd _ => None
  | OpAcquire _ _ now _ => Some now
  | _ => match op_holder op with Some (_, _, now) => Some now | None => None end
  end.
(** The caller's clock is past the first microsecond of year 1, and a new task
    is submitted without a state or as queued. *)
Definition admissible (op : Op) : Prop :=
  match op_time op with Some now => Microsecond <= now | None => True end /\
  match op with
  | OpAdd task => Task.State task = TaskQueued \/ Task.State task = TaskOther ""
  | _ => True
  end.

(** An error without a sentinel: validation or a refusal by the database. *)
Definition refused {A} (r : result A) : Prop :=
  match r with Err e => sentinel e = None | Ok _ => False end.

Lemma NULLIF_COALESCE s : COALESCE (NULLIF s) = s.
Proof. unfold NULLIF. case_bool_decide; simpl; congruence. Qed.

Lemma normaliseTime_pos now : Microsecond <= now -> 0 < normaliseTime now.
Proof. intros H. unfold normaliseTime. pose proof (Truncate_gt now Microsecond ltac:(done)). lia. Qed.

Lemma normaliseTime_mod now : normaliseTime now mod Microsecond = 0.
Proof. by apply Truncate_mod. Qed.

Lemma expiry_lt r now id e :
  row_ok id r -> TaskRow.lease_expiry r = Some e -> (normaliseTime now < e <-> now < e).
Proof. intros (_ & _ & _ & Ha & _) He. by apply Truncate_lt_aligned; [|apply Ha]. Qed.

(** Rows satisfying the CHECKs, read field by field. *)
Lemma opt_ident_nonempty hi s : opt_ident hi (Some s) = true -> s <> "".
Proof. intros H ->. done. Qed.

Lemma check_spec r : TaskRow.check r = true ->
  (forall st, TaskRow.state r <> TaskOther st) /\ 0 <= TaskRow.attempt_count r /\
  0 <= TaskRow.fencing_token r /\
  (TaskRow.lease_owner r <> Some "") /\
  (TaskRow.accepted_attempt_id r <> Some "") /\
  (TaskRow.state r = TaskSucceeded <-> TaskRow.accepted_attempt_id r <> None) /\
  (TaskRow.accepted_attempt_id r = None <-> TaskRow.accepted_evidence_id r = None) /\
  (active (TaskRow.state r) = true ->
     exists o e, TaskRow.lease_owner r = Some o /\ TaskRow.lease_expiry r = Some e) /\
  (available (TaskRow.state r) = true ->
     TaskRow.lease_owner r = None /\ TaskRow.lease_expiry r = None).
Proof.
  unfold TaskRow.check. rewrite !andb_true_iff, !Bool.eqb_true_iff.
  intros ((((((((((((Hs & Ha) & Hf) & _) & _) & Hid) & _) & Hp) & Hsucc) & Hact) & Hav) & _) & _).
  cbn [forallb] in Hid. rewrite !andb_true_iff in Hid. destruct Hid as (_ & _ & _ & Ho & Hat & _).
  apply Z.leb_le in Ha, Hf.
  split; [intros st E; by rewrite E in Hs|]. split; [done|]. split; [done|].
  split; [intros E; by rewrite E in Ho|]. split; [intros E; by rewrite E in Hat|].
  split; [|split; [|split]].
  - destruct (TaskRow.accepted_attempt_id r); simpl in Hsucc;
      [apply bool_decide_eq_true in Hsucc|apply bool_decide_eq_false in Hsucc]; naive_solver.
  - destruct (TaskRow.accepted_attempt_id r), (TaskRow.accepted_evidence_id r); naive_solver.
  - intros E. rewrite E in Hact. simpl in Hact. rewrite !andb_true_iff in Hact.
    destruct (TaskRow.lease_owner r), (TaskRow.lease_expiry r); naive_solver.
  - intros E. rewrite E in Hav. simpl in Hav. rewrite !andb_true_iff in Hav.
    destruct (TaskRow.lease_owner r), (TaskRow.lease_expiry r); naive_solver.
Qed.

(** The holder named by the guard of an UPDATE is the holder of the decoded
    task, and for an active row the two agree. *)
Lemma owned_held id r owner token now :
  row_ok id r -> Microsecond <= now ->
  owned owner token (normaliseTime now) r = true -> held (scanTask r) owner token now.
Proof.
  intros Hok Hnow. unfold owned, col_eq, col_gt. rewrite !andb_true_iff, bool_decide_eq_true, Z.eqb_eq.
  intros [[Ho Hk] He]. destruct (TaskRow.lease_expiry r) as [e|] eqn:Ee; [|done].
  apply Z.ltb_lt in He. rewrite (expiry_lt r now id e Hok Ee) in He.
  unfold held, scanTask. simpl. rewrite Ho, Ee. unfold Microsecond in Hnow.
  repeat split; done || lia.
Qed.

Lemma held_owned id r owner token now :
  row_ok id r -> active (TaskRow.state r) = true ->
  held (scanTask r) owner token now -> owned owner token (normaliseTime now) r = true.
Proof.
  intros Hok Hact (Ho & Hk & _ & He). pose proof Hok as (_ & Hc & _).
  apply check_spec in Hc as (_ & _ & _ & _ & _ & _ & _ & Hl & _).
  destruct (Hl Hact) as (o & e & Eo & Ee).
  unfold owned, col_eq, col_gt, scanTask in *. simpl in *. rewrite Eo, Ee in *. simpl in *. subst.
  rewrite !andb_true_iff, bool_decide_eq_true, Z.eqb_eq, Z.ltb_lt.
  by rewrite (expiry_lt r now id e Hok Ee).
Qed.

(** ** Statements *)

(** What an UPDATE of one task does. *)
Lemma update_task_spec params id where_ set db :
  match update_task params id where_ set db with
  | (Err e, db') => sentinel e = None /\ db' = db
  | (Ok None, db') => db' = db /\ encodable id = true /\
      forall r, DB.tasks db !! id = Some r -> where_ r = false
  | (Ok (Some r'), db') => exists r, DB.tasks db !! id = Some r /\ where_ r = true /\
      encodable id = true /\
      r' = set r /\ db' = put_task r' db /\ task_row_error db (Some r) r' = None
  end.
Proof.
  unfold update_task, all_encodable. cbn [forallb].
  destruct (encodable id && forallb encodable params) eqn:He; simpl; [|done].
  apply andb_true_iff in He as [He _].
  destruct (DB.tasks db !! id) as [r|] eqn:Hr; simpl; [|naive_solver].
  destruct (where_ r) eqn:Hw; [|naive_solver].
  destruct (task_row_error db (Some r) (set r)) as [e|] eqn:Ht; [|naive_solver].
  split; [|done]. unfold task_row_error in Ht. repeat case_match; by simplify_eq.
Qed.

Lemma task_row_error_ok db old r :
  task_row_error db old r = None -> TaskRow.check r = true /\ TaskRow.in_range r = true.
Proof.
  unfold task_row_error.
  destruct (TaskRow.in_range r), (TaskRow.check r); simpl; try done.
Qed.

Lemma abs_lookup db id : abs db !! id = scanTask <$> DB.tasks db !! id.
Proof. apply lookup_fmap. Qed.

Lemma abs_put_task r db : abs (put_task r db) = <[TaskRow.id r := scanTask r]> (abs db).
Proof. unfold abs, put_task. simpl. apply fmap_insert. Qed.

Lemma db_ok_put r db : db_ok db -> row_ok (TaskRow.id r) r -> db_ok (put_task r db).
Proof. intros H Hr. unfold db_ok, put_task. simpl. by apply map_Forall_insert_2. Qed.

(** ** Simulation, operation by operation *)

(** The outcome of a durable operation against that of the store: refused with
    nothing changed, or the same answer and the same decoded tasks. *)
Definition simulates (db : DB.t) (r : result Reply * DB.t) (m : result Reply * Store) : Prop :=
  db_ok r.2 /\
  ((refused r.1 /\ r.2 = db) \/ (same_outcome r.1 m.1 /\ abs r.2 = m.2)).

Lemma simulates_refused db e m : db_ok db -> sentinel e = None -> simulates db (Err e, db) m.
Proof. intros. split; [done|]. left. done. Qed.

Lemma simulates_error db e f :
  db_ok db -> sentinel e = sentinel f -> simulates db (Err e, db) (Err f, abs db).
Proof. intros Hdb He. split; [done|]. right. by split. Qed.

(** When the row is found and the guard holds, both sides make the change. *)
Lemma simulates_change db op r r' reply_ :
  db_ok db -> DB.tasks db !! op_id op = Some r -> TaskRow.id r' = TaskRow.id r ->
  row_ok (TaskRow.id r') r' ->
  change op (Some (scanTask r)) (scanTask r') reply_ ->
  simulates db (Ok reply_, put_task r' db) (exec op (abs db)).
Proof.
  intros Hdb Hr Hid Hok Hc. split; [by apply db_ok_put|]. right.
  pose proof (Hdb _ _ Hr) as (Hkey & _).
  rewrite (exec_complete op (abs db) (scanTask r') reply_) by (by rewrite abs_lookup, Hr).
  split; [done|]. simpl. by rewrite abs_put_task, Hid, Hkey.
Qed.

Lemma GetContext_abs id db :
  id <> "" -> encodable id = true -> GetContext id db = taskLocked (abs db) id.
Proof.
  intros Hid He. unfold GetContext, taskLocked. rewrite bool_decide_false, He by done. simpl.
  rewrite abs_lookup. by destruct (DB.tasks db !! id).
Qed.

(** A guarded UPDATE that matched no row is classified as the store classifies
    the same call, as soon as an allowed state would have matched. *)
Lemma classifyOwned_sentinel id owner token now states db (allowed : TaskState -> bool)
    (where_ : TaskRow.t -> bool) :
  db_ok db -> id <> "" -> encodable id = true ->
  (forall st, existsb (fun x => st ==? x) states = allowed st) ->
  (forall st, allowed st = true -> active st = true) ->
  (forall r, DB.tasks db !! id = Some r -> where_ r = false) ->
  (forall r, owned owner token (normaliseTime now) r = true ->
             allowed (TaskRow.state r) = true -> where_ r = true) ->
  sentinel (classifyOwned id owner token now states db) =
  match taskLocked (abs db) id with
  | Err e => sentinel e
  | Ok t => match requireLease t owner token now with
            | Some e => sentinel e
            | None => sentinel ErrInvalidState
            end
  end /\
  (forall t, abs db !! id = Some t -> requireLease t owner token now = None ->
             allowed (Task.State t) = false).
Proof.
  intros Hdb Hid He Hst Hact Hno Hw.
  assert (Hkey : forall t, abs db !! id = Some t -> requireLease t owner token now = None ->
                           allowed (Task.State t) = false).
  { intros t Ht Hl. rewrite abs_lookup in Ht.
    destruct (DB.tasks db !! id) as [r|] eqn:Hr; [|done]. simpl in Ht. injection Ht as <-.
    apply requireLease_held in Hl. destruct (allowed (Task.State (scanTask r))) eqn:Ha; [|done].
    rewrite <- (Hno r eq_refl). symmetry. apply Hw; [|done].
    eapply held_owned; [by apply Hdb| |done]. by apply Hact. }
  split; [|done]. unfold classifyOwned. rewrite GetContext_abs by done.
  destruct (taskLocked (abs db) id) as [t|e] eqn:Ht; [|done].
  apply taskLocked_ok in Ht. specialize (Hkey t Ht).
  destruct (requireLease t owner token now); [done|]. by rewrite Hst, Hkey.
Qed.

Lemma GetContext_empty db : GetContext "" db = Err (Text "collector task database and id are required").
Proof. done. Qed.

(** [after_update] splits on what the UPDATE of the goal did. *)
Ltac after_update :=
  match goal with |- context [update_task ?p ?i ?w ?s ?db] =>
    let Hu := fresh "Hu" in
    pose proof (update_task_spec p i w s db) as Hu;
    destruct (update_task p i w s db) as [[[?r'|]|?e] ?db']; simpl in Hu end.

(** The row invariant after a change that keeps alignment and error text. *)
Lemma row_ok_set db old r id :
  task_row_error db old r = None -> TaskRow.id r = id ->
  (forall e, TaskRow.lease_expiry r = Some e -> e mod Microsecond = 0) ->
  (active (TaskRow.state r) = true -> TaskRow.last_error r = None) ->
  row_ok id r.
Proof. intros H ? ? ?. apply task_row_error_ok in H as [? ?]. by repeat split. Qed.

Lemma aligned_after now d : (normaliseTime now + d * Microsecond) mod Microsecond = 0.
Proof. rewrite Z.mod_add by done. apply normaliseTime_mod. Qed.

Lemma requireLease_normalise id r owner token now :
  row_ok id r -> Microsecond <= now ->
  requireLease (scanTask r) owner token (normaliseTime now) = requireLease (scanTask r) owner token now.
Proof.
  intros Hok Hnow. pose proof (normaliseTime_pos now Hnow) as Hpos. unfold requireLease, Before.
  replace (IsZero (normaliseTime now)) with (IsZero now)
    by (unfold IsZero, Microsecond in *; transitivity false; [|symmetry]; apply Z.eqb_neq; lia).
  replace (normaliseTime now <? Task.LeaseExpiry (scanTask r))
    with (now <? Task.LeaseExpiry (scanTask r)); [done|].
  apply Bool.eq_iff_eq_true. rewrite !Z.ltb_lt. unfold scanTask. simpl.
  destruct (TaskRow.lease_expiry r) as [e|] eqn:He; [by rewrite (expiry_lt r now id e)|].
  unfold Microsecond in *. lia.
Qed.

Lemma validateLeaseInput_spec id owner now d :
  match validateLeaseInput id owner now d with
  | Some e => sentinel e = None
  | None => id <> "" /\ owner <> "" /\ now <> 0 /\ 0 < Microseconds d
  end.
Proof.
  unfold validateLeaseInput. destruct (_ || _) eqn:E1; [done|].
  destruct (IsZero now || _) eqn:E2; [done|]. reflect_bools. naive_solver.
Qed.

(** In the ranges of the columns the store's counters do not wrap. *)
Lemma acquired_scan db r owner expiry at_ :
  let r' := r <| TaskRow.state := TaskLeased |> <| TaskRow.lease_owner := Some owner |>
              <| TaskRow.lease_expiry := Some expiry |>
              <| TaskRow.fencing_token := TaskRow.fencing_token r + 1 |>
              <| TaskRow.attempt_count := TaskRow.attempt_count r + 1 |>
              <| TaskRow.execution_decision_id := None |> <| TaskRow.execution_grant_id := None |>
              <| TaskRow.last_error := None |> <| TaskRow.updated_at := at_ |> in
  task_row_error db (Some r) r' = None -> acquired (scanTask r) owner expiry = scanTask r'.
Proof.
  cbv zeta. intros Herr. apply task_row_error_ok in Herr as [_ Hrange].
  unfold TaskRow.in_range, in_int4, in_int8, between in Hrange. simpl in Hrange. reflect_bools.
  unfold acquired, scanTask. simpl. rewrite !int64_small; [done|..];
    unfold max_int32, max_int64 in *; lia.
Qed.

Section Simulation.
Context (db : DB.t) (Hdb : db_ok db).
Context (id owner : string) (token now : Z) (Hnow : Microsecond <= now).
#[local] Abbreviation alone := (fun db : DB.t => db).

(** The answer when no row matched: an error with the same sentinel. *)
Lemma simulates_classified states (allowed : TaskState -> bool) where_ (m : result Reply * Store) :
  encodable id = true ->
  (forall st, existsb (fun x => st ==? x) states = allowed st) ->
  (forall st, allowed st = true -> active st = true) ->
  (forall r, DB.tasks db !! id = Some r -> where_ r = false) ->
  (forall r, owned owner token (normaliseTime now) r = true ->
             allowed (TaskRow.state r) = true -> where_ r = true) ->
  ((forall t, abs db !! id = Some t -> requireLease t owner token now = None ->
             allowed (Task.State t) = false) ->
   m.2 = abs db /\ exists e, m.1 = Err e /\
   sentinel e = match taskLocked (abs db) id with
                | Err e => sentinel e
                | Ok t => match requireLease t owner token now with
                          | Some e => sentinel e
                          | None => sentinel ErrInvalidState
                          end
                end) ->
  simulates db (Err (classifyOwned id owner token now states db), db) m.
Proof.
  intros He Hst Hact Hno Hw Hm. destruct (decide (id = "")) as [->|Hid].
  { apply simulates_refused; [done|]. unfold classifyOwned. by rewrite GetContext_empty. }
  destruct (classifyOwned_sentinel id owner token now states db allowed where_ Hdb Hid He Hst Hact Hno Hw)
    as [Hs Hkey].
  destruct (Hm Hkey) as (Hm2 & e & Hm1 & Hme). split; [done|]. right. rewrite Hm1, Hm2. simpl.
  by rewrite Hs, Hme.
Qed.

(** The two branches of an owned operation in which nothing changes. *)
Ltac sim_classified states :=
  match goal with Hu : _ = _ /\ _ /\ _ |- _ =>
    let Hno := fresh in let Hkey := fresh "Hkey" in let Ht := fresh "Ht" in
    destruct Hu as (-> & ?He & Hno);
    eapply (simulates_classified states (fun st => existsb (fun x => st ==? x) states));
    [ done | done | by intros [] | exact Hno
    | let r := fresh in let Ho := fresh in intros r Ho; cbn beta; rewrite Ho;
      by destruct (TaskRow.state r)
    | intros Hkey; cbn [exec];
      unfold StartExecution, BeginCommit, Task.transitionOwned, RecordExecutionAuthority, Renew, Retry;
      repeat match goal with H : ?b = false |- context [?b] => rewrite H end;
      destruct (taskLocked (abs db) id) as [t|] eqn:Ht; simpl; [|by eauto];
      apply taskLocked_ok in Ht; specialize (Hkey t Ht);
      destruct (requireLease t owner token now); simpl; [by eauto|]; specialize (Hkey eq_refl);
      destruct (Task.State t); try done; simpl; by eauto ]
  end.
Ltac sim_refused :=
  match goal with Hu : sentinel _ = None /\ _ |- _ =>
    let Hs := fresh in destruct Hu as [Hs ->]; apply simulates_refused; [done|exact Hs]
  end.
(** The row of a matching UPDATE, its guard split into holder and state. *)
Ltac open_matched :=
  match goal with Hu : exists _, _ |- _ =>
    destruct Hu as (r & Hr & Hw & He & -> & -> & Herr);
    pose proof (Hdb _ _ Hr) as Hrow; pose proof Hrow as (Hkey & _ & _ & Halign & Hnoerr) end.

Lemma start_simulates :
  simulates db (pg_exec alone 0 (OpStart id owner token now) db)
    (exec (OpStart id owner token now) (abs db)).
Proof.
  cbn [pg_exec]. unfold StartExecutionContext, transitionOwned. cbv zeta. after_update; simpl.
  - open_matched. apply andb_true_iff in Hw as [Ho Hs%bool_decide_eq_true].
    apply (simulates_change db (OpStart id owner token now) r); simpl; auto.
    + eapply row_ok_set; [done..|]. intros _. apply Hnoerr. by rewrite Hs.
    + apply change_start; [|done]. by eapply owned_held.
  - sim_classified [TaskLeased].
  - sim_refused.
Qed.

Lemma begin_simulates :
  simulates db (pg_exec alone 0 (OpBegin id owner token now) db)
    (exec (OpBegin id owner token now) (abs db)).
Proof.
  cbn [pg_exec]. unfold BeginCommitContext, transitionOwned. cbv zeta. after_update; simpl.
  - open_matched. apply andb_true_iff in Hw as [Ho Hs%bool_decide_eq_true].
    apply (simulates_change db (OpBegin id owner token now) r); simpl; auto.
    + eapply row_ok_set; [done..|]. intros _. apply Hnoerr. by rewrite Hs.
    + apply change_begin; [|done]. by eapply owned_held.
  - sim_classified [TaskExecuting].
  - sim_refused.
Qed.

Lemma authority_simulates dec grant :
  simulates db (pg_exec alone 0 (OpAuthority id owner token dec grant now) db)
    (exec (OpAuthority id owner token dec grant now) (abs db)).
Proof.
  cbn [pg_exec]. unfold RecordExecutionAuthorityContext.
  destruct ((dec ==? "") || (grant ==? "")) eqn:Hempty; simpl; [by apply simulates_refused|].
  after_update; simpl.
  - open_matched. apply andb_true_iff in Hw as [Ho Hs%bool_decide_eq_true]. reflect_bools.
    apply (simulates_change db (OpAuthority id owner token dec grant now) r); simpl; auto.
    + eapply row_ok_set; done.
    + apply change_authority; [apply Hempty..| |done]. by eapply owned_held.
  - sim_classified [TaskExecuting].
  - sim_refused.
Qed.

Lemma renew_simulates d :
  simulates db (pg_exec alone 0 (OpRenew id owner token now d) db)
    (exec (durable (OpRenew id owner token now d)) (abs db)).
Proof.
  cbn [pg_exec durable]. unfold RenewContext.
  pose proof (validateLeaseInput_spec id owner now d) as Hv.
  destruct (validateLeaseInput id owner now d); simpl; [by apply simulates_refused|].
  destruct (token <=? 0); simpl; [by apply simulates_refused|].
  destruct Hv as (Hid & Hown & Hn0 & Hd). pose proof (normaliseTime_pos now Hnow).
  assert (Hd' : 0 < Microseconds d * Microsecond) by (unfold Microsecond; lia).
  after_update; simpl.
  - open_matched. apply andb_true_iff in Hw as [Ho Hs].
    apply (simulates_change db (OpRenew id owner token (normaliseTime now)
      (Microseconds d * Microsecond)) r); simpl; auto.
    + eapply row_ok_set; [done|done| |done]. simpl. intros e [= <-]. apply aligned_after.
    + apply (change_renew id owner token (normaliseTime now) (Microseconds d * Microsecond) (scanTask r)).
      * done.
      * apply requireLease_held. erewrite requireLease_normalise by done.
        apply requireLease_held. by eapply owned_held.
      * apply orb_true_iff in Hs as [E%bool_decide_eq_true|E%bool_decide_eq_true]; auto.
  - destruct Hu as (-> & He & Hno).
    eapply (simulates_classified [TaskLeased; TaskExecuting] (fun st =>
      existsb (fun x => st ==? x) [TaskLeased; TaskExecuting])); [done|done|by intros []|exact Hno|..].
    + intros r Ho. cbn beta. rewrite Ho. by destruct (TaskRow.state r).
    + intros Hkey. cbn [exec]. unfold Renew.
      replace (IsZero (normaliseTime now)) with false by (symmetry; apply Z.eqb_neq; lia).
      replace (_ <=? 0) with false by (symmetry; apply Z.leb_gt; lia). simpl.
      destruct (taskLocked (abs db) id) as [t|] eqn:Ht; simpl; [|by eauto].
      apply taskLocked_ok in Ht. specialize (Hkey t Ht).
      rewrite abs_lookup in Ht. destruct (DB.tasks db !! id) as [r|] eqn:Hr; [|done].
      simpl in Ht. injection Ht as <-. erewrite requireLease_normalise by (by apply Hdb || done).
      destruct (requireLease (scanTask r) owner token now); simpl; [by eauto|].
      specialize (Hkey eq_refl). simpl in *. destruct (TaskRow.state r); try done; simpl; by eauto.
  - sim_refused.
Qed.

Lemma retry_simulates cause :
  simulates db (pg_exec alone 0 (OpRetry id owner token now cause) db)
    (exec (OpRetry id owner token now cause) (abs db)).
Proof.
  cbn [pg_exec]. unfold RetryContext. cbv zeta. after_update; simpl.
  - open_matched. apply andb_true_iff in Hw as [Ho Hs].
    apply (simulates_change db (OpRetry id owner token now cause) r); simpl; auto.
    + eapply row_ok_set; done.
    + match goal with |- change _ _ ?t _ => replace t with (released (scanTask r) cause) end.
      * apply change_retry; [|done]. by eapply owned_held.
      * unfold released, scanTask. simpl. rewrite (Hnoerr Hs), NULLIF_COALESCE. by destruct cause.
  - sim_classified [TaskLeased; TaskExecuting; TaskCommitting].
  - sim_refused.
Qed.
Lemma commit_simulates att ev :
  simulates db (pg_exec alone 0 (OpCommit id owner token att ev now) db)
    (exec (OpCommit id owner token att ev now) (abs db)).
Proof.
  cbn [pg_exec exec]. unfold CommitContext, Commit.
  destruct ((att ==? "") || (ev ==? "")) eqn:Hempty; simpl; [by apply simulates_refused|].
  after_update; simpl.
  - open_matched. rewrite !andb_true_iff in Hw. destruct Hw as [[[Ho Hs] Hn1] Hn2].
    apply bool_decide_eq_true in Hs. apply orb_false_iff in Hempty as [Ha%bool_decide_eq_false Hb%bool_decide_eq_false].
    pose proof (simulates_change db (OpCommit id owner token att ev now) r) as Hc.
    cbn [exec op_id] in Hc. unfold Commit in Hc.
    rewrite !bool_decide_false in Hc by done. apply Hc; simpl; auto.
    + eapply row_ok_set; done.
    + apply change_commit; [done..| |by eapply owned_held|done].
      simpl. by destruct (TaskRow.accepted_attempt_id r).
  - destruct Hu as (-> & He & Hno). destruct (decide (id = "")) as [->|Hid].
    { by apply simulates_refused. }
    rewrite GetContext_abs by done.
    destruct (taskLocked (abs db) id) as [t|e] eqn:Ht; simpl; [|by apply simulates_error].
    destruct (negb _) eqn:Hdup; simpl; [by apply simulates_error|].
    destruct (requireLease t owner token now) eqn:Hl; simpl; [by apply simulates_error|].
    destruct (Task.State t !=? TaskCommitting) eqn:Hs; simpl; [by apply simulates_error|].
    exfalso. apply taskLocked_ok in Ht. rewrite abs_lookup in Ht.
    destruct (DB.tasks db !! id) as [r|] eqn:Hr; [|done]. simpl in Ht. injection Ht as <-.
    apply negb_false_iff, bool_decide_eq_true in Hs, Hdup. simpl in Hs.
    pose proof (Hdb _ _ Hr) as Hrow. pose proof Hrow as (_ & Hc & _).
    apply check_spec in Hc as (_ & _ & _ & _ & _ & Hsucc & Hpair & _).
    assert (Hnone : TaskRow.accepted_attempt_id r = None).
    { destruct (TaskRow.accepted_attempt_id r) eqn:E; [|done].
      destruct Hsucc as [_ Hsucc]. by rewrite Hs in Hsucc; specialize (Hsucc ltac:(done)). }
    specialize (Hno r eq_refl). apply requireLease_held in Hl.
    erewrite held_owned in Hno by (done || by rewrite Hs). rewrite Hs, Hnone in Hno. simpl in Hno.
    by rewrite (proj1 Hpair Hnone) in Hno.
  - sim_refused.
Qed.

Lemma acquire_simulates d :
  simulates db (pg_exec alone 0 (OpAcquire id owner now d) db)
    (exec (durable (OpAcquire id owner now d)) (abs db)).
Proof.
  cbn [pg_exec durable]. unfold AcquireContext.
  pose proof (validateLeaseInput_spec id owner now d) as Hv.
  destruct (validateLeaseInput id owner now d); simpl; [by apply simulates_refused|].
  destruct Hv as (Hid & Hown & Hn0 & Hd). pose proof (normaliseTime_pos now Hnow).
  assert (Hd' : 0 < Microseconds d * Microsecond) by (unfold Microsecond; lia).
  after_update; simpl.
  - open_matched.
    apply (simulates_change db (OpAcquire id owner (normaliseTime now)
      (Microseconds d * Microsecond)) r); simpl; auto.
    + eapply row_ok_set; [done|done| |done]. simpl. intros e [= <-]. apply aligned_after.
    + rewrite <- (acquired_scan db r) by done. apply change_acquire; [done|lia|done|].
      apply orb_true_iff in Hw as [Ha|[Ha Hle]%andb_true_iff]; [by left|right].
      split; [done|]. unfold col_le, scanTask in *. simpl.
      destruct (TaskRow.lease_expiry r); [by apply Z.leb_le|done].
  - destruct Hu as (-> & He & Hno). unfold classifyAcquire, Acquire.
    rewrite GetContext_abs, bool_decide_false by done.
    replace (IsZero (normaliseTime now)) with false by (symmetry; apply Z.eqb_neq; lia).
    replace (_ <=? 0) with false by (symmetry; apply Z.leb_gt; lia). simpl.
    destruct (taskLocked (abs db) id) as [t|e] eqn:Ht; simpl; [|by apply simulates_error].
    apply taskLocked_ok in Ht. rewrite abs_lookup in Ht.
    destruct (DB.tasks db !! id) as [r|] eqn:Hr; [|done]. simpl in Ht. injection Ht as <-.
    pose proof (Hdb _ _ Hr) as Hrow. specialize (Hno r eq_refl). cbn beta in Hno.
    apply orb_false_iff in Hno as [Hav Hact]. change (Task.State (scanTask r)) with (TaskRow.state r).
    destruct (active (TaskRow.state r)) eqn:Ea;
      [|by destruct (TaskRow.state r); try done; apply simulates_error].
    assert (Hb : Before (normaliseTime now) (Task.LeaseExpiry (scanTask r)) = true /\
                 Before now (Task.LeaseExpiry (scanTask r)) = true).
    { pose proof Hrow as (_ & Hc & _). apply check_spec in Hc as (_ & _ & _ & _ & _ & _ & _ & Hl & _).
      destruct (Hl Ea) as (o & e & _ & Hexp). unfold scanTask, Before. simpl. rewrite Hexp in *.
      simpl in Hact. apply Z.leb_gt in Hact. rewrite !Z.ltb_lt. split; [done|].
      by apply (expiry_lt r now id e). }
    destruct Hb as [-> ->]. by destruct (TaskRow.state r); try done; apply simulates_error.
  - sim_refused.
Qed.
End Simulation.

Lemma validateDurableTask_spec task :
  match validateDurableTask task with
  | Some e => sentinel e = None
  | None => Task.ID task <> "" /\ Task.TargetID task <> "" /\ Task.RecipeID task <> ""
  end.
Proof.
  unfold validateDurableTask. destruct (existsb _ _) eqn:E; [done|].
  cbn [existsb] in E. rewrite !orb_false_iff, !bool_decide_eq_false in E. naive_solver.
Qed.

Lemma insert_task_spec params row db :
  match insert_task params row db with
  | (Err e, db') => sentinel e = None /\ db' = db
  | (Ok _, db') => DB.tasks db !! TaskRow.id row = None /\ db' = put_task row db /\
      task_row_error db None row = None
  end.
Proof.
  unfold insert_task. destruct (negb _); [done|].
  destruct (task_row_error db None row) as [e|] eqn:Ht.
  - split; [|done]. unfold task_row_error in Ht. repeat case_match; by simplify_eq.
  - by destruct (DB.tasks db !! TaskRow.id row) eqn:Hr.
Qed.

(** Adding a task persists the fields of the INSERT. *)
Lemma add_simulates ts task db :
  db_ok db -> Task.State task = TaskQueued \/ Task.State task = TaskOther "" ->
  simulates db (pg_exec (fun db => db) ts (OpAdd task) db) (exec (durable (OpAdd task)) (abs db)).
Proof.
  intros Hdb Hst. cbn [pg_exec durable]. unfold AddContext.
  pose proof (validateDurableTask_spec task) as Hv.
  destruct (validateDurableTask task) as [e|]; [by apply simulates_refused|].
  set (queued := task <| Task.State := TaskQueued |>).
  replace (if Task.State task ==? TaskOther "" then _ else task) with queued
    by (destruct task; simpl in *; destruct Hst as [-> | ->]; done).
  rewrite bool_decide_true by done. cbn [negb].
  match goal with |- context [insert_task ?p ?r db] =>
    pose proof (insert_task_spec p r db) as Hi; destruct (insert_task p r db) as [[u|e] db'] end;
    unfold reply; cbn [fst snd].
  - destruct Hi as (Hnone & -> & Herr). simpl in Hnone. split.
    { apply db_ok_put; [done|]. by eapply row_ok_set. }
    right. rewrite (exec_complete (OpAdd (persisted task)) (abs db)
      (persisted task <| Task.State := TaskQueued |>) None).
    + split; [done|]. simpl. by rewrite abs_put_task.
    + simpl. rewrite abs_lookup, Hnone. destruct Hv as (? & ? & ?). by apply change_add.
  - destruct Hi as [Hs ->]. by apply simulates_refused.
Qed.

(** One step of the durable repository, alone on the database. *)
Lemma pg_exec_simulates ts op db :
  db_ok db -> admissible op ->
  simulates db (pg_exec (fun db => db) ts op db) (exec (durable op) (abs db)).
Proof.
  intros Hdb [Hnow Hadd]. destruct op; simpl in Hnow.
  - by apply add_simulates.
  - by apply acquire_simulates.
  - by apply renew_simulates.
  - by apply start_simulates.
  - by apply authority_simulates.
  - by apply begin_simulates.
  - by apply commit_simulates.
  - by apply retry_simulates.
Qed.

(** ** Runs

    A durable operation with the database clock at which it runs. *)
Definition pg_step (x : Z * Op) (db : DB.t) : result Reply * DB.t :=
  pg_exec (fun db => db) x.1 x.2 db.

Definition is_refused (r : result Reply) : bool :=
  match r with Err e => is_null (sentinel e) | Ok _ => false end.
(** The entries of a durable log that were not refused, as store operations. *)
Definition answered (log : list ((Z * Op) * result Reply)) : list (Op * result Reply) :=
  omap (fun '((_, op), r) => if is_refused r then None else Some (durable op, r)) log.

Lemma is_refused_spec r : is_refused r = true <-> refused r.
Proof.
  destruct r as [a|e]; simpl; [done|]. unfold is_null. by destruct (sentinel e).
Qed.

Lemma same_outcome_refused (r m : result Reply) : same_outcome r m -> is_refused r = is_refused m.
Proof. destruct r, m; simpl; try done. by intros ->. Qed.

Lemma run_simulates ops db :
  db_ok db -> Forall (fun x => admissible x.2) ops ->
  let '(log, db') := run pg_step ops db in
  db_ok db' /\
  exists mlog, run exec (map fst (answered log)) (abs db) = (mlog, abs db') /\
    Forall2 (fun e m => e.1 = m.1 /\ same_outcome e.2 m.2) (answered log) mlog.
Proof.
  intros Hdb Hadm. revert db Hdb. induction Hadm as [|[ts op] ops Hop _ IH]; intros db Hdb; simpl.
  { split; [done|]. exists []. by split. }
  pose proof (pg_exec_simulates ts op db Hdb Hop) as [Hdb1 Hsim].
  change (pg_step (ts, op) db) with (pg_exec (fun db => db) ts op db).
  destruct (pg_exec (fun db => db) ts op db) as [r db1]. cbn [fst snd] in *.
  specialize (IH db1 Hdb1). destruct (run pg_step ops db1) as [log db2].
  destruct IH as (Hdb2 & mlog & Hrun & Hf). split; [done|]. simpl.
  destruct Hsim as [[Href ->]|[Hsame Habs]].
  - apply is_refused_spec in Href. rewrite Href. by exists mlog.
  - destruct (is_refused r) eqn:Href.
    + (* the same unclassified error on both sides *)
      apply is_refused_spec in Href. destruct r as [|e]; [done|]. simpl in Href.
      pose proof (exec_sound (durable op) (abs db)) as Hs.
      destruct (exec (durable op) (abs db)) as [[m|f] s1]; [done|]. simpl in Habs. rewrite Hs in Habs.
      rewrite <- Habs. by exists mlog.
    + simpl. destruct (exec (durable op) (abs db)) as [m s1]. simpl in Hsame, Habs. subst.
      rewrite Hrun. exists ((durable op, m) :: mlog). split; [done|]. by constructor.
Qed.

(** ** When the database does not refuse

    [storable db op]: the text parameters are encodable and within the column
    lengths, the row was created before the caller's clock, its counters have
    room, and the evidence a commit names exists for the task and is accepted
    by no other. *)
Definition short (s : string) : Prop := encodable s = true /\ 1 <= char_length s <= 512.
Definition room (r : TaskRow.t) (now : Z) : Prop :=
  TaskRow.created_at r <= normaliseTime now.
Definition storable (db : DB.t) (op : Op) : Prop :=
  (forall r now, DB.tasks db !! op_id op = Some r -> op_time op = Some now -> room r now) /\
  match op with
  | OpAdd task => validateDurableTask task = None /\ all_encodable (task_params task) = true /\
      char_length (Task.TargetEndpoint task) <= 2048 /\ char_length (Task.ApprovalGrantID task) <= 512
  | _ => encodable (op_id op) = true
  end /\
  match op with
  | OpAdd _ => True
  | OpAcquire id owner now d => short owner /\
      forall r, DB.tasks db !! id = Some r ->
        TaskRow.attempt_count r < max_int32 /\ TaskRow.fencing_token r < max_int64
  | OpRenew _ owner _ _ _ | OpStart _ owner _ _ | OpBegin _ owner _ _ => short owner
  | OpAuthority _ owner _ dec grant _ => short owner /\ short dec /\ short grant
  | OpCommit id owner _ att ev _ => short owner /\ short att /\ short ev /\
      (exists e, DB.envelopes db !! ev = Some e /\ EnvelopeRow.task_id e = id /\
        forall r, DB.tasks db !! id = Some r -> EnvelopeRow.tenant_id e = TaskRow.tenant_id r) /\
      (forall i r, DB.tasks db !! i = Some r -> i <> id ->
        TaskRow.accepted_attempt_id r <> Some att /\ TaskRow.accepted_evidence_id r <> Some ev)
  | OpRetry _ owner _ _ cause => short owner /\
      match cause with Some c => encodable (boundedError (Error c)) = true | None => True end
  end.

Lemma boundedError_length s : encodable (boundedError s) = true ->
  char_length (boundedError s) <= 2048.
Proof.
  intros _. unfold boundedError, char_length, RuneCount.
  destruct (Nat.ltb_spec 2048 (List.length (runes s))) as [Hlt|Hle].
  - rewrite runes_of_runes by (apply Forall_take, runes_valid). rewrite firstn_length. lia.
  - lia.
Qed.

Lemma conflicts_None {R} (col : R -> option string) table key row :
  col row = None -> conflicts col table key row = false.
Proof. unfold conflicts. by intros ->. Qed.

Lemma conflicts_spec {R} (col : R -> option string) (table : gmap string R) key row v :
  col row = Some v ->
  (conflicts col table key row = true <->
   exists k r, table !! k = Some r /\ k <> key /\ col r = Some v).
Proof.
  unfold conflicts. intros ->. rewrite existsb_exists. split.
  - intros ([k r] & Hin & H). apply list_elem_of_In, elem_of_map_to_list in Hin.
    reflect_bools. naive_solver.
  - intros (k & r & Hk & Hne & Hc). exists (k, r). split.
    + by apply list_elem_of_In, elem_of_map_to_list.
    + reflect_bools. done.
Qed.

(** The CHECKs on the columns an operation may set, the others kept together. *)
Definition static_check (r : TaskRow.t) : Prop :=
  forallb ident [TaskRow.id r; TaskRow.tenant_id r; TaskRow.resolution_id r;
    TaskRow.claim_fingerprint r; TaskRow.target_snapshot_id r; TaskRow.target_snapshot_hash r;
    TaskRow.target_id r; TaskRow.recipe_id r; TaskRow.recipe_version r;
    TaskRow.trigger_decision_id r; TaskRow.planning_decision_id r;
    TaskRow.compatibility_hash r] = true /\
  opt_ident 2048 (TaskRow.target_endpoint r) = true /\
  opt_ident 512 (TaskRow.approval_grant_id r) = true.

Lemma check_iff r : TaskRow.check r = true <->
  static_check r /\
  (match TaskRow.state r with TaskOther _ => false | _ => true end) = true /\
  0 <= TaskRow.attempt_count r /\ 0 <= TaskRow.fencing_token r /\
  opt_ident 512 (TaskRow.execution_decision_id r) = true /\
  opt_ident 512 (TaskRow.execution_grant_id r) = true /\
  opt_ident 512 (TaskRow.lease_owner r) = true /\
  opt_ident 512 (TaskRow.accepted_attempt_id r) = true /\
  opt_ident 512 (TaskRow.accepted_evidence_id r) = true /\
  is_null (TaskRow.execution_decision_id r) = is_null (TaskRow.execution_grant_id r) /\
  is_null (TaskRow.accepted_attempt_id r) = is_null (TaskRow.accepted_evidence_id r) /\
  (TaskRow.state r ==? TaskSucceeded) = negb (is_null (TaskRow.accepted_attempt_id r)) /\
  negb (active (TaskRow.state r)) || negb (is_null (TaskRow.lease_owner r)) &&
    negb (is_null (TaskRow.lease_expiry r)) && (0 <? TaskRow.fencing_token r) = true /\
  negb (available (TaskRow.state r)) || is_null (TaskRow.lease_owner r) &&
    is_null (TaskRow.lease_expiry r) = true /\
  opt_ident 2048 (TaskRow.last_error r) = true /\
  TaskRow.created_at r <= TaskRow.updated_at r.
Proof.
  unfold TaskRow.check, static_check. generalize (forallb ident [TaskRow.id r; TaskRow.tenant_id r;
    TaskRow.resolution_id r; TaskRow.claim_fingerprint r; TaskRow.target_snapshot_id r;
    TaskRow.target_snapshot_hash r; TaskRow.target_id r; TaskRow.recipe_id r;
    TaskRow.recipe_version r; TaskRow.trigger_decision_id r; TaskRow.planning_decision_id r;
    TaskRow.compatibility_hash r]). intros b. cbn [forallb].
  rewrite !(andb_true_iff), !Bool.eqb_true_iff, !Z.leb_le. tauto.
Qed.

Lemma task_row_error_None db old r :
  TaskRow.in_range r = true -> TaskRow.check r = true ->
  TaskRow.accepted_attempt_id r = None -> TaskRow.accepted_evidence_id r = None ->
  task_row_error db old r = None.
Proof.
  intros H1 H2 H3 H4. unfold task_row_error. rewrite H1, H2, !conflicts_None by done. simpl.
  unfold accepted_evidence_exists. rewrite H4. by rewrite andb_false_r.
Qed.

(** An UPDATE whose guard holds and whose row is acceptable changes the row. *)
Lemma update_task_ok params id where_ set db r :
  all_encodable (id :: params) = true -> DB.tasks db !! id = Some r -> where_ r = true ->
  task_row_error db (Some r) (set r) = None ->
  update_task params id where_ set db = (Ok (Some (set r)), put_task (set r) db).
Proof. intros H1 H2 H3 H4. unfold update_task. by rewrite H1, H2, H3, H4. Qed.

Lemma short_encodable s : short s -> encodable s = true.
Proof. by intros [? _]. Qed.

Lemma short_ident s : short s -> opt_ident 512 (Some s) = true.
Proof.
  intros [_ ?]. simpl. unfold between. by rewrite andb_true_iff, !Z.leb_le.
Qed.

Lemma state_literal_encodable st : (forall s, st <> TaskOther s) -> encodable (TaskState_string st) = true.
Proof. destruct st; try (intros _; by vm_compute). intros H. by destruct (H s). Qed.

(** [recheck Hc]: the CHECKs of an updated row from those of the old one. *)
Ltac recheck Hc :=
  unfold static_check, room in *; simpl in *;
  repeat match goal with Hs : TaskRow.state _ = _ |- context [TaskRow.state _] => rewrite Hs end;
  repeat match goal with Hn : _ = None |- _ => progress rewrite Hn in * end; simpl in *;
  destruct Hc as (Hc1 & Hc2 & Hc3 & Hc4 & Hc5 & Hc6 & Hc7 & Hc8 & Hc9 & Hc10 & Hc11 & Hc12 & Hc13 & Hc14 & Hc15 & Hc16);
  repeat match goal with |- _ /\ _ => split end;
  first [done | assumption | apply Hc1 | lia | by apply short_ident | idtac].

Section Progress.
Context (db : DB.t) (Hdb : db_ok db).
Context (id owner : string) (token now : Z) (Hnow : Microsecond <= now) (row : TaskRow.t).
Context (Hid : encodable id = true) (Hrow : DB.tasks db !! id = Some row) (Hroom : room row now).
Context (Howner : short owner).

Lemma row_facts : row_ok id row /\ TaskRow.in_range row = true /\ TaskRow.check row = true.
Proof. pose proof (Hdb _ _ Hrow) as H. pose proof H as (_ & ? & ? & _). done. Qed.

Lemma active_unaccepted :
  active (TaskRow.state row) = true ->
  TaskRow.accepted_attempt_id row = None /\ TaskRow.accepted_evidence_id row = None.
Proof.
  intros Ha. destruct row_facts as (_ & _ & Hc).
  apply check_spec in Hc as (_ & _ & _ & _ & _ & Hsucc & Hpair & _).
  assert (H : TaskRow.accepted_attempt_id row = None).
  { destruct (TaskRow.accepted_attempt_id row); [|done].
    destruct Hsucc as [_ Hsucc]. rewrite Hsucc in Ha; done. }
  split; [done|]. by apply Hpair.
Qed.

Lemma transition_accepts from to :
  (from = TaskLeased /\ to = TaskExecuting) \/ (from = TaskExecuting /\ to = TaskCommitting) ->
  TaskRow.state row = from -> held (scanTask row) owner token now ->
  exists db', transitionOwned (fun db => db) id owner token now from to db = (Ok tt, db').
Proof.
  intros Hft Hs Hheld. destruct row_facts as (Hok & Hrange & Hc).
  assert (Ha : active (TaskRow.state row) = true) by (rewrite Hs; by destruct Hft as [[-> _]|[-> _]]).
  destruct (active_unaccepted Ha) as [Hn1 Hn2].
  unfold transitionOwned. erewrite (update_task_ok _ _ _ _ _ row); [by eexists|..|done| |].
  - simpl. rewrite Hid, (short_encodable owner) by done.
    by rewrite !state_literal_encodable by (intros ? ?; by destruct Hft as [[-> ->]|[-> ->]]).
  - erewrite held_owned by done. by rewrite bool_decide_true.
  - apply task_row_error_None; [done| |done|done]. apply check_iff in Hc. apply check_iff.
    rewrite Hs in *. destruct Hft as [[-> ->]|[-> ->]]; recheck Hc.
Qed.

Lemma authority_accepts dec grant :
  dec <> "" -> grant <> "" -> short dec -> short grant ->
  TaskRow.state row = TaskExecuting -> held (scanTask row) owner token now ->
  exists db', RecordExecutionAuthorityContext (fun db => db) id owner token dec grant now db = (Ok tt, db').
Proof.
  intros Hd Hg Hsd Hsg Hs Hheld. destruct row_facts as (Hok & Hrange & Hc).
  assert (Ha : active (TaskRow.state row) = true) by by rewrite Hs.
  destruct (active_unaccepted Ha) as [Hn1 Hn2].
  unfold RecordExecutionAuthorityContext. rewrite !bool_decide_false by done. cbn [orb].
  erewrite (update_task_ok _ _ _ _ _ row); [by eexists|..|done| |].
  - simpl. by rewrite Hid, !short_encodable.
  - erewrite held_owned by done. by rewrite bool_decide_true.
  - apply task_row_error_None; [done| |done|done]. apply check_iff in Hc. apply check_iff.
    rewrite Hs in *. recheck Hc.
Qed.

Lemma renew_accepts d :
  0 < d -> 0 < Microseconds d -> owner <> "" -> 0 < token -> id <> "" ->
  TaskRow.state row = TaskLeased \/ TaskRow.state row = TaskExecuting ->
  held (scanTask row) owner token now ->
  exists l db', RenewContext (fun db => db) id owner token now d db = (Ok l, db').
Proof.
  intros Hd Hmicro Ho Hk Hne Hs Hheld. destruct row_facts as (Hok & Hrange & Hc).
  assert (Ha : active (TaskRow.state row) = true) by (by destruct Hs as [-> | ->]).
  destruct (active_unaccepted Ha) as [Hn1 Hn2].
  unfold RenewContext, validateLeaseInput. rewrite !bool_decide_false by done. cbn [orb].
  replace (IsZero now) with false by (symmetry; apply Z.eqb_neq; unfold Microsecond in *; lia).
  replace (_ <=? 0) with false by (symmetry; apply Z.leb_gt; lia). cbn [orb].
  replace (token <=? 0) with false by (symmetry; apply Z.leb_gt; lia).
  erewrite (update_task_ok _ _ _ _ _ row); [by do 2 eexists|..|done| |].
  - simpl. by rewrite Hid, short_encodable.
  - erewrite held_owned by done. by destruct Hs as [-> | ->].
  - apply task_row_error_None; [done| |done|done]. apply check_iff in Hc. apply check_iff.
    destruct Hs as [Hs|Hs]; rewrite Hs in *; recheck Hc;
      (rewrite !andb_true_iff in *; naive_solver).
Qed.

Lemma retry_accepts cause :
  match cause with Some c => encodable (boundedError (Error c)) = true | None => True end ->
  active (TaskRow.state row) = true -> held (scanTask row) owner token now ->
  exists db', RetryContext (fun db => db) id owner token now cause db = (Ok tt, db').
Proof.
  intros Hcause Ha Hheld. destruct row_facts as (Hok & Hrange & Hc).
  destruct (active_unaccepted Ha) as [Hn1 Hn2]. unfold RetryContext.
  set (lastError := match cause with Some c => boundedError (Error c) | None => "" end).
  assert (Hl : encodable lastError = true /\ char_length lastError <= 2048).
  { unfold lastError. destruct cause; [|by vm_compute]. split; [done|by apply boundedError_length]. }
  clearbody lastError. erewrite (update_task_ok _ _ _ _ _ row); [by eexists|..|done| |].
  - simpl. by rewrite Hid, short_encodable, (proj1 Hl).
  - erewrite held_owned by done. by rewrite Ha.
  - apply task_row_error_None; [done| |done|done]. apply check_iff in Hc. apply check_iff.
    rewrite Hn1, Hn2 in *.
    assert (Hle : opt_ident 2048 (NULLIF lastError) = true).
    { unfold NULLIF. destruct (decide (lastError = "")) as [->|E]; [done|].
      rewrite bool_decide_false by done. simpl. unfold between.
      rewrite andb_true_iff, !Z.leb_le. split; [by apply RuneCount_pos|apply Hl]. }
    recheck Hc.
Qed.

Lemma acquire_accepts d :
  0 < Microseconds d -> owner <> "" -> id <> "" ->
  TaskRow.attempt_count row < max_int32 -> TaskRow.fencing_token row < max_int64 ->
  available (TaskRow.state row) = true \/
    active (TaskRow.state row) = true /\ Task.LeaseExpiry (scanTask row) <= normaliseTime now ->
  exists l db', AcquireContext (fun db => db) id owner now d db = (Ok l, db').
Proof.
  intros Hd Ho Hne Hatt Hfence Hs. destruct row_facts as (Hok & Hrange & Hc).
  pose proof Hc as (_ & Ha0 & Hf0 & _ & _ & Hsucc & Hpair & Hact & _)%check_spec.
  unfold AcquireContext, validateLeaseInput. rewrite !bool_decide_false by done. cbn [orb].
  replace (IsZero now) with false by (symmetry; apply Z.eqb_neq; unfold Microsecond in *; lia).
  replace (_ <=? 0) with false by (symmetry; apply Z.leb_gt; lia). cbn [orb].
  erewrite (update_task_ok _ _ _ _ _ row); [by do 2 eexists|..|done| |].
  - simpl. by rewrite Hid, short_encodable.
  - destruct Hs as [->|[Ha Hle]]; [done|]. rewrite Ha. destruct (Hact Ha) as (o & e & _ & He).
    unfold scanTask in Hle. simpl in Hle. rewrite He in *. simpl. apply orb_true_iff. right.
    by apply Z.leb_le.
  - assert (Hn : TaskRow.accepted_attempt_id row = None).
    { destruct (TaskRow.accepted_attempt_id row); [|done]. destruct Hsucc as [_ Hsucc].
      rewrite Hsucc in Hs by done. by destruct Hs as [?|[? _]]. }
    assert (Hn2 : TaskRow.accepted_evidence_id row = None) by by apply Hpair.
    apply task_row_error_None; [| |done|done].
    + unfold TaskRow.in_range, in_int4, in_int8, between in *. simpl. reflect_bools.
      unfold max_int32, max_int64 in *. lia.
    + apply check_iff in Hc. apply check_iff. rewrite Hn, Hn2 in *. recheck Hc.
Qed.

Lemma commit_accepts att ev e :
  att <> "" -> ev <> "" -> short att -> short ev ->
  DB.envelopes db !! ev = Some e -> EnvelopeRow.task_id e = id ->
  EnvelopeRow.tenant_id e = TaskRow.tenant_id row ->
  (forall i r, DB.tasks db !! i = Some r -> i <> id ->
     TaskRow.accepted_attempt_id r <> Some att /\ TaskRow.accepted_evidence_id r <> Some ev) ->
  TaskRow.state row = TaskCommitting -> held (scanTask row) owner token now ->
  exists db', CommitContext (fun db => db) id owner token att ev now db = (Ok tt, db').
Proof.
  intros Hat Hev Hsa Hse He Htask Htenant Huniq Hs Hheld. destruct row_facts as (Hok & Hrange & Hc).
  pose proof Hok as (Hkey & _). assert (Ha : active (TaskRow.state row) = true) by by rewrite Hs.
  destruct (active_unaccepted Ha) as [Hn1 Hn2].
  unfold CommitContext. rewrite !bool_decide_false by done. cbn [orb].
  erewrite (update_task_ok _ _ _ _ _ row); [by eexists|..|done| |].
  - simpl. by rewrite Hid, !short_encodable.
  - erewrite held_owned by done. by rewrite bool_decide_true, Hn1, Hn2.
  - unfold task_row_error. replace (TaskRow.in_range _) with true by done.
    replace (TaskRow.check _) with true; [|symmetry; apply check_iff in Hc; apply check_iff;
      rewrite Hs in *; by recheck Hc]. cbn [negb].
    assert (Hno : forall (col : TaskRow.t -> option string) v r',
      col r' = Some v -> (forall i r, DB.tasks db !! i = Some r -> i <> id -> col r <> Some v) ->
      conflicts col (DB.tasks db) id r' = false).
    { intros col v r' Hv Hu. apply not_true_iff_false. rewrite (conflicts_spec _ _ _ _ v Hv).
      intros (k & r & Hk & Hk' & Hcol). by eapply Hu. }
    simpl. rewrite Hkey. rewrite (Hno _ att), (Hno _ ev) by (done || intros; by eapply Huniq).
    cbn [orb]. unfold accepted_evidence_exists. simpl. rewrite He, Hkey, Htask, Htenant.
    by rewrite (bool_decide_true (id = id)), (bool_decide_true (TaskRow.tenant_id row = _)), andb_false_r.
Qed.
End Progress.

Lemma accepts_like_store ts op db r s' :
  db_ok db -> admissible op -> exec (durable op) (abs db) = (Ok r, s') ->
  is_ok (pg_exec (fun db => db) ts op db).1 = true ->
  exists db', pg_exec (fun db => db) ts op db = (Ok r, db') /\ abs db' = s' /\ db_ok db'.
Proof.
  intros Hdb Hadm Hexec Hok. pose proof (pg_exec_simulates ts op db Hdb Hadm) as [Hdb' Hsim].
  rewrite Hexec in Hsim. destruct (pg_exec _ ts op db) as [[r0|e] db']; [|done]. simpl in *.
  destruct Hsim as [[[] _]|[-> Habs]]. by exists db'.
Qed.

Lemma opt_ident_NULLIF hi s : char_length s <= hi -> opt_ident hi (NULLIF s) = true.
Proof.
  intros H. unfold NULLIF. destruct (decide (s = "")) as [->|E]; [done|].
  rewrite bool_decide_false by done. simpl. unfold between, char_length in *.
  rewrite andb_true_iff, !Z.leb_le. split; [by apply RuneCount_pos|done].
Qed.

Lemma add_accepts ts task db :
  validateDurableTask task = None -> all_encodable (task_params task) = true ->
  char_length (Task.TargetEndpoint task) <= 2048 -> char_length (Task.ApprovalGrantID task) <= 512 ->
  Task.State task = TaskQueued \/ Task.State task = TaskOther "" ->
  DB.tasks db !! Task.ID task = None ->
  exists db', AddContext ts task db = (Ok tt, db').
Proof.
  intros Hv Henc Hep Hap Hst Hnone. unfold AddContext. rewrite Hv.
  set (queued := task <| Task.State := TaskQueued |>).
  replace (if Task.State task ==? TaskOther "" then _ else task) with queued
    by (destruct task; simpl in *; destruct Hst as [-> | ->]; done).
  rewrite bool_decide_true by done. cbn [negb]. unfold insert_task.
  replace (all_encodable (task_params queued)) with true.
  2: { unfold all_encodable, task_params in *. simpl in *. rewrite !andb_true_iff in *.
       symmetry. rewrite !andb_true_iff. naive_solver. }
  cbn [negb]. rewrite task_row_error_None; [|done| |done|done].
  { simpl. rewrite Hnone. by eexists. }
  apply check_iff. unfold validateDurableTask in Hv. case_match eqn:E; [done|].
  cbn [existsb] in E. rewrite !orb_false_iff, !bool_decide_eq_false, !Z.ltb_ge in E.
  assert (Hident : forall s, s <> "" /\ len s <= 512 -> ident s = true).
  { intros s [H1 H2]. unfold ident, between, char_length. pose proof (RuneCount_le s).
    pose proof (RuneCount_pos s H1). rewrite andb_true_iff, !Z.leb_le. lia. }
  unfold static_check. simpl. rewrite !Hident by tauto. rewrite !opt_ident_NULLIF by done. done.
Qed.

Lemma short_nonempty s : short s -> s <> "".
Proof. intros [_ [H _]] ->. by apply H. Qed.

Lemma row_key_nonempty id r : row_ok id r -> id <> "".
Proof.
  intros (<- & Hc & _). apply check_iff in Hc as ((Hs & _) & _). cbn [forallb] in Hs.
  rewrite !andb_true_iff in Hs. destruct Hs as [Hi _]. intros E. by rewrite E in Hi.
Qed.

Lemma active_fence id r : row_ok id r -> active (TaskRow.state r) = true -> 0 < TaskRow.fencing_token r.
Proof.
  intros (_ & Hc & _) Ha. apply check_iff in Hc. rewrite Ha in Hc. simpl in Hc.
  rewrite !andb_true_iff, Z.ltb_lt in Hc. tauto.
Qed.

Lemma pg_accepts ts op db r s' :
  db_ok db -> admissible op -> storable db op -> exec (durable op) (abs db) = (Ok r, s') ->
  is_ok (pg_exec (fun db => db) ts op db).1 = true.
Proof.
  intros Hdb [Hnow Hadd] (Hroom & Henc & Hop) (t' & Hc & _)%exec_ok_iff.
  destruct op as [task|id owner now d|id owner token now d|id owner token now
    |id owner token dec grant now|id owner token now|id owner token att ev now|id owner token now cause];
    simpl in *; rewrite abs_lookup in Hc.
  { destruct Henc as (? & ? & ? & ?).
    destruct (add_accepts ts task db) as [db' Hdb']; try done; [|by rewrite Hdb'].
    by destruct (DB.tasks db !! Task.ID task); inversion Hc. }
  all: destruct (DB.tasks db !! id) as [row|] eqn:Hrow; [|by inversion Hc];
    pose proof (Hdb _ _ Hrow) as Hok; specialize (Hroom row now eq_refl eq_refl);
    pose proof (row_key_nonempty _ _ Hok) as Hne; simpl in Hc.
  - destruct Hop as [Ho Hcount]. destruct (Hcount row eq_refl) as [? ?]. inversion Hc; subst.
    edestruct (acquire_accepts db Hdb id owner now Hnow row Henc Hrow Hroom Ho d)
      as (l & db' & Hd); [|by apply short_nonempty|done..|by rewrite Hd].
    unfold Microsecond in *; lia.
  - inversion Hc; subst.
    match goal with H : held _ _ _ _ |- _ => pose proof H as Hh end.
    apply requireLease_held in Hh. erewrite requireLease_normalise in Hh by done.
    apply requireLease_held in Hh.
    assert (Ha : active (TaskRow.state row) = true)
      by (match goal with H : _ \/ _ |- _ => destruct H as [E|E] end; simpl in E; by rewrite E).
    edestruct (renew_accepts db Hdb id owner token now Hnow row Henc Hrow Hroom Hop d)
      as (l & db' & Hd); [| |by apply short_nonempty| |done|done|done|by rewrite Hd];
      [unfold Microseconds, Microsecond in *; Z.to_euclidean_division_equations; lia
      |unfold Microsecond in *; lia|].
    destruct Hh as (_ & <- & _). by apply (active_fence id).
  - inversion Hc; subst.
    edestruct (transition_accepts db Hdb id owner token now row Henc Hrow Hroom Hop
      TaskLeased TaskExecuting) as [db' Hd];
      [by left|done|done|]. unfold StartExecutionContext. by rewrite Hd.
  - destruct Hop as (Ho & Hdec & Hgrant). inversion Hc; subst.
    edestruct (authority_accepts db Hdb id owner token now row Henc Hrow Hroom Ho dec grant)
      as [db' Hd]; [done..|]. by rewrite Hd.
  - inversion Hc; subst.
    edestruct (transition_accepts db Hdb id owner token now row Henc Hrow Hroom Hop
      TaskExecuting TaskCommitting) as [db' Hd];
      [by right|done|done|]. unfold BeginCommitContext. by rewrite Hd.
  - destruct Hop as (Ho & Hatt & Hev & (e & He & Htask & Htenant) & Huniq). inversion Hc; subst.
    edestruct (commit_accepts db Hdb (EnvelopeRow.task_id e) owner token now row Henc Hrow Hroom Ho att ev e)
      as [db' Hd]; [done..|by apply Htenant|done|done|done|]. by rewrite Hd.
  - destruct Hop as [Ho Hcause]. inversion Hc; subst.
    edestruct (retry_accepts db Hdb id owner token now row Henc Hrow Hroom Ho cause)
      as [db' Hd]; [done..|]. by rewrite Hd.
Qed.

(** ** Properties *)

(** C7.  The durable repository refines the store, run by run: on a database
    that satisfies the table's constraints, the operations that were not refused
    give, in order, the answers the in-memory store gives for the same
    operations (lease times at microsecond precision), and the decoded table at
    the end is the store at the end.  Refused operations change nothing. *)
Theorem postgres_refines_store ops db
    (Hdb : db_ok db) (Hadm : Forall (fun x => admissible x.2) ops) :
  let '(log, db') := run pg_step ops db in
  db_ok db' /\
  exists mlog, run exec (map fst (answered log)) (abs db) = (mlog, abs db') /\
    Forall2 (fun e m => e.1 = m.1 /\ same_outcome e.2 m.2) (answered log) mlog.
Proof. by apply run_simulates. Qed.

(** C8.  The database refuses nothing it should accept: when the store performs
    an operation and its parameters are storable, the durable repository
    performs it with the same answer and the same effect on the decoded tasks. *)
Theorem postgres_accepts_store_steps ts op db r s'
    (Hdb : db_ok db) (Hadm : admissible op) (Hst : storable db op)
    (Hexec : exec (durable op) (abs db) = (Ok r, s')) :
  exists db', pg_exec (fun db => db) ts op db = (Ok r, db') /\ abs db' = s' /\ db_ok db'.
Proof. eapply accepts_like_store; [done..|]. by eapply pg_accepts. Qed.

(** ** Witnesses *)

(** A task is added, leased, executed; its lease expires and a second
    collector acquires it; the commit of the first is rejected as stale. *)
Definition pg_demo_ops : list (Z * Op) :=
  [(5000, OpAdd demo_task); (6000, OpAcquire "t1" "w1" 10500 5500);
   (6000, OpStart "t1" "w1" 1 11000); (6000, OpAcquire "t1" "w2" 14000 9000);
   (6000, OpAcquire "t1" "w2" 20000 9000); (6000, OpStart "t1" "w2" 2 21000);
   (6000, OpBegin "t1" "w1" 1 21000);
   (6000, OpAuthority "t1" "w2" 2 "d3" "g1" 21000); (6000, OpBegin "t1" "w2" 2 22000)].

Lemma db_ok_empty : db_ok DB.empty.
Proof. apply map_Forall_empty. Qed.

Lemma pg_demo_admissible : Forall (fun x => admissible x.2) pg_demo_ops.
Proof.
  repeat constructor; simpl; unfold Microsecond; auto; lia.
Qed.

Lemma postgres_refines_store_witness :
  let '(log, db') := run pg_step pg_demo_ops DB.empty in
  map (fun e => is_ok e.2) log = [true; true; true; false; true; true; false; true; true] /\
  exists mlog, run exec (map fst (answered log)) (abs DB.empty) = (mlog, abs db').
Proof.
  assert (Hlog : map (fun e => is_ok e.2) (run pg_step pg_demo_ops DB.empty).1 =
    [true; true; true; false; true; true; false; true; true]) by by vm_compute.
  pose proof (postgres_refines_store pg_demo_ops DB.empty db_ok_empty pg_demo_admissible) as H.
  destruct (run pg_step pg_demo_ops DB.empty) as [log db'].
  destruct H as (_ & mlog & H & _). split; [exact Hlog|]. by exists mlog.
Defined.

Definition pg_demo_db : DB.t := (run pg_step (firstn 1 pg_demo_ops) DB.empty).2.

Lemma pg_demo_db_ok : db_ok pg_demo_db.
Proof.
  pose proof (run_simulates (firstn 1 pg_demo_ops) DB.empty db_ok_empty
    ltac:(apply Forall_take, pg_demo_admissible)) as H.
  unfold pg_demo_db. destruct (run _ _ _). apply H.
Qed.

Lemma postgres_accepts_store_steps_witness :
  exists db', pg_exec (fun db => db) 0 (OpAcquire "t1" "w1" 10500 5500) pg_demo_db =
    (Ok (Some (Lease.mk "t1" "w1" 1 15000)), db') /\ db_ok db'.
Proof.
  destruct (postgres_accepts_store_steps 0 (OpAcquire "t1" "w1" 10500 5500) pg_demo_db
    (Some (Lease.mk "t1" "w1" 1 15000))
    (exec (durable (OpAcquire "t1" "w1" 10500 5500)) (abs pg_demo_db)).2 pg_demo_db_ok)
    as (db' & H & _ & Hok).
  - split; simpl; unfold Microsecond; [lia|done].
  - assert (Hr : exists r, DB.tasks pg_demo_db !! "t1" = Some r /\ TaskRow.created_at r = 5000 /\
      TaskRow.attempt_count r = 0 /\ TaskRow.fencing_token r = 0).
    { eexists. split; [by vm_compute|]. by repeat split. }
    destruct Hr as (r & Hr & Hc & Ha & Hf). split; [|split; [by vm_compute|split]].
    + intros r' now Hr' [= <-]. simpl in Hr'. rewrite Hr in Hr'. injection Hr' as <-.
      unfold room. rewrite Hc. by vm_compute.
    + split; [by vm_compute|]. by vm_compute.
    + intros r' Hr'. rewrite Hr in Hr'. injection Hr' as <-. rewrite Ha, Hf. done.
  - by vm_compute.
  - by exists db'.
Defined.
