(* ===== verification/Reconciliation.v ===== *)
(** * Reconciliation of expired evidence

    [internal/collector/reconciliation.go] and [reconciliation_runner.go]: a
    collector may crash after its evidence envelope was stored and before its
    task was committed.  Once the lease has expired, one guarded UPDATE accepts
    the envelope, provided the task still carries the envelope's tenant, task,
    fencing token and execution grant.

    The repository the runner works on is a type class, implemented here by the
    durable repository of [TaskPostgres]. *)
From S2P Require Import Prelude GoStrings Task Schema TaskPostgres.
Local Open Scope Z_scope.

(** ** The repository operations *)

(** The task still carries the envelope's bindings. *)
Definition bound (r : TaskRow.t) (e : EnvelopeRow.t) : bool :=
  (TaskRow.id r ==? EnvelopeRow.task_id e) && (TaskRow.tenant_id r ==? EnvelopeRow.tenant_id e) &&
  (TaskRow.fencing_token r =? EnvelopeRow.fencing_token e) &&
  col_eq (TaskRow.execution_grant_id r) (EnvelopeRow.execution_grant_id e).

(** The task is executing or committing under an expired lease with no
    accepted result. *)
Definition reconcilable (at_ : Z) (r : TaskRow.t) : bool :=
  ((TaskRow.state r ==? TaskExecuting) || (TaskRow.state r ==? TaskCommitting)) &&
  col_le (TaskRow.lease_expiry r) at_ &&
  is_null (TaskRow.accepted_attempt_id r) && is_null (TaskRow.accepted_evidence_id r).

(** [ORDER BY task.lease_expiry, evidence.recorded_at, evidence.evidence_id]. *)
Definition candidate_leb (a b : option Z * EnvelopeRow.t) : bool :=
  let expiry x := match fst x with Some e => e | None => 0 end in
  if expiry a =? expiry b then
    if EnvelopeRow.recorded_at a.2 =? EnvelopeRow.recorded_at b.2
    then str_leb (EnvelopeRow.evidence_id a.2) (EnvelopeRow.evidence_id b.2)
    else EnvelopeRow.recorded_at a.2 <? EnvelopeRow.recorded_at b.2
  else expiry a <? expiry b.

Definition candidate (at_ : Z) (db : DB.t) (x : string * EnvelopeRow.t) : option (option Z * EnvelopeRow.t) :=
  match DB.tasks db !! EnvelopeRow.task_id x.2 with
  | Some r => if bound r x.2 && reconcilable at_ r then Some (TaskRow.lease_expiry r, x.2) else None
  | None => None
  end.

Definition ListExpiredEvidenceCandidatesContext (expiredAt limit : Z) (db : DB.t) :
    result (list string) :=
  if IsZero expiredAt || (limit <=? 0) || (10000 <? limit) then
    Err (Text "collector task database, expiry time and bounded limit are required")
  else
    let found := omap (candidate (normaliseTime expiredAt) db) (map_to_list (DB.envelopes db)) in
    Ok (map (fun x => EnvelopeRow.evidence_id x.2)
         (firstn (Z.to_nat limit) (isort candidate_leb found))).

Definition classifyEvidenceReconciliation (evidenceID : string) (reconciledAt : Z) (db : DB.t) :
    result Task.t :=
  if negb (encodable evidenceID) then
    Err (Wrapf "classify evidence reconciliation: " invalid_text "")
  else match DB.envelopes db !! evidenceID with
  | None => Err ErrEvidenceNotFound
  | Some e =>
    match GetContext (EnvelopeRow.task_id e) db with
    | Err err => Err err
    | Ok task =>
      if (Task.TenantID task !=? EnvelopeRow.tenant_id e) ||
         negb (Task.FencingToken task =? EnvelopeRow.fencing_token e) ||
         (Task.ExecutionGrantID task !=? EnvelopeRow.execution_grant_id e) then Err ErrStaleFence
      else if (Task.AcceptedEvidenceID task ==? evidenceID) &&
              (Task.AcceptedAttemptID task ==? EnvelopeRow.accepted_attempt_id e) &&
              (Task.State task ==? TaskSucceeded) then Ok task
      else if (Task.AcceptedEvidenceID task !=? "") || (Task.AcceptedAttemptID task !=? "") then
        Err ErrDuplicateCommit
      else if Before reconciledAt (Task.LeaseExpiry task) then Err ErrLeaseHeld
      else Err (invalidState "cannot reconcile evidence in state" (Task.State task))
    end
  end.

Definition ReconcileExpiredEvidenceContext (env : DB.t -> DB.t) (evidenceID : string)
    (reconciledAt : Z) (db : DB.t) : result Task.t * DB.t :=
  if (evidenceID ==? "") || IsZero reconciledAt then
    (Err (Text "collector task database, evidence id and reconciliation time are required"), db)
  else
    let at_ := normaliseTime reconciledAt in
    let updated :=
      if negb (encodable evidenceID) then (Err invalid_text, db)
      else match DB.envelopes db !! evidenceID with
      | None => (Ok None, db)
      | Some e =>
        update_task [] (EnvelopeRow.task_id e)
          (fun r => bound r e && reconcilable at_ r)
          (fun r => r <| TaskRow.accepted_attempt_id := Some (EnvelopeRow.accepted_attempt_id e) |>
                      <| TaskRow.accepted_evidence_id := Some (EnvelopeRow.evidence_id e) |>
                      <| TaskRow.state := TaskSucceeded |>
                      <| TaskRow.updated_at := at_ |>) db
      end in
    match updated with
    | (Ok (Some row), db) => let db := env db in (GetContext (TaskRow.id row) db, db)
    | (Err e, db) => (Err (Wrapf "reconcile expired collector evidence: " e ""), db)
    | (Ok None, db) =>
      let db := env db in (classifyEvidenceReconciliation evidenceID reconciledAt db, db)
    end.

(** ** The runner *)
Module ReconciliationMetrics.
Record t := mk { candidates : Z; reconciled : Z; skipped : Z; failures : Z }.
#[global] Instance eta_t : Eta t := fun x => mk (candidates x) (reconciled x) (skipped x) (failures x).
(** [atomic.Uint64.Add]. *)
Definition zero : t := mk 0 0 0 0.
End ReconciliationMetrics.

(** [EvidenceReconciliationRepository]: what the runner needs. *)
Class EvidenceReconciliationRepository (St : Type) := {
  list_candidates : Z -> Z -> St -> result (list string);
  reconcile : string -> Z -> St -> result Task.t * St }.

#[global] Instance postgres_reconciliation : EvidenceReconciliationRepository DB.t := {|
  list_candidates := ListExpiredEvidenceCandidatesContext;
  reconcile := ReconcileExpiredEvidenceContext (fun db => db) |}.

Module ReconciliationRunner.
Record t := mk { BatchSize : Z; PollInterval : Z; FailureDelay : Z }.
End ReconciliationRunner.

Section Runner.
Context {St : Type} `{EvidenceReconciliationRepository St}.
Variable r : ReconciliationRunner.t.

Definition validate : option error :=
  if (ReconciliationRunner.BatchSize r <=? 0) || (10000 <? ReconciliationRunner.BatchSize r) ||
     (ReconciliationRunner.PollInterval r <=? 0) || (ReconciliationRunner.FailureDelay r <=? 0)
  then Some (Text "reconciliation repository, bounds, intervals and clock are required") else None.

Definition recordFailure (m : ReconciliationMetrics.t) : ReconciliationMetrics.t :=
  m <| ReconciliationMetrics.failures := uint64 (ReconciliationMetrics.failures m + 1) |>.

(** The errors that mean another actor was faster. *)
Definition skippable (e : error) : bool :=
  errors_Is e ErrStaleFence || errors_Is e ErrLeaseHeld ||
  errors_Is e ErrDuplicateCommit || errors_Is e ErrInvalidState.

(** The loop over the candidates: the accumulated error, the metrics and the
    repository. *)
Fixpoint reconcile_all (ids : list string) (reconciledAt : Z) (acc : option error)
    (m : ReconciliationMetrics.t) (st : St) : option error * ReconciliationMetrics.t * St :=
  match ids with
  | [] => (acc, m, st)
  | evidenceID :: rest =>
    match reconcile evidenceID reconciledAt st with
    | (Err e, st) =>
      if skippable e then
        reconcile_all rest reconciledAt acc
          (m <| ReconciliationMetrics.skipped := uint64 (ReconciliationMetrics.skipped m + 1) |>) st
      else
        reconcile_all rest reconciledAt
          (errors_Join acc (Some (Wrapf ("reconcile evidence " +:+ quote evidenceID +:+ ": ") e "")))
          (recordFailure m) st
    | (Ok _, st) =>
      reconcile_all rest reconciledAt acc
        (m <| ReconciliationMetrics.reconciled := uint64 (ReconciliationMetrics.reconciled m + 1) |>) st
    end
  end.

(** One pass: the number of candidates, the error, the metrics and the
    repository afterwards.  [now] is the clock reading. *)
Definition RunOnce (now : Z) (m : ReconciliationMetrics.t) (st : St) :
    Z * option error * ReconciliationMetrics.t * St :=
  match validate with
  | Some e => (0, Some e, m, st)
  | None =>
    match list_candidates now (ReconciliationRunner.BatchSize r) st with
    | Err e => (0, Some e, recordFailure m, st)
    | Ok ids =>
      let n := Z.of_nat (List.length ids) in
      let m := if 0 <? n then
        m <| ReconciliationMetrics.candidates := uint64 (ReconciliationMetrics.candidates m + n) |>
        else m in
      let '(err, m, st) := reconcile_all ids now None m st in
      (n, err, m, st)
    end
  end.

(** What the loop does after a pass: stop, go on at once, or wait. *)
Inductive Next := Stop | Continue | Wait (delay : Z).
Definition after_pass (count : Z) (err : option error) (cancelled : bool) : Next :=
  if cancelled then Stop
  else match err with
  | None => if count =? ReconciliationRunner.BatchSize r then Continue
            else Wait (ReconciliationRunner.PollInterval r)
  | Some _ => Wait (ReconciliationRunner.FailureDelay r)
  end.

(** [Run] against a schedule: for each pass, the clock and whether the context
    is cancelled when the pass returns or during the wait after it.  The
    schedule ends when the context is cancelled between passes. *)
Fixpoint Run_loop (polls : list (Z * bool * bool)) (m : ReconciliationMetrics.t) (st : St) :
    list Next * ReconciliationMetrics.t * St :=
  match polls with
  | [] => ([], m, st)
  | (now, cancelled, cancelled_waiting) :: rest =>
    let '(count, err, m, st) := RunOnce now m st in
    let next := after_pass count err cancelled in
    let stop := match next with Stop => true | Continue => false | Wait _ => cancelled_waiting end in
    if stop then ([next], m, st)
    else let '(log, m, st) := Run_loop rest m st in (next :: log, m, st)
  end.
Definition Run (polls : list (Z * bool * bool)) (m : ReconciliationMetrics.t) (st : St) :
    result (list Next) * ReconciliationMetrics.t * St :=
  match validate with
  | Some e => (Err e, m, st)
  | None => let '(log, m, st) := Run_loop polls m st in (Ok log, m, st)
  end.
End Runner.

(** ** Invariants of the two tables *)

(** Envelopes are keyed by their identifier, and an accepted result names an
    envelope of the same tenant and task. *)
Definition evidence_ok (db : DB.t) : Prop :=
  map_Forall (fun k e => EnvelopeRow.evidence_id e = k) (DB.envelopes db) /\
  map_Forall (fun _ r => accepted_evidence_exists db r = true) (DB.tasks db).

Lemma evidence_ok_put db old row :
  evidence_ok db -> task_row_error db old row = None ->
  (forall r, old = Some r -> DB.tasks db !! TaskRow.id row = Some r /\
     TaskRow.id row = TaskRow.id r /\ TaskRow.tenant_id row = TaskRow.tenant_id r) ->
  evidence_ok (put_task row db).
Proof.
  intros [Hk He] Herr Hold. split; [done|]. unfold put_task. simpl.
  apply map_Forall_insert_2; [|done]. change (accepted_evidence_exists db row = true).
  unfold task_row_error in Herr. repeat case_match; try done.
  match goal with H : _ && _ = false |- _ => apply andb_false_iff in H as [Hsame|Hex] end.
  - apply negb_false_iff, bool_decide_eq_true in Hsame. destruct old as [r|]; simpl in Hsame.
    + destruct (Hold r eq_refl) as (Hr & Hid & Ht). specialize (He _ _ Hr). simpl in He.
      unfold accepted_evidence_exists in *. by rewrite <- Hsame, Hid, Ht.
    + unfold accepted_evidence_exists. by rewrite <- Hsame.
  - by apply negb_false_iff in Hex.
Qed.

(** A property of the database that single-row writes preserve is preserved by
    every operation of the durable repository. *)
Lemma pg_exec_preserves (P : DB.t -> Prop) ts op db :
  db_ok db -> P db ->
  (forall row, task_row_error db None row = None -> DB.tasks db !! TaskRow.id row = None ->
     P (put_task row db)) ->
  (forall r row, DB.tasks db !! TaskRow.id row = Some r -> task_row_error db (Some r) row = None ->
     TaskRow.id row = TaskRow.id r -> TaskRow.tenant_id row = TaskRow.tenant_id r ->
     P (put_task row db)) ->
  P (pg_exec (fun db => db) ts op db).2.
Proof.
  intros Hdb Hp Hins Hupd.
  assert (Hu : forall params id where_ set,
    (forall r, TaskRow.id (set r) = TaskRow.id r /\ TaskRow.tenant_id (set r) = TaskRow.tenant_id r) ->
    P (update_task params id where_ set db).2).
  { intros params id where_ set Hset. pose proof (update_task_spec params id where_ set db) as H.
    destruct (update_task params id where_ set db) as [[[r'|]|e] db']; simpl in *; [|by destruct H as (-> & _)..|by destruct H as (_ & ->)].
    destruct H as (r & Hr & _ & _ & -> & -> & Herr). destruct (Hset r) as [Hid Ht].
    pose proof (Hdb _ _ Hr) as (Hkey & _). apply (Hupd r); try done. by rewrite Hid, Hkey. }
  destruct op; cbn [pg_exec]; unfold reply; cbn [snd];
    unfold AcquireContext, RenewContext, StartExecutionContext, BeginCommitContext,
      transitionOwned, RecordExecutionAuthorityContext, CommitContext, RetryContext, requireChanged.
  { unfold AddContext. destruct (validateDurableTask task); [done|]. cbv zeta.
    destruct (negb _); [done|].
    match goal with |- context [insert_task ?p ?r db] =>
      pose proof (insert_task_spec p r db) as Hi; destruct (insert_task p r db) as [[u|e] db'] end; simpl.
    - destruct Hi as (Hn & -> & Herr). by apply Hins.
    - by destruct Hi as (_ & ->). }
  all: repeat match goal with
    | Hu : forall _ _ _ _, _ |- context [update_task ?p ?i ?w ?s ?d] =>
      specialize (Hu p i w s); destruct (update_task p i w s d) as [[[]|] ?]; simpl in Hu; simpl
    | |- _ => case_match; simpl
    end; try done.
  all: match goal with Hu : _ -> ?G |- ?G => apply Hu; by intros end.
Qed.

(** ** The reconciling UPDATE *)
Lemma reconcile_cases ev at_ db :
  db_ok db ->
  match ReconcileExpiredEvidenceContext (fun db => db) ev at_ db with
  | (Err _, db') => db' = db
  | (Ok t, db') =>
    exists e, DB.envelopes db !! ev = Some e /\
    ((db' = db /\ abs db !! EnvelopeRow.task_id e = Some t /\ Task.State t = TaskSucceeded /\
      Task.AcceptedAttemptID t = EnvelopeRow.accepted_attempt_id e /\ Task.AcceptedEvidenceID t = ev /\
      Task.TenantID t = EnvelopeRow.tenant_id e /\ Task.FencingToken t = EnvelopeRow.fencing_token e /\
      Task.ExecutionGrantID t = EnvelopeRow.execution_grant_id e) \/
     exists r, let r' := r <| TaskRow.accepted_attempt_id := Some (EnvelopeRow.accepted_attempt_id e) |>
                      <| TaskRow.accepted_evidence_id := Some (EnvelopeRow.evidence_id e) |>
                      <| TaskRow.state := TaskSucceeded |>
                      <| TaskRow.updated_at := normaliseTime at_ |> in
       DB.tasks db !! EnvelopeRow.task_id e = Some r /\ bound r e = true /\
       reconcilable (normaliseTime at_) r = true /\ t = scanTask r' /\ db' = put_task r' db /\
       task_row_error db (Some r) r' = None)
  end.
Proof.
  intros Hdb. unfold ReconcileExpiredEvidenceContext. destruct (_ || _) eqn:Hv; [done|].
  destruct (encodable ev) eqn:Henc; simpl; [|done].
  destruct (DB.envelopes db !! ev) as [e|] eqn:He.
  2: { unfold classifyEvidenceReconciliation. by rewrite Henc, He. }
  after_update; simpl.
  - destruct Hu as (r & Hr & Hw & Hid & -> & -> & Herr). apply andb_true_iff in Hw as [Hb Hrec].
    pose proof (Hdb _ _ Hr) as Hrow. pose proof Hrow as (Hkey & _).
    rewrite GetContext_abs by (simpl; rewrite Hkey; by eauto using row_key_nonempty).
    rewrite abs_put_task. simpl. rewrite Hkey. unfold taskLocked. rewrite lookup_insert_eq.
    exists e. split; [done|]. right. exists r. done.
  - destruct Hu as (-> & Hid & Hno). unfold classifyEvidenceReconciliation. rewrite Henc, He. simpl.
    destruct (decide (EnvelopeRow.task_id e = "")) as [->|Hne]; [done|].
    rewrite GetContext_abs by done. destruct (taskLocked (abs db) (EnvelopeRow.task_id e)) as [t|] eqn:Ht; [|done].
    apply taskLocked_ok in Ht.
    destruct ((_ !=? EnvelopeRow.tenant_id e) || _ || _) eqn:Hstale; [done|].
    destruct ((Task.AcceptedEvidenceID t ==? ev) && _ && _) eqn:Hsame; [|by repeat case_match].
    exists e. split; [done|]. left. reflect_bools. naive_solver.
  - by destruct Hu as (_ & ->).
Qed.

(** ** Actions: the durable operations and reconciliation *)
Inductive Action : Type :=
| ATask (current_timestamp : Z) (op : Op)
| AReconcile (evidenceID : string) (reconciledAt : Z).

Inductive Answer : Type := AReply (r : Reply) | ATaskRead (t : Task.t).

Definition act (a : Action) (db : DB.t) : result Answer * DB.t :=
  match a with
  | ATask ts op =>
    let '(r, db') := pg_exec (fun db => db) ts op db in
    (match r with Ok x => Ok (AReply x) | Err e => Err e end, db')
  | AReconcile ev at_ =>
    let '(r, db') := ReconcileExpiredEvidenceContext (fun db => db) ev at_ db in
    (match r with Ok t => Ok (ATaskRead t) | Err e => Err e end, db')
  end.

Definition admissible_action (a : Action) : Prop :=
  match a with ATask _ op => admissible op | AReconcile _ _ => True end.

Lemma act_ok a db :
  admissible_action a -> db_ok db -> evidence_ok db ->
  db_ok (act a db).2 /\ evidence_ok (act a db).2.
Proof.
  intros Ha Hdb Hev. destruct a as [ts op|ev at_]; simpl.
  - destruct (pg_exec_simulates ts op db Hdb Ha) as [Hdb' _].
    assert (Hev' : evidence_ok (pg_exec (fun db => db) ts op db).2).
    { apply pg_exec_preserves; try done.
      - intros row Herr _. by eapply evidence_ok_put.
      - intros r row Hr Herr Hid Ht. eapply evidence_ok_put; [done..|]. by intros ? [= <-]. }
    by destruct (pg_exec (fun db => db) ts op db).
  - pose proof (reconcile_cases ev at_ db Hdb) as Hc.
    destruct (ReconcileExpiredEvidenceContext _ ev at_ db) as [[t|e] db']; simpl; [|by subst].
    destruct Hc as (e & He & [(-> & _)|(r & Hr & Hb & Hrec & -> & -> & Herr)]); [done|].
    pose proof (Hdb _ _ Hr) as (Hkey & _ & _ & Halign & _). split.
    + apply db_ok_put; [done|]. by eapply row_ok_set.
    + eapply evidence_ok_put; [done..|]. intros ? [= <-]. simpl. by rewrite Hkey.
Qed.

(** A succeeded task is never written again. *)
Lemma act_succeeded a db id t :
  admissible_action a -> db_ok db -> abs db !! id = Some t -> Task.State t = TaskSucceeded ->
  abs (act a db).2 !! id = Some t.
Proof.
  intros Ha Hdb Ht Hs. destruct a as [ts op|ev at_]; simpl.
  - destruct (pg_exec_simulates ts op db Hdb Ha) as [_ Hsim].
    destruct (pg_exec (fun db => db) ts op db) as [r db']. simpl in *.
    destruct Hsim as [[_ ->]|[_ ->]]; [done|].
    exec_step (durable op) (abs db); [|done].
    destruct (decide (op_id (durable op) = id)) as [E|Hne]; [|by rewrite lookup_insert_ne].
    rewrite E, Ht in Hc. by apply change_not_succeeded in Hc.
  - pose proof (reconcile_cases ev at_ db Hdb) as Hc.
    destruct (ReconcileExpiredEvidenceContext _ ev at_ db) as [[t'|e] db']; simpl; [|by subst].
    destruct Hc as (e & He & [(-> & _)|(r & Hr & Hb & Hrec & -> & -> & Herr)]); [done|].
    rewrite abs_put_task. simpl. pose proof (Hdb _ _ Hr) as (Hkey & _). rewrite Hkey.
    destruct (decide (EnvelopeRow.task_id e = id)) as [<-|Hne]; [|by rewrite lookup_insert_ne].
    rewrite abs_lookup, Hr in Ht. simpl in Ht. injection Ht as <-. simpl in Hs.
    unfold reconcilable in Hrec. by rewrite Hs in Hrec.
Qed.

Lemma run_act_ok actions db :
  Forall admissible_action actions -> db_ok db -> evidence_ok db ->
  db_ok (run act actions db).2 /\ evidence_ok (run act actions db).2.
Proof.
  intros Ha Hdb Hev.
  apply (run_invariant act admissible_action (fun db => db_ok db /\ evidence_ok db)); [|done..].
  intros a db1 Hadm [? ?]. by apply act_ok.
Qed.

(** Nothing is accepted for a task that already has a result, except the
    replay of the reconciliation that gave it. *)
Definition accepts_nothing_new (id : string) (t : Task.t) (envelopes : gmap string EnvelopeRow.t)
    (e : Action * result Answer) : Prop :=
  match e with
  | (ATask _ (OpCommit i _ _ _ _ _), r) => i = id -> is_ok r = false
  | (AReconcile ev _, Ok (ATaskRead t')) =>
    forall env, envelopes !! ev = Some env -> EnvelopeRow.task_id env = id -> t' = t
  | _ => True
  end.

Lemma act_envelopes a db : db_ok db -> DB.envelopes (act a db).2 = DB.envelopes db.
Proof.
  intros Hdb. destruct a as [ts op|ev at_]; simpl.
  - assert (H : DB.envelopes (pg_exec (fun db => db) ts op db).2 = DB.envelopes db)
      by (by apply pg_exec_preserves).
    by destruct (pg_exec (fun db => db) ts op db).
  - pose proof (reconcile_cases ev at_ db Hdb) as Hc.
    destruct (ReconcileExpiredEvidenceContext _ ev at_ db) as [[t'|e] db']; simpl; [|by subst].
    by destruct Hc as (e & He & [(-> & _)|(r & _ & _ & _ & _ & -> & _)]).
Qed.

Lemma act_accepts_nothing_new a db id t :
  admissible_action a -> db_ok db -> abs db !! id = Some t -> Task.State t = TaskSucceeded ->
  accepts_nothing_new id t (DB.envelopes db) (a, (act a db).1).
Proof.
  intros Ha Hdb Ht Hs. destruct a as [ts op|ev at_]; simpl.
  - destruct (pg_exec_simulates ts op db Hdb Ha) as [_ Hsim].
    destruct op as [| | | | | |i owner k att ev now|]; try done. intros ->.
    destruct (pg_exec _ ts _ db) as [r db']. cbn [fst snd durable] in *.
    destruct r as [r|e]; [|done]. exfalso. destruct Hsim as [[[] _]|[Hsame _]].
    pose proof (exec_sound (OpCommit id owner k att ev now) (abs db)) as Hx.
    destruct (exec _ (abs db)) as [[m|f] s1]; [|done].
    destruct Hx as (t' & Hc & _). simpl in Hc. rewrite Ht in Hc. by apply change_not_succeeded in Hc.
  - pose proof (reconcile_cases ev at_ db Hdb) as Hc.
    destruct (ReconcileExpiredEvidenceContext _ ev at_ db) as [[t'|e] db']; simpl; [|done].
    intros env Henv <-. destruct Hc as (e & He & Hc). rewrite Henv in He. injection He as <-.
    destruct Hc as [(_ & Ht' & _)|(r & Hr & Hb & Hrec & _)]; [congruence|].
    exfalso. rewrite abs_lookup, Hr in Ht. simpl in Ht. injection Ht as <-. simpl in Hs.
    unfold reconcilable in Hrec. by rewrite Hs in Hrec.
Qed.

Definition final_inv (id : string) (t : Task.t) (envelopes : gmap string EnvelopeRow.t)
    (log : list (Action * result Answer)) (db : DB.t) : Prop :=
  db_ok db /\ evidence_ok db /\ DB.envelopes db = envelopes /\ abs db !! id = Some t /\
  Forall (accepts_nothing_new id t envelopes) log.

Lemma final_step id t envelopes log a db :
  Task.State t = TaskSucceeded -> admissible_action a -> final_inv id t envelopes log db ->
  final_inv id t envelopes (log ++ [(a, (act a db).1)]) (act a db).2.
Proof.
  intros Hs Ha (Hdb & Hev & <- & Ht & Hlog). destruct (act_ok a db Ha Hdb Hev) as [? ?].
  split; [done|]. split; [done|]. split; [by apply act_envelopes|].
  split; [by apply act_succeeded|].
  apply Forall_app. split; [done|]. constructor; [|constructor]. by apply act_accepts_nothing_new.
Qed.

(** The candidates that became results, that were left to others and that
    failed. *)
Lemma reconcile_all_accounts {St} `{EvidenceReconciliationRepository St} ids at_ acc m st :
  exists a b c, 0 <= a /\ 0 <= b /\ 0 <= c /\ a + b + c = Z.of_nat (List.length ids) /\
  let '(err, m', _) := reconcile_all ids at_ acc m st in
  uint64 (ReconciliationMetrics.reconciled m') = uint64 (ReconciliationMetrics.reconciled m + a) /\
  uint64 (ReconciliationMetrics.skipped m') = uint64 (ReconciliationMetrics.skipped m + b) /\
  uint64 (ReconciliationMetrics.failures m') = uint64 (ReconciliationMetrics.failures m + c) /\
  ReconciliationMetrics.candidates m' = ReconciliationMetrics.candidates m /\
  (err = None <-> acc = None /\ c = 0).
Proof.
  assert (Hw : forall z k, uint64 (uint64 (z + 1) + k) = uint64 (z + (k + 1))).
  { intros z k. unfold uint64. rewrite Zplus_mod_idemp_l. f_equal. lia. }
  revert acc m st. induction ids as [|ev ids IH]; intros acc m st; cbn [reconcile_all List.length].
  { exists 0, 0, 0. rewrite !Z.add_0_r. naive_solver. }
  destruct (reconcile ev at_ st) as [[t|e] st1]; [|destruct (skippable e)].
  - destruct (IH acc (m <| ReconciliationMetrics.reconciled := uint64 (ReconciliationMetrics.reconciled m + 1) |>) st1)
      as (a & b & c & ? & ? & ? & Hn & HI). exists (a + 1), b, c. do 4 (split; [lia|]).
    destruct (reconcile_all _ _ _ _ _) as [[err m'] st2]. simpl in HI. by rewrite Hw in HI.
  - destruct (IH acc (m <| ReconciliationMetrics.skipped := uint64 (ReconciliationMetrics.skipped m + 1) |>) st1)
      as (a & b & c & ? & ? & ? & Hn & HI). exists a, (b + 1), c. do 4 (split; [lia|]).
    destruct (reconcile_all _ _ _ _ _) as [[err m'] st2]. simpl in HI. by rewrite Hw in HI.
  - match goal with |- context [reconcile_all ids at_ ?a ?m ?s] => destruct (IH a m s)
      as (a' & b & c & ? & ? & ? & Hn & HI) end. exists a', b, (c + 1). do 4 (split; [lia|]).
    destruct (reconcile_all _ _ _ _ _) as [[err m'] st2]. simpl in HI. rewrite Hw in HI.
    destruct HI as (? & ? & ? & ? & Herr). do 4 (split; [done|]). rewrite Herr.
    destruct acc; simpl; split; intros [? ?]; try done; lia.
Qed.

(** ** Properties *)

(** C9.  Reconciliation accepts an envelope only for the task it is bound to
    and only after that task's lease has expired.  On success the task carries
    the envelope's tenant, fencing token, grant, attempt and evidence; it was
    executing or committing with an expired lease and no result, or it already
    had exactly this result; no other task and no other table is touched.  A
    reconciliation that fails writes nothing at all. *)
Theorem reconcile_sound ev at_ db (Hdb : db_ok db) (Hev : evidence_ok db) :
  match ReconcileExpiredEvidenceContext (fun db => db) ev at_ db with
  | (Err _, db') => db' = db
  | (Ok t, db') =>
    exists e, DB.envelopes db !! ev = Some e /\
      Task.TenantID t = EnvelopeRow.tenant_id e /\
      Task.FencingToken t = EnvelopeRow.fencing_token e /\
      Task.ExecutionGrantID t = EnvelopeRow.execution_grant_id e /\
      Task.State t = TaskSucceeded /\
      Task.AcceptedAttemptID t = EnvelopeRow.accepted_attempt_id e /\ Task.AcceptedEvidenceID t = ev /\
      abs db' = <[EnvelopeRow.task_id e := t]> (abs db) /\
      db' = db <| DB.tasks := DB.tasks db' |> /\
      ((db' = db /\ abs db !! EnvelopeRow.task_id e = Some t) \/
       exists t0, abs db !! EnvelopeRow.task_id e = Some t0 /\
         (Task.State t0 = TaskExecuting \/ Task.State t0 = TaskCommitting) /\
         Task.TenantID t0 = EnvelopeRow.tenant_id e /\
         Task.FencingToken t0 = EnvelopeRow.fencing_token e /\
         Task.ExecutionGrantID t0 = EnvelopeRow.execution_grant_id e /\
         Task.LeaseExpiry t0 <= at_ /\ Task.AcceptedAttemptID t0 = "" /\ Task.AcceptedEvidenceID t0 = "")
  end.
Proof.
  pose proof (reconcile_cases ev at_ db Hdb) as Hc.
  destruct (ReconcileExpiredEvidenceContext _ ev at_ db) as [[t|err] db']; [|exact Hc].
  destruct Hc as (e & He & Hc). exists e. split; [done|].
  destruct Hc as [(-> & Ht & ? & ? & ? & ? & ? & ?)|(r & Hr & Hb & Hre & -> & -> & _)].
  { do 6 (split; [done|]). split; [by rewrite insert_id|]. split; [by destruct db|]. by left. }
  pose proof (Hdb _ _ Hr) as (Hkey & _). unfold bound, col_eq in Hb. unfold reconcilable in Hre.
  reflect_bools. destruct Hb as [[[Hb1 Hb2] Hb3] Hb4]. destruct Hre as [[[Hs Hexp] Hn] Hn'].
  simpl. rewrite Hb4. do 5 (split; [done|]). split; [by apply Hev|].
  split; [by rewrite abs_put_task; simpl; rewrite Hkey|]. split; [done|]. right. exists (scanTask r).
  rewrite abs_lookup, Hr. split; [done|]. simpl. rewrite Hb4. do 4 (split; [done|]).
  destruct (TaskRow.accepted_attempt_id r), (TaskRow.accepted_evidence_id r); try done. split; [|done].
  unfold col_le in Hexp. destruct (TaskRow.lease_expiry r) as [x|]; [|done]. apply Z.leb_le in Hexp.
  pose proof (Truncate_le at_ Microsecond ltac:(done)). unfold normaliseTime in *. lia.
Qed.

(** C10.  An accepted result is final in the database: from any state that
    satisfies the constraints, through any sequence of durable operations and
    reconciliations, a succeeded task keeps every decoded field, no further
    commit for it succeeds, a reconciliation that succeeds for it only reports
    it, and the evidence it names exists for its tenant and task. *)
Theorem durable_acceptance_final actions db id t
    (Hadm : Forall admissible_action actions) (Hdb : db_ok db) (Hev : evidence_ok db)
    (Ht : abs db !! id = Some t) (Hs : Task.State t = TaskSucceeded) :
  let '(log, db') := run act actions db in
  abs db' !! id = Some t /\
  Forall (accepts_nothing_new id t (DB.envelopes db)) log /\
  exists e, DB.envelopes db' !! Task.AcceptedEvidenceID t = Some e /\
    EnvelopeRow.tenant_id e = Task.TenantID t /\ EnvelopeRow.task_id e = id.
Proof.
  pose proof (run_log_invariant act admissible_action (final_inv id t (DB.envelopes db))
    (fun log a db Ha => final_step id t _ log a db Hs Ha) actions db Hadm) as H.
  destruct (run act actions db) as [log db']. cbn [fst snd] in H.
  destruct H as (Hdb' & Hev' & _ & Ht' & Hlog); [do 4 (split; [done|]); constructor|]. split; [done|]. split; [done|].
  rewrite abs_lookup in Ht'. destruct (DB.tasks db' !! id) as [r|] eqn:Hr; [|done].
  simpl in Ht'. injection Ht' as <-. pose proof (Hdb' _ _ Hr) as (Hkey & Hc & _).
  destruct Hev' as [_ Hex]. specialize (Hex _ _ Hr). unfold accepted_evidence_exists in Hex.
  apply check_spec in Hc as (_ & _ & _ & _ & _ & Hsucc & Hpair & _). simpl in Hs.
  destruct (TaskRow.accepted_evidence_id r) as [ev|] eqn:Eev; [|naive_solver].
  simpl. rewrite Eev. simpl. destruct (DB.envelopes db' !! ev) as [e|]; [|done].
  exists e. reflect_bools. destruct Hex as [-> ->]. done.
Qed.

(** A pass of the runner accounts for every candidate: each one is
    counted exactly once as reconciled, skipped or failed, the candidate counter
    grows by their number, and the pass reports an error exactly when some
    candidate failed. *)
Theorem run_once_accounts {St} `{EvidenceReconciliationRepository St} r now m st ids
    (Hvalid : validate r = None)
    (Hlist : list_candidates now (ReconciliationRunner.BatchSize r) st = Ok ids) :
  exists a b c, 0 <= a /\ 0 <= b /\ 0 <= c /\ a + b + c = Z.of_nat (List.length ids) /\
  let '(n, err, m', _) := RunOnce r now m st in
  n = Z.of_nat (List.length ids) /\
  uint64 (ReconciliationMetrics.candidates m') = uint64 (ReconciliationMetrics.candidates m + n) /\
  uint64 (ReconciliationMetrics.reconciled m') = uint64 (ReconciliationMetrics.reconciled m + a) /\
  uint64 (ReconciliationMetrics.skipped m') = uint64 (ReconciliationMetrics.skipped m + b) /\
  uint64 (ReconciliationMetrics.failures m') = uint64 (ReconciliationMetrics.failures m + c) /\
  (err = None <-> c = 0).
Proof.
  unfold RunOnce. rewrite Hvalid, Hlist. set (n := Z.of_nat (List.length ids)).
  set (m1 := if 0 <? n then _ else _).
  destruct (reconcile_all_accounts ids now None m1 st) as (a & b & c & Ha & Hb & Hc & Hn & HI).
  exists a, b, c. do 4 (split; [done|]).
  destruct (reconcile_all ids now None m1 st) as [[err m'] st']. split; [done|].
  assert (Hm1 : ReconciliationMetrics.reconciled m1 = ReconciliationMetrics.reconciled m /\
    ReconciliationMetrics.skipped m1 = ReconciliationMetrics.skipped m /\
    ReconciliationMetrics.failures m1 = ReconciliationMetrics.failures m /\
    uint64 (ReconciliationMetrics.candidates m1) = uint64 (ReconciliationMetrics.candidates m + n)).
  { unfold m1. destruct (0 <? n) eqn:E; simpl; repeat split.
    - unfold uint64. by rewrite Zmod_mod.
    - f_equal. apply Z.ltb_ge in E. lia. }
  destruct Hm1 as (H1 & H2 & H3 & H4), HI as (HI1 & HI2 & HI3 & HI4 & HI5).
  rewrite H1 in HI1. rewrite H2 in HI2. rewrite H3 in HI3. rewrite HI4, H4. naive_solver.
Qed.

(** ** Witnesses *)
Definition demo_envelope : EnvelopeRow.t :=
  EnvelopeRow.mk "e2" "tenant" "t1" "a2" 2 "r1" "recipe" 20000 90000 "{}"
    "0000000000000000000000000000000000000000000000000000000000000000" 22000 "g1".

(** The second collector of [pg_demo_ops] stored its evidence and crashed while
    committing; its lease expires at 29000. *)
Definition rec_demo_db : DB.t :=
  (run pg_step pg_demo_ops DB.empty).2 <| DB.envelopes := {["e2" := demo_envelope]} |>.

Lemma db_ok_envelopes db envelopes : db_ok db -> db_ok (db <| DB.envelopes := envelopes |>).
Proof. done. Qed.

Lemma rec_demo_db_ok : db_ok rec_demo_db.
Proof.
  apply db_ok_envelopes.
  pose proof (run_simulates pg_demo_ops DB.empty db_ok_empty pg_demo_admissible) as H.
  destruct (run _ _ _). apply H.
Qed.

Lemma rec_demo_evidence_ok : evidence_ok rec_demo_db.
Proof.
  split; [by apply map_Forall_singleton|]. apply (bool_decide_eq_true_1 _). by vm_compute.
Qed.

Definition rec_demo_task : Task.t :=
  match (ReconcileExpiredEvidenceContext (fun db => db) "e2" 30000 rec_demo_db).1 with
  | Ok t => t | Err _ => demo_task end.

(** Two nanoseconds into the last microsecond of the lease nothing is written;
    once it has expired the evidence is accepted, for the row as the theorem
    says. *)
Lemma reconcile_sound_witness :
  (ReconcileExpiredEvidenceContext (fun db => db) "e2" 28002 rec_demo_db).1 = Err ErrLeaseHeld /\
  (ReconcileExpiredEvidenceContext (fun db => db) "e2" 28002 rec_demo_db).2 = rec_demo_db /\
  (ReconcileExpiredEvidenceContext (fun db => db) "e2" 30000 rec_demo_db).1 = Ok rec_demo_task /\
  Task.State rec_demo_task = TaskSucceeded /\ Task.AcceptedAttemptID rec_demo_task = "a2".
Proof.
  pose proof (reconcile_sound "e2" 28002 rec_demo_db rec_demo_db_ok rec_demo_evidence_ok) as Hearly.
  pose proof (reconcile_sound "e2" 30000 rec_demo_db rec_demo_db_ok rec_demo_evidence_ok) as Hlate.
  assert (E1 : (ReconcileExpiredEvidenceContext (fun db => db) "e2" 28002 rec_demo_db).1 = Err ErrLeaseHeld) by by vm_compute.
  assert (E2 : (ReconcileExpiredEvidenceContext (fun db => db) "e2" 30000 rec_demo_db).1 = Ok rec_demo_task) by by vm_compute.
  destruct (ReconcileExpiredEvidenceContext _ "e2" 28002 rec_demo_db) as [r1 db1]. cbn [fst snd] in *. subst r1.
  destruct (ReconcileExpiredEvidenceContext _ "e2" 30000 rec_demo_db) as [r2 db2]. cbn [fst snd] in *. subst r2.
  split; [done|]. split; [exact Hearly|]. split; [done|].
  destruct Hlate as (e & He & _ & _ & _ & Hs & Ha & _). split; [exact Hs|]. rewrite Ha.
  assert (E : DB.envelopes rec_demo_db !! "e2" = Some demo_envelope) by by vm_compute.
  rewrite E in He. by injection He as <-.
Defined.

Definition rec_done_db : DB.t :=
  (ReconcileExpiredEvidenceContext (fun db => db) "e2" 30000 rec_demo_db).2.

Lemma rec_done_ok : db_ok rec_done_db /\ evidence_ok rec_done_db.
Proof.
  pose proof (act_ok (AReconcile "e2" 30000) rec_demo_db I rec_demo_db_ok rec_demo_evidence_ok) as H.
  unfold rec_done_db. simpl in H. by destruct (ReconcileExpiredEvidenceContext _ _ _ _).
Qed.

Lemma durable_acceptance_final_witness :
  abs (run act [ATask 0 (OpAcquire "t1" "w3" 40000 9000); ATask 0 (OpCommit "t1" "w2" 2 "a9" "e9" 41000);
                AReconcile "e2" 50000] rec_done_db).2 !! "t1" = Some rec_demo_task.
Proof.
  pose proof (durable_acceptance_final [ATask 0 (OpAcquire "t1" "w3" 40000 9000);
    ATask 0 (OpCommit "t1" "w2" 2 "a9" "e9" 41000); AReconcile "e2" 50000] rec_done_db "t1" rec_demo_task
    ltac:(repeat constructor; simpl; unfold Microsecond; auto; lia)
    (proj1 rec_done_ok) (proj2 rec_done_ok) ltac:(by vm_compute) ltac:(by vm_compute)) as H.
  destruct (run act _ rec_done_db) as [log db']. apply H.
Defined.

Definition demo_runner : ReconciliationRunner.t := ReconciliationRunner.mk 100 1000000 1000000.

Lemma run_once_accounts_witness :
  exists a b c, 0 <= a /\ 0 <= b /\ 0 <= c /\ a + b + c = 1 /\
  (RunOnce demo_runner 30000 ReconciliationMetrics.zero rec_demo_db).1.1.1 = 1.
Proof.
  destruct (run_once_accounts demo_runner 30000 ReconciliationMetrics.zero rec_demo_db ["e2"]
    ltac:(by vm_compute) ltac:(by vm_compute)) as (a & b & c & Ha & Hb & Hc & Hn & H).
  exists a, b, c. do 4 (split; [done|]).
  destruct (RunOnce demo_runner 30000 ReconciliationMetrics.zero rec_demo_db) as [[[n err] m'] st'].
  apply H.
Defined.
