(* ===== verification/Outbox.v ===== *)
(** * The transactional outbox

    [internal/outbox]: events written with workflow state, the PostgreSQL store
    that leases them to dispatchers, the dispatcher and its runner.

    The store's four statements are modelled on the outbox table.  [SKIP LOCKED]
    passes over rows other sessions have locked ([locked]); the rows an UPDATE
    returns come in no particular order ([returning], any permutation).  The
    dispatcher is generic in the store, a type class, and in the publisher. *)
From S2P Require Import Prelude GoStrings Task Schema.
Local Open Scope Z_scope.

(** ** Events *)
Module Event.
Record t := mk {
  ID : string; TenantID : string; AggregateType : string; AggregateID : string;
  Type_ : string; Payload : string; OccurredAt : Z }.
#[global] Instance eta_t : Eta t := fun x =>
  mk (ID x) (TenantID x) (AggregateType x) (AggregateID x) (Type_ x) (Payload x) (OccurredAt x).
#[global] Instance eq_dec : EqDecision t.
Proof. solve_decision. Defined.

(** A detached copy has the same contents. *)
Definition Clone (e : t) : t := e.

Definition Validate (e : t) : option error :=
  if (ID e ==? "") || (TenantID e ==? "") || (AggregateType e ==? "") ||
     (AggregateID e ==? "") || (Type_ e ==? "") then
    Some (Text "outbox identity, tenant, aggregate and event type are required")
  else if (len (Payload e) =? 0) || IsZero (OccurredAt e) then
    Some (Text "outbox payload and occurrence time are required")
  else None.
End Event.

Module Record_.
Record t := mk { Event_ : Event.t; Sequence : Z; Attempts : Z }.
End Record_.

Definition ErrLeaseLost := New "outbox.ErrLeaseLost" "outbox delivery lease was lost".

(** ** The PostgreSQL store *)
Definition maximumStoredErrorBytes : nat := 2048.

(** [boundedError]: valid UTF-8 of at most 2048 bytes. *)
Definition boundedError (failure : string) : string :=
  let failure := ToValidUTF8 failure in
  if Nat.leb (String.length failure) maximumStoredErrorBytes then failure
  else valid_prefix maximumStoredErrorBytes failure.

Definition set_outbox (r : OutboxRow.t) (db : DB.t) : DB.t :=
  db <| DB.outbox := <[OutboxRow.sequence r := r]> (DB.outbox db) |>.

Definition outbox_row_error (r : OutboxRow.t) : option error :=
  if negb (in_int4 (OutboxRow.attempts r)) then Some out_of_range
  else if negb (OutboxRow.check r) then Some check_violation else None.

Definition undelivered (r : OutboxRow.t) : bool :=
  is_null (OutboxRow.published_at r) && is_null (OutboxRow.dead_lettered_at r).

(** The rows a claim at [now] may take, in sequence order. *)
Definition claimable (now : Z) (r : OutboxRow.t) : bool :=
  undelivered r && (OutboxRow.available_at r <=? now) &&
  match OutboxRow.lease_expires_at r with None => true | Some e => e <=? now end.
Definition seq_leb (a b : OutboxRow.t) : bool := OutboxRow.sequence a <=? OutboxRow.sequence b.
Definition rows (db : DB.t) : list OutboxRow.t :=
  isort seq_leb (map snd (map_to_list (DB.outbox db))).

Definition scanRecord (r : OutboxRow.t) : Record_.t :=
  Record_.mk (Event.mk (OutboxRow.id r) (OutboxRow.tenant_id r) (OutboxRow.aggregate_type r)
    (OutboxRow.aggregate_id r) (OutboxRow.event_type r) (OutboxRow.payload r)
    (OutboxRow.occurred_at r)) (OutboxRow.sequence r) (OutboxRow.attempts r).

Section PostgresStore.
(** Rows locked by concurrent transactions, and the order of RETURNING. *)
Variable locked : Z -> bool.
Variable returning : list Record_.t -> list Record_.t.

Definition claimed_rows (limit now : Z) (db : DB.t) : list OutboxRow.t :=
  firstn (Z.to_nat limit)
    (List.filter (fun r => claimable now r && negb (locked (OutboxRow.sequence r))) (rows db)).

Definition lease_row (owner : string) (until : Z) (r : OutboxRow.t) : OutboxRow.t :=
  r <| OutboxRow.lease_owner := Some owner |>
    <| OutboxRow.lease_expires_at := Some until |>
    <| OutboxRow.attempts := OutboxRow.attempts r + 1 |>.

Definition Claim (owner : string) (limit now lease : Z) (db : DB.t) :
    result (list Record_.t) * DB.t :=
  if (owner ==? "") || (limit <=? 0) || IsZero now || (lease <=? 0) then
    (Err (Text "outbox database, owner, positive limit, time and lease are required"), db)
  else if negb (encodable owner) then (Err (Wrapf "claim outbox events: " invalid_text ""), db)
  else
    let leased := map (lease_row owner (normaliseTime (now + lease)))
                    (claimed_rows limit (normaliseTime now) db) in
    if existsb (fun r => negb (is_null (outbox_row_error r))) leased then
      (Err (Wrapf "claim outbox events: " out_of_range ""), db)
    else (Ok (returning (map scanRecord leased)), fold_right set_outbox db leased).
End PostgresStore.

Definition validateLeaseUpdate (sequence : Z) (owner : string) (at_ : Z) : option error :=
  if (sequence <=? 0) || (owner ==? "") || IsZero at_ then
    Some (Text "outbox database, positive sequence, owner and time are required")
  else None.

(** The guard shared by the three acknowledgements. *)
Definition leased_to (owner : string) (at_ : Z) (r : OutboxRow.t) : bool :=
  col_eq (OutboxRow.lease_owner r) owner && col_gt (OutboxRow.lease_expires_at r) at_ &&
  undelivered r.

(** The guarded UPDATE of one event and [requireUpdatedLease]. *)
Definition updateLease (operation : string) (sequence : Z) (owner : string) (params : list string)
    (at_ : Z) (set : OutboxRow.t -> OutboxRow.t) (db : DB.t) : result unit * DB.t :=
  match validateLeaseUpdate sequence owner at_ with
  | Some e => (Err e, db)
  | None =>
    if negb (all_encodable (owner :: params)) then
      (Err (Wrapf (operation +:+ ": ") invalid_text ""), db)
    else match DB.outbox db !! sequence with
    | Some r =>
      if leased_to owner (normaliseTime at_) r then
        match outbox_row_error (set r) with
        | Some e => (Err (Wrapf (operation +:+ ": ") e ""), db)
        | None => (Ok tt, set_outbox (set r) db)
        end
      else (Err ErrLeaseLost, db)
    | None => (Err ErrLeaseLost, db)
    end
  end.

Definition MarkPublished (sequence : Z) (owner : string) (publishedAt : Z) (db : DB.t) :
    result unit * DB.t :=
  updateLease "mark outbox event published" sequence owner [] publishedAt
    (fun r => r <| OutboxRow.published_at := Some (normaliseTime publishedAt) |>
                <| OutboxRow.lease_owner := None |> <| OutboxRow.lease_expires_at := None |>
                <| OutboxRow.last_error := None |>) db.

Definition Retry (sequence : Z) (owner : string) (failedAt availableAt : Z) (failure : string)
    (db : DB.t) : result unit * DB.t :=
  match validateLeaseUpdate sequence owner failedAt with
  | Some e => (Err e, db)
  | None =>
    if Before availableAt failedAt then
      (Err (Text "outbox retry availability must not precede failure time"), db)
    else
      updateLease "schedule outbox retry" sequence owner [boundedError failure] failedAt
        (fun r => r <| OutboxRow.available_at := normaliseTime availableAt |>
                    <| OutboxRow.last_error := Some (boundedError failure) |>
                    <| OutboxRow.lease_owner := None |> <| OutboxRow.lease_expires_at := None |>) db
  end.

Definition DeadLetter (sequence : Z) (owner : string) (failedAt : Z) (failure : string) (db : DB.t) :
    result unit * DB.t :=
  updateLease "dead-letter outbox event" sequence owner [boundedError failure] failedAt
    (fun r => r <| OutboxRow.dead_lettered_at := Some (normaliseTime failedAt) |>
                <| OutboxRow.last_error := Some (boundedError failure) |>
                <| OutboxRow.lease_owner := None |> <| OutboxRow.lease_expires_at := None |>) db.

(** [insertOutboxEvent] and its siblings: the event as a new row. *)
Definition event_row (sequence : Z) (payload : string) (e : Event.t) : OutboxRow.t :=
  OutboxRow.mk sequence (Event.ID e) (Event.TenantID e) (Event.AggregateType e)
    (Event.AggregateID e) (Event.Type_ e) payload (normaliseTime (Event.OccurredAt e))
    None 0 None (normaliseTime (Event.OccurredAt e)) None None None.

(** ** The dispatcher *)
Module Metrics.
Record t := mk { claimed : Z; published : Z; retried : Z; deadLettered : Z; failures : Z }.
#[global] Instance eta_t : Eta t := fun x =>
  mk (claimed x) (published x) (retried x) (deadLettered x) (failures x).
Definition zero : t := mk 0 0 0 0 0.
Definition recordClaimed (count : Z) (m : t) : t :=
  if 0 <? count then m <| claimed := uint64 (claimed m + count) |> else m.
Definition recordPublished (m : t) : t := m <| published := uint64 (published m + 1) |>.
Definition recordRetried (m : t) : t := m <| retried := uint64 (retried m + 1) |>.
Definition recordDeadLettered (m : t) : t := m <| deadLettered := uint64 (deadLettered m + 1) |>.
Definition recordFailure (m : t) : t := m <| failures := uint64 (failures m + 1) |>.
End Metrics.

(** [Store]: what the dispatcher needs of an outbox. *)
Class OutboxStore (St : Type) := {
  claim : string -> Z -> Z -> Z -> St -> result (list Record_.t) * St;
  mark_published : Z -> string -> Z -> St -> result unit * St;
  retry : Z -> string -> Z -> Z -> string -> St -> result unit * St;
  dead_letter : Z -> string -> Z -> string -> St -> result unit * St }.

Module Dispatcher.
Record t := mk { WorkerID : string; BatchSize : Z; MaxAttempts : Z; Lease : Z; RetryDelay : Z -> Z }.
End Dispatcher.

(** What a pass works on: the store, the publisher's world, the counters and
    the number of clock readings so far. *)
Module World.
Record t (St Pub : Type) := mk { store : St; pub : Pub; metrics : Metrics.t; ticks : nat }.
Arguments mk {St Pub}.
Arguments store {St Pub}.
Arguments pub {St Pub}.
Arguments metrics {St Pub}.
Arguments ticks {St Pub}.
#[global] Instance eta_t {St Pub} : Eta (t St Pub) := fun x => mk (store x) (pub x) (metrics x) (ticks x).
End World.

Section Dispatch.
Context {St Pub : Type} `{OutboxStore St}.
(** [Publisher.Publish]: an error, or delivery. *)
Variable publish : Event.t -> Pub -> option error * Pub.
(** The successive readings of [Now]. *)
Variable clock : nat -> Z.
Variable d : Dispatcher.t.

Definition count (f : Metrics.t -> Metrics.t) (w : World.t St Pub) : World.t St Pub :=
  w <| World.metrics := f (World.metrics w) |>.
Definition Now (w : World.t St Pub) : Z * World.t St Pub :=
  (clock (World.ticks w), w <| World.ticks := S (World.ticks w) |>).

Definition validate : option error :=
  if Dispatcher.WorkerID d ==? "" then
    Some (Text "outbox store, publisher, worker id, clock and retry policy are required")
  else if (Dispatcher.BatchSize d <=? 0) || (Dispatcher.MaxAttempts d <=? 0) || (Dispatcher.Lease d <=? 0) then
    Some (Text "outbox batch size, maximum attempts and lease must be positive")
  else None.

(** The acknowledgement of a delivery, counted by [f] on success. *)
Definition settle (r : result unit * St) (f : Metrics.t -> Metrics.t) (failures : option error)
    (w : World.t St Pub) : option error * World.t St Pub :=
  let w := w <| World.store := r.2 |> in
  match r.1 with
  | Err e => (errors_Join failures (Some e), count Metrics.recordFailure w)
  | Ok _ => (failures, count f w)
  end.

(** The body of the loop over claimed records. *)
Definition deliver (record : Record_.t) (failures : option error) (w : World.t St Pub) :
    option error * World.t St Pub :=
  let '(published, pub) := publish (Event.Clone (Record_.Event_ record)) (World.pub w) in
  let w := w <| World.pub := pub |> in
  match published with
  | Some err =>
    let w := count Metrics.recordFailure w in
    let failures := errors_Join failures
      (Some (Wrapf ("publish outbox event " +:+ quote (Event.ID (Record_.Event_ record)) +:+ ": ") err "")) in
    if Dispatcher.MaxAttempts d <=? Record_.Attempts record then
      let '(at_, w) := Now w in
      settle (dead_letter (Record_.Sequence record) (Dispatcher.WorkerID d) at_ (Error err) (World.store w))
        Metrics.recordDeadLettered failures w
    else
      let '(failedAt, w) := Now w in
      let retryAt := failedAt + Dispatcher.RetryDelay d (Record_.Attempts record) in
      settle (retry (Record_.Sequence record) (Dispatcher.WorkerID d) failedAt retryAt (Error err) (World.store w))
        Metrics.recordRetried failures w
  | None =>
    let '(at_, w) := Now w in
    settle (mark_published (Record_.Sequence record) (Dispatcher.WorkerID d) at_ (World.store w))
      Metrics.recordPublished failures w
  end.

Fixpoint deliver_all (records : list Record_.t) (failures : option error) (w : World.t St Pub) :
    option error * World.t St Pub :=
  match records with
  | [] => (failures, w)
  | record :: rest =>
    let '(failures, w) := deliver record failures w in deliver_all rest failures w
  end.

Definition RunOnce (w : World.t St Pub) : Z * option error * World.t St Pub :=
  match validate with
  | Some e => (0, Some e, w)
  | None =>
    let '(now, w) := Now w in
    let '(r, store) := claim (Dispatcher.WorkerID d) (Dispatcher.BatchSize d) now (Dispatcher.Lease d) (World.store w) in
    let w := w <| World.store := store |> in
    match r with
    | Err e => (0, Some e, count Metrics.recordFailure w)
    | Ok records =>
      let n := Z.of_nat (List.length records) in
      let w := count (Metrics.recordClaimed n) w in
      let '(failures, w) := deliver_all records None w in
      (n, failures, w)
    end
  end.

(** ** The runner

    What the loop of [Run] does after a pass. *)
Inductive Next := Stop | Continue | Wait (delay : Z).
Definition after_pass (pollInterval failureDelay count : Z) (err : option error) (cancelled : bool) : Next :=
  if cancelled then Stop
  else match err with
  | None => if count =? Dispatcher.BatchSize d then Continue else Wait pollInterval
  | Some _ => Wait failureDelay
  end.

(** [Run] against a schedule: for each pass, whether the context is cancelled
    when it returns or during the wait after it. *)
Fixpoint Run_loop (pollInterval failureDelay : Z) (polls : list (bool * bool)) (w : World.t St Pub) :
    list Next * World.t St Pub :=
  match polls with
  | [] => ([], w)
  | (cancelled, cancelled_waiting) :: rest =>
    let '(n, err, w) := RunOnce w in
    let next := after_pass pollInterval failureDelay n err cancelled in
    let stop := match next with Stop => true | Continue => false | Wait _ => cancelled_waiting end in
    if stop then ([next], w)
    else let '(log, w) := Run_loop pollInterval failureDelay rest w in (next :: log, w)
  end.
Definition Run (pollInterval failureDelay : Z) (polls : list (bool * bool)) (w : World.t St Pub) :
    result (list Next) * World.t St Pub :=
  match validate with
  | Some e => (Err e, w)
  | None =>
    if (pollInterval <=? 0) || (failureDelay <=? 0) then
      (Err (Text "outbox poll interval and failure delay must be positive"), w)
    else let '(log, w) := Run_loop pollInterval failureDelay polls w in (Ok log, w)
  end.
End Dispatch.

(** The durable store as a dispatcher sees it when no other session holds
    locks and rows come back in sequence order. *)
#[global] Instance postgres_store : OutboxStore DB.t := {|
  claim := Claim (fun _ => false) (fun l => l);
  mark_published := MarkPublished;
  retry := Retry;
  dead_letter := DeadLetter |}.

(** ** Statements as operations *)
Inductive OutboxOp : Type :=
| OClaim (locked : Z -> bool) (returning : list Record_.t -> list Record_.t)
    (owner : string) (limit now lease : Z)
| OMark (sequence : Z) (owner : string) (at_ : Z)
| ORetry (sequence : Z) (owner : string) (failedAt availableAt : Z) (failure : string)
| ODead (sequence : Z) (owner : string) (failedAt : Z) (failure : string).

(** Claims answer with the records, acknowledgements with nothing. *)
Definition outbox_exec (op : OutboxOp) (db : DB.t) : result (list Record_.t) * DB.t :=
  let unit_ (r : result unit * DB.t) :=
    (match r.1 with Ok _ => Ok [] | Err e => Err e end, r.2) in
  match op with
  | OClaim locked returning owner limit now lease => Claim locked returning owner limit now lease db
  | OMark seq owner at_ => unit_ (MarkPublished seq owner at_ db)
  | ORetry seq owner failedAt availableAt failure => unit_ (Retry seq owner failedAt availableAt failure db)
  | ODead seq owner failedAt failure => unit_ (DeadLetter seq owner failedAt failure db)
  end.

(** RETURNING gives the updated rows, in any order. *)
Definition op_ok (op : OutboxOp) : Prop :=
  match op with OClaim _ returning _ _ _ _ => forall l, returning l ≡ₚ l | _ => True end.

Definition outbox_row_ok (seq : Z) (r : OutboxRow.t) : Prop :=
  OutboxRow.sequence r = seq /\ OutboxRow.check r = true /\
  (undelivered r = false -> OutboxRow.lease_owner r = None) /\
  (OutboxRow.published_at r = None \/ OutboxRow.dead_lettered_at r = None).
Definition outbox_ok (db : DB.t) : Prop := map_Forall outbox_row_ok (DB.outbox db).

(** ** Reading the claimed rows *)
Lemma rows_elem db r : outbox_ok db -> r ∈ rows db <-> DB.outbox db !! OutboxRow.sequence r = Some r.
Proof.
  intros Hok. unfold rows. rewrite (isort_perm seq_leb), list_elem_of_fmap.
  split.
  - intros ([k r'] & -> & Hin). apply elem_of_map_to_list in Hin. simpl.
    pose proof (Hok _ _ Hin) as (<- & _). done.
  - intros H. exists (OutboxRow.sequence r, r). split; [done|]. by apply elem_of_map_to_list.
Qed.

(** The rows come in strictly increasing sequence. *)
Lemma rows_sorted db : outbox_ok db ->
  StronglySorted (fun a b => OutboxRow.sequence a < OutboxRow.sequence b) (rows db).
Proof.
  intros Hok. assert (Hnd : NoDup (map OutboxRow.sequence (rows db))).
  { unfold rows. rewrite (isort_perm seq_leb).
    replace (map OutboxRow.sequence (map snd (map_to_list (DB.outbox db))))
      with (map fst (map_to_list (DB.outbox db))); [apply NoDup_fst_map_to_list|].
    rewrite map_map. apply map_ext_in. intros [k r] Hin%list_elem_of_In%elem_of_map_to_list.
    destruct (Hok _ _ Hin) as (Hs & _). by simpl. }
  assert (Hs : StronglySorted (fun a b => seq_leb a b = true) (rows db)).
  { apply isort_StronglySorted; unfold seq_leb; intros *; rewrite !Z.leb_le; lia. }
  induction Hs as [|r l Hs IH Hr]; [constructor|]. cbn [map] in Hnd. apply list.NoDup_cons in Hnd as [Hnin Hnd].
  constructor; [by apply IH|]. apply list.Forall_forall. intros x Hx.
  rewrite list.Forall_forall in Hr. specialize (Hr x Hx). unfold seq_leb in Hr. apply Z.leb_le in Hr.
  assert (OutboxRow.sequence r <> OutboxRow.sequence x); [|lia].
  intros E. apply Hnin. rewrite E. apply list_elem_of_In, in_map. by apply list_elem_of_In.
Qed.

Lemma claimed_rows_elem locked limit now db r :
  outbox_ok db -> r ∈ claimed_rows locked limit now db ->
  DB.outbox db !! OutboxRow.sequence r = Some r /\ claimable now r = true.
Proof.
  intros Hok Hin. unfold claimed_rows in Hin. apply elem_of_take in Hin as (i & Hi & _).
  apply list_elem_of_lookup_2 in Hi. apply list_elem_of_In, filter_In in Hi as [Hi Hc].
  apply list_elem_of_In in Hi. apply andb_true_iff in Hc as [Hc _].
  split; [|done]. by apply rows_elem.
Qed.

Lemma fold_set_outbox rs db :
  DB.outbox (fold_right set_outbox db rs) =
  list_to_map (map (fun r => (OutboxRow.sequence r, r)) rs) ∪ DB.outbox db.
Proof.
  induction rs as [|r rs IH]; simpl; [by rewrite (left_id_L ∅ (∪))|].
  rewrite IH. by rewrite insert_union_l.
Qed.

(** What one statement may do to one event. *)
Definition acknowledged (owner : string) (at_ : Z) (r r' : OutboxRow.t) : Prop :=
  leased_to owner (normaliseTime at_) r = true /\ OutboxRow.lease_owner r' = None /\
  OutboxRow.lease_expires_at r' = None /\ OutboxRow.attempts r' = OutboxRow.attempts r /\
  Record_.Event_ (scanRecord r') = Record_.Event_ (scanRecord r) /\
  OutboxRow.sequence r' = OutboxRow.sequence r.

Inductive outbox_change : OutboxOp -> OutboxRow.t -> OutboxRow.t -> Prop :=
| oc_same op r : outbox_change op r r
| oc_claim locked returning owner limit now lease r :
    claimable (normaliseTime now) r = true ->
    outbox_change (OClaim locked returning owner limit now lease) r
      (lease_row owner (normaliseTime (now + lease)) r)
| oc_mark seq owner at_ r r' :
    acknowledged owner at_ r r' -> OutboxRow.published_at r' = Some (normaliseTime at_) ->
    OutboxRow.dead_lettered_at r' = None ->
    outbox_change (OMark seq owner at_) r r'
| oc_retry seq owner failedAt availableAt failure r r' :
    acknowledged owner failedAt r r' -> OutboxRow.available_at r' = normaliseTime availableAt ->
    failedAt <= availableAt -> undelivered r' = true ->
    outbox_change (ORetry seq owner failedAt availableAt failure) r r'
| oc_dead seq owner failedAt failure r r' :
    acknowledged owner failedAt r r' -> OutboxRow.dead_lettered_at r' = Some (normaliseTime failedAt) ->
    OutboxRow.published_at r' = None ->
    outbox_change (ODead seq owner failedAt failure) r r'.

Lemma updateLease_spec operation seq owner params at_ set db :
  match updateLease operation seq owner params at_ set db with
  | (Err _, db') => db' = db
  | (Ok _, db') => exists r, DB.outbox db !! seq = Some r /\
      leased_to owner (normaliseTime at_) r = true /\ outbox_row_error (set r) = None /\
      db' = set_outbox (set r) db
  end.
Proof.
  unfold updateLease. destruct (validateLeaseUpdate _ _ _); [done|]. destruct (negb _); [done|].
  destruct (DB.outbox db !! seq) as [r|] eqn:Hr; [|done].
  destruct (leased_to _ _ r) eqn:Hl; [|done]. destruct (outbox_row_error (set r)) eqn:He; [done|].
  by exists r.
Qed.

(** An acknowledgement changes its own event, if anything. *)
Lemma updateLease_change operation seq owner params at_ set db k r :
  outbox_ok db -> (forall x, OutboxRow.sequence (set x) = OutboxRow.sequence x) ->
  DB.outbox db !! k = Some r ->
  DB.outbox (updateLease operation seq owner params at_ set db).2 !! k = Some r \/
  (k = seq /\ leased_to owner (normaliseTime at_) r = true /\
   DB.outbox (updateLease operation seq owner params at_ set db).2 !! k = Some (set r)).
Proof.
  intros Hok Hset Hk. pose proof (updateLease_spec operation seq owner params at_ set db) as H.
  destruct (updateLease _ _ _ _ _ _ _) as [[u|e] db']; simpl; [|subst; by left].
  destruct H as (r0 & Hr & Hl & _ & ->). pose proof (Hok _ _ Hr) as (Hseq & _).
  unfold set_outbox. simpl. rewrite Hset, Hseq. destruct (decide (k = seq)) as [->|Hne].
  - right. rewrite Hr in Hk. injection Hk as ->. by rewrite lookup_insert_eq.
  - left. by rewrite lookup_insert_ne.
Qed.

Lemma leased_undelivered owner at_ r :
  leased_to owner at_ r = true ->
  OutboxRow.published_at r = None /\ OutboxRow.dead_lettered_at r = None.
Proof.
  unfold leased_to, undelivered, is_null. rewrite !andb_true_iff. intros [_ [H1 H2]].
  by destruct (OutboxRow.published_at r), (OutboxRow.dead_lettered_at r).
Qed.

Lemma claim_lookup locked returning owner limit now lease db k r :
  outbox_ok db -> DB.outbox db !! k = Some r ->
  DB.outbox (Claim locked returning owner limit now lease db).2 !! k = Some r \/
  (claimable (normaliseTime now) r = true /\
   DB.outbox (Claim locked returning owner limit now lease db).2 !! k =
     Some (lease_row owner (normaliseTime (now + lease)) r)).
Proof.
  intros Hok Hk. unfold Claim. destruct (_ || _); [by left|]. destruct (negb _); [by left|]. cbv zeta.
  destruct (existsb _ _); [by left|]. simpl. rewrite fold_set_outbox.
  set (m := list_to_map _ : gmap Z OutboxRow.t).
  destruct (m !! k) as [r'|] eqn:Hl; unfold m in *; clear m.
  - right. rewrite (lookup_union_Some_l _ _ _ _ Hl). apply elem_of_list_to_map_2 in Hl.
    apply list_elem_of_fmap in Hl as (x & [= -> ->] & Hx).
    apply list_elem_of_fmap in Hx as (r0 & -> & Hr0).
    apply claimed_rows_elem in Hr0 as [Hr0 Hc]; [|done]. simpl in Hk. rewrite Hr0 in Hk.
    injection Hk as ->. done.
  - left. by rewrite lookup_union_r.
Qed.

Lemma outbox_exec_change op db k r :
  outbox_ok db -> DB.outbox db !! k = Some r ->
  exists r', DB.outbox (outbox_exec op db).2 !! k = Some r' /\ outbox_change op r r'.
Proof.
  intros Hok Hk. destruct op as [locked returning owner limit now lease|seq owner at_
    |seq owner failedAt availableAt failure|seq owner failedAt failure]; simpl.
  - destruct (claim_lookup locked returning owner limit now lease db k r Hok Hk) as [H|[Hc H]];
      eexists; (split; [exact H|]); by constructor.
  - unfold MarkPublished.
    match goal with |- context [updateLease ?o ?s ?w ?p ?a ?f db] =>
      destruct (updateLease_change o s w p a f db k r Hok ltac:(done) Hk) as [H|(-> & Hl & H)] end;
      eexists; (split; [exact H|]); [constructor|].
    destruct (leased_undelivered _ _ _ Hl). by constructor.
  - unfold Retry. destruct (validateLeaseUpdate _ _ _); [by eexists; split; [|constructor]|].
    destruct (Before availableAt failedAt) eqn:Hb; [by eexists; split; [|constructor]|].
    apply Z.ltb_ge in Hb.
    match goal with |- context [updateLease ?o ?s ?w ?p ?a ?f db] =>
      destruct (updateLease_change o s w p a f db k r Hok ltac:(done) Hk) as [H|(-> & Hl & H)] end;
      eexists; (split; [exact H|]); [constructor|].
    destruct (leased_undelivered _ _ _ Hl) as [Hp Hd]. constructor; try done.
    unfold undelivered. simpl. by rewrite Hp, Hd.
  - unfold DeadLetter.
    match goal with |- context [updateLease ?o ?s ?w ?p ?a ?f db] =>
      destruct (updateLease_change o s w p a f db k r Hok ltac:(done) Hk) as [H|(-> & Hl & H)] end;
      eexists; (split; [exact H|]); [constructor|].
    destruct (leased_undelivered _ _ _ Hl). by constructor.
Qed.

Lemma outbox_exec_dom op db k r' :
  outbox_ok db -> DB.outbox (outbox_exec op db).2 !! k = Some r' ->
  exists r, DB.outbox db !! k = Some r.
Proof.
  intros Hok Hk. destruct (DB.outbox db !! k) as [r|] eqn:Hr; [by eexists|exfalso].
  assert (Hack : forall operation seq owner params at_ set,
    (forall x, OutboxRow.sequence (set x) = OutboxRow.sequence x) ->
    DB.outbox (updateLease operation seq owner params at_ set db).2 !! k = None).
  { intros operation seq owner params at_ set Hset.
    pose proof (updateLease_spec operation seq owner params at_ set db) as H.
    destruct (updateLease _ _ _ _ _ _ _) as [[u|e] db']; simpl; [|by subst].
    destruct H as (r0 & Hr0 & _ & _ & ->). pose proof (Hok _ _ Hr0) as (Hseq & _).
    unfold set_outbox. simpl. rewrite Hset, Hseq.
    rewrite lookup_insert_ne by congruence. done. }
  destruct op; simpl in Hk.
  - unfold Claim in Hk. repeat (case_match; simpl in Hk; [congruence|]). cbv zeta in Hk.
    rewrite fold_set_outbox in Hk. apply lookup_union_Some_raw in Hk as [Hl|[_ ?]]; [|congruence].
    apply elem_of_list_to_map_2, list_elem_of_fmap in Hl as (x & [= -> ->] & Hx).
    apply list_elem_of_fmap in Hx as (r0 & -> & Hr0).
    apply claimed_rows_elem in Hr0 as [Hr0 _]; [|done]. simpl in Hr. congruence.
  - unfold MarkPublished in Hk. by rewrite Hack in Hk.
  - unfold Retry in Hk. repeat (case_match; simpl in Hk; [congruence|]). by rewrite Hack in Hk.
  - unfold DeadLetter in Hk. by rewrite Hack in Hk.
Qed.

Lemma outbox_change_ok op k r r' :
  outbox_row_ok k r -> outbox_change op r r' -> outbox_row_ok k r'.
Proof.
  intros (Hs & Hc & Hl & Hd) Hch. unfold OutboxRow.check in Hc.
  apply andb_true_iff in Hc as [Ha Hpair]. apply Z.leb_le in Ha.
  assert (Hack : forall owner at_ r r', OutboxRow.sequence r = k -> 0 <= OutboxRow.attempts r ->
    acknowledged owner at_ r r' ->
    OutboxRow.published_at r' = None \/ OutboxRow.dead_lettered_at r' = None -> outbox_row_ok k r').
  { intros owner at_ x x' Hx Hax (_ & Ho & He & Hat & _ & Hse) Hpd. unfold outbox_row_ok, OutboxRow.check.
    rewrite Ho, He, Hse, Hat. repeat split; try done. apply andb_true_iff. split; [|done].
    by apply Z.leb_le. }
  inversion Hch; subst.
  - repeat split; try done. unfold OutboxRow.check. rewrite Hpair. by apply andb_true_iff; split; [apply Z.leb_le|].
  - unfold claimable in *. match goal with H : _ && _ && _ = true |- _ => rewrite !andb_true_iff in H; destruct H as [[Hu _] _] end.
    repeat split; simpl; try done.
    + unfold OutboxRow.check. simpl. rewrite andb_true_r. apply Z.leb_le. lia.
    + unfold undelivered in *. simpl. congruence.
  - eapply Hack; [done|done|eassumption|auto].
  - eapply Hack; [done|done|eassumption|]. match goal with H : undelivered _ = true |- _ =>
      unfold undelivered, is_null in H; destruct (OutboxRow.published_at r'); [done|]; by left end.
  - eapply Hack; [done|done|eassumption|auto].
Qed.

Lemma outbox_exec_ok op db : outbox_ok db -> outbox_ok (outbox_exec op db).2.
Proof.
  intros Hok k r' Hk. destruct (outbox_exec_dom op db k r' Hok Hk) as [r Hr].
  destruct (outbox_exec_change op db k r Hok Hr) as (r1 & Hr1 & Hc).
  rewrite Hr1 in Hk. injection Hk as <-. eapply outbox_change_ok; [|exact Hc]. by apply Hok.
Qed.

(** A delivered event, published or dead-lettered, is never changed. *)
Lemma outbox_change_delivered op r r' :
  undelivered r = false -> outbox_change op r r' -> r' = r.
Proof.
  intros Hu Hc. inversion Hc; subst; try done;
    try (match goal with H : acknowledged _ _ _ _ |- _ => destruct H as [Hl _] end;
         unfold leased_to in Hl; rewrite Hu, andb_false_r in Hl; done).
  match goal with H : claimable _ _ = true |- _ => unfold claimable in H; by rewrite Hu in H end.
Qed.

(** The records of a claim are the claimable rows, leased. *)
Lemma claim_records locked returning owner limit now lease db records :
  outbox_ok db -> (forall l, returning l ≡ₚ l) ->
  (Claim locked returning owner limit now lease db).1 = Ok records ->
  forall rec, rec ∈ records <->
    exists r, r ∈ claimed_rows locked limit (normaliseTime now) db /\
      rec = scanRecord (lease_row owner (normaliseTime (now + lease)) r).
Proof.
  intros Hok Hret Hc rec. unfold Claim in Hc. repeat (case_match; simpl in Hc; [done|]).
  injection Hc as <-. rewrite Hret, list_elem_of_fmap. split.
  - intros (x & -> & Hx). apply list_elem_of_fmap in Hx as (r & -> & Hr). eauto.
  - intros (r & Hr & ->). eexists. split; [done|]. apply list_elem_of_fmap. eauto.
Qed.

(** The available events that come before event [k]. *)
Definition ahead (locked : Z -> bool) (now k : Z) (db : DB.t) : list OutboxRow.t :=
  List.filter (fun r => OutboxRow.sequence r <? k)
    (List.filter (fun r => claimable now r && negb (locked (OutboxRow.sequence r))) (rows db)).

(** In a sorted list, what precedes an element is what is smaller. *)
Lemma take_sorted (limit k : Z) l r :
  StronglySorted (fun a b => OutboxRow.sequence a < OutboxRow.sequence b) l -> r ∈ l -> OutboxRow.sequence r = k ->
  Z.of_nat (List.length (List.filter (fun x => OutboxRow.sequence x <? k) l)) < limit ->
  r ∈ firstn (Z.to_nat limit) l.
Proof.
  intros Hs Hr <-. revert limit. induction Hs as [|x l Hs IH Hx]; intros limit Hlen; [by apply elem_of_nil in Hr|].
  destruct (Z.to_nat limit) as [|n] eqn:Hn; [lia|]. cbn [firstn]. rewrite elem_of_cons in Hr |- *.
  destruct Hr as [->|Hr]; [by left|right]. rewrite list.Forall_forall in Hx. specialize (Hx r Hr).
  cbn [List.filter] in Hlen. rewrite (proj2 (Z.ltb_lt _ _) Hx) in Hlen. cbn [List.length] in Hlen.
  replace n with (Z.to_nat (limit - 1)) by lia. apply IH; [done|lia].
Qed.

Lemma claimed_in_turn locked limit now db k r :
  outbox_ok db -> DB.outbox db !! k = Some r -> claimable now r = true -> locked k = false ->
  Z.of_nat (List.length (ahead locked now k db)) < limit -> r ∈ claimed_rows locked limit now db.
Proof.
  intros Hok Hr Hclaim Hfree Hlimit. pose proof (Hok _ _ Hr) as (Hseq & _).
  apply (take_sorted limit k); [by apply StronglySorted_filter, rows_sorted| |done|exact Hlimit].
  apply list_elem_of_In, filter_In. rewrite Hclaim, Hseq, Hfree. split; [|done].
  apply list_elem_of_In. apply rows_elem; [done|]. by rewrite Hseq.
Qed.

Lemma leased_rows_fit locked owner limit now until db :
  outbox_ok db ->
  (forall k r, DB.outbox db !! k = Some r -> claimable now r = true -> OutboxRow.attempts r < max_int32) ->
  existsb (fun x => negb (is_null (outbox_row_error x)))
    (map (lease_row owner until) (claimed_rows locked limit now db)) = false.
Proof.
  intros Hok Hroom. apply not_true_iff_false. rewrite existsb_exists. intros (x & Hx & He).
  apply list_elem_of_In, list_elem_of_fmap in Hx as (r0 & -> & Hr0).
  apply claimed_rows_elem in Hr0 as [Hr0 Hc]; [|done]. pose proof (Hroom _ _ Hr0 Hc) as Hmax. clear Hroom Hc.
  pose proof (Hok _ _ Hr0) as (_ & Hcheck & _). unfold OutboxRow.check in Hcheck.
  apply andb_true_iff in Hcheck as [Ha%Z.leb_le _].
  unfold outbox_row_error, in_int4, between, OutboxRow.check in He. simpl in He.
  repeat (case_match; reflect_bools); unfold max_int32 in *; naive_solver lia.
Qed.

(** A claimed row is leased in the database afterwards. *)
Lemma leased_lookup locked owner limit now until db k r :
  outbox_ok db -> DB.outbox db !! k = Some r -> r ∈ claimed_rows locked limit now db ->
  DB.outbox (fold_right set_outbox db (map (lease_row owner until) (claimed_rows locked limit now db))) !! k =
    Some (lease_row owner until r).
Proof.
  intros Hok Hk Hin. pose proof (Hok _ _ Hk) as (Hseq & _). rewrite fold_set_outbox.
  apply lookup_union_Some_l, elem_of_list_to_map_1'.
  - intros r' Hr'. apply list_elem_of_fmap in Hr' as (x & [= Ek ->] & Hx).
    apply list_elem_of_fmap in Hx as (r0 & -> & Hr0). apply claimed_rows_elem in Hr0 as [Hr0 _]; [|done].
    cbn in Ek. rewrite <- Ek, Hk in Hr0. by injection Hr0 as ->.
  - apply list_elem_of_fmap. exists (lease_row owner until r). cbn. rewrite Hseq. split; [done|].
    apply list_elem_of_fmap. eauto.
Qed.

(** What holds of a log entry about an event that is already delivered. *)
Definition not_claimed (k : Z) (e : OutboxOp * result (list Record_.t)) : Prop :=
  match e.2 with Ok records => forall rec, rec ∈ records -> Record_.Sequence rec <> k | Err _ => True end.

Definition delivered_inv (k : Z) (r : OutboxRow.t) (log : list (OutboxOp * result (list Record_.t)))
    (db : DB.t) : Prop :=
  outbox_ok db /\ DB.outbox db !! k = Some r /\ Forall (not_claimed k) log.

Lemma delivered_step k r log op db :
  undelivered r = false -> op_ok op -> delivered_inv k r log db ->
  delivered_inv k r (log ++ [(op, (outbox_exec op db).1)]) (outbox_exec op db).2.
Proof.
  intros Hu Hop (Hok & Hk & Hlog). split; [by apply outbox_exec_ok|]. split.
  - destruct (outbox_exec_change op db k r Hok Hk) as (r' & Hr' & Hc).
    by rewrite (outbox_change_delivered _ _ _ Hu Hc) in Hr'.
  - apply Forall_app. split; [done|]. constructor; [|constructor]. unfold not_claimed. simpl.
    destruct (outbox_exec op db).1 as [records|] eqn:He; [|done].
    destruct op; simpl in He.
    + intros rec Hin. eapply claim_records in Hin; [|done|exact Hop|exact He].
      destruct Hin as (r0 & Hr0 & ->). apply claimed_rows_elem in Hr0 as [Hr0 Hc]; [|done].
      simpl. intros <-. rewrite Hr0 in Hk. injection Hk as ->. unfold claimable in Hc. by rewrite Hu in Hc.
    + destruct (MarkPublished _ _ _ _).1; [|done]. injection He as <-. set_solver.
    + destruct (Retry _ _ _ _ _ _).1; [|done]. injection He as <-. set_solver.
    + destruct (DeadLetter _ _ _ _ _).1; [|done]. injection He as <-. set_solver.
Qed.

(** The time an operation runs at. *)
Definition outbox_time (op : OutboxOp) : Z :=
  match op with
  | OClaim _ _ _ _ now _ => now | OMark _ _ at_ => at_
  | ORetry _ _ failedAt _ _ => failedAt | ODead _ _ failedAt _ => failedAt
  end.
Definition outbox_owner (op : OutboxOp) : string :=
  match op with
  | OClaim _ _ owner _ _ _ => owner | OMark _ owner _ => owner
  | ORetry _ owner _ _ _ => owner | ODead _ owner _ _ => owner
  end.

(** ** Accounting of a pass *)

(** How the counters move: deliveries, retries, dead letters, failures. *)
Definition moved (m m' : Metrics.t) (p r dl f : Z) : Prop :=
  uint64 (Metrics.published m') = uint64 (Metrics.published m + p) /\
  uint64 (Metrics.retried m') = uint64 (Metrics.retried m + r) /\
  uint64 (Metrics.deadLettered m') = uint64 (Metrics.deadLettered m + dl) /\
  uint64 (Metrics.failures m') = uint64 (Metrics.failures m + f) /\
  Metrics.claimed m' = Metrics.claimed m.

Lemma moved_refl m : moved m m 0 0 0 0.
Proof. unfold moved. by rewrite !Z.add_0_r. Qed.

Lemma uint64_add z a b : uint64 z = uint64 a -> uint64 (z + b) = uint64 (a + b).
Proof.
  unfold uint64. intros H. rewrite <- (Zplus_mod_idemp_l z), <- (Zplus_mod_idemp_l a). by rewrite H.
Qed.

Lemma moved_trans m1 m2 m3 p r dl f p' r' dl' f' :
  moved m1 m2 p r dl f -> moved m2 m3 p' r' dl' f' ->
  moved m1 m3 (p + p') (r + r') (dl + dl') (f + f').
Proof.
  intros (H1 & H2 & H3 & H4 & H5) (H1' & H2' & H3' & H4' & H5'). unfold moved.
  rewrite H1', H2', H3', H4', H5', H5, !Z.add_assoc. by repeat split; apply uint64_add.
Qed.

Lemma uint64_idem z : uint64 (uint64 z) = uint64 z.
Proof. unfold uint64. by rewrite Zmod_mod. Qed.

Section Accounting.
Context {St Pub : Type} `{OutboxStore St} (publish : Event.t -> Pub -> option error * Pub)
  (clock : nat -> Z) (d : Dispatcher.t).

(** One record: it is published and acknowledged, or a failure is reported. *)
Lemma deliver_accounts record failures w :
  exists p r dl f, 0 <= p /\ 0 <= r /\ 0 <= dl /\ 0 <= f /\ p + r + dl <= 1 /\ 1 <= p + f /\
  let '(err, w') := deliver publish clock d record failures w in
  moved (World.metrics w) (World.metrics w') p r dl f /\
  World.pub w' = (publish (Record_.Event_ record) (World.pub w)).2 /\
  (err = None <-> failures = None /\ p = 1 /\ f = 0).
Proof.
  unfold deliver, Event.Clone. destruct (publish (Record_.Event_ record) (World.pub w)) as [[err|] pub].
  - destruct (Dispatcher.MaxAttempts d <=? _); unfold Now, settle; cbv zeta.
    + destruct (dead_letter _ _ _ _ _) as [[u|e] st]; simpl.
      * exists 0, 0, 1, 1. repeat (split; [lia|]). unfold moved; simpl.
        rewrite ?Z.add_0_r, ?uint64_idem. repeat split; try done; destruct failures; simpl; intros; naive_solver.
      * exists 0, 0, 0, 2. repeat (split; [lia|]). unfold moved; simpl.
        rewrite ?Z.add_0_r, ?uint64_idem, (uint64_add _ (Metrics.failures (World.metrics w) + 1)) by apply uint64_idem.
        repeat split; try done; try (f_equal; lia); destruct failures; simpl; intros; naive_solver.
    + destruct (retry _ _ _ _ _ _) as [[u|e] st]; simpl.
      * exists 0, 1, 0, 1. repeat (split; [lia|]). unfold moved; simpl.
        rewrite ?Z.add_0_r, ?uint64_idem. repeat split; try done; destruct failures; simpl; intros; naive_solver.
      * exists 0, 0, 0, 2. repeat (split; [lia|]). unfold moved; simpl.
        rewrite ?Z.add_0_r, ?uint64_idem, (uint64_add _ (Metrics.failures (World.metrics w) + 1)) by apply uint64_idem.
        repeat split; try done; try (f_equal; lia); destruct failures; simpl; intros; naive_solver.
  - unfold Now, settle; cbv zeta. destruct (mark_published _ _ _ _) as [[u|e] st]; simpl.
    + exists 1, 0, 0, 0. repeat (split; [lia|]). unfold moved; simpl.
      rewrite ?Z.add_0_r, ?uint64_idem. repeat split; try done; naive_solver.
    + exists 0, 0, 0, 1. repeat (split; [lia|]). unfold moved; simpl.
      rewrite ?Z.add_0_r, ?uint64_idem. repeat split; try done; destruct failures; simpl; intros; naive_solver.
Qed.

Lemma deliver_all_accounts records failures w :
  exists p r dl f, 0 <= p /\ 0 <= r /\ 0 <= dl /\ 0 <= f /\
  p + r + dl <= Z.of_nat (List.length records) /\ Z.of_nat (List.length records) <= p + f /\
  let '(err, w') := deliver_all publish clock d records failures w in
  moved (World.metrics w) (World.metrics w') p r dl f /\
  World.pub w' = fold_left (fun pub record => (publish (Record_.Event_ record) pub).2) records (World.pub w) /\
  (err = None <-> failures = None /\ p = Z.of_nat (List.length records) /\ f = 0).
Proof.
  revert failures w. induction records as [|record records IH]; intros failures w;
    cbn [deliver_all List.length fold_left].
  { exists 0, 0, 0, 0. repeat (split; [lia|]). split; [apply moved_refl|]. split; [done|naive_solver]. }
  destruct (deliver_accounts record failures w) as (p & r & dl & f & ? & ? & ? & ? & ? & ? & Hd).
  destruct (deliver publish clock d record failures w) as [err1 w1]. destruct Hd as (Hm & Hp & He).
  destruct (IH err1 w1) as (p' & r' & dl' & f' & ? & ? & ? & ? & ? & ? & HI).
  exists (p + p'), (r + r'), (dl + dl'), (f + f'). repeat (split; [lia|]).
  destruct (deliver_all publish clock d records err1 w1) as [err w'].
  destruct HI as (Hm' & Hp' & He'). split; [by eapply moved_trans|]. split; [by rewrite Hp', Hp|].
  rewrite He', He. split.
  - intros ((-> & -> & ->) & -> & ->). split; [done|]. lia.
  - intros (-> & Hpn & Hf). repeat split; lia.
Qed.
End Accounting.

(** ** Properties *)

(** C12.  Delivery is final: an event that was published or dead-lettered keeps
    its row unchanged through any sequence of claims, acknowledgements, retries
    and dead-letterings by any workers, and no claim ever hands it out again. *)
Theorem delivered_event_final ops db k r
    (Hops : Forall op_ok ops) (Hok : outbox_ok db)
    (Hr : DB.outbox db !! k = Some r) (Hdone : undelivered r = false) :
  let '(log, db') := run outbox_exec ops db in
  DB.outbox db' !! k = Some r /\ Forall (not_claimed k) log.
Proof.
  pose proof (run_log_invariant outbox_exec op_ok (delivered_inv k r)
    (fun log op db Hop => delivered_step k r log op db Hdone Hop) ops db Hops) as H.
  destruct (run outbox_exec ops db) as [log db']. cbn [fst snd] in H.
  destruct H as (_ & ? & ?); [|done]. split; [done|]. split; [done|constructor].
Qed.

(** C13.  A delivery lease excludes other workers: while an event is leased, it
    is changed only by an acknowledgement of the lease's owner before the lease
    expires, or by a claim at or after its expiry. *)
Theorem outbox_lease_exclusive op db k r owner expiry
    (Hok : outbox_ok db) (Hr : DB.outbox db !! k = Some r)
    (Howner : OutboxRow.lease_owner r = Some owner)
    (Hexpiry : OutboxRow.lease_expires_at r = Some expiry)
    (Hchanged : DB.outbox (outbox_exec op db).2 !! k <> Some r) :
  match op with
  | OClaim _ _ _ _ now _ => expiry <= now
  | _ => outbox_owner op = owner /\ normaliseTime (outbox_time op) < expiry
  end.
Proof.
  destruct (outbox_exec_change op db k r Hok Hr) as (r' & Hr' & Hc). rewrite Hr' in Hchanged.
  assert (Hack : forall o at_, acknowledged o at_ r r' -> o = owner /\ normaliseTime at_ < expiry).
  { intros o at_ (Hl & _). unfold leased_to, col_eq, col_gt in Hl. rewrite Howner, Hexpiry in Hl.
    reflect_bools. naive_solver. }
  inversion Hc; subst; simpl; try done; try (by apply Hack).
  match goal with H : claimable _ _ = true |- _ => unfold claimable in H; rewrite Hexpiry in H end.
  reflect_bools. pose proof (Truncate_le now Microsecond ltac:(done)). unfold normaliseTime in *. lia.
Qed.

(** C14.  No event is lost: an event that is neither published nor
    dead-lettered, whose retry time has come and whose lease, if any, has
    expired, is taken by the next claim, provided no other session has its row
    locked, fewer available unlocked events than the limit come before it, and no
    attempt counter overflows.  The claim hands it out with its identity, payload
    and one more attempt, and its row is leased to the caller from then on. *)
Theorem available_event_claimed locked returning owner limit now lease db k r
    (Hok : outbox_ok db) (Hret : forall l, returning l ≡ₚ l)
    (Howner : owner <> "") (Henc : encodable owner = true)
    (Hnow : now <> 0) (Hlease : 0 < lease)
    (Hlimit : Z.of_nat (List.length (ahead locked (normaliseTime now) k db)) < limit)
    (Hroom : forall k' r', DB.outbox db !! k' = Some r' -> claimable (normaliseTime now) r' = true ->
       OutboxRow.attempts r' < max_int32)
    (Hr : DB.outbox db !! k = Some r) (Hclaim : claimable (normaliseTime now) r = true) (Hfree : locked k = false) :
  exists records db' rec,
    Claim locked returning owner limit now lease db = (Ok records, db') /\
    rec ∈ records /\ Record_.Sequence rec = k /\
    Record_.Event_ rec = Record_.Event_ (scanRecord r) /\
    Record_.Attempts rec = OutboxRow.attempts r + 1 /\
    DB.outbox db' !! k = Some (lease_row owner (normaliseTime (now + lease)) r).
Proof.
  pose proof (claimed_in_turn locked limit (normaliseTime now) db k r Hok Hr Hclaim Hfree Hlimit) as Hin.
  unfold Claim. rewrite bool_decide_false by done.
  replace (limit <=? 0) with false by (symmetry; apply Z.leb_gt; lia).
  replace (IsZero now) with false by (symmetry; by apply Z.eqb_neq).
  replace (lease <=? 0) with false by (symmetry; apply Z.leb_gt; lia).
  rewrite Henc. cbn [orb negb]. rewrite (leased_rows_fit locked owner limit _ _ db Hok Hroom).
  do 2 eexists. exists (scanRecord (lease_row owner (normaliseTime (now + lease)) r)).
  pose proof (Hok _ _ Hr) as (Hseq & _). split; [done|].
  split; [rewrite Hret; apply list_elem_of_fmap; eexists; split; [done|]; apply list_elem_of_fmap; eauto|].
  do 3 (split; [done|]). by apply leased_lookup.
Qed.

(** A dispatcher pass accounts for its batch: it publishes the claimed
    events once each, in the order they were claimed; every record is published
    and acknowledged, scheduled for retry, dead-lettered or reported as a
    failure; and the pass reports no error exactly when every claimed event was
    published and acknowledged. *)
Theorem dispatcher_accounts {St Pub} `{OutboxStore St} publish clock d (w : World.t St Pub) records store
    (Hvalid : validate d = None)
    (Hclaim : claim (Dispatcher.WorkerID d) (Dispatcher.BatchSize d) (clock (World.ticks w))
                (Dispatcher.Lease d) (World.store w) = (Ok records, store)) :
  let n := Z.of_nat (List.length records) in
  exists p r dl f, 0 <= p /\ 0 <= r /\ 0 <= dl /\ 0 <= f /\ p + r + dl <= n <= p + f /\
  let '(count, err, w') := RunOnce publish clock d w in
  count = n /\
  moved (Metrics.recordClaimed n (World.metrics w)) (World.metrics w') p r dl f /\
  World.pub w' = fold_left (fun pub record => (publish (Record_.Event_ record) pub).2) records (World.pub w) /\
  (err = None <-> p = n /\ f = 0).
Proof.
  cbv zeta. unfold RunOnce, Now. rewrite Hvalid. cbv zeta.
  change (World.store (w <| World.ticks := S (World.ticks w) |>)) with (World.store w). rewrite Hclaim.
  match goal with |- context [deliver_all publish clock d records None ?w0] =>
    destruct (deliver_all_accounts publish clock d records None w0)
      as (p & r & dl & f & ? & ? & ? & ? & ? & ? & HI);
    exists p, r, dl, f; do 5 (split; [lia|]);
    destruct (deliver_all publish clock d records None w0) as [err w'] end.
  destruct HI as (Hm & Hp & He). split; [done|]. split; [done|]. split; [done|].
  rewrite He. naive_solver.
Qed.

(** ** Witnesses *)
Definition demo_event : Event.t :=
  Event.mk "evt-1" "tenant" "resolution" "res-1" "resolution.received" "{}" 5000.
Definition outbox_demo_db : DB.t :=
  set_outbox (event_row 1 "{}" demo_event) (set_outbox (event_row 2 "{}" (demo_event <| Event.ID := "evt-2" |>)) DB.empty).

Lemma outbox_demo_ok : outbox_ok outbox_demo_db.
Proof.
  apply map_Forall_insert_2; [by repeat split; auto|].
  apply map_Forall_insert_2; [by repeat split; auto|]. apply map_Forall_empty.
Qed.

Definition demo_claim (owner : string) (now : Z) : OutboxOp :=
  OClaim (fun _ => false) (fun l => l) owner 10 now 4000.
(** A worker claims both events, publishes the first and lets the second expire. *)
Definition outbox_demo_ops : list OutboxOp := [demo_claim "w1" 6000; OMark 1 "w1" 7000].
Definition outbox_demo_done : DB.t := (run outbox_exec outbox_demo_ops outbox_demo_db).2.

Lemma outbox_demo_done_ok : outbox_ok outbox_demo_done.
Proof.
  apply (run_invariant outbox_exec (fun _ => True) outbox_ok); [|by apply Forall_true|apply outbox_demo_ok].
  intros op db _. apply outbox_exec_ok.
Qed.

Lemma delivered_event_final_witness :
  exists r, DB.outbox outbox_demo_done !! 1 = Some r /\
    DB.outbox (run outbox_exec [demo_claim "w2" 20000; ODead 1 "w2" 21000 "late"] outbox_demo_done).2 !! 1 = Some r.
Proof.
  eexists. split; [vm_compute; reflexivity|].
  assert (Hr : DB.outbox outbox_demo_done !! 1 =
    Some ((event_row 1 "{}" demo_event) <| OutboxRow.published_at := Some 7000 |> <| OutboxRow.attempts := 1 |>))
    by by vm_compute.
  pose proof (delivered_event_final [demo_claim "w2" 20000; ODead 1 "w2" 21000 "late"] outbox_demo_done 1 _
    ltac:(constructor; [by cbn|constructor; [done|by apply Forall_nil]]) outbox_demo_done_ok Hr ltac:(by vm_compute)) as H.
  destruct (run outbox_exec _ outbox_demo_done) as [log db']. apply H.
Defined.

(** The second event after [outbox_demo_ops]: leased to [w1] until 10000. *)
Definition outbox_demo_leased : OutboxRow.t :=
  (event_row 2 "{}" (demo_event <| Event.ID := "evt-2" |>)) <| OutboxRow.lease_owner := Some "w1" |>
    <| OutboxRow.lease_expires_at := Some 10000 |> <| OutboxRow.attempts := 1 |>.
Lemma outbox_demo_leased_row : DB.outbox outbox_demo_done !! 2 = Some outbox_demo_leased.
Proof. by vm_compute. Qed.

(** While it is leased, neither another worker's acknowledgement nor its claim,
    nor the holder after the lease, changes it; the holder before the end and
    a claim at the end do. *)
Lemma outbox_lease_exclusive_witness :
  DB.outbox (outbox_exec (OMark 2 "w2" 8000) outbox_demo_done).2 !! 2 = Some outbox_demo_leased /\
  DB.outbox (outbox_exec (ODead 2 "w1" 10000 "late") outbox_demo_done).2 !! 2 = Some outbox_demo_leased /\
  DB.outbox (outbox_exec (demo_claim "w2" 9999) outbox_demo_done).2 !! 2 = Some outbox_demo_leased /\
  DB.outbox (outbox_exec (OMark 2 "w1" 8000) outbox_demo_done).2 !! 2 <> Some outbox_demo_leased /\
  DB.outbox (outbox_exec (demo_claim "w2" 10000) outbox_demo_done).2 !! 2 <> Some outbox_demo_leased.
Proof.
  pose proof (fun op => outbox_lease_exclusive op outbox_demo_done 2 outbox_demo_leased "w1" 10000
    outbox_demo_done_ok outbox_demo_leased_row eq_refl eq_refl) as Hex.
  assert (Hkeeps : forall op,
    (DB.outbox (outbox_exec op outbox_demo_done).2 !! 2 <> Some outbox_demo_leased -> False) ->
    DB.outbox (outbox_exec op outbox_demo_done).2 !! 2 = Some outbox_demo_leased).
  { intros op Hno. by destruct (decide (DB.outbox (outbox_exec op outbox_demo_done).2 !! 2 = Some outbox_demo_leased)). }
  split; [apply Hkeeps; intros Hch; by destruct (Hex _ Hch)|].
  split; [apply Hkeeps; intros Hch; destruct (Hex _ Hch) as [_ Hlt]; by vm_compute in Hlt|].
  split; [apply Hkeeps; intros Hch; specialize (Hex _ Hch); by vm_compute in Hex|].
  split; by vm_compute.
Defined.

(** Its lease expired, the second event goes to [w2], in a batch of one and
    while another session has the first row locked. *)
Lemma available_event_claimed_witness :
  exists records db' rec,
    Claim (fun k => k =? 1) (fun l => l) "w2" 1 10000 4000 outbox_demo_done = (Ok records, db') /\
    rec ∈ records /\ Record_.Sequence rec = 2 /\ Record_.Attempts rec = 2 /\
    DB.outbox db' !! 2 = Some (lease_row "w2" 14000 outbox_demo_leased).
Proof.
  destruct (available_event_claimed (fun k => k =? 1) (fun l => l) "w2" 1 10000 4000 outbox_demo_done 2
    outbox_demo_leased outbox_demo_done_ok ltac:(done) ltac:(done) ltac:(by vm_compute) ltac:(done) ltac:(done)
    ltac:(by vm_compute)) as (records & db' & rec & H1 & H2 & H3 & _ & H5 & H6).
  - assert (H : map_Forall (fun _ r => OutboxRow.attempts r < max_int32) (DB.outbox outbox_demo_done))
      by (apply (bool_decide_eq_true_1 _); by vm_compute).
    intros k r Hr _. exact (H k r Hr).
  - exact outbox_demo_leased_row.
  - by vm_compute.
  - done.
  - by exists records, db', rec.
Defined.

(** A publisher that records what it delivers and refuses ["evt-2"]. *)
Definition demo_publish (e : Event.t) (sent : list string) : option error * list string :=
  if Event.ID e ==? "evt-2" then (Some (Text "unavailable"), sent) else (None, sent ++ [Event.ID e]).
Definition demo_dispatcher : Dispatcher.t := Dispatcher.mk "w1" 10 5 4000 (fun n => 1000 * n).
Definition demo_world : World.t DB.t (list string) :=
  World.mk outbox_demo_db [] Metrics.zero 0%nat.

Lemma dispatcher_accounts_witness :
  exists p r dl f, 0 <= p /\ 0 <= r /\ 0 <= dl /\ 0 <= f /\ p + r + dl <= 2 <= p + f /\
  (RunOnce demo_publish (fun n => 6000 + 100 * Z.of_nat n) demo_dispatcher demo_world).1.1 = 2.
Proof.
  destruct (dispatcher_accounts demo_publish (fun n => 6000 + 100 * Z.of_nat n) demo_dispatcher demo_world
    (match (Claim (fun _ => false) (fun l => l) "w1" 10 6000 4000 outbox_demo_db).1 with Ok l => l | Err _ => [] end)
    (Claim (fun _ => false) (fun l => l) "w1" 10 6000 4000 outbox_demo_db).2
    ltac:(by vm_compute) ltac:(by vm_compute)) as (p & r & dl & f & ? & ? & ? & ? & Hn & H).
  exists p, r, dl, f. do 4 (split; [done|]). split; [exact Hn|].
  destruct (RunOnce _ _ demo_dispatcher demo_world) as [[n err] w']. apply H.
Defined.

(** ** A failure text the database refuses

    A publisher's error whose text contains a NUL byte survives [boundedError],
    so the retry of its event is refused. *)
Example boundedError_keeps_NUL :
  let leased := (outbox_exec (demo_claim "w1" 6000) outbox_demo_db).2 in
  let retry failure := (outbox_exec (ORetry 1 "w1" 7000 8000 failure) leased).1 in
  retry "lost" = Ok [] /\ is_ok (retry ("lost" +:+ NUL)) = false.
Proof. split; by vm_compute. Qed.
