(* ===== verification/DeadLetter.v ===== *)
(** * Dead-letter inspection and replay

    [internal/deadletter]: operators list events whose delivery failed for good
    and put them back into the outbox.  A replay is one transaction: under a
    lock on the caller's idempotency key it looks for an earlier action, locks
    the event, appends an audit action and requeues the event; an error rolls
    all of it back.  The service in front checks the caller's role and scope. *)
From S2P Require Import Prelude GoStrings Authctx Task Schema Outbox.
Local Open Scope Z_scope.

Definition OperatorRole : string := "outbox-operator".
Definition ReadScope : string := "outbox:dead-letter:read".
Definition ReplayScope : string := "outbox:dead-letter:replay".
Definition maximumReplayReasonLength : Z := 512.
Definition maximumIdempotencyKeyLength : Z := 128.
Definition maximumEventIDLength : Z := 256.

Definition ErrNotFound := New "deadletter.ErrNotFound" "dead-lettered outbox event was not found".
Definition ErrReplayConflict := New "deadletter.ErrReplayConflict" "dead-letter replay idempotency conflict".
Definition ErrDenied := New "deadletter.ErrDenied" "dead-letter operator authorization denied".
Definition ErrInvalidInput := New "deadletter.ErrInvalidInput" "dead-letter operator input is invalid".

Module Entry.
Record t := mk {
  Sequence : Z; EventID : string; AggregateType : string; AggregateID : string;
  EventType : string; OccurredAt : Z; Attempts : Z; DeadLetteredAt : Z }.
End Entry.

Module ReplayCommand.
Record t := mk {
  ActionID : string; TenantID : string; EventID : string; ActorID : string; SPIFFEID : string;
  IdentityRevision : string; IdempotencyKey : string; Reason : string }.
#[global] Instance eta_t : Eta t := fun x =>
  mk (ActionID x) (TenantID x) (EventID x) (ActorID x) (SPIFFEID x) (IdentityRevision x)
     (IdempotencyKey x) (Reason x).
End ReplayCommand.

Module ReplayResult.
Record t := mk { ActionID : string; EventID : string; RequestedAt : Z; AvailableAt : Z; Replayed : bool }.
#[global] Instance eta_t : Eta t := fun x =>
  mk (ActionID x) (EventID x) (RequestedAt x) (AvailableAt x) (Replayed x).
End ReplayResult.

(** ** The repository *)

(** A dead-lettered event of the tenant. *)
Definition dead_for (tenantID : string) (r : OutboxRow.t) : bool :=
  (OutboxRow.tenant_id r ==? tenantID) && is_null (OutboxRow.published_at r) &&
  negb (is_null (OutboxRow.dead_lettered_at r)).

Definition scanEntry (r : OutboxRow.t) : Entry.t :=
  Entry.mk (OutboxRow.sequence r) (OutboxRow.id r) (OutboxRow.aggregate_type r)
    (OutboxRow.aggregate_id r) (OutboxRow.event_type r) (OutboxRow.occurred_at r)
    (OutboxRow.attempts r) (match OutboxRow.dead_lettered_at r with Some t => t | None => 0 end).

Definition repo_List (tenantID : string) (beforeSequence limit : Z) (db : DB.t) :
    result (list Entry.t) :=
  if (tenantID ==? "") || (beforeSequence <? 0) || (limit <=? 0) || (100 <? limit) then
    Err (Text "dead-letter database, tenant, cursor and bounded limit are required")
  else if negb (encodable tenantID) then Err (Wrapf "list dead-lettered events: " invalid_text "")
  else Ok (map scanEntry (firstn (Z.to_nat limit) (rev (List.filter (fun r =>
    dead_for tenantID r &&
    ((beforeSequence =? 0) || (OutboxRow.sequence r <? beforeSequence))) (rows db))))).

(** The row of an event of the tenant that is dead-lettered; event identifiers
    are unique in the outbox. *)
Definition find_dead (tenantID eventID : string) (db : DB.t) : option OutboxRow.t :=
  List.find (fun r => (OutboxRow.id r ==? eventID) && dead_for tenantID r) (rows db).

Definition repo_Get (tenantID eventID : string) (db : DB.t) : result Entry.t :=
  if (tenantID ==? "") || (eventID ==? "") then
    Err (Text "dead-letter database, tenant and event id are required")
  else if negb (all_encodable [tenantID; eventID]) then
    Err (Wrapf "get dead-lettered event: " invalid_text "")
  else match find_dead tenantID eventID db with
  | Some r => Ok (scanEntry r)
  | None => Err ErrNotFound
  end.

Definition validateReplayCommand (c : ReplayCommand.t) : option error :=
  if (ReplayCommand.ActionID c ==? "") || (ReplayCommand.TenantID c ==? "") ||
     (ReplayCommand.EventID c ==? "") || (ReplayCommand.ActorID c ==? "") ||
     (ReplayCommand.SPIFFEID c ==? "") || (ReplayCommand.IdentityRevision c ==? "") ||
     (ReplayCommand.IdempotencyKey c ==? "") || (ReplayCommand.Reason c ==? "") then
    Some (Text "complete dead-letter replay command and database are required")
  else None.

Definition lockDeadLetteredEvent (c : ReplayCommand.t) (db : DB.t) : result OutboxRow.t :=
  if negb (all_encodable [ReplayCommand.TenantID c; ReplayCommand.EventID c]) then
    Err (Wrapf "lock dead-lettered event: " invalid_text "")
  else match find_dead (ReplayCommand.TenantID c) (ReplayCommand.EventID c) db with
  | Some r => Ok r
  | None => Err ErrNotFound
  end.

(** The action recorded under the caller's idempotency key, unique by the
    table's constraint. *)
Definition same_key (tenantID actorID key : string) (a : ActionRow.t) : bool :=
  (ActionRow.tenant_id a ==? tenantID) && (ActionRow.actor_id a ==? actorID) &&
  (ActionRow.idempotency_key a ==? key).
Definition find_action (tenantID actorID key : string) (db : DB.t) : option ActionRow.t :=
  List.find (same_key tenantID actorID key) (map snd (map_to_list (DB.dead_letter_actions db))).

Definition findReplay (c : ReplayCommand.t) (db : DB.t) : result (option ReplayResult.t) :=
  match find_action (ReplayCommand.TenantID c) (ReplayCommand.ActorID c) (ReplayCommand.IdempotencyKey c) db with
  | None => Ok None
  | Some a =>
    if (ActionRow.event_id a !=? ReplayCommand.EventID c) ||
       (ActionRow.reason a !=? ReplayCommand.Reason c) then Err ErrReplayConflict
    else Ok (Some (ReplayResult.mk (ActionRow.action_id a) (ActionRow.event_id a)
           (ActionRow.requested_at a) (ActionRow.available_at a) false))
  end.

(** [INSERT INTO broker_dead_letter_actions]. *)
Definition insert_action (a : ActionRow.t) (db : DB.t) : result DB.t :=
  if negb (all_encodable [ActionRow.action_id a; ActionRow.tenant_id a; ActionRow.event_id a;
       ActionRow.actor_id a; ActionRow.spiffe_id a; ActionRow.identity_revision a;
       ActionRow.idempotency_key a; ActionRow.reason a; ActionRow.last_error_at_action a])
  then Err invalid_text
  else if negb (ActionRow.check a) then Err check_violation
  else if negb (is_null (DB.dead_letter_actions db !! ActionRow.action_id a)) ||
          negb (is_null (find_action (ActionRow.tenant_id a) (ActionRow.actor_id a)
                           (ActionRow.idempotency_key a) db)) then Err unique_violation
  else if is_null (DB.outbox db !! ActionRow.outbox_sequence a) then Err foreign_key_violation
  else Ok (db <| DB.dead_letter_actions := <[ActionRow.action_id a := a]> (DB.dead_letter_actions db) |>).

Definition requeued (available_at : Z) (r : OutboxRow.t) : OutboxRow.t :=
  r <| OutboxRow.dead_lettered_at := None |> <| OutboxRow.lease_owner := None |>
    <| OutboxRow.lease_expires_at := None |> <| OutboxRow.attempts := 0 |>
    <| OutboxRow.available_at := available_at |>.

(** [Replay]; [current_timestamp] is the transaction's time. *)
Definition repo_Replay (current_timestamp : Z) (c : ReplayCommand.t) (db : DB.t) :
    result ReplayResult.t * DB.t :=
  match validateReplayCommand c with
  | Some e => (Err e, db)
  | None =>
    if negb (all_encodable [ReplayCommand.TenantID c; ReplayCommand.ActorID c; ReplayCommand.IdempotencyKey c])
    then (Err (Wrapf "lock dead-letter replay idempotency key: " invalid_text ""), db)
    else match findReplay c db with
    | Err e => (Err e, db)
    | Ok (Some existing) => (Ok existing, db)
    | Ok None =>
      match lockDeadLetteredEvent c db with
      | Err e => (Err e, db)
      | Ok r =>
        let a := ActionRow.mk (ReplayCommand.ActionID c) (ReplayCommand.TenantID c)
          (OutboxRow.sequence r) (OutboxRow.id r) (ReplayCommand.ActorID c) (ReplayCommand.SPIFFEID c)
          (ReplayCommand.IdentityRevision c) "replay" (ReplayCommand.IdempotencyKey c)
          (ReplayCommand.Reason c)
          (match OutboxRow.dead_lettered_at r with Some t => t | None => 0 end)
          (OutboxRow.attempts r) (COALESCE (OutboxRow.last_error r))
          current_timestamp current_timestamp in
        match insert_action a db with
        | Err e => (Err (Wrapf "insert dead-letter replay audit: " e ""), db)
        | Ok db1 =>
          match DB.outbox db1 !! OutboxRow.sequence r with
          | Some row =>
            if is_null (OutboxRow.published_at row) && negb (is_null (OutboxRow.dead_lettered_at row)) then
              (Ok (ReplayResult.mk (ReplayCommand.ActionID c) (OutboxRow.id r) current_timestamp
                     current_timestamp true),
               set_outbox (requeued current_timestamp row) db1)
            else (Err ErrNotFound, db)
          | None => (Err ErrNotFound, db)
          end
        end
      end
    end
  end.

(** ** The service *)
Definition containsExact := contains.

Definition authorize (actor : AuthContext.t) (scope : string) : option error :=
  if negb (is_null (AuthContext.Validate actor)) || (AuthContext.SPIFFEID actor ==? "") ||
     (AuthContext.IdentityRevision actor ==? "") ||
     negb (containsExact (AuthContext.Roles actor) OperatorRole) ||
     negb (containsExact (AuthContext.AllowedScopes actor) scope)
  then Some ErrDenied else None.

Definition validateEventID (eventID : string) : option error :=
  if (eventID ==? "") || (maximumEventIDLength <? len eventID) || (TrimSpace eventID !=? eventID) ||
     ContainsAny eventID [47; 92; 0; 13; 10; 9]
  then Some (Wrapf "" ErrInvalidInput ": event id is invalid") else None.

Definition List_ (actor : AuthContext.t) (beforeSequence limit : Z) (db : DB.t) : result (list Entry.t) :=
  match authorize actor ReadScope with
  | Some e => Err e
  | None =>
    if (beforeSequence <? 0) || (limit <=? 0) || (100 <? limit) then
      Err (Wrapf "" ErrInvalidInput ": cursor must be nonnegative and limit must be between 1 and 100")
    else repo_List (AuthContext.TenantID actor) beforeSequence limit db
  end.

Definition Get (actor : AuthContext.t) (eventID : string) (db : DB.t) : result Entry.t :=
  match authorize actor ReadScope with
  | Some e => Err e
  | None =>
    match validateEventID eventID with
    | Some e => Err e
    | None => repo_Get (AuthContext.TenantID actor) eventID db
    end
  end.

(** [newID] is the outcome of the identifier generator. *)
Definition Replay (newID : result string) (current_timestamp : Z) (actor : AuthContext.t)
    (eventID idempotencyKey reason : string) (db : DB.t) : result ReplayResult.t * DB.t :=
  match authorize actor ReplayScope with
  | Some e => (Err e, db)
  | None =>
    match validateEventID eventID with
    | Some e => (Err e, db)
    | None =>
      let idempotencyKey := TrimSpace idempotencyKey in
      let reason := TrimSpace reason in
      if (idempotencyKey ==? "") || (maximumIdempotencyKeyLength <? len idempotencyKey) ||
         (reason ==? "") || (maximumReplayReasonLength <? len reason) then
        (Err (Wrapf "" ErrInvalidInput
           ": idempotency key up to 128 bytes and reason up to 512 bytes are required"), db)
      else match newID with
      | Err e => (Err (Wrapf "generate dead-letter action id: " e ""), db)
      | Ok actionID =>
        repo_Replay current_timestamp
          (ReplayCommand.mk actionID (AuthContext.TenantID actor) eventID (AuthContext.SubjectID actor)
             (AuthContext.SPIFFEID actor) (AuthContext.IdentityRevision actor) idempotencyKey reason) db
      end
    end
  end.

(** ** The audit table *)

(** Actions are keyed by identifier and unique per idempotency key. *)
Definition actions_ok (db : DB.t) : Prop :=
  map_Forall (fun k a => ActionRow.action_id a = k) (DB.dead_letter_actions db) /\
  (forall k1 k2 a b, DB.dead_letter_actions db !! k1 = Some a -> DB.dead_letter_actions db !! k2 = Some b ->
     ActionRow.tenant_id a = ActionRow.tenant_id b -> ActionRow.actor_id a = ActionRow.actor_id b ->
     ActionRow.idempotency_key a = ActionRow.idempotency_key b -> a = b).

Lemma same_key_spec t ac k a :
  same_key t ac k a = true <->
  ActionRow.tenant_id a = t /\ ActionRow.actor_id a = ac /\ ActionRow.idempotency_key a = k.
Proof. unfold same_key. rewrite !andb_true_iff, !bool_decide_eq_true. tauto. Qed.

Lemma action_values db a :
  In a (map snd (map_to_list (DB.dead_letter_actions db))) <->
  exists k, DB.dead_letter_actions db !! k = Some a.
Proof.
  rewrite in_map_iff. split.
  - intros ([k x] & <- & Hin%list_elem_of_In%elem_of_map_to_list). by exists k.
  - intros [k Hk]. exists (k, a). split; [done|]. by apply list_elem_of_In, elem_of_map_to_list.
Qed.

Lemma find_action_Some t ac k db a :
  find_action t ac k db = Some a -> same_key t ac k a = true /\ exists i, DB.dead_letter_actions db !! i = Some a.
Proof. intros H%find_some. destruct H as [Hin Hk]. split; [done|]. by apply action_values. Qed.

Lemma find_action_found t ac k db a i :
  actions_ok db -> DB.dead_letter_actions db !! i = Some a -> same_key t ac k a = true ->
  find_action t ac k db = Some a.
Proof.
  intros [_ Hu] Hi Hk. destruct (find_action t ac k db) as [b|] eqn:Hf.
  - apply find_action_Some in Hf as [Hb [j Hj]]. apply same_key_spec in Hk, Hb.
    f_equal. destruct Hk as (? & ? & ?), Hb as (? & ? & ?). eapply Hu; [exact Hj|exact Hi|..]; congruence.
  - exfalso. unfold find_action in Hf.
    rewrite (find_none _ _ Hf a) in Hk; [done|]. apply action_values. by exists i.
Qed.

Lemma find_dead_Some t e db r :
  outbox_ok db -> find_dead t e db = Some r ->
  DB.outbox db !! OutboxRow.sequence r = Some r /\ OutboxRow.id r = e /\ dead_for t r = true.
Proof.
  intros Hok [Hin H]%find_some. apply andb_true_iff in H as [Hid%bool_decide_eq_true Hd].
  split; [|done]. apply rows_elem; [done|]. by apply list_elem_of_In.
Qed.

(** ** What a replay does *)
Definition replay_action (ts : Z) (c : ReplayCommand.t) (r : OutboxRow.t) (a : ActionRow.t) : Prop :=
  ActionRow.action_id a = ReplayCommand.ActionID c /\ ActionRow.tenant_id a = ReplayCommand.TenantID c /\
  ActionRow.outbox_sequence a = OutboxRow.sequence r /\ ActionRow.event_id a = ReplayCommand.EventID c /\
  ActionRow.actor_id a = ReplayCommand.ActorID c /\ ActionRow.spiffe_id a = ReplayCommand.SPIFFEID c /\
  ActionRow.identity_revision a = ReplayCommand.IdentityRevision c /\
  ActionRow.idempotency_key a = ReplayCommand.IdempotencyKey c /\
  ActionRow.reason a = ReplayCommand.Reason c /\ ActionRow.attempts_at_action a = OutboxRow.attempts r /\
  ActionRow.requested_at a = ts /\ ActionRow.available_at a = ts.

Lemma insert_action_Ok a db db' :
  insert_action a db = Ok db' ->
  DB.dead_letter_actions db !! ActionRow.action_id a = None /\
  find_action (ActionRow.tenant_id a) (ActionRow.actor_id a) (ActionRow.idempotency_key a) db = None /\
  db' = db <| DB.dead_letter_actions := <[ActionRow.action_id a := a]> (DB.dead_letter_actions db) |>.
Proof.
  unfold insert_action. intros H. destruct (negb (all_encodable _)); [done|].
  destruct (negb (ActionRow.check a)); [done|].
  destruct (DB.dead_letter_actions db !! ActionRow.action_id a); [done|].
  destruct (find_action _ _ _ db); [done|]. simpl in H.
  destruct (is_null _); [done|]. by injection H as <-.
Qed.

Lemma repo_Replay_cases ts c db :
  outbox_ok db ->
  match repo_Replay ts c db with
  | (Err _, db') => db' = db
  | (Ok res, db') =>
    (ReplayResult.Replayed res = false /\ db' = db /\ findReplay c db = Ok (Some res)) \/
    (exists r a, find_action (ReplayCommand.TenantID c) (ReplayCommand.ActorID c)
         (ReplayCommand.IdempotencyKey c) db = None /\
       res = ReplayResult.mk (ReplayCommand.ActionID c) (ReplayCommand.EventID c) ts ts true /\
       DB.outbox db !! OutboxRow.sequence r = Some r /\ OutboxRow.id r = ReplayCommand.EventID c /\
       dead_for (ReplayCommand.TenantID c) r = true /\ replay_action ts c r a /\
       DB.dead_letter_actions db !! ActionRow.action_id a = None /\
       db' = set_outbox (requeued ts r)
         (db <| DB.dead_letter_actions := <[ActionRow.action_id a := a]> (DB.dead_letter_actions db) |>))
  end.
Proof.
  intros Hok. unfold repo_Replay. destruct (validateReplayCommand c); [done|].
  destruct (negb _); [done|]. destruct (findReplay c db) as [[existing|]|e] eqn:Hf; [|  |done].
  { left. split; [|done]. unfold findReplay in Hf. repeat case_match; by simplify_eq. }
  unfold lockDeadLetteredEvent. destruct (negb _); [done|].
  destruct (find_dead _ _ db) as [r|] eqn:Hd; [|done].
  apply find_dead_Some in Hd as (Hr & Hid & Hdead); [|done].
  cbv zeta. match goal with |- context [insert_action ?a db] => set (act := a) end.
  destruct (insert_action act db) as [db1|] eqn:Hi; [|done].
  apply insert_action_Ok in Hi as (Hnew & Hnone & ->). cbn [DB.outbox]. simpl. rewrite Hr.
  destruct (_ && _); [|done]. right. exists r, act. split; [exact Hnone|].
  split; [by rewrite Hid|]. do 3 (split; [done|]). split; [|done].
  unfold replay_action. simpl. by rewrite Hid.
Qed.

Lemma actions_ok_insert db a :
  actions_ok db ->
  find_action (ActionRow.tenant_id a) (ActionRow.actor_id a) (ActionRow.idempotency_key a) db = None ->
  actions_ok (db <| DB.dead_letter_actions := <[ActionRow.action_id a := a]> (DB.dead_letter_actions db) |>).
Proof.
  intros [Hk Hu] Hnone.
  assert (Hno : forall k b, DB.dead_letter_actions db !! k = Some b ->
    same_key (ActionRow.tenant_id a) (ActionRow.actor_id a) (ActionRow.idempotency_key a) b = false).
  { intros k b Hb. apply (find_none _ _ Hnone). apply action_values. by exists k. }
  split; simpl; [by apply map_Forall_insert_2|].
  intros k1 k2 x y Hx Hy Ht Ha Hi.
  apply lookup_insert_Some in Hx as [[_ <-]|[_ Hx]]; apply lookup_insert_Some in Hy as [[_ <-]|[_ Hy]];
    [done| | |by eapply Hu].
  - specialize (Hno _ _ Hy). apply not_true_iff_false in Hno. destruct Hno. by apply same_key_spec.
  - specialize (Hno _ _ Hx). apply not_true_iff_false in Hno. destruct Hno. by apply same_key_spec.
Qed.

(** ** Properties *)

(** C16.  A replay is applied once: when it succeeds as a replay, the event was
    a dead-lettered event of the caller's tenant, it becomes claimable from the
    transaction's time with its attempts reset and its contents unchanged, and
    one audit action is appended; in every later state of the append-only audit
    table the same idempotency key yields the recorded outcome without any
    change when event and reason agree, and a conflict when they do not. *)
Theorem replay_applied_once ts c db res db'
    (Hok : outbox_ok db) (Hacts : actions_ok db)
    (Hreplay : repo_Replay ts c db = (Ok res, db')) (Hfirst : ReplayResult.Replayed res = true) :
  (exists r, DB.outbox db !! OutboxRow.sequence r = Some r /\
     OutboxRow.id r = ReplayCommand.EventID c /\ OutboxRow.tenant_id r = ReplayCommand.TenantID c /\
     undelivered r = false /\
     DB.outbox db' = <[OutboxRow.sequence r := requeued ts r]> (DB.outbox db) /\
     claimable ts (requeued ts r) = true) /\
  actions_ok db' /\
  (exists a, DB.dead_letter_actions db' = <[ReplayCommand.ActionID c := a]> (DB.dead_letter_actions db) /\
     ActionRow.event_id a = ReplayCommand.EventID c /\ ActionRow.reason a = ReplayCommand.Reason c) /\
  forall ts2 c2 db2,
    actions_ok db2 -> DB.dead_letter_actions db' ⊆ DB.dead_letter_actions db2 ->
    validateReplayCommand c2 = None -> ReplayCommand.TenantID c2 = ReplayCommand.TenantID c ->
    ReplayCommand.ActorID c2 = ReplayCommand.ActorID c ->
    ReplayCommand.IdempotencyKey c2 = ReplayCommand.IdempotencyKey c ->
    all_encodable [ReplayCommand.TenantID c; ReplayCommand.ActorID c; ReplayCommand.IdempotencyKey c] = true ->
    repo_Replay ts2 c2 db2 =
      if (ReplayCommand.EventID c2 ==? ReplayCommand.EventID c) && (ReplayCommand.Reason c2 ==? ReplayCommand.Reason c)
      then (Ok (res <| ReplayResult.Replayed := false |>), db2) else (Err ErrReplayConflict, db2).
Proof.
  pose proof (repo_Replay_cases ts c db Hok) as Hc. rewrite Hreplay in Hc.
  destruct Hc as [(Hf & _)|(r & a & Hnone & -> & Hr & Hid & Hdead & Ha & Hnew & ->)]; [congruence|].
  pose proof Ha as (Ha1 & Ha2 & Ha3 & Ha4 & Ha5 & _ & _ & Ha8 & Ha9 & _ & Ha11 & Ha12).
  unfold dead_for in Hdead. rewrite !andb_true_iff, negb_true_iff, bool_decide_eq_true in Hdead.
  destruct Hdead as [[Ht Hp] Hd]. split.
  { exists r. split; [done|]. split; [done|]. split; [done|].
    split; [unfold undelivered; by rewrite Hd, andb_false_r|]. split; [done|].
    unfold claimable, undelivered. simpl. rewrite Hp. simpl. rewrite andb_true_r. by apply Z.leb_refl. }
  assert (Hacts' : actions_ok (set_outbox (requeued ts r)
    (db <| DB.dead_letter_actions := <[ActionRow.action_id a := a]> (DB.dead_letter_actions db) |>))).
  { apply (actions_ok_insert db a Hacts). by rewrite Ha2, Ha5, Ha8. }
  split; [done|]. split; [exists a; simpl; by rewrite Ha1|].
  intros ts2 c2 db2 Hacts2 Hsub Hv2 HT HA HK Henc. unfold repo_Replay. rewrite Hv2, HT, HA, HK, Henc.
  cbn [negb]. unfold findReplay. rewrite HT, HA, HK.
  erewrite (find_action_found _ _ _ db2 a (ActionRow.action_id a)); [|done| |by apply same_key_spec].
  2: { eapply lookup_weaken; [|exact Hsub]. simpl. by rewrite lookup_insert_eq. }
  rewrite Ha1, Ha4, Ha9, Ha11, Ha12, (bool_decide_ext (ReplayCommand.EventID c = _) (ReplayCommand.EventID c2 = _)),
    (bool_decide_ext (ReplayCommand.Reason c = _) (ReplayCommand.Reason c2 = _)) by naive_solver.
  repeat case_bool_decide; simpl; try done.
Qed.

(** Operators see their own tenant only: a listing succeeds only for a
    valid caller holding the operator role and the read scope; every entry is a
    dead-lettered, unpublished event of the caller's tenant below the cursor;
    entries come in strictly decreasing sequence and within the limit. *)
Theorem list_tenant_scoped actor before limit db entries
    (Hok : outbox_ok db) (Hlist : List_ actor before limit db = Ok entries) :
  AuthContext.Validate actor = None /\ OperatorRole ∈ AuthContext.Roles actor /\
  ReadScope ∈ AuthContext.AllowedScopes actor /\
  Z.of_nat (List.length entries) <= limit <= 100 /\
  StronglySorted (fun a b => Entry.Sequence b < Entry.Sequence a) entries /\
  forall e, e ∈ entries ->
    (before <> 0 -> Entry.Sequence e < before) /\
    exists r, DB.outbox db !! Entry.Sequence e = Some r /\ e = scanEntry r /\
      OutboxRow.tenant_id r = AuthContext.TenantID actor /\
      OutboxRow.published_at r = None /\ OutboxRow.dead_lettered_at r <> None.
Proof.
  unfold List_, authorize, repo_List in Hlist.
  destruct (_ || _) eqn:Hauth in Hlist; [done|]. rewrite !orb_false_iff, !negb_false_iff in Hauth.
  destruct Hauth as ((((Hv & _) & _) & Hrole) & Hscope).
  destruct (_ || _) eqn:Hb in Hlist; [done|]. rewrite !orb_false_iff in Hb.
  destruct Hb as [[Hb1 Hb2%Z.leb_gt] Hb3%Z.ltb_ge].
  destruct (_ || _) in Hlist; [done|]. destruct (negb _) in Hlist; [done|]. injection Hlist as <-.
  set (p := fun r => dead_for _ r && _). split; [by destruct (AuthContext.Validate actor)|].
  split; [by apply contains_spec|]. split; [by apply contains_spec|].
  split; [rewrite length_map, length_firstn; lia|].
  assert (Hin : forall r, r ∈ firstn (Z.to_nat limit) (rev (List.filter p (rows db))) ->
    DB.outbox db !! OutboxRow.sequence r = Some r /\ p r = true).
  { intros r (i & Hi & _)%elem_of_take. apply list_elem_of_lookup_2, list_elem_of_In in Hi.
    apply in_rev, filter_In in Hi as [Hi Hp]. split; [|done].
    apply rows_elem; [done|]. by apply list_elem_of_In. }
  split.
  - assert (Hs : StronglySorted (fun a b => OutboxRow.sequence b < OutboxRow.sequence a)
      (firstn (Z.to_nat limit) (rev (List.filter p (rows db))))).
    { apply StronglySorted_take, StronglySorted_rev, StronglySorted_filter, rows_sorted, Hok. }
    clear Hin. induction Hs as [|r l _ IH Hr]; simpl; [constructor|]. constructor; [done|].
    apply Forall_map. exact Hr.
  - intros e He. apply list_elem_of_fmap in He as (r & -> & Hr). apply Hin in Hr as [Hr Hp].
    unfold p, dead_for in Hp. reflect_bools. destruct Hp as [[[Ht Hpub] Hd] Hcur].
    split; [simpl; naive_solver|]. exists r. split; [done|]. split; [done|]. split; [done|].
    destruct (OutboxRow.published_at r), (OutboxRow.dead_lettered_at r); done.
Qed.

(** ** Witnesses *)
Definition demo_operator : AuthContext.t :=
  AuthContext.mk "op-1" "spiffe://broker/op-1" "tenant" [OperatorRole] [ReadScope; ReplayScope] [] "mtls" 1000 "rev-1".
Definition demo_command : ReplayCommand.t :=
  ReplayCommand.mk "act-1" "tenant" "evt-1" "op-1" "spiffe://broker/op-1" "rev-1" "key-1" "retry after fix".
(** The first event was dead-lettered at 7000. *)
Definition dead_demo_db : DB.t :=
  (run outbox_exec [demo_claim "w1" 6000; ODead 1 "w1" 7000 "broken"] outbox_demo_db).2.

Lemma dead_demo_ok : outbox_ok dead_demo_db.
Proof.
  apply (run_invariant outbox_exec (fun _ => True) outbox_ok); [|by apply Forall_true|apply outbox_demo_ok].
  intros op db _. apply outbox_exec_ok.
Qed.

Lemma dead_demo_actions : actions_ok dead_demo_db.
Proof.
  assert (E : DB.dead_letter_actions dead_demo_db = ∅) by by vm_compute.
  split; rewrite E; [apply map_Forall_empty|]. intros k1 k2 a b Ha. by rewrite lookup_empty in Ha.
Qed.

Lemma replay_applied_once_witness :
  exists res, (repo_Replay 9000 demo_command dead_demo_db).1 = Ok res /\
    repo_Replay 9500 (demo_command <| ReplayCommand.ActionID := "act-2" |>)
      (repo_Replay 9000 demo_command dead_demo_db).2 =
    (Ok (res <| ReplayResult.Replayed := false |>), (repo_Replay 9000 demo_command dead_demo_db).2).
Proof.
  exists (ReplayResult.mk "act-1" "evt-1" 9000 9000 true). split; [by vm_compute|].
  destruct (replay_applied_once 9000 demo_command dead_demo_db (ReplayResult.mk "act-1" "evt-1" 9000 9000 true)
    (repo_Replay 9000 demo_command dead_demo_db).2 dead_demo_ok dead_demo_actions
    ltac:(by vm_compute) eq_refl) as (_ & Hacts & _ & H).
  rewrite (H 9500 (demo_command <| ReplayCommand.ActionID := "act-2" |>)
    (repo_Replay 9000 demo_command dead_demo_db).2 Hacts); [by vm_compute|done|by vm_compute..].
Defined.

Lemma list_tenant_scoped_witness :
  exists entries, List_ demo_operator 0 10 dead_demo_db = Ok entries /\
    map Entry.EventID entries = ["evt-1"] /\
    forall e, e ∈ entries -> exists r, DB.outbox dead_demo_db !! Entry.Sequence e = Some r /\
      OutboxRow.tenant_id r = "tenant".
Proof.
  exists [Entry.mk 1 "evt-1" "resolution" "res-1" "resolution.received" 5000 1 7000].
  assert (E : List_ demo_operator 0 10 dead_demo_db =
    Ok [Entry.mk 1 "evt-1" "resolution" "res-1" "resolution.received" 5000 1 7000]) by by vm_compute.
  split; [exact E|]. split; [done|]. intros e He.
  destruct (list_tenant_scoped demo_operator 0 10 dead_demo_db _ dead_demo_ok E)
    as (_ & _ & _ & _ & _ & H).
  destruct (H e He) as (_ & r & Hr & _ & Ht & _). by exists r.
Defined.
