(* ===== verification/Grants.v ===== *)
(** * Execution grants

    [internal/grants]: an authority signs a grant that lets one collector run
    one recipe against one target under one fencing token, and exchanges it
    once for a session credential.  The exchange checks the signature, the
    validity window, the bindings and the current fence, and then consumes the
    grant in a ledger.  [MemoryConsumptionRepository] keeps the ledger in
    memory; the PostgreSQL ledger also locks the task and checks it in the
    same transaction.  The signing provider is the interface of [Keys]. *)
From S2P Require Import Prelude GoStrings GoEncoding Json Keys Task Schema TaskPostgres.
Local Open Scope Z_scope.

Definition executionGrantSigningPurpose : string := "execution-grant".
Definition ErrInvalidSignature := New "grants.ErrInvalidSignature" "execution grant signature is invalid".
Definition ErrNotCurrent := New "grants.ErrNotCurrent" "execution grant is not currently valid".
Definition ErrBindingMismatch := New "grants.ErrBindingMismatch" "execution grant binding does not match".
Definition ErrStaleFence := New "grants.ErrStaleFence" "execution grant fencing token is stale".
Definition ErrAlreadyConsumed := New "grants.ErrAlreadyConsumed" "execution grant has already been consumed".
Definition ErrConsumptionNotFound :=
  New "grants.ErrConsumptionNotFound" "execution grant consumption was not found".
Definition ErrConsumptionIntegrity :=
  New "grants.ErrConsumptionIntegrity" "execution grant consumption integrity verification failed".

Module ExecutionGrant.
Record t := mk {
  GrantID : string; Nonce : string; TenantID : string; CollectorSPIFFEID : string;
  ResolutionID : string; TaskID : string; TargetSnapshotID : string; TargetSnapshotDigest : string;
  TargetID : string; RecipeID : string; RecipeVersion : string; ParameterDigest : string;
  FencingToken : Z; TriggerDecisionID : string; PlanningDecisionID : string;
  ExecutionDecisionID : string; ApprovalGrantID : string; Audience : string; NotBefore : Z;
  ExpiresAt : Z; MaximumDuration : Z; MaximumResponseBytes : Z; CredentialClass : string;
  SingleUse : bool; Issuer : string; SignatureAlgorithm : string; SigningKeyRef : string;
  Signature : option string }.
#[global] Instance eta_t : Eta t := fun x =>
  mk (GrantID x) (Nonce x) (TenantID x) (CollectorSPIFFEID x) (ResolutionID x) (TaskID x)
     (TargetSnapshotID x) (TargetSnapshotDigest x) (TargetID x) (RecipeID x) (RecipeVersion x)
     (ParameterDigest x) (FencingToken x) (TriggerDecisionID x) (PlanningDecisionID x)
     (ExecutionDecisionID x) (ApprovalGrantID x) (Audience x) (NotBefore x) (ExpiresAt x)
     (MaximumDuration x) (MaximumResponseBytes x) (CredentialClass x) (SingleUse x) (Issuer x)
     (SignatureAlgorithm x) (SigningKeyRef x) (Signature x).
End ExecutionGrant.
Import ExecutionGrant (GrantID, Nonce, TenantID, CollectorSPIFFEID, TaskID, TargetID, RecipeID,
  RecipeVersion, FencingToken, NotBefore, ExpiresAt, Audience, Issuer, SingleUse, Signature,
  SignatureAlgorithm, SigningKeyRef).

Module ExchangeRequest.
Record t := mk {
  PresentingSPIFFEID : string; TaskID : string; TargetID : string; RecipeID : string;
  RecipeVersion : string; FencingToken : Z; Now : Z }.
End ExchangeRequest.

Module SessionCredential.
Record t := mk {
  Token : string; GrantID : string; CollectorID : string; TargetID : string; RecipeID : string;
  RecipeVersion : string; FencingToken : Z; ExpiresAt : Z; CredentialClass : string }.
End SessionCredential.

Module Consumption.
Record t := mk {
  GrantID : string; NonceDigest : string; GrantDigest : string; TenantID : string; TaskID : string;
  CollectorSPIFFEID : string; TargetID : string; RecipeID : string; RecipeVersion : string;
  FencingToken : Z; GrantExpiresAt : Z; RequestedAt : Z }.
#[global] Instance eta_t : Eta t := fun x =>
  mk (GrantID x) (NonceDigest x) (GrantDigest x) (TenantID x) (TaskID x) (CollectorSPIFFEID x)
     (TargetID x) (RecipeID x) (RecipeVersion x) (FencingToken x) (GrantExpiresAt x) (RequestedAt x).
End Consumption.

Module ConsumptionRecord.
Record t := mk { Consumption_ : Consumption.t; ConsumedAt : Z }.
End ConsumptionRecord.

(** ** Signing *)

(** [json.Marshal] of a grant: the struct's fields in order. *)
Definition grant_tree (g : ExecutionGrant.t) : jtree :=
  TObj [ key "GrantID" (jstr (GrantID g)); key "Nonce" (jstr (Nonce g));
    key "TenantID" (jstr (TenantID g)); key "CollectorSPIFFEID" (jstr (CollectorSPIFFEID g));
    key "ResolutionID" (jstr (ExecutionGrant.ResolutionID g)); key "TaskID" (jstr (TaskID g));
    key "TargetSnapshotID" (jstr (ExecutionGrant.TargetSnapshotID g));
    key "TargetSnapshotDigest" (jstr (ExecutionGrant.TargetSnapshotDigest g));
    key "TargetID" (jstr (TargetID g)); key "RecipeID" (jstr (RecipeID g));
    key "RecipeVersion" (jstr (RecipeVersion g));
    key "ParameterDigest" (jstr (ExecutionGrant.ParameterDigest g));
    key "FencingToken" (jint (FencingToken g));
    key "TriggerDecisionID" (jstr (ExecutionGrant.TriggerDecisionID g));
    key "PlanningDecisionID" (jstr (ExecutionGrant.PlanningDecisionID g));
    key "ExecutionDecisionID" (jstr (ExecutionGrant.ExecutionDecisionID g));
    key "ApprovalGrantID" (jstr (ExecutionGrant.ApprovalGrantID g)); key "Audience" (jstr (Audience g));
    key "NotBefore" (jtime (NotBefore g)); key "ExpiresAt" (jtime (ExpiresAt g));
    key "MaximumDuration" (jint (ExecutionGrant.MaximumDuration g));
    key "MaximumResponseBytes" (jint (ExecutionGrant.MaximumResponseBytes g));
    key "CredentialClass" (jstr (ExecutionGrant.CredentialClass g)); key "SingleUse" (TBool (SingleUse g));
    key "Issuer" (jstr (Issuer g)); key "SignatureAlgorithm" (jstr (SignatureAlgorithm g));
    key "SigningKeyRef" (jstr (SigningKeyRef g)); key "Signature" (jbytes (option_map bytes (Signature g))) ].

Definition year_error : error :=
  Text "json: error calling MarshalJSON for type time.Time: Time.MarshalJSON: year outside of range [0,9999]".
Definition marshal_grant (g : ExecutionGrant.t) : result string :=
  if jtime_ok (NotBefore g) && jtime_ok (ExpiresAt g) then Ok (Marshal (grant_tree g)) else Err year_error.

(** The signature itself is not signed. *)
Definition unsigned (g : ExecutionGrant.t) : ExecutionGrant.t := g <| Signature := None |>.
Definition signingPayload (g : ExecutionGrant.t) : result string :=
  match marshal_grant (unsigned g) with
  | Ok payload => Ok payload
  | Err e => Err (Wrapf "encode execution grant: " e "")
  end.

Definition validateGrant (g : ExecutionGrant.t) : option error :=
  if (GrantID g ==? "") || (Nonce g ==? "") || (TenantID g ==? "") || (CollectorSPIFFEID g ==? "") ||
     (TaskID g ==? "") || (TargetID g ==? "") || (RecipeID g ==? "") || (RecipeVersion g ==? "") ||
     (Issuer g ==? "") || (Audience g ==? "") || (SignatureAlgorithm g ==? "") || (SigningKeyRef g ==? "") then
    Some (Text "grant identity and binding fields are required")
  else if (FencingToken g <=? 0) || (ExecutionGrant.MaximumDuration g <=? 0) ||
          (ExecutionGrant.MaximumResponseBytes g <=? 0) then
    Some (Text "positive fence, duration and response byte limit are required")
  else if IsZero (NotBefore g) || negb (After (ExpiresAt g) (NotBefore g)) then
    Some (Text "grant validity window is invalid")
  else if negb (SingleUse g) then Some (Text "execution grant must be single use")
  else None.

(** ** Recording a consumption *)
Definition validateConsumption (c : Consumption.t) : option error :=
  if existsb (fun value => (value ==? "") || (512 <? len value))
       [Consumption.GrantID c; Consumption.NonceDigest c; Consumption.GrantDigest c; Consumption.TenantID c;
        Consumption.TaskID c; Consumption.CollectorSPIFFEID c; Consumption.TargetID c; Consumption.RecipeID c;
        Consumption.RecipeVersion c] then
    Some (Text "complete bounded execution grant consumption is required")
  else if negb (len (Consumption.NonceDigest c) =? 64) || negb (len (Consumption.GrantDigest c) =? 64) then
    Some (Text "execution grant consumption digests must be SHA-256")
  else match hex_DecodeString (Consumption.NonceDigest c), hex_DecodeString (Consumption.GrantDigest c) with
  | None, _ => Some (Wrapf "decode execution grant nonce digest: " (Text "encoding/hex: invalid byte") "")
  | _, None => Some (Wrapf "decode execution grant document digest: " (Text "encoding/hex: invalid byte") "")
  | Some _, Some _ =>
    if (Consumption.FencingToken c <=? 0) || IsZero (Consumption.GrantExpiresAt c) ||
       IsZero (Consumption.RequestedAt c) then
      Some (Text "execution grant consumption fence and times are required")
    else None
  end.

Module MemoryConsumptionRepository.
Record t := mk { byGrant : gmap string ConsumptionRecord.t; byNonce : gmap string string }.
#[global] Instance eta_t : Eta t := fun x => mk (byGrant x) (byNonce x).
Definition empty : t := mk ∅ ∅.

Definition Consume (c : Consumption.t) (r : t) : result ConsumptionRecord.t * t :=
  match validateConsumption c with
  | Some e => (Err e, r)
  | None =>
    match byGrant r !! Consumption.GrantID c, byNonce r !! Consumption.NonceDigest c with
    | Some _, _ | _, Some _ => (Err ErrAlreadyConsumed, r)
    | None, None =>
      if negb (Before (Consumption.RequestedAt c) (Consumption.GrantExpiresAt c)) then (Err ErrNotCurrent, r)
      else
        let record := ConsumptionRecord.mk c (Consumption.RequestedAt c) in
        (Ok record, mk (<[Consumption.GrantID c := record]> (byGrant r))
                       (<[Consumption.NonceDigest c := Consumption.GrantID c]> (byNonce r)))
    end
  end.

Definition Get (tenantID grantID : string) (r : t) : result ConsumptionRecord.t :=
  match byGrant r !! grantID with
  | Some record =>
    if Consumption.TenantID (ConsumptionRecord.Consumption_ record) !=? tenantID then Err ErrConsumptionNotFound
    else Ok record
  | None => Err ErrConsumptionNotFound
  end.
End MemoryConsumptionRepository.

(** The PostgreSQL ledger.  A transaction reads the ledger, locks and checks
    the task, inserts and reads back the database's time; other transactions
    act before the lock ([env1]) and between the lock and the insertion
    ([env2]).  [clock1] and [clock2] are the two readings of
    [clock_timestamp()]. *)
Module PostgresConsumptionRepository.
Definition nonce_taken (nonceDigest : string) (db : DB.t) : bool :=
  existsb (fun kr => ConsumptionRow.nonce_digest (snd kr) ==? nonceDigest) (map_to_list (DB.consumptions db)).
Definition already_consumed (c : Consumption.t) (db : DB.t) : bool :=
  negb (is_null (DB.consumptions db !! Consumption.GrantID c)) || nonce_taken (Consumption.NonceDigest c) db.

Definition lockAndValidateTask (clock : Z) (c : Consumption.t) (db : DB.t) : result unit :=
  if negb (encodable (Consumption.TaskID c)) then Err (Wrapf "lock execution grant task: " invalid_text "")
  else match DB.tasks db !! Consumption.TaskID c with
  | None => Err ErrBindingMismatch
  | Some row =>
    match TaskRow.lease_expiry row with
    | None => Err (Wrapf "lock execution grant task: " (Text "converting NULL to time.Time is unsupported") "")
    | Some leaseExpiry =>
      if (TaskRow.tenant_id row !=? Consumption.TenantID c) ||
         (COALESCE (TaskRow.lease_owner row) !=? Consumption.CollectorSPIFFEID c) ||
         (TaskRow.target_id row !=? Consumption.TargetID c) || (TaskRow.recipe_id row !=? Consumption.RecipeID c) ||
         (TaskRow.recipe_version row !=? Consumption.RecipeVersion c) ||
         (COALESCE (TaskRow.execution_grant_id row) !=? Consumption.GrantID c) then Err ErrBindingMismatch
      else if negb (TaskRow.fencing_token row =? Consumption.FencingToken c) then Err ErrStaleFence
      else if (TaskRow.state row !=? TaskExecuting) || negb (Before clock leaseExpiry) ||
              negb (Before clock (Consumption.GrantExpiresAt c)) then Err ErrNotCurrent
      else Ok tt
    end
  end.

Definition row_of (clock : Z) (c : Consumption.t) : ConsumptionRow.t :=
  ConsumptionRow.mk (Consumption.GrantID c) (Consumption.NonceDigest c) (Consumption.GrantDigest c)
    (Consumption.TenantID c) (Consumption.TaskID c) (Consumption.CollectorSPIFFEID c) (Consumption.TargetID c)
    (Consumption.RecipeID c) (Consumption.RecipeVersion c) (Consumption.FencingToken c)
    (normaliseTime (Consumption.GrantExpiresAt c)) (normaliseTime (Consumption.RequestedAt c)) clock.

(** [INSERT ... ON CONFLICT DO NOTHING]: whether a row was inserted. *)
Definition insert_consumption (row : ConsumptionRow.t) (db : DB.t) : result bool * DB.t :=
  if negb (all_encodable [ConsumptionRow.grant_id row; ConsumptionRow.nonce_digest row;
       ConsumptionRow.grant_digest row; ConsumptionRow.tenant_id row; ConsumptionRow.task_id row;
       ConsumptionRow.collector_spiffe_id row; ConsumptionRow.target_id row; ConsumptionRow.recipe_id row;
       ConsumptionRow.recipe_version row]) then (Err invalid_text, db)
  else if negb (ConsumptionRow.check row) then (Err check_violation, db)
  else if negb (is_null (DB.consumptions db !! ConsumptionRow.grant_id row)) ||
          nonce_taken (ConsumptionRow.nonce_digest row) db then (Ok false, db)
  else match DB.tasks db !! ConsumptionRow.task_id row with
  | Some task =>
    if TaskRow.tenant_id task ==? ConsumptionRow.tenant_id row then
      (Ok true, db <| DB.consumptions := <[ConsumptionRow.grant_id row := row]> (DB.consumptions db) |>)
    else (Err foreign_key_violation, db)
  | None => (Err foreign_key_violation, db)
  end.

Definition Consume (env1 env2 : DB.t -> DB.t) (clock1 clock2 : Z) (c : Consumption.t) (db : DB.t) :
    result ConsumptionRecord.t * DB.t :=
  match validateConsumption c with
  | Some e => (Err e, db)
  | None =>
    if negb (all_encodable [Consumption.GrantID c; Consumption.NonceDigest c]) then
      (Err (Wrapf "check execution grant consumption: " invalid_text ""), db)
    else if already_consumed c db then (Err ErrAlreadyConsumed, db)
    else
      let db := env1 db in
      match lockAndValidateTask clock1 c db with
      | Err e => (Err e, db)
      | Ok _ =>
        let db := env2 db in
        match insert_consumption (row_of clock2 c) db with
        | (Err e, _) => (Err (Wrapf "record execution grant consumption: " e ""), db)
        | (Ok false, _) => (Err ErrAlreadyConsumed, db)
        | (Ok true, db') => (Ok (ConsumptionRecord.mk c clock2), db')
        end
      end
  end.

Definition scanConsumption (r : ConsumptionRow.t) : ConsumptionRecord.t :=
  ConsumptionRecord.mk
    (Consumption.mk (ConsumptionRow.grant_id r) (ConsumptionRow.nonce_digest r) (ConsumptionRow.grant_digest r)
       (ConsumptionRow.tenant_id r) (ConsumptionRow.task_id r) (ConsumptionRow.collector_spiffe_id r)
       (ConsumptionRow.target_id r) (ConsumptionRow.recipe_id r) (ConsumptionRow.recipe_version r)
       (ConsumptionRow.fencing_token r) (ConsumptionRow.grant_expires_at r) (ConsumptionRow.requested_at r))
    (ConsumptionRow.consumed_at r).

Definition Get (tenantID grantID : string) (db : DB.t) : result ConsumptionRecord.t :=
  if (tenantID ==? "") || (grantID ==? "") then
    Err (Text "execution grant consumption database and identity are required")
  else if negb (all_encodable [tenantID; grantID]) then
    Err (Wrapf "get execution grant consumption: " invalid_text "")
  else match DB.consumptions db !! grantID with
  | None => Err ErrConsumptionNotFound
  | Some row =>
    if ConsumptionRow.tenant_id row !=? tenantID then Err ErrConsumptionNotFound
    else
      let record := scanConsumption row in
      match validateConsumption (ConsumptionRecord.Consumption_ record) with
      | Some e => Err (Join ErrConsumptionIntegrity e)
      | None =>
        if IsZero (ConsumptionRecord.ConsumedAt record) ||
           negb (Before (ConsumptionRecord.ConsumedAt record)
                   (Consumption.GrantExpiresAt (ConsumptionRecord.Consumption_ record)))
        then Err ErrConsumptionIntegrity else Ok record
      end
  end.
End PostgresConsumptionRepository.

(** ** The authority *)

(** What the authority needs of its backends: the current fence of a task and
    a ledger of consumptions. *)
Class GrantBackend (St : Type) := {
  CurrentFence : string -> St -> result Z;
  Consume : Consumption.t -> St -> result ConsumptionRecord.t * St }.

(** The ledger's contract.  [ledger] gives the nonce digest under which each
    grant was consumed.  A consumption that succeeds finds neither its grant nor
    its nonce in the ledger at the moment it is recorded; other replicas may add
    entries meanwhile, and nothing removes one. *)
Definition ledger_allows (l : gmap string string) (c : Consumption.t) : Prop :=
  l !! Consumption.GrantID c = None /\ map_Forall (fun _ nonce => nonce <> Consumption.NonceDigest c) l.
Class LedgerLaws (St : Type) `{GrantBackend St} := {
  ledger : St -> gmap string string;
  backend_ok : St -> Prop;
  consume_law : forall c st, backend_ok st ->
    let '(r, st') := Consume c st in
    backend_ok st' /\
    match r with
    | Ok record => ConsumptionRecord.Consumption_ record = c /\
        exists mid, ledger st ⊆ mid /\ ledger_allows mid c /\
          ledger st' = <[Consumption.GrantID c := Consumption.NonceDigest c]> mid
    | Err _ => ledger st ⊆ ledger st'
    end }.

Module Authority.
Record t (P : Type) := mk { issuer : string; audience : string; signing : P }.
Arguments mk {P} _ _ _.
Arguments issuer {P} _.
Arguments audience {P} _.
Arguments signing {P} _.
End Authority.

Section Authority.
Context {P : Type} `{SigningProvider P} {St : Type} `{GrantBackend St}.

Definition NewAuthorityWithProviderAndRepository (issuer audience : string) (signing : P) :
    result (Authority.t P) :=
  if (issuer ==? "") || (audience ==? "") then
    Err (Text "issuer, audience, signing provider, fence reader and consumption repository are required")
  else Ok (Authority.mk issuer audience signing).

Definition IssueContext (a : Authority.t P) (grant : ExecutionGrant.t) : result ExecutionGrant.t :=
  let grant := grant <| Issuer := Authority.issuer a |> <| Audience := Authority.audience a |>
                     <| Signature := None |> in
  match CurrentSigningKey (Authority.signing a) executionGrantSigningPurpose with
  | Err e => Err (Wrapf "resolve execution grant signing key: " e "")
  | Ok k =>
    let grant := grant <| SignatureAlgorithm := SigningKey.Algorithm k |>
                       <| SigningKeyRef := SigningKey.Reference k |> in
    match validateGrant grant with
    | Some e => Err e
    | None =>
      match signingPayload grant with
      | Err e => Err e
      | Ok payload =>
        match Sign (Authority.signing a) (SigningKeyRef grant) payload with
        | Err e => Err (Wrapf "sign execution grant: " e "")
        | Ok s => Ok (grant <| Signature := Some s |>)
        end
      end
    end
  end.

Definition signature_valid (a : Authority.t P) (grant : ExecutionGrant.t) : bool :=
  match signingPayload grant with
  | Err _ => false
  | Ok payload =>
    match Verify (Authority.signing a) (SigningKeyRef grant) (SignatureAlgorithm grant) payload
            (COALESCE (Signature grant)) with
    | None => true
    | Some _ => false
    end
  end.

Definition consumption_of (grant : ExecutionGrant.t) (document : string) (now : Z) : Consumption.t :=
  Consumption.mk (GrantID grant) (sha256_hex (Nonce grant)) (sha256_hex document) (TenantID grant)
    (TaskID grant) (CollectorSPIFFEID grant) (TargetID grant) (RecipeID grant) (RecipeVersion grant)
    (FencingToken grant) (ExpiresAt grant) now.

(** [ExchangeContext]; [random] is the outcome of reading 32 random bytes. *)
Definition ExchangeContext (a : Authority.t P) (random : result (list Z)) (grant : ExecutionGrant.t)
    (request : ExchangeRequest.t) (st : St) : result SessionCredential.t * St :=
  let now := ExchangeRequest.Now request in
  if IsZero now then (Err (Text "exchange time is required"), st)
  else if negb (signature_valid a grant) then (Err ErrInvalidSignature, st)
  else if (Issuer grant !=? Authority.issuer a) || (Audience grant !=? Authority.audience a) ||
          Before now (NotBefore grant) || negb (Before now (ExpiresAt grant)) then (Err ErrNotCurrent, st)
  else if negb (SingleUse grant) then (Err ErrBindingMismatch, st)
  else if (ExchangeRequest.PresentingSPIFFEID request !=? CollectorSPIFFEID grant) ||
          (ExchangeRequest.TaskID request !=? TaskID grant) ||
          (ExchangeRequest.TargetID request !=? TargetID grant) ||
          (ExchangeRequest.RecipeID request !=? RecipeID grant) ||
          (ExchangeRequest.RecipeVersion request !=? RecipeVersion grant) ||
          negb (ExchangeRequest.FencingToken request =? FencingToken grant) then (Err ErrBindingMismatch, st)
  else match CurrentFence (TaskID grant) st with
  | Err e => (Err (Wrapf "read current fence: " e ""), st)
  | Ok currentFence =>
    if negb (currentFence =? FencingToken grant) then (Err ErrStaleFence, st)
    else match random with
    | Err e => (Err (Wrapf "mint session credential: " e ""), st)
    | Ok token =>
      match marshal_grant grant with
      | Err e => (Err (Wrapf "encode execution grant for consumption: " e ""), st)
      | Ok document =>
        match Consume (consumption_of grant document now) st with
        | (Err e, st') => (Err e, st')
        | (Ok _, st') =>
          (Ok (SessionCredential.mk (hex_EncodeToString token) (GrantID grant) (CollectorSPIFFEID grant)
                 (TargetID grant) (RecipeID grant) (RecipeVersion grant) (FencingToken grant)
                 (ExpiresAt grant) (ExecutionGrant.CredentialClass grant)), st')
        end
      end
    end
  end.
End Authority.

(** ** A signature covers the whole grant *)

(** Text that JSON represents exactly, and numbers of their Go types. *)
Definition representable (g : ExecutionGrant.t) : Prop :=
  Forall (fun s => ValidString s = true)
    [GrantID g; Nonce g; TenantID g; CollectorSPIFFEID g; ExecutionGrant.ResolutionID g; TaskID g;
     ExecutionGrant.TargetSnapshotID g; ExecutionGrant.TargetSnapshotDigest g; TargetID g; RecipeID g;
     RecipeVersion g; ExecutionGrant.ParameterDigest g; ExecutionGrant.TriggerDecisionID g;
     ExecutionGrant.PlanningDecisionID g; ExecutionGrant.ExecutionDecisionID g;
     ExecutionGrant.ApprovalGrantID g; Audience g; ExecutionGrant.CredentialClass g; Issuer g;
     SignatureAlgorithm g; SigningKeyRef g] /\
  int64_range (FencingToken g) /\ int64_range (ExecutionGrant.MaximumDuration g) /\
  int64_range (ExecutionGrant.MaximumResponseBytes g).

Lemma grant_tree_ok g :
  int64_range (FencingToken g) -> int64_range (ExecutionGrant.MaximumDuration g) ->
  int64_range (ExecutionGrant.MaximumResponseBytes g) -> jtime_ok (NotBefore g) = true ->
  jtime_ok (ExpiresAt g) = true -> tree_ok (grant_tree g) /\ nesting (grant_tree g) <= max_depth.
Proof.
  intros H1 H2 H3 H4 H5. split; [unfold grant_tree; cbn [tree_ok foldr]|].
  2: { unfold grant_tree, key, jstr, jint, jtime. cbn [nesting foldr snd].
       by destruct (Signature g). }
  repeat (split; [apply key_ok; first [apply jstr_ok | by apply jint_ok | by apply jtime_tree_ok | apply jbytes_ok | done]|]).
  done.
Qed.

Lemma grant_signingPayload_Ok g p :
  signingPayload g = Ok p ->
  jtime_ok (NotBefore g) = true /\ jtime_ok (ExpiresAt g) = true /\
  p = Marshal (grant_tree (unsigned g)).
Proof.
  unfold signingPayload, marshal_grant. simpl.
  destruct (jtime_ok (NotBefore g)), (jtime_ok (ExpiresAt g)); simpl; try done. by intros [= <-].
Qed.

Lemma cons_eq {A} (x y : A) l m : x :: l = y :: m -> x = y /\ l = m.
Proof. by intros [= -> ->]. Qed.

(** C20.  A signature covers every field of a grant: grants of well-formed text
    that are signed over the same bytes are the same grant, the signature field
    apart. *)
Theorem signature_covers_grant g1 g2 p (Hr1 : representable g1) (Hr2 : representable g2)
    (H1 : signingPayload g1 = Ok p) (H2 : signingPayload g2 = Ok p) :
  unsigned g1 = unsigned g2.
Proof.
  apply grant_signingPayload_Ok in H1 as (N1 & E1 & ->). apply grant_signingPayload_Ok in H2 as (N2 & E2 & E).
  destruct Hr1 as (V1 & F1 & D1 & B1), Hr2 as (V2 & F2 & D2 & B2).
  destruct (grant_tree_ok (unsigned g1) F1 D1 B1 N1 E1) as [T1 L1].
  destruct (grant_tree_ok (unsigned g2) F2 D2 B2 N2 E2) as [T2 L2].
  apply (Marshal_inj _ _ T1 T2 L1 L2) in E. clear T1 T2 L1 L2 N1 N2 E1 E2.
  apply (f_equal (fun t => match t with TObj fs => map snd fs | _ => [] end)) in E.
  unfold grant_tree, key in E. cbn [map snd] in E.
  repeat (apply list.Forall_cons in V1 as [? V1]). repeat (apply list.Forall_cons in V2 as [? V2]).
  repeat (apply cons_eq in E as [? E]). clear E V1 V2.
  repeat match goal with
  | H : jbytes _ = jbytes _ |- _ => clear H
  | H : jstr _ = jstr _ |- _ => apply jstr_inj in H; [|assumption..]
  | H : jint _ = jint _ |- _ => apply jint_inj in H; [|assumption..]
  | H : jtime _ = jtime _ |- _ => apply jtime_inj in H
  | H : TBool _ = TBool _ |- _ => injection H as H
  end.
  repeat match goal with H : ValidString _ = true |- _ => clear H end.
  destruct g1, g2. unfold unsigned in *. simpl in *. by subst.
Qed.

(** ** What an exchange establishes *)
Definition bound_to (grant : ExecutionGrant.t) (request : ExchangeRequest.t) : Prop :=
  ExchangeRequest.PresentingSPIFFEID request = CollectorSPIFFEID grant /\
  ExchangeRequest.TaskID request = TaskID grant /\ ExchangeRequest.TargetID request = TargetID grant /\
  ExchangeRequest.RecipeID request = RecipeID grant /\
  ExchangeRequest.RecipeVersion request = RecipeVersion grant /\
  ExchangeRequest.FencingToken request = FencingToken grant.

Definition credential_for (grant : ExecutionGrant.t) (token : list Z) : SessionCredential.t :=
  SessionCredential.mk (hex_EncodeToString token) (GrantID grant) (CollectorSPIFFEID grant) (TargetID grant)
    (RecipeID grant) (RecipeVersion grant) (FencingToken grant) (ExpiresAt grant)
    (ExecutionGrant.CredentialClass grant).

Section Exchange.
Context {P : Type} `{SigningProvider P} {St : Type} `{GrantBackend St}.

Definition authorised (a : Authority.t P) (grant : ExecutionGrant.t) (request : ExchangeRequest.t) (st : St) : Prop :=
  ExchangeRequest.Now request <> 0 /\ signature_valid a grant = true /\
  Issuer grant = Authority.issuer a /\ Audience grant = Authority.audience a /\
  NotBefore grant <= ExchangeRequest.Now request < ExpiresAt grant /\ SingleUse grant = true /\
  bound_to grant request /\ CurrentFence (TaskID grant) st = Ok (FencingToken grant).

(** An exchange either fails without touching the backend, or everything was
    checked and it does what the ledger answers. *)
Lemma exchange_cases a random grant request st :
  (exists e, ExchangeContext a random grant request st = (Err e, st)) \/
  exists token document, authorised a grant request st /\ random = Ok token /\ marshal_grant grant = Ok document /\
    ExchangeContext a random grant request st =
      let '(r, st') := Consume (consumption_of grant document (ExchangeRequest.Now request)) st in
      (match r with Ok _ => Ok (credential_for grant token) | Err e => Err e end, st').
Proof.
  unfold ExchangeContext, authorised, bound_to, IsZero, Before.
  destruct (Z.eqb_spec (ExchangeRequest.Now request) 0); [eauto|].
  destruct (signature_valid a grant) eqn:Hs; simpl; [|eauto].
  destruct (_ || _) eqn:E1; [eauto|]. destruct (SingleUse grant); simpl; [|eauto].
  destruct (_ || _) eqn:E2 in |- *; [eauto|].
  destruct (CurrentFence (TaskID grant) st) as [fence|] eqn:Hf; [|eauto].
  destruct (Z.eqb_spec fence (FencingToken grant)) as [->|]; simpl; [|eauto].
  destruct random as [token|]; [|eauto]. destruct (marshal_grant grant) as [document|]; [|eauto].
  right. exists token, document. reflect_bools. destruct_and!. split; [|split; [done|split; [done|]]].
  { split_and!; try done; lia. }
  destruct (Consume _ st) as [[r|e] st']; done.
Qed.

Context `{!LedgerLaws St}.

(** Exchanges, interleaved with anything that keeps the ledger's entries. *)
Inductive ExchangeOp :=
| XExchange (random : result (list Z)) (grant : ExecutionGrant.t) (request : ExchangeRequest.t)
| XOther (step : St -> St).
Definition x_exec (a : Authority.t P) (op : ExchangeOp) (st : St) : result (option SessionCredential.t) * St :=
  match op with
  | XExchange random grant request =>
    let '(r, st') := ExchangeContext a random grant request st in
    (match r with Ok c => Ok (Some c) | Err e => Err e end, st')
  | XOther step => (Ok None, step st)
  end.
Definition x_ok (op : ExchangeOp) : Prop :=
  match op with
  | XExchange _ _ _ => True
  | XOther step => forall st, backend_ok st -> backend_ok (step st) /\ ledger st ⊆ ledger (step st)
  end.

(** The grants exchanged so far. *)
Definition exchanged (log : list (ExchangeOp * result (option SessionCredential.t))) : list ExecutionGrant.t :=
  omap (fun e => match e with (XExchange _ grant _, Ok _) => Some grant | _ => None end) log.

Definition exchange_inv (log : list (ExchangeOp * result (option SessionCredential.t))) (st : St) : Prop :=
  backend_ok st /\ NoDup (map GrantID (exchanged log)) /\ NoDup (map Nonce (exchanged log)) /\
  Forall (fun g => ledger st !! GrantID g = Some (sha256_hex (Nonce g))) (exchanged log).

Lemma exchange_step_law a random grant request st :
  backend_ok st ->
  let '(r, st') := ExchangeContext a random grant request st in
  backend_ok st' /\
  match r with
  | Err _ => ledger st ⊆ ledger st'
  | Ok c => authorised a grant request st /\
      exists mid, ledger st ⊆ mid /\ mid !! GrantID grant = None /\
        map_Forall (fun _ nonce => nonce <> sha256_hex (Nonce grant)) mid /\
        ledger st' = <[GrantID grant := sha256_hex (Nonce grant)]> mid
  end.
Proof.
  intros Hok. destruct (exchange_cases a random grant request st) as [[e ->]|(token & document & Ha & _ & _ & ->)]; [done|].
  pose proof (consume_law (consumption_of grant document (ExchangeRequest.Now request)) st Hok) as Hc.
  destruct (Consume _ st) as [[r|e] st']; [|done].
  destruct Hc as (Hok' & _ & mid & Hsub & [Hn Hf] & Hl). split; [done|]. split; [done|]. by exists mid.
Qed.

Lemma exchange_inv_step a log op st :
  x_ok op -> exchange_inv log st -> exchange_inv (log ++ [(op, (x_exec a op st).1)]) (x_exec a op st).2.
Proof.
  intros Hop (Hok & Hg & Hn & Hl). unfold exchange_inv, exchanged. rewrite omap_snoc. fold (exchanged log).
  assert (Hkeep : forall l', ledger st ⊆ l' ->
    Forall (fun g => l' !! GrantID g = Some (sha256_hex (Nonce g))) (exchanged log)).
  { intros l' Hsub. eapply List.Forall_impl; [|exact Hl]. intros g Hlg.
    exact (lookup_weaken _ _ _ _ Hlg Hsub). }
  destruct op as [random grant request|step]; simpl in *.
  - pose proof (exchange_step_law a random grant request st Hok) as Hs.
    destruct (ExchangeContext a random grant request st) as [[c|e] st']; simpl in *.
    2: { rewrite app_nil_r. destruct Hs as [? ?]. eauto. }
    destruct Hs as (Hok' & _ & mid & Hsub & Hnone & Hfresh & ->). specialize (Hkeep mid Hsub).
    rewrite !map_app. cbn [map]. split; [done|].
    assert (Hid : GrantID grant ∉ map GrantID (exchanged log)).
    { intros (g & Hgg & Hin)%list_elem_of_fmap. rewrite list.Forall_forall in Hkeep. apply Hkeep in Hin. congruence. }
    assert (Hno : Nonce grant ∉ map Nonce (exchanged log)).
    { intros (g & Hgg & Hin)%list_elem_of_fmap. rewrite list.Forall_forall in Hkeep. apply Hkeep in Hin.
      apply (Hfresh _ _ Hin). by rewrite Hgg. }
    split; [by apply NoDup_snoc|]. split; [by apply NoDup_snoc|].
    apply Forall_app. split; [|apply list.Forall_singleton, lookup_insert_eq].
    apply list.Forall_forall. intros g Hin. rewrite list.Forall_forall in Hkeep.
    rewrite lookup_insert_ne; [by apply Hkeep|]. intros Heq. apply Hid, list_elem_of_fmap. by exists g.
  - rewrite app_nil_r. destruct (Hop st Hok) as [? ?]. eauto.
Qed.

(** C21.  A grant is exchanged at most once: in every sequence of exchanges,
    interleaved with anything else that keeps the ledger's entries, no two
    exchanges that succeed share a grant identifier or a nonce, whatever grants
    and requests are presented. *)
Theorem exchanged_at_most_once a ops st (Hst : backend_ok st) (Hops : Forall x_ok ops) :
  NoDup (map GrantID (exchanged (run (x_exec a) ops st).1)) /\
  NoDup (map Nonce (exchanged (run (x_exec a) ops st).1)).
Proof.
  destruct (run_log_invariant (x_exec a) x_ok exchange_inv) with (ops := ops) (s := st) as (_ & Hg & Hn & _).
  - intros log op s. apply exchange_inv_step.
  - done.
  - split; [done|]. repeat split; constructor.
  - done.
Qed.
End Exchange.

(** ** The two ledgers implement the contract *)
Section MemoryBackend.
Import MemoryConsumptionRepository (byGrant, byNonce).
Abbreviation World := (Store * MemoryConsumptionRepository.t)%type.

#[export] Instance memory_backend : GrantBackend World := {|
  CurrentFence taskID w := Task.CurrentFence taskID w.1;
  Consume c w := let '(r, repo) := MemoryConsumptionRepository.Consume c w.2 in (r, (w.1, repo)) |}.

Definition nonce_of (r : ConsumptionRecord.t) : string := Consumption.NonceDigest (ConsumptionRecord.Consumption_ r).
(** Every recorded nonce is indexed. *)
Definition memory_ok (r : MemoryConsumptionRepository.t) : Prop :=
  map_Forall (fun _ record => is_Some (byNonce r !! nonce_of record)) (byGrant r).

Lemma memory_consume_law c (w : World) :
  memory_ok w.2 ->
  let '(r, w') := Consume c w in
  memory_ok w'.2 /\
  match r with
  | Ok record => ConsumptionRecord.Consumption_ record = c /\
      exists mid, nonce_of <$> byGrant w.2 ⊆ mid /\ ledger_allows mid c /\
        nonce_of <$> byGrant w'.2 = <[Consumption.GrantID c := Consumption.NonceDigest c]> mid
  | Err _ => nonce_of <$> byGrant w.2 ⊆ nonce_of <$> byGrant w'.2
  end.
Proof.
  destruct w as [tasks r]. intros Hok. simpl. unfold MemoryConsumptionRepository.Consume.
  destruct (validateConsumption c); [done|].
  destruct (byGrant r !! Consumption.GrantID c) eqn:Hg; [done|].
  destruct (byNonce r !! Consumption.NonceDigest c) eqn:Hn; [done|].
  destruct (negb _); [done|]. simpl. split; [|split; [done|]].
  - unfold memory_ok. cbn [byGrant byNonce]. intros k rec [[<- <-]|[Hk Hrec]]%lookup_insert_Some.
    + unfold nonce_of. simpl. rewrite lookup_insert_eq. by eexists.
    + destruct (Hok k rec Hrec) as [x Hx]. rewrite lookup_insert_is_Some'. right. by exists x.
  - exists (nonce_of <$> byGrant r). split; [done|]. split; [|by rewrite fmap_insert].
    split; [by rewrite lookup_fmap, Hg|]. intros k x Hx Heq.
    rewrite lookup_fmap in Hx. destruct (byGrant r !! k) as [rec|] eqn:Hk; [|done]. injection Hx as <-.
    destruct (Hok k rec Hk) as [y Hy]. cbn in Hy, Hn. rewrite Heq in Hy. congruence.
Qed.

#[export] Instance memory_laws : LedgerLaws World := {|
  ledger w := nonce_of <$> byGrant w.2; backend_ok w := memory_ok w.2; consume_law := memory_consume_law |}.
End MemoryBackend.

Section PostgresBackend.
Import PostgresConsumptionRepository (nonce_taken, already_consumed, lockAndValidateTask, row_of, insert_consumption).
Context (env1 env2 : DB.t -> DB.t) (clock1 clock2 : Z).
Definition pg_ledger (db : DB.t) : gmap string string := ConsumptionRow.nonce_digest <$> DB.consumptions db.
(** Other clients only append to the ledger (its rows are immutable). *)
Hypothesis env1_appends : forall db, pg_ledger db ⊆ pg_ledger (env1 db).
Hypothesis env2_appends : forall db, pg_ledger db ⊆ pg_ledger (env2 db).

#[export] Instance postgres_backend : GrantBackend DB.t := {|
  CurrentFence := TaskPostgres.CurrentFence;
  Consume := PostgresConsumptionRepository.Consume env1 env2 clock1 clock2 |}.

Lemma nonce_taken_false n db :
  nonce_taken n db = false -> map_Forall (fun _ x => x <> n) (pg_ledger db).
Proof.
  intros Hn k x Hx ->. unfold pg_ledger in Hx. rewrite lookup_fmap in Hx.
  destruct (DB.consumptions db !! k) as [row|] eqn:Hk; [|done]. injection Hx as Hx.
  assert (Ht : nonce_taken n db = true); [|congruence]. unfold nonce_taken. apply existsb_exists.
  exists (k, row). split; [by apply list_elem_of_In, elem_of_map_to_list|]. by apply bool_decide_eq_true.
Qed.

Lemma insert_consumption_spec row db :
  match insert_consumption row db with
  | (Ok true, db') =>
      DB.consumptions db !! ConsumptionRow.grant_id row = None /\
      nonce_taken (ConsumptionRow.nonce_digest row) db = false /\
      db' = db <| DB.consumptions := <[ConsumptionRow.grant_id row := row]> (DB.consumptions db) |>
  | (_, db') => db' = db
  end.
Proof.
  unfold insert_consumption. destruct (negb (all_encodable _)); [done|]. destruct (negb (ConsumptionRow.check row)); [done|].
  destruct (DB.consumptions db !! ConsumptionRow.grant_id row); [done|].
  destruct (nonce_taken _ db) eqn:Hn; [done|]. simpl.
  destruct (DB.tasks db !! ConsumptionRow.task_id row); [|done]. by destruct (_ ==? _).
Qed.

Lemma postgres_consume_spec c db :
  let '(r, db') := PostgresConsumptionRepository.Consume env1 env2 clock1 clock2 c db in
  match r with
  | Ok record => record = ConsumptionRecord.mk c clock2 /\
      lockAndValidateTask clock1 c (env1 db) = Ok tt /\
      let mid := env2 (env1 db) in
      ledger_allows (pg_ledger mid) c /\
      db' = mid <| DB.consumptions := <[Consumption.GrantID c := row_of clock2 c]> (DB.consumptions mid) |>
  | Err _ => pg_ledger db ⊆ pg_ledger db'
  end.
Proof.
  pose proof (transitivity (env1_appends db) (env2_appends (env1 db))) as Hsub.
  unfold PostgresConsumptionRepository.Consume. destruct (validateConsumption c); [done|].
  destruct (negb _); [done|]. destruct (already_consumed c db); [done|].
  destruct (lockAndValidateTask clock1 c (env1 db)) as [[]|] eqn:Hlock; [|apply env1_appends].
  pose proof (insert_consumption_spec (row_of clock2 c) (env2 (env1 db))) as Hi.
  destruct (insert_consumption _ _) as [[[|]|e] db']; [|exact Hsub..].
  destruct Hi as (Hg & Hn & ->). simpl in Hg, Hn. split; [done|]. split; [done|]. split; [|done].
  split; [unfold pg_ledger; by rewrite lookup_fmap, Hg|]. by apply nonce_taken_false.
Qed.

Lemma postgres_consume_law c db :
  True ->
  let '(r, db') := Consume c db in
  True /\
  match r with
  | Ok record => ConsumptionRecord.Consumption_ record = c /\
      exists mid, pg_ledger db ⊆ mid /\ ledger_allows mid c /\
        pg_ledger db' = <[Consumption.GrantID c := Consumption.NonceDigest c]> mid
  | Err _ => pg_ledger db ⊆ pg_ledger db'
  end.
Proof.
  intros _. simpl.
  pose proof (postgres_consume_spec c db) as Hs.
  destruct (PostgresConsumptionRepository.Consume _ _ _ _ c db) as [[r|e] db']; [|done].
  destruct Hs as (-> & _ & Hallows & ->). split; [done|]. split; [done|].
  exists (pg_ledger (env2 (env1 db))). split; [by etrans; [apply env1_appends|apply env2_appends]|].
  split; [done|]. unfold pg_ledger. simpl. by rewrite fmap_insert.
Qed.

#[export] Instance postgres_laws : LedgerLaws DB.t := {|
  ledger := pg_ledger; backend_ok _ := True; consume_law := postgres_consume_law |}.
End PostgresBackend.

(** ** Exchanges against the database *)
Lemma hexdigit_lower d : 0 <= d < 16 -> lower_hex (hexdigit d) = true.
Proof.
  intros H. unfold lower_hex, hexdigit. rewrite byte_of_of_byte by (case_match; reflect_bools; lia).
  unfold in_range. case_match; reflect_bools; lia.
Qed.

Lemma hex_lower bs :
  Forall is_byte bs -> forallb lower_hex (String.list_ascii_of_string (hex_EncodeToString bs)) = true.
Proof.
  unfold hex_EncodeToString. induction 1 as [|b bs Hb _ IH]; [done|]. cbn [fold_right].
  set (tail := fold_right _ _ bs) in *.
  change (hex_byte b +:+ tail) with (String (hexdigit (b / 16)) (String (hexdigit (b mod 16)) tail)).
  cbn [String.list_ascii_of_string forallb]. unfold is_byte in Hb.
  by rewrite (hexdigit_lower (b / 16)), (hexdigit_lower (b mod 16)), IH by (Z.to_euclidean_division_equations; lia).
Qed.

Lemma sha256_digest_check s : digest_check (sha256_hex s) = true.
Proof. unfold digest_check. rewrite sha256_hex_len. apply hex_lower, Sum256_bytes. Qed.

Definition task_runs (clock : Z) (g : ExecutionGrant.t) (row : TaskRow.t) : Prop :=
  TaskRow.tenant_id row = TenantID g /\ COALESCE (TaskRow.lease_owner row) = CollectorSPIFFEID g /\
  TaskRow.target_id row = TargetID g /\ TaskRow.recipe_id row = RecipeID g /\
  TaskRow.recipe_version row = RecipeVersion g /\ COALESCE (TaskRow.execution_grant_id row) = GrantID g /\
  TaskRow.fencing_token row = FencingToken g /\ TaskRow.state row = TaskExecuting /\
  exists e, TaskRow.lease_expiry row = Some e /\ clock < e.

Section PostgresExchange.
Import PostgresConsumptionRepository (lockAndValidateTask, row_of).
Context {P : Type} `{SigningProvider P}.

Lemma lock_task_iff clock g document now db :
  encodable (TaskID g) = true ->
  lockAndValidateTask clock (consumption_of g document now) db = Ok tt <->
  exists row, DB.tasks db !! TaskID g = Some row /\ task_runs clock g row /\ clock < ExpiresAt g.
Proof.
  intros He. unfold lockAndValidateTask, task_runs. simpl. rewrite He. simpl.
  destruct (DB.tasks db !! TaskID g) as [row|]; [|split; [done|by intros (? & ? & _)]].
  destruct (TaskRow.lease_expiry row) as [e|] eqn:Hl.
  2: { split; [done|]. intros (r & [= <-] & (_ & _ & _ & _ & _ & _ & _ & _ & e & He' & _) & _). congruence. }
  split.
  - intros Hres. exists row. split; [done|]. repeat (case_match; [done|]). reflect_bools. destruct_and!.
    split; [|lia]. split_and!; try done. exists e. split; [done|lia].
  - intros (r & [= <-] & (H1 & H2 & H3 & H4 & H5 & H6 & H7 & H8 & e' & He' & Hlt) & Hx).
    assert (e' = e) as -> by congruence. rewrite H1, H2, H3, H4, H5, H6, H7, H8, !bool_decide_eq_true_2 by done.
    unfold Before. rewrite Z.eqb_refl, !(proj2 (Z.ltb_lt _ _)) by done. done.
Qed.

(** C22.  An exchange that the PostgreSQL authority grants is for the running
    attempt: the request matches the grant, the signature and the window are
    valid, and when the task was locked its row was executing under the grant's
    owner, fencing token and grant identifier with the lease and the grant
    unexpired by the database's clock; the credential repeats the grant's
    bindings and the consumption is in the ledger. *)
Theorem exchange_binds_running_attempt env1 env2 clock1 clock2 (a : Authority.t P) random grant request db cred db'
    (Henv1 : forall db, pg_ledger db ⊆ pg_ledger (env1 db)) (Henv2 : forall db, pg_ledger db ⊆ pg_ledger (env2 db))
    (Hx : @ExchangeContext P _ DB.t (postgres_backend env1 env2 clock1 clock2) a random grant request db =
      (Ok cred, db')) :
  bound_to grant request /\ signature_valid a grant = true /\
  NotBefore grant <= ExchangeRequest.Now request < ExpiresAt grant /\
  TaskPostgres.CurrentFence (TaskID grant) db = Ok (FencingToken grant) /\
  (exists row, DB.tasks (env1 db) !! TaskID grant = Some row /\ task_runs clock1 grant row /\ clock1 < ExpiresAt grant) /\
  (exists token, random = Ok token /\ cred = credential_for grant token) /\
  exists document, DB.consumptions db' !! GrantID grant =
    Some (row_of clock2 (consumption_of grant document (ExchangeRequest.Now request))).
Proof.
  pose proof (exchange_cases (St := DB.t) (H0 := postgres_backend env1 env2 clock1 clock2) a random grant request db) as Hcases.
  destruct Hcases as [[e He]|(token & document & Ha & Hr & Hm & E)]; [by rewrite He in Hx|].
  rewrite E in Hx. cbn [Consume postgres_backend] in Hx.
  pose proof (postgres_consume_spec env1 env2 clock1 clock2 Henv1 Henv2
    (consumption_of grant document (ExchangeRequest.Now request)) db) as Hs.
  destruct (PostgresConsumptionRepository.Consume _ _ _ _ _ db) as [[r|e] st']; [|done]. simplify_eq.
  destruct Hs as (_ & Hlock & _ & ->). destruct Ha as (_ & Hsig & _ & _ & Hwin & _ & Hb & Hf).
  split; [done|]. split; [done|]. split; [done|]. split; [exact Hf|]. split.
  - apply lock_task_iff in Hlock; [done|]. cbn [CurrentFence postgres_backend] in Hf.
    unfold TaskPostgres.CurrentFence in Hf. destruct (TaskID grant ==? ""); [done|].
    by destruct (encodable (TaskID grant)).
  - split; [by exists token|]. exists document. simpl. apply lookup_insert_eq.
Qed.

(** ** An issued grant can be exchanged *)
Lemma signingPayload_signature g s : signingPayload (g <| Signature := s |>) = signingPayload g.
Proof.
  unfold signingPayload. assert (E : unsigned (g <| Signature := s |>) = unsigned g) by reflexivity.
  by rewrite E.
Qed.

Lemma validateGrant_signature g s : validateGrant (g <| Signature := s |>) = validateGrant g.
Proof. by destruct g. Qed.

Lemma IssueContext_Ok (a : Authority.t P) g0 g :
  IssueContext a g0 = Ok g ->
  exists k payload s, CurrentSigningKey (Authority.signing a) executionGrantSigningPurpose = Ok k /\
    SigningKeyRef g = SigningKey.Reference k /\ SignatureAlgorithm g = SigningKey.Algorithm k /\
    Signature g = Some s /\ signingPayload g = Ok payload /\
    Sign (Authority.signing a) (SigningKey.Reference k) payload = Ok s /\
    Issuer g = Authority.issuer a /\ Audience g = Authority.audience a /\ validateGrant g = None.
Proof.
  unfold IssueContext. destruct (CurrentSigningKey _ _) as [k|] eqn:Hk; [|done].
  destruct (validateGrant _) eqn:Hv; [done|]. destruct (signingPayload _) as [payload|] eqn:Hp; [|done].
  destruct (Sign _ _ payload) as [s|] eqn:Hs; [|done]. intros [= <-]. exists k, payload, s. rewrite signingPayload_signature, validateGrant_signature.
  split; [done|]. split; [reflexivity|]. split; [reflexivity|]. split; [reflexivity|]. split; [exact Hp|].
  split; [exact Hs|]. split; [reflexivity|]. split; [reflexivity|]. exact Hv.
Qed.

Lemma issued_signature_valid `{!SigningLaws P} (a : Authority.t P) g0 g :
  provider_ok (Authority.signing a) -> IssueContext a g0 = Ok g -> signature_valid a g = true.
Proof.
  intros Hp (k & payload & s & Hk & Hr & Ha & Hs & Hpay & Hsign & _)%IssueContext_Ok.
  unfold signature_valid. rewrite Hpay, Hr, Ha, Hs. simpl. by rewrite (sign_verifies _ _ _ _ _ Hp Hk Hsign).
Qed.

(** Identifiers that fit the ledger's columns. *)
Definition fits (s : string) : Prop := encodable s = true /\ s <> "" /\ len s <= 512.
Lemma fits_ident s : fits s -> ident s = true.
Proof.
  intros (_ & Hne & Hlen). unfold ident, between, char_length. pose proof (RuneCount_le s).
  pose proof (RuneCount_pos s Hne). apply andb_true_iff. split; apply Z.leb_le; lia.
Qed.

(** Hexadecimal text is plain ASCII. *)
Lemma lower_hex_encodable s :
  forallb lower_hex (String.list_ascii_of_string s) = true -> encodable s = true.
Proof.
  intros Hl. assert (Hb : Forall (fun b => 48 <= b < 128) (bytes s)).
  { unfold bytes. apply Forall_map, list.Forall_forall. intros c Hc%list_elem_of_In.
    rewrite forallb_forall in Hl. apply Hl in Hc. unfold lower_hex in Hc.
    rewrite orb_true_iff, !in_range_spec in Hc. lia. }
  unfold encodable. apply andb_true_iff. split.
  - unfold ValidString, decode_bytes. clear Hl. induction Hb as [|b bs Hb _ IH]; [done|].
    cbn [decode_skip DecodeRune]. rewrite (proj2 (Z.ltb_lt b 128)) by lia. cbn [forallb snd pred].
    rewrite IH, (proj2 (Z.eqb_neq b RuneError)) by (unfold RuneError; lia). done.
  - apply negb_true_iff. clear Hl. induction s as [|c s IH]; [done|]. cbn [Contains].
    unfold bytes in Hb. cbn [String.list_ascii_of_string map] in Hb. apply list.Forall_cons in Hb as [Hc Hb].
    rewrite (IH Hb), orb_false_r. unfold NUL. cbn [String.prefix]. case_match; [|done]. subst c.
    vm_compute in Hc. by destruct Hc.
Qed.

Lemma digest_fits s : fits (sha256_hex s).
Proof.
  split; [apply lower_hex_encodable, hex_lower, Sum256_bytes|].
  pose proof (sha256_hex_len s) as Hl. split; [|lia]. by intros E; rewrite E in Hl.
Qed.

Definition identifiers (g : ExecutionGrant.t) : list string :=
  [GrantID g; TenantID g; TaskID g; CollectorSPIFFEID g; TargetID g; RecipeID g; RecipeVersion g].
(** Neither the grant nor its nonce has been consumed. *)
Definition unconsumed (g : ExecutionGrant.t) (db : DB.t) : Prop :=
  DB.consumptions db !! GrantID g = None /\
  PostgresConsumptionRepository.nonce_taken (sha256_hex (Nonce g)) db = false.

Lemma consumption_valid g document now :
  Forall fits (identifiers g) -> 0 < FencingToken g -> 0 < now -> 0 < ExpiresAt g ->
  validateConsumption (consumption_of g document now) = None.
Proof.
  intros Hid Hf Hn He. unfold validateConsumption, consumption_of.
  cbn [Consumption.GrantID Consumption.NonceDigest Consumption.GrantDigest Consumption.TenantID Consumption.TaskID
    Consumption.CollectorSPIFFEID Consumption.TargetID Consumption.RecipeID Consumption.RecipeVersion
    Consumption.FencingToken Consumption.GrantExpiresAt Consumption.RequestedAt].
  assert (Hbound : existsb (fun value => (value ==? "") || (512 <? len value))
    [GrantID g; sha256_hex (Nonce g); sha256_hex document; TenantID g; TaskID g; CollectorSPIFFEID g; TargetID g;
     RecipeID g; RecipeVersion g] = false).
  { apply not_true_iff_false. intros (v & Hv & Hbad)%existsb_exists.
    assert (Hall : Forall fits [GrantID g; sha256_hex (Nonce g); sha256_hex document; TenantID g; TaskID g;
      CollectorSPIFFEID g; TargetID g; RecipeID g; RecipeVersion g]).
    { unfold identifiers in Hid. repeat (apply list.Forall_cons in Hid as [? Hid]).
      repeat (apply Forall_cons_2; [first [apply digest_fits | assumption]|]). apply Forall_nil_2. }
    rewrite list.Forall_forall in Hall. apply list_elem_of_In, Hall in Hv as (_ & Hne & Hlen).
    reflect_bools. destruct Hbad; [done|lia]. }
  rewrite Hbound, !sha256_hex_len. destruct (sha256_hex_decodes (Nonce g)) as [x ->], (sha256_hex_decodes document) as [y ->].
  cbn [negb orb Z.eqb Pos.eqb]. unfold IsZero.
  rewrite (proj2 (Z.leb_gt _ _)), !(proj2 (Z.eqb_neq _ _)) by lia. done.
Qed.

Lemma consumption_row_check clock g document now :
  Forall fits (identifiers g) -> 0 < FencingToken g -> normaliseTime now < normaliseTime (ExpiresAt g) ->
  clock < normaliseTime (ExpiresAt g) -> ConsumptionRow.check (row_of clock (consumption_of g document now)) = true.
Proof.
  intros Hid Hf Hn Hc. unfold ConsumptionRow.check, row_of, consumption_of. cbn -[sha256_hex digest_check ident Z.ltb].
  rewrite !sha256_digest_check, !(proj2 (Z.ltb_lt _ _)) by done.
  unfold identifiers in Hid. repeat (apply list.Forall_cons in Hid as [?%fits_ident Hid]).
  repeat match goal with H : ident _ = true |- _ => rewrite H; clear H end. done.
Qed.

Lemma postgres_insert_succeeds clock g document now db row :
  Forall fits (identifiers g) -> 0 < FencingToken g ->
  normaliseTime now < normaliseTime (ExpiresAt g) -> clock < normaliseTime (ExpiresAt g) ->
  DB.tasks db !! TaskID g = Some row -> task_runs clock g row -> unconsumed g db ->
  let r := row_of clock (consumption_of g document now) in
  PostgresConsumptionRepository.insert_consumption r db =
  (Ok true, db <| DB.consumptions := <[GrantID g := r]> (DB.consumptions db) |>).
Proof.
  intros Hid Hf Hreq Hclock Htask Hrun [Hg Hnonce] r.
  pose proof (consumption_row_check clock g document now Hid Hf Hreq Hclock) as Hcheck. fold r in Hcheck.
  assert (Henc : all_encodable [GrantID g; sha256_hex (Nonce g); sha256_hex document; TenantID g; TaskID g;
    CollectorSPIFFEID g; TargetID g; RecipeID g; RecipeVersion g] = true).
  { unfold identifiers in Hid. repeat (apply list.Forall_cons in Hid as [[? _] Hid]).
    destruct (digest_fits (Nonce g)) as [Hen _], (digest_fits document) as [Hed _].
    unfold all_encodable. cbn [forallb]. rewrite Hen, Hed.
    repeat match goal with H : encodable _ = true |- _ => rewrite H; clear H end. done. }
  unfold PostgresConsumptionRepository.insert_consumption. rewrite Hcheck.
  change (ConsumptionRow.grant_id r) with (GrantID g). change (ConsumptionRow.task_id r) with (TaskID g).
  change (ConsumptionRow.nonce_digest r) with (sha256_hex (Nonce g)).
  change (ConsumptionRow.tenant_id r) with (TenantID g). change (ConsumptionRow.grant_digest r) with (sha256_hex document).
  change (ConsumptionRow.collector_spiffe_id r) with (CollectorSPIFFEID g).
  change (ConsumptionRow.target_id r) with (TargetID g). change (ConsumptionRow.recipe_id r) with (RecipeID g).
  change (ConsumptionRow.recipe_version r) with (RecipeVersion g).
  rewrite Henc, Hg, Hnonce, Htask. cbn [negb orb is_null].
  destruct Hrun as (Htenant & _). by rewrite bool_decide_eq_true_2 by done.
Qed.

Lemma postgres_consume_succeeds clock g document now db row :
  Forall fits (identifiers g) -> 0 < FencingToken g -> 0 < now -> 0 < ExpiresAt g ->
  normaliseTime now < normaliseTime (ExpiresAt g) -> clock < normaliseTime (ExpiresAt g) ->
  DB.tasks db !! TaskID g = Some row -> task_runs clock g row -> unconsumed g db ->
  let c := consumption_of g document now in
  PostgresConsumptionRepository.Consume (fun db => db) (fun db => db) clock clock c db =
  (Ok (ConsumptionRecord.mk c clock),
   db <| DB.consumptions := <[GrantID g := row_of clock c]> (DB.consumptions db) |>).
Proof.
  intros Hid Hf Hn He Hreq Hclock Htask Hrun [Hg Hnonce] c. pose proof Hid as Hids. unfold identifiers in Hids.
  repeat (apply list.Forall_cons in Hids as [[? _] Hids]).
  destruct (digest_fits (Nonce g)) as [Hen _], (digest_fits document) as [Hed _].
  assert (Hlock : lockAndValidateTask clock c db = Ok tt).
  { apply lock_task_iff; [done|]. exists row. split; [done|]. split; [done|].
    pose proof (Truncate_le (ExpiresAt g) Microsecond ltac:(done)). unfold normaliseTime in *. lia. }
  assert (Henc : all_encodable [GrantID g; sha256_hex (Nonce g)] = true).
  { unfold all_encodable. cbn [forallb]. by rewrite Hen, H0. }
  unfold PostgresConsumptionRepository.Consume, PostgresConsumptionRepository.already_consumed.
  rewrite (consumption_valid g document now Hid Hf Hn He : validateConsumption c = None). cbv zeta.
  change (Consumption.GrantID c) with (GrantID g). change (Consumption.NonceDigest c) with (sha256_hex (Nonce g)).
  rewrite Henc, Hg, Hnonce, Hlock. cbn [negb orb is_null].
  pose proof (postgres_insert_succeeds clock g document now db row Hid Hf Hreq Hclock Htask Hrun (conj Hg Hnonce)) as Hi.
  cbv zeta in Hi. fold c in Hi. by rewrite Hi.
Qed.

(** C23.  An issued grant works: a grant the authority issued, whose identifier
    and nonce have not been consumed yet, is exchanged when its collector presents
    it inside its window for the attempt that the task row records, and the
    exchange adds exactly its consumption to the database. *)
Theorem issued_grant_exchanged `{!SigningLaws P} (a : Authority.t P) g0 g request token row db clock
    (Hprovider : provider_ok (Authority.signing a)) (Hissue : IssueContext a g0 = Ok g)
    (Hbound : bound_to g request) (Hnow : 0 < ExchangeRequest.Now request)
    (Hwindow : NotBefore g <= ExchangeRequest.Now request /\
       normaliseTime (ExchangeRequest.Now request) < normaliseTime (ExpiresAt g))
    (Hclock : clock < normaliseTime (ExpiresAt g)) (Hids : Forall fits (identifiers g))
    (Htask : DB.tasks db !! TaskID g = Some row) (Hrun : task_runs clock g row) (Hfresh : unconsumed g db) :
  exists document, marshal_grant g = Ok document /\
    @ExchangeContext P _ DB.t (postgres_backend (fun db => db) (fun db => db) clock clock) a (Ok token) g request db =
    (Ok (credential_for g token),
     db <| DB.consumptions :=
       <[GrantID g := row_of clock (consumption_of g document (ExchangeRequest.Now request))]> (DB.consumptions db) |>).
Proof.
  pose proof (issued_signature_valid a g0 g Hprovider Hissue) as Hsig.
  apply IssueContext_Ok in Hissue as (k & payload & s & _ & _ & _ & _ & Hpay & _ & Hiss & Haud & Hval).
  assert (Hwin : ExchangeRequest.Now request < ExpiresAt g).
  { destruct Hwindow as [_ Hw]. unfold normaliseTime in Hw.
    apply Z.lt_le_trans with (Truncate (ExpiresAt g) Microsecond); [|by apply Truncate_le].
    apply (Truncate_lt_aligned _ _ Microsecond); [done|by apply Truncate_mod|exact Hw]. }
  assert (Hg : 0 < FencingToken g /\ SingleUse g = true).
  { unfold validateGrant in Hval. repeat (case_match; [done|]). reflect_bools. split; [lia|tauto]. }
  destruct Hg as [Hfence Hsingle]. apply grant_signingPayload_Ok in Hpay as (Hnb & Hexp & _).
  exists (Marshal (grant_tree g)). unfold marshal_grant. rewrite Hnb, Hexp. split; [reflexivity|].
  assert (Hf : TaskPostgres.CurrentFence (TaskID g) db = Ok (FencingToken g)).
  { pose proof Hids as Hids'. unfold identifiers in Hids'. do 2 apply list.Forall_cons in Hids' as [_ Hids'].
    apply list.Forall_cons in Hids' as [(Henc & Hne & _) _]. unfold TaskPostgres.CurrentFence.
    rewrite bool_decide_eq_false_2, Henc, Htask by done. cbn [negb]. f_equal. apply Hrun. }
  unfold ExchangeContext, IsZero, Before. rewrite (proj2 (Z.eqb_neq _ _)) by lia.
  destruct Hbound as (B1 & B2 & B3 & B4 & B5 & B6).
  rewrite Hsig, Hiss, Haud, Hsingle, B1, B2, B3, B4, B5, B6, !bool_decide_eq_true_2 by done.
  rewrite (proj2 (Z.ltb_ge _ _)), (proj2 (Z.ltb_lt _ _)), Z.eqb_refl by lia. cbn [negb orb CurrentFence Consume postgres_backend].
  rewrite Hf, Z.eqb_refl. cbn [negb]. unfold marshal_grant. rewrite Hnb, Hexp. cbn [andb].
  by rewrite (postgres_consume_succeeds clock g (Marshal (grant_tree g)) (ExchangeRequest.Now request) db row) by (done || lia).
Qed.
End PostgresExchange.

(** ** Witnesses *)
#[local] Instance demo_provider : SigningProvider Keyring.t := Keyring.provider demo_sign demo_verify.
#[local] Instance demo_laws : SigningLaws Keyring.t := keyring_laws demo_public demo_sign demo_verify demo_correct.

Definition demo_authority : Authority.t Keyring.t := Authority.mk "broker" "collector" (demo_keyring "k1" "a").
Definition hour : Z := 3600 * Second.
Definition demo_now : Z := 63870000000 * Second.
Definition demo_grant : ExecutionGrant.t :=
  ExecutionGrant.mk "grant-1" "nonce-1" "tenant" "spiffe://broker/c1" "res-1" "task-1" "snap-1" "digest" "router-1"
    "recipe" "v1" "params" 7 "trigger" "plan" "exec" "" "" demo_now (demo_now + hour) (60 * Second) 1048576
    "read-only" true "" "" "" None.
Definition demo_issued : ExecutionGrant.t :=
  match IssueContext demo_authority demo_grant with Ok g => g | Err _ => demo_grant end.
Definition demo_request : ExchangeRequest.t :=
  ExchangeRequest.mk "spiffe://broker/c1" "task-1" "router-1" "recipe" "v1" 7 (demo_now + Second).
Definition demo_row : TaskRow.t :=
  TaskRow.mk "task-1" "tenant" "res-1" "claim" "snap-1" "digest" "router-1" None "recipe" "v1" "trigger" "plan"
    (Some "exec") (Some "grant-1") None "compat" TaskExecuting 1 (Some "spiffe://broker/c1") (Some (demo_now + hour)) 7
    None None None demo_now demo_now.
Definition grant_demo_db : DB.t := DB.empty <| DB.tasks := {["task-1" := demo_row]} |>.

Lemma demo_issued_ok : IssueContext demo_authority demo_grant = Ok demo_issued.
Proof. by vm_compute. Qed.

Lemma demo_representable : representable demo_grant.
Proof. split; [by repeat constructor|]. unfold int64_range. by vm_compute. Qed.

Lemma signature_covers_grant_witness :
  exists p, signingPayload demo_grant = Ok p /\
    forall g, representable g -> signingPayload g = Ok p -> unsigned g = unsigned demo_grant.
Proof.
  exists (Marshal (grant_tree (unsigned demo_grant))).
  assert (Hp : signingPayload demo_grant = Ok (Marshal (grant_tree (unsigned demo_grant)))) by by vm_compute.
  split; [exact Hp|]. intros g Hg Hs.
  exact (signature_covers_grant g demo_grant _ Hg demo_representable Hs Hp).
Defined.

Lemma exchanged_at_most_once_witness :
  let ops := [XExchange (Ok [1; 2]) demo_issued demo_request; XExchange (Ok [3; 4]) demo_issued demo_request] in
  let st : Store * MemoryConsumptionRepository.t := ({["task-1" := scanTask demo_row]}, MemoryConsumptionRepository.empty) in
  map GrantID (exchanged (run (x_exec demo_authority) ops st).1) = ["grant-1"] /\
  NoDup (map GrantID (exchanged (run (x_exec demo_authority) ops st).1)).
Proof.
  intros ops st. split; [by vm_compute|].
  assert (Hst : backend_ok st) by apply map_Forall_empty.
  assert (Hops : Forall x_ok ops) by (do 2 (apply Forall_cons_2; [exact I|]); apply Forall_nil_2).
  exact (proj1 (exchanged_at_most_once demo_authority ops st Hst Hops)).
Defined.

Lemma demo_runs : task_runs (demo_now + 2 * Second) demo_issued demo_row.
Proof. unfold task_runs. split_and!; try by vm_compute. exists (demo_now + hour). by vm_compute. Qed.

Lemma issued_grant_exchanged_witness :
  exists db', @ExchangeContext _ _ DB.t
    (postgres_backend (fun db => db) (fun db => db) (demo_now + 2 * Second) (demo_now + 2 * Second))
    demo_authority (Ok [1; 2]) demo_issued demo_request grant_demo_db = (Ok (credential_for demo_issued [1; 2]), db').
Proof.
  destruct (issued_grant_exchanged demo_authority demo_grant demo_issued demo_request [1; 2] demo_row grant_demo_db
    (demo_now + 2 * Second)) as (document & _ & E).
  - by vm_compute.
  - apply demo_issued_ok.
  - by vm_compute.
  - by vm_compute.
  - by vm_compute.
  - by vm_compute.
  - repeat constructor; by vm_compute.
  - by vm_compute.
  - apply demo_runs.
  - split; by vm_compute.
  - by eexists.
Defined.

Lemma exchange_binds_running_attempt_witness :
  exists cred db', @ExchangeContext _ _ DB.t
    (postgres_backend (fun db => db) (fun db => db) (demo_now + 2 * Second) (demo_now + 2 * Second))
    demo_authority (Ok [1; 2]) demo_issued demo_request grant_demo_db = (Ok cred, db') /\
    bound_to demo_issued demo_request /\ is_Some (DB.consumptions db' !! "grant-1").
Proof.
  set (r := @ExchangeContext _ _ DB.t
    (postgres_backend (fun db => db) (fun db => db) (demo_now + 2 * Second) (demo_now + 2 * Second))
    demo_authority (Ok [1; 2]) demo_issued demo_request grant_demo_db).
  assert (E : r = (Ok (credential_for demo_issued [1; 2]), r.2)) by by vm_compute.
  exists (credential_for demo_issued [1; 2]), r.2. split; [exact E|].
  destruct (exchange_binds_running_attempt (fun db => db) (fun db => db) (demo_now + 2 * Second) (demo_now + 2 * Second)
    demo_authority (Ok [1; 2]) demo_issued demo_request grant_demo_db (credential_for demo_issued [1; 2]) r.2
    ltac:(done) ltac:(done) E) as (Hb & _ & _ & _ & _ & _ & document & Hc).
  split; [exact Hb|]. by eexists.
Defined.
