(* ===== verification/Resolution.v ===== *)
(** * Resolution workflows

    [internal/resolution]: the workflow graph, the service that creates and
    advances resolutions, the in-memory repository and the watch projection of
    its events.  The service reads a resolution and then asks the repository for
    a compare-and-set; [finishTransition] is the part after the read, so that
    any snapshot, however old, can be the one a caller acts on.  The clock and
    the identifier generator are inputs. *)
From S2P Require Import Prelude GoStrings GoEncoding Json Task Schema Outbox.
Local Open Scope Z_scope.

(** ** The workflow graph *)
Definition ResolutionState := string.
Definition ResolutionReceived : ResolutionState := "received".
Definition ResolutionResolvingTargets : ResolutionState := "resolving_targets".
Definition ResolutionPlanning : ResolutionState := "planning".
Definition ResolutionQueued : ResolutionState := "queued".
Definition ResolutionComplete : ResolutionState := "complete".
Definition ResolutionPartial : ResolutionState := "partial".
Definition ResolutionDenied : ResolutionState := "denied".
Definition ResolutionFailed : ResolutionState := "failed".
Definition ResolutionCancelled : ResolutionState := "cancelled".
Definition ResolutionExpired : ResolutionState := "expired".

Definition ErrNotFound := New "resolution.ErrNotFound" "resolution not found".
Definition ErrVersionConflict := New "resolution.ErrVersionConflict" "resolution version conflict".
Definition ErrIdempotencyConflict :=
  New "resolution.ErrIdempotencyConflict" "idempotency key was reused for a different request".
Definition ErrInvalidTransition := New "resolution.ErrInvalidTransition" "resolution state transition is invalid".

Definition allowedTransitions : gmap ResolutionState (gset ResolutionState) := list_to_map [
  (ResolutionReceived, {[ResolutionResolvingTargets; ResolutionDenied; ResolutionFailed; ResolutionCancelled;
     ResolutionExpired]});
  (ResolutionResolvingTargets, {[ResolutionPlanning; ResolutionDenied; ResolutionFailed; ResolutionCancelled;
     ResolutionExpired]});
  (ResolutionPlanning, {[ResolutionQueued; ResolutionDenied; ResolutionFailed; ResolutionCancelled; ResolutionExpired]});
  (ResolutionQueued, {[ResolutionComplete; ResolutionPartial; ResolutionFailed; ResolutionCancelled; ResolutionExpired]}) ].

Module Resolution.
Record t := mk {
  ID : string; ActorID : string; TenantID : string; IdempotencyKey : string; RequestDigest : string;
  RequestDocument : string; State : ResolutionState; TargetCount : Z; Completed : bool; Version : Z;
  CreatedAt : Z; UpdatedAt : Z }.
#[global] Instance eta_t : Eta t := fun x =>
  mk (ID x) (ActorID x) (TenantID x) (IdempotencyKey x) (RequestDigest x) (RequestDocument x) (State x)
     (TargetCount x) (Completed x) (Version x) (CreatedAt x) (UpdatedAt x).
#[global] Instance eq_dec : EqDecision t.
Proof. solve_decision. Defined.
End Resolution.

Definition Terminal (s : ResolutionState) : bool :=
  bool_decide (s ∈ [ResolutionComplete; ResolutionPartial; ResolutionDenied; ResolutionFailed; ResolutionCancelled;
                    ResolutionExpired]).

Definition ValidateTransition (current next : ResolutionState) : option error :=
  if next ==? "" then Some (Wrapf "" ErrInvalidTransition ": next state is required")
  else if Terminal current then
    Some (Wrapf "" ErrInvalidTransition (": terminal state " +:+ quote current +:+ " cannot transition"))
  else match allowedTransitions !! current with
  | None => Some (Wrapf "" ErrInvalidTransition (": unknown current state " +:+ quote current))
  | Some nextStates =>
    if bool_decide (next ∈ nextStates) then None
    else Some (Wrapf "" ErrInvalidTransition (": " +:+ quote current +:+ " to " +:+ quote next))
  end.

(** ** Requests and their validation *)
Definition resolutionEventSchemaVersion : string := "v1".
Definition maximumRequestDocumentSize : Z := 65536.
Definition maximumWatchEvents : Z := 100.

Module CreateRequest.
Record t := mk {
  ActorID : string; TenantID : string; IdempotencyKey : string; RequestDigest : string; RequestDocument : string }.
End CreateRequest.

Module TransitionRequest.
Record t := mk { TenantID : string; ResolutionID : string; ExpectedVersion : Z; NextState : ResolutionState }.
End TransitionRequest.

Definition validateCreateRequest (r : CreateRequest.t) : option error :=
  if (CreateRequest.ActorID r ==? "") || (CreateRequest.TenantID r ==? "") ||
     (CreateRequest.IdempotencyKey r ==? "") || (CreateRequest.RequestDigest r ==? "") ||
     (len (CreateRequest.RequestDocument r) =? 0) then
    Some (Text "actor id, tenant id, idempotency key, request digest and request document are required")
  else if (128 <? len (CreateRequest.IdempotencyKey r)) || (128 <? len (CreateRequest.RequestDigest r)) then
    Some (Text "idempotency key and request digest must not exceed 128 bytes")
  else if (maximumRequestDocumentSize <? len (CreateRequest.RequestDocument r)) ||
          negb (Valid (CreateRequest.RequestDocument r)) then
    Some (Text ("request document must be valid JSON and not exceed " +:+ itoa maximumRequestDocumentSize +:+ " bytes"))
  else if CreateRequest.RequestDigest r !=? "sha256:" +:+ sha256_hex (CreateRequest.RequestDocument r) then
    Some (Text "request digest does not match request document")
  else None.

Definition validateEventBinding (event : Event.t) (tenantID resolutionID : string) : option error :=
  match Event.Validate event with
  | Some e => Some e
  | None =>
    if (Event.TenantID event !=? tenantID) || (Event.AggregateType event !=? "resolution") ||
       (Event.AggregateID event !=? resolutionID) then
      Some (Text "outbox event does not match resolution tenant and aggregate")
    else None
  end.

Definition create_request_of (r : Resolution.t) : CreateRequest.t :=
  CreateRequest.mk (Resolution.ActorID r) (Resolution.TenantID r) (Resolution.IdempotencyKey r)
    (Resolution.RequestDigest r) (Resolution.RequestDocument r).

Definition validateNewResolution (r : Resolution.t) (event : Event.t) : option error :=
  if Resolution.ID r ==? "" then Some (Text "resolution id is required")
  else match validateCreateRequest (create_request_of r) with
  | Some e => Some e
  | None =>
    if (Resolution.State r !=? ResolutionReceived) || negb (Resolution.Version r =? 1) || Resolution.Completed r then
      Some (Text "new resolution must be active in received state at version 1")
    else if IsZero (Resolution.CreatedAt r) || Before (Resolution.UpdatedAt r) (Resolution.CreatedAt r) then
      Some (Text "valid resolution creation and update times are required")
    else validateEventBinding event (Resolution.TenantID r) (Resolution.ID r)
  end.

(** ** Events *)

(** The payload; the request travels in the first event only, and the fields
    marked [omitempty] are left out when empty. *)
Definition payload_base (r : Resolution.t) : list (string * jtree) :=
  [ ("schema_version", jstr resolutionEventSchemaVersion); ("resolution_id", jstr (Resolution.ID r));
    ("state", jstr (Resolution.State r)); ("version", jint (Resolution.Version r)) ].
Definition payload_extras (eventType : string) (r : Resolution.t) : option (list (string * jtree)) :=
  if eventType ==? "resolution.received" then
    match (if len (Resolution.RequestDocument r) =? 0 then Some []
           else option_map (fun doc => [("request_document", doc)]) (jraw (Resolution.RequestDocument r))) with
    | Some doc =>
      Some ((if Resolution.RequestDigest r ==? "" then [] else [("request_digest", jstr (Resolution.RequestDigest r))]) ++ doc)
    | None => None
    end
  else Some [].
Definition object (fields : list (string * jtree)) : jtree := TObj (map (fun kv => key (fst kv) (snd kv)) fields).
Definition payload_tree (eventType : string) (r : Resolution.t) : option jtree :=
  option_map (fun extras => object (payload_base r ++ extras)) (payload_extras eventType r).

Definition resolutionEvent (eventID eventType : string) (r : Resolution.t) (occurredAt : Z) : result Event.t :=
  match payload_tree eventType r with
  | None => Err (Wrapf "encode resolution event: "
                   (Text "json: error calling MarshalJSON for type json.RawMessage: invalid JSON") "")
  | Some t => Ok (Event.mk eventID (Resolution.TenantID r) "resolution" (Resolution.ID r) eventType (Marshal t) occurredAt)
  end.

Module WatchEvent.
Record t := mk { Cursor : Z; Type_ : string; State : ResolutionState; OccurredAt : Z }.
End WatchEvent.

Definition knownResolutionState (s : ResolutionState) : bool :=
  bool_decide (s ∈ [ResolutionReceived; ResolutionResolvingTargets; ResolutionPlanning; ResolutionQueued;
    ResolutionComplete; ResolutionPartial; ResolutionDenied; ResolutionFailed; ResolutionCancelled; ResolutionExpired]).

Definition safeWatchEvent (event : Event.t) : result WatchEvent.t :=
  if (Event.Type_ event !=? "resolution.received") && (Event.Type_ event !=? "resolution.state_changed") &&
     (Event.Type_ event !=? "resolution.tasks_queued") then
    Err (Text ("unsupported resolution event type " +:+ quote (Event.Type_ event)))
  else
    let decode_error := Err (Wrapf "decode resolution event payload: " (Text "json: cannot unmarshal") "") in
    match members (Event.Payload event) with
    | None => decode_error
    | Some fs =>
      match decode_field dec_string "schema_version" "" fs, decode_field dec_string "state" "" fs,
            decode_field dec_int64 "version" 0 fs with
      | Some schema, Some state, Some version =>
        if (schema !=? resolutionEventSchemaVersion) || (version <=? 0) || IsZero (Event.OccurredAt event) then
          Err (Text "resolution event schema, version and occurrence time are required")
        else
          let state := if (state ==? "") && (Event.Type_ event ==? "resolution.tasks_queued")
                       then ResolutionQueued else state in
          if negb (knownResolutionState state) then
            Err (Text ("resolution event state " +:+ quote state +:+ " is invalid"))
          else Ok (WatchEvent.mk version (Event.Type_ event) state (Event.OccurredAt event))
      | _, _, _ => decode_error
      end
    end.

Definition validateWatchRequest (tenantID resolutionID : string) (after limit : Z) : option error :=
  if (tenantID ==? "") || (resolutionID ==? "") || (after <? 0) || (limit <=? 0) || (maximumWatchEvents <? limit) then
    Some (Text ("tenant, resolution, non-negative cursor and limit from 1 to " +:+ itoa maximumWatchEvents +:+ " are required"))
  else None.

(** ** The in-memory repository *)
Module idempotencyRecord.
Record t := mk { requestDigest : string; resolutionID : string }.
End idempotencyRecord.

Definition idempotencyMapKey (tenantID actorID key : string) : string :=
  tenantID +:+ NUL +:+ actorID +:+ NUL +:+ key.

Definition cloneResolution (r : Resolution.t) : Resolution.t := r.

Module MemoryRepository.
Record t := mk {
  resolutions : gmap string Resolution.t; idempotency : gmap string idempotencyRecord.t; events : list Event.t }.
#[global] Instance eta_t : Eta t := fun x => mk (resolutions x) (idempotency x) (events x).
Definition empty : t := mk ∅ ∅ [].

(** A map read that misses gives the zero value. *)
Definition zero_resolution : Resolution.t := Resolution.mk "" "" "" "" "" "" "" 0 false 0 0 0.

Definition Create (r : Resolution.t) (event : Event.t) (m : t) : result (Resolution.t * bool) * t :=
  match validateNewResolution r event with
  | Some e => (Err e, m)
  | None =>
    let key := idempotencyMapKey (Resolution.TenantID r) (Resolution.ActorID r) (Resolution.IdempotencyKey r) in
    match idempotency m !! key with
    | Some record =>
      if idempotencyRecord.requestDigest record !=? Resolution.RequestDigest r then (Err ErrIdempotencyConflict, m)
      else (Ok (cloneResolution (default zero_resolution (resolutions m !! idempotencyRecord.resolutionID record)), false), m)
    | None =>
      match resolutions m !! Resolution.ID r with
      | Some _ => (Err (Wrapf "" ErrVersionConflict ": duplicate resolution id"), m)
      | None =>
        (Ok (cloneResolution r, true),
         mk (<[Resolution.ID r := cloneResolution r]> (resolutions m))
            (<[key := idempotencyRecord.mk (Resolution.RequestDigest r) (Resolution.ID r)]> (idempotency m))
            (events m ++ [Event.Clone event]))
      end
    end
  end.

Definition Get (tenantID resolutionID : string) (m : t) : result Resolution.t :=
  match resolutions m !! resolutionID with
  | Some r =>
    if Resolution.TenantID r !=? tenantID then Err (Wrapf "" ErrNotFound (": " +:+ quote resolutionID))
    else Ok (cloneResolution r)
  | None => Err (Wrapf "" ErrNotFound (": " +:+ quote resolutionID))
  end.

Definition advance (next : ResolutionState) (updatedAt : Z) (r : Resolution.t) : Resolution.t :=
  r <| Resolution.State := next |> <| Resolution.Completed := Terminal next |>
    <| Resolution.Version := int64 (Resolution.Version r + 1) |> <| Resolution.UpdatedAt := updatedAt |>.

Definition Transition (tenantID resolutionID : string) (expectedVersion : Z) (expectedState next : ResolutionState)
    (updatedAt : Z) (event : Event.t) (m : t) : result Resolution.t * t :=
  match Get tenantID resolutionID m with
  | Err e => (Err e, m)
  | Ok r =>
    if negb (Resolution.Version r =? expectedVersion) || (Resolution.State r !=? expectedState) then
      (Err ErrVersionConflict, m)
    else match ValidateTransition expectedState next with
    | Some e => (Err e, m)
    | None =>
      if IsZero updatedAt || Before updatedAt (Resolution.UpdatedAt r) then
        (Err (Text "resolution update time must not move backwards"), m)
      else match validateEventBinding event tenantID resolutionID with
      | Some e => (Err e, m)
      | None =>
        let r' := advance next updatedAt r in
        (Ok (cloneResolution r'),
         m <| resolutions := <[resolutionID := r']> (resolutions m) |>
           <| events := events m ++ [Event.Clone event] |>)
      end
    end
  end.

(** The loop of [ListEvents]: stops at the limit, fails at an event it cannot
    project. *)
Fixpoint project (tenantID resolutionID : string) (after : Z) (limit : nat) (l : list Event.t) :
    result (list WatchEvent.t) :=
  match limit, l with
  | O, _ | _, [] => Ok []
  | S n, event :: rest =>
    if (Event.TenantID event !=? tenantID) || (Event.AggregateType event !=? "resolution") ||
       (Event.AggregateID event !=? resolutionID) then project tenantID resolutionID after limit rest
    else match safeWatchEvent event with
    | Err e => Err e
    | Ok w =>
      if WatchEvent.Cursor w <=? after then project tenantID resolutionID after limit rest
      else match project tenantID resolutionID after n rest with
      | Err e => Err e
      | Ok ws => Ok (w :: ws)
      end
    end
  end.

Definition ListEvents (tenantID resolutionID : string) (after limit : Z) (m : t) : result (list WatchEvent.t) :=
  match validateWatchRequest tenantID resolutionID after limit with
  | Some e => Err e
  | None =>
    match resolutions m !! resolutionID with
    | Some stored =>
      if Resolution.TenantID stored !=? tenantID then Err (Wrapf "" ErrNotFound (": " +:+ quote resolutionID))
      else project tenantID resolutionID after (Z.to_nat limit) (events m)
    | None => Err (Wrapf "" ErrNotFound (": " +:+ quote resolutionID))
    end
  end.

Definition PendingEvents (limit : Z) (m : t) : list Event.t :=
  if limit <=? 0 then [] else map Event.Clone (firstn (Z.to_nat limit) (events m)).
End MemoryRepository.

(** [randomID]; [value] is what the system's randomness gave for the 16 bytes. *)
Definition randomID (prefix : string) (value : result (list Z)) : result string :=
  match value with
  | Err e => Err e
  | Ok bs => Ok (prefix +:+ "-" +:+ hex_EncodeToString bs)
  end.

(** ** The repository interface and the service over it *)
Class Repository (St : Type) := {
  repo_Create : Resolution.t -> Event.t -> St -> result (Resolution.t * bool) * St;
  repo_Get : string -> string -> St -> result Resolution.t;
  repo_Transition : string -> string -> Z -> ResolutionState -> ResolutionState -> Z -> Event.t -> St ->
    result Resolution.t * St }.

#[export] Instance memory_repository : Repository MemoryRepository.t := {|
  repo_Create := MemoryRepository.Create; repo_Get := MemoryRepository.Get;
  repo_Transition := MemoryRepository.Transition |}.

Section Service.
Context {St : Type} `{Repository St}.

(** [Create]; [now] is the clock's reading, the identifiers are the outcomes of
    the generator. *)
Definition Create (request : CreateRequest.t) (now : Z) (resolutionID eventID : result string) (st : St) :
    result (Resolution.t * bool) * St :=
  match validateCreateRequest request with
  | Some e => (Err e, st)
  | None =>
    match resolutionID with
    | Err e => (Err (Wrapf "generate resolution id: " e ""), st)
    | Ok id =>
      match eventID with
      | Err e => (Err (Wrapf "generate resolution event id: " e ""), st)
      | Ok evt =>
        let created := Resolution.mk id (CreateRequest.ActorID request) (CreateRequest.TenantID request)
          (CreateRequest.IdempotencyKey request) (CreateRequest.RequestDigest request)
          (CreateRequest.RequestDocument request) ResolutionReceived 0 false 1 now now in
        match resolutionEvent evt "resolution.received" created now with
        | Err e => (Err e, st)
        | Ok event => repo_Create created event st
        end
      end
    end
  end.

Definition Get (tenantID resolutionID : string) (st : St) : result Resolution.t :=
  if (tenantID ==? "") || (resolutionID ==? "") then Err (Text "tenant id and resolution id are required")
  else repo_Get tenantID resolutionID st.

(** [Transition] once [current] has been read. *)
Definition finishTransition (current : Resolution.t) (request : TransitionRequest.t) (now : Z)
    (eventID : result string) (st : St) : result Resolution.t * St :=
  if negb (Resolution.Version current =? TransitionRequest.ExpectedVersion request) then (Err ErrVersionConflict, st)
  else match ValidateTransition (Resolution.State current) (TransitionRequest.NextState request) with
  | Some e => (Err e, st)
  | None =>
    match eventID with
    | Err e => (Err (Wrapf "generate transition event id: " e ""), st)
    | Ok evt =>
      let next := MemoryRepository.advance (TransitionRequest.NextState request) now current in
      match resolutionEvent evt "resolution.state_changed" next now with
      | Err e => (Err e, st)
      | Ok event =>
        repo_Transition (TransitionRequest.TenantID request) (TransitionRequest.ResolutionID request)
          (TransitionRequest.ExpectedVersion request) (Resolution.State current)
          (TransitionRequest.NextState request) now event st
      end
    end
  end.

Definition Transition (request : TransitionRequest.t) (now : Z) (eventID : result string) (st : St) :
    result Resolution.t * St :=
  if (TransitionRequest.TenantID request ==? "") || (TransitionRequest.ResolutionID request ==? "") ||
     (TransitionRequest.ExpectedVersion request <=? 0) then
    (Err (Text "tenant id, resolution id and positive expected version are required"), st)
  else match repo_Get (TransitionRequest.TenantID request) (TransitionRequest.ResolutionID request) st with
  | Err e => (Err e, st)
  | Ok current => finishTransition current request now eventID st
  end.
End Service.

(** ** What the service asks of its repository *)
Definition created_by (request : CreateRequest.t) (id : string) (now : Z) : Resolution.t :=
  Resolution.mk id (CreateRequest.ActorID request) (CreateRequest.TenantID request)
    (CreateRequest.IdempotencyKey request) (CreateRequest.RequestDigest request)
    (CreateRequest.RequestDocument request) ResolutionReceived 0 false 1 now now.

Lemma Create_calls `{Repository St} request now rid evt (st : St) out st' :
  Create request now rid evt st = (out, st') -> st' = st \/
  exists id ev event, resolutionEvent ev "resolution.received" (created_by request id now) now = Ok event /\
    repo_Create (created_by request id now) event st = (out, st').
Proof.
  unfold Create. case_match; [intros; simplify_eq; auto|].
  destruct rid as [id|]; [|intros; simplify_eq; auto]. destruct evt as [ev|]; [|intros; simplify_eq; auto].
  fold (created_by request id now). destruct (resolutionEvent _ _ _ _) as [event|] eqn:He; [|intros; simplify_eq; auto].
  right. by exists id, ev, event.
Qed.

Lemma finishTransition_calls `{Repository St} current request now evt (st : St) out st' :
  finishTransition current request now evt st = (out, st') -> (st' = st /\ exists e, out = Err e) \/
  exists ev event,
    Resolution.Version current = TransitionRequest.ExpectedVersion request /\
    ValidateTransition (Resolution.State current) (TransitionRequest.NextState request) = None /\
    resolutionEvent ev "resolution.state_changed"
      (MemoryRepository.advance (TransitionRequest.NextState request) now current) now = Ok event /\
    repo_Transition (TransitionRequest.TenantID request) (TransitionRequest.ResolutionID request)
      (TransitionRequest.ExpectedVersion request) (Resolution.State current) (TransitionRequest.NextState request) now
      event st = (out, st').
Proof.
  unfold finishTransition. destruct (Z.eqb_spec (Resolution.Version current) (TransitionRequest.ExpectedVersion request));
    cbn [negb]; [|intros; simplify_eq; eauto].
  destruct (ValidateTransition _ _) eqn:Hs; [intros; simplify_eq; eauto|].
  destruct evt as [ev|]; [|intros; simplify_eq; eauto].
  destruct (resolutionEvent _ _ _ _) as [event|] eqn:He; [|intros; simplify_eq; eauto].
  right. by exists ev, event.
Qed.

(** ** Facts about the graph *)

(** How far along the workflow a state is. *)
Definition rank (s : ResolutionState) : Z :=
  if s ==? ResolutionReceived then 0 else if s ==? ResolutionResolvingTargets then 1
  else if s ==? ResolutionPlanning then 2 else if s ==? ResolutionQueued then 3 else 4.

Definition edges : list (ResolutionState * list ResolutionState) :=
  [ (ResolutionReceived, [ResolutionResolvingTargets; ResolutionDenied; ResolutionFailed; ResolutionCancelled; ResolutionExpired]);
    (ResolutionResolvingTargets, [ResolutionPlanning; ResolutionDenied; ResolutionFailed; ResolutionCancelled; ResolutionExpired]);
    (ResolutionPlanning, [ResolutionQueued; ResolutionDenied; ResolutionFailed; ResolutionCancelled; ResolutionExpired]);
    (ResolutionQueued, [ResolutionComplete; ResolutionPartial; ResolutionFailed; ResolutionCancelled; ResolutionExpired]) ].

Lemma ValidateTransition_edge s s' :
  ValidateTransition s s' = None -> exists l, In (s, l) edges /\ In s' l.
Proof.
  unfold ValidateTransition. case_bool_decide; [done|]. case_match; [done|].
  destruct (allowedTransitions !! s) as [next|] eqn:E; [|done]. case_bool_decide as Hin; [|done]. intros _.
  unfold allowedTransitions in E. simpl list_to_map in E.
  repeat (apply lookup_insert_Some in E as [[<- <-]|[_ E]]; [by eexists; split; [simpl; tauto|set_solver]|]).
  by rewrite lookup_empty in E.
Qed.

Lemma transition_facts s s' :
  ValidateTransition s s' = None ->
  rank s + 1 <= rank s' <= 4 /\ knownResolutionState s' = true /\ ValidString s' = true /\ s' <> "".
Proof.
  intros (l & Hl & Hs)%ValidateTransition_edge.
  repeat (destruct Hl as [[= <- <-]|Hl]; [repeat (destruct Hs as [<-|Hs]; [by vm_compute|]); done|]). done.
Qed.

Lemma Terminal_rank s s' : ValidateTransition s s' = None -> Terminal s = false.
Proof. unfold ValidateTransition. case_bool_decide; [done|]. by destruct (Terminal s). Qed.

(** ** Events read back *)
Definition occurs (ty : string) : Prop :=
  ty = "resolution.received" \/ ty = "resolution.state_changed" \/ ty = "resolution.tasks_queued".

Definition other_key (kv : string * jtree) : Prop :=
  key_is (fst kv) "schema_version" = false /\ key_is (fst kv) "state" = false /\ key_is (fst kv) "version" = false.

(** A member no other member of the object can be taken for. *)
Definition sole_member (fields : list (string * jtree)) (name : string) (v : jtree) : Prop :=
  exists pre post, fields = pre ++ (name, v) :: post /\
    Forall (fun kv => key_is (fst kv) name = false) pre /\ Forall (fun kv => key_is (fst kv) name = false) post.

Lemma decode_sole {A} (dec : jtree -> option A) fields name zero v x :
  sole_member fields name v -> key_is name name = true -> v <> TNull -> dec v = Some x ->
  decode_field dec name zero (map (fun kv => key (fst kv) (snd kv)) fields) = Some x.
Proof.
  intros (pre & post & -> & H1 & H2) Hk Hv Hd. rewrite map_app. cbn [map fst snd]. by apply decode_field_key.
Qed.

Lemma base_members r extra :
  Forall other_key extra ->
  sole_member (payload_base r ++ extra) "schema_version" (jstr resolutionEventSchemaVersion) /\
  sole_member (payload_base r ++ extra) "state" (jstr (Resolution.State r)) /\
  sole_member (payload_base r ++ extra) "version" (jint (Resolution.Version r)).
Proof.
  intros Hx. unfold payload_base. split_and!.
  - eexists [], _. split; [reflexivity|]. split; [constructor|]. cbn [app].
    repeat (constructor; [by vm_compute|]). eapply List.Forall_impl; [|exact Hx]. by intros ? [? _].
  - eexists [_; _], _. split; [reflexivity|]. split; [repeat (constructor; [by vm_compute|]); constructor|].
    constructor; [by vm_compute|]. eapply List.Forall_impl; [|exact Hx]. by intros ? (_ & ? & _).
  - eexists [_; _; _], _. split; [reflexivity|]. split; [repeat (constructor; [by vm_compute|]); constructor|].
    eapply List.Forall_impl; [|exact Hx]. by intros ? (_ & _ & ?).
Qed.

Lemma payload_decodes r extra :
  Forall other_key extra -> ValidString (Resolution.State r) = true -> int64_range (Resolution.Version r) ->
  let fs := map (fun kv => key (fst kv) (snd kv)) (payload_base r ++ extra) in
  decode_field dec_string "schema_version" "" fs = Some "v1" /\
  decode_field dec_string "state" "" fs = Some (Resolution.State r) /\
  decode_field dec_int64 "version" 0 fs = Some (Resolution.Version r).
Proof.
  intros Hx Hs Hv fs. destruct (base_members r extra Hx) as (H1 & H2 & H3). split_and!.
  - by apply (decode_sole _ _ _ _ _ _ H1).
  - apply (decode_sole _ _ _ _ _ _ H2); [done|done|by apply dec_string_jstr].
  - apply (decode_sole _ _ _ _ _ _ H3); [done|done|by apply dec_int64_jint].
Qed.

(** The request document is nested at least one level less than the decoder
    allows, so that the event that embeds it can be decoded. *)
Definition embeddable (doc : string) : Prop :=
  forall t, parse (bytes doc) = Some t -> nesting t + 1 <= max_depth.
Definition value_fits (kv : string * jtree) : Prop := tree_ok (snd kv) /\ nesting (snd kv) + 1 <= max_depth.

Lemma object_ok fields :
  Forall value_fits fields -> tree_ok (object fields) /\ nesting (object fields) <= max_depth.
Proof.
  intros Hf. unfold object. cbn [tree_ok nesting].
  induction Hf as [|[k v] l [Hv Hn] _ [IH1 IH2]]; [by vm_compute|]. cbn [map foldr fst snd] in *.
  split; [split; [by apply key_ok|done]|]. unfold key in *. cbn [snd] in *. lia.
Qed.

Lemma base_fits r : int64_range (Resolution.Version r) -> Forall value_fits (payload_base r).
Proof.
  intros Hv. unfold payload_base, value_fits.
  repeat (constructor; [split; [first [apply jstr_ok | by apply jint_ok]|done]|]). constructor.
Qed.

Lemma extras_fit ty r extra :
  payload_extras ty r = Some extra ->
  (ty = "resolution.received" -> embeddable (Resolution.RequestDocument r)) ->
  Forall (fun kv => value_fits kv /\ other_key kv) extra.
Proof.
  unfold payload_extras. case_bool_decide as Hty; [|intros [= <-]; constructor]. intros Hx Hemb. specialize (Hemb Hty).
  assert (Hdig : Forall (fun kv => value_fits kv /\ other_key kv)
    (if Resolution.RequestDigest r ==? "" then [] else [("request_digest", jstr (Resolution.RequestDigest r))])).
  { destruct (Resolution.RequestDigest r ==? ""); [constructor|]. apply list.Forall_singleton.
    split; [split; [apply jstr_ok|done]|]. unfold other_key. by vm_compute. }
  destruct (len (Resolution.RequestDocument r) =? 0).
  { injection Hx as <-. by rewrite app_nil_r. }
  destruct (jraw (Resolution.RequestDocument r)) as [doc|] eqn:Hd; [|done]. injection Hx as <-.
  apply Forall_app. split; [done|]. apply list.Forall_singleton. split; [|unfold other_key; by vm_compute].
  unfold jraw in Hd. destruct (parse (bytes (Resolution.RequestDocument r))) as [t|] eqn:E; [|done].
  injection Hd as <-. pose proof (Hemb _ E). apply parse_ok in E as [Ht _]; [|apply bytes_range].
  unfold value_fits. cbn [snd]. by destruct (html_tree_ok t Ht) as [? ->].
Qed.

Lemma members_Marshal fields : Forall value_fits fields ->
  members (Marshal (object fields)) = Some (map (fun kv => key (fst kv) (snd kv)) fields).
Proof. intros [Hok Hn]%object_ok. unfold members. by rewrite (parse_Marshal _ Hok Hn). Qed.

Lemma resolutionEvent_inv evt ty r t e :
  resolutionEvent evt ty r t = Ok e ->
  exists extra, payload_extras ty r = Some extra /\
    e = Event.mk evt (Resolution.TenantID r) "resolution" (Resolution.ID r) ty (Marshal (object (payload_base r ++ extra))) t.
Proof.
  unfold resolutionEvent, payload_tree. destruct (payload_extras ty r) as [extra|]; [|done]. cbn [option_map].
  intros He. exists extra. split; [done|]. congruence.
Qed.

(** What the projection does with a payload that carries these members. *)
Lemma safeWatchEvent_decoded e fs state version :
  members (Event.Payload e) = Some fs -> decode_field dec_string "schema_version" "" fs = Some "v1" ->
  decode_field dec_string "state" "" fs = Some state -> decode_field dec_int64 "version" 0 fs = Some version ->
  occurs (Event.Type_ e) -> knownResolutionState state = true -> state <> "" -> 0 < version -> Event.OccurredAt e <> 0 ->
  safeWatchEvent e = Ok (WatchEvent.mk version (Event.Type_ e) state (Event.OccurredAt e)).
Proof.
  intros Hm H1 H2 H3 Hty Hk Hne Hv Ht. unfold safeWatchEvent.
  assert (Hsup : (Event.Type_ e !=? "resolution.received") && (Event.Type_ e !=? "resolution.state_changed") &&
    (Event.Type_ e !=? "resolution.tasks_queued") = false) by (destruct Hty as [->|[->| ->]]; by vm_compute).
  rewrite Hsup, Hm, H1, H2, H3. unfold IsZero.
  rewrite bool_decide_eq_true_2, (proj2 (Z.leb_gt _ _)), (proj2 (Z.eqb_neq _ _)) by (done || lia).
  cbn [negb orb]. rewrite (bool_decide_eq_false_2 (state = "")) by done. cbn [andb]. by rewrite Hk.
Qed.

(** An event of the service is projected to its version, type, state and time. *)
Lemma event_projects evt ty r t e :
  resolutionEvent evt ty r t = Ok e -> occurs ty -> knownResolutionState (Resolution.State r) = true ->
  ValidString (Resolution.State r) = true -> Resolution.State r <> "" -> 0 < Resolution.Version r <= max_int64 -> t <> 0 ->
  (ty = "resolution.received" -> embeddable (Resolution.RequestDocument r)) ->
  safeWatchEvent e = Ok (WatchEvent.mk (Resolution.Version r) ty (Resolution.State r) t).
Proof.
  intros (extra & Hx & ->)%resolutionEvent_inv Hty Hk Hvs Hne Hv Ht Hemb.
  assert (Hrange : int64_range (Resolution.Version r)) by (unfold int64_range; lia).
  pose proof (extras_fit _ _ _ Hx Hemb) as Hf. apply list.Forall_and in Hf as [Hfit Hother].
  assert (Hall : Forall value_fits (payload_base r ++ extra)) by (apply Forall_app; auto using base_fits).
  destruct (payload_decodes r extra Hother Hvs Hrange) as (H1 & H2 & H3).
  apply (safeWatchEvent_decoded (Event.mk _ _ _ _ ty _ t) (map (fun kv => key (fst kv) (snd kv)) (payload_base r ++ extra)));
    try assumption; [by apply members_Marshal|lia].
Qed.

(** ** Histories

    What a watcher may see of a resolution in state [s] at version [v], last
    changed at [t]: it was received at version 1 and every later event is one
    edge of the workflow graph, one version further.  A state change carries the
    time of the change, which is never earlier than the one before; the fan-out
    of a plan carries the planner's time. *)
Inductive history : list WatchEvent.t -> ResolutionState -> Z -> Z -> Prop :=
| history_received t :
    history [WatchEvent.mk 1 "resolution.received" ResolutionReceived t] ResolutionReceived 1 t
| history_advanced ws s v t s' t' :
    history ws s v t -> ValidateTransition s s' = None -> t <= t' ->
    history (ws ++ [WatchEvent.mk (v + 1) "resolution.state_changed" s' t']) s' (v + 1) t'
| history_queued ws v t at_ :
    history ws ResolutionPlanning v t ->
    history (ws ++ [WatchEvent.mk (v + 1) "resolution.tasks_queued" ResolutionQueued at_])
      ResolutionQueued (v + 1) (Z.max at_ t).

Create HintDb resolution.
#[export] Hint Constructors history : resolution.

Lemma history_bounds ws s v t :
  history ws s v t -> 1 <= v <= 1 + rank s /\ rank s <= 4 /\ Z.of_nat (List.length ws) = v.
Proof.
  induction 1 as [|ws s v t s' t' _ IH Hs|ws v t at_ _ IH]; [by vm_compute| |].
  - apply transition_facts in Hs as (Hr & _). rewrite length_app. cbn. lia.
  - rewrite length_app. vm_compute rank in *. cbn. lia.
Qed.

(** The cursor is the position in the history: to resume after a cursor is to
    skip that many events. *)
Lemma history_after ws s v t after :
  history ws s v t -> 0 <= after ->
  List.filter (fun w => negb (WatchEvent.Cursor w <=? after)) ws = skipn (Z.to_nat after) ws.
Proof.
  intros Hh Ha.
  assert (Hsnoc : forall ws s v t w, history ws s v t -> WatchEvent.Cursor w = v + 1 ->
    List.filter (fun w => negb (WatchEvent.Cursor w <=? after)) ws = skipn (Z.to_nat after) ws ->
    List.filter (fun w => negb (WatchEvent.Cursor w <=? after)) (ws ++ [w]) = skipn (Z.to_nat after) (ws ++ [w])).
  { clear. intros ws s v t w Hh Hw IH. apply history_bounds in Hh as (_ & _ & Hl).
    rewrite filter_app, IH, skipn_app. f_equal. cbn. rewrite Hw. destruct (Z.leb_spec (v + 1) after).
    - by rewrite skipn_all2 by (cbn; lia).
    - by replace (Z.to_nat after - List.length ws)%nat with 0%nat by lia. }
  induction Hh as [t|ws s v t s' t' Hh IH _ _|ws v t at_ Hh IH]; [|by eapply Hsnoc|by eapply Hsnoc].
  cbn. destruct (Z.leb_spec 1 after).
  - by rewrite skipn_all2 by (cbn; lia).
  - by replace after with 0 by lia.
Qed.

Lemma history_sorted ws s v t :
  history ws s v t ->
  StronglySorted (fun a b => WatchEvent.Cursor a < WatchEvent.Cursor b) ws /\
  Forall (fun w => WatchEvent.Cursor w <= v) ws.
Proof.
  assert (Hsnoc : forall ws v w, WatchEvent.Cursor w = v + 1 ->
    StronglySorted (fun a b => WatchEvent.Cursor a < WatchEvent.Cursor b) ws /\ Forall (fun w => WatchEvent.Cursor w <= v) ws ->
    StronglySorted (fun a b => WatchEvent.Cursor a < WatchEvent.Cursor b) (ws ++ [w]) /\
    Forall (fun w => WatchEvent.Cursor w <= v + 1) (ws ++ [w])).
  { clear. intros ws v w Hw [IH1 IH2]. split.
    - apply StronglySorted_snoc; [done|]. eapply List.Forall_impl; [|exact IH2]. cbn. lia.
    - apply Forall_app. split; [|repeat constructor; lia]. eapply List.Forall_impl; [|exact IH2]. cbn. lia. }
  induction 1 as [t|ws s v t s' t' _ IH _ _|ws v t at_ _ IH]; [|by apply Hsnoc|by apply Hsnoc].
  split; repeat constructor; cbn; lia.
Qed.

(** ** Runs of the service over the in-memory repository

    A transition acts on a snapshot [current] that some earlier read returned;
    any value is allowed here, so every interleaving of readers and writers is a
    run. *)
Inductive op :=
| OpCreate (request : CreateRequest.t) (now : Z) (resolutionID eventID : result string)
| OpTransition (current : Resolution.t) (request : TransitionRequest.t) (now : Z) (eventID : result string).

Definition step (o : op) (m : MemoryRepository.t) : result Resolution.t * MemoryRepository.t :=
  match o with
  | OpCreate request now rid evt =>
    match Create request now rid evt m with
    | (Ok (r, _), m') => (Ok r, m')
    | (Err e, m') => (Err e, m')
    end
  | OpTransition current request now evt => finishTransition current request now evt m
  end.

Definition op_ok (o : op) : Prop :=
  match o with OpCreate request _ _ _ => embeddable (CreateRequest.RequestDocument request) | _ => True end.

Definition key_of (r : Resolution.t) : string :=
  idempotencyMapKey (Resolution.TenantID r) (Resolution.ActorID r) (Resolution.IdempotencyKey r).

Lemma Create_inserts request now rid evt m out m' :
  Create request now rid evt m = (out, m') -> m' = m \/
  exists id ev event, let r := created_by request id now in
    resolutionEvent ev "resolution.received" r now = Ok event /\ validateNewResolution r event = None /\
    MemoryRepository.idempotency m !! key_of r = None /\ MemoryRepository.resolutions m !! id = None /\
    out = Ok (r, true) /\
    m' = MemoryRepository.mk (<[id := r]> (MemoryRepository.resolutions m))
           (<[key_of r := idempotencyRecord.mk (Resolution.RequestDigest r) id]> (MemoryRepository.idempotency m))
           (MemoryRepository.events m ++ [event]).
Proof.
  intros [->|(id & ev & event & He & Hc)]%Create_calls; [by left|]. revert Hc.
  unfold repo_Create, memory_repository, MemoryRepository.Create.
  destruct (validateNewResolution _ _) eqn:Hv; [intros; simplify_eq; auto|].
  fold (key_of (created_by request id now)).
  destruct (MemoryRepository.idempotency m !! _) eqn:Hi; [case_match; intros; simplify_eq; auto|].
  change (Resolution.ID (created_by request id now)) with id.
  destruct (MemoryRepository.resolutions m !! id) eqn:Hr; [intros; simplify_eq; auto|].
  intros [<- <-]%pair_equal_spec. right. exists id, ev, event. by cbn zeta.
Qed.

Lemma binding_facts event tenant id :
  validateEventBinding event tenant id = None ->
  Event.TenantID event = tenant /\ Event.AggregateType event = "resolution" /\ Event.AggregateID event = id /\
  Event.OccurredAt event <> 0.
Proof.
  unfold validateEventBinding, Event.Validate, IsZero. intros H. crush.
Qed.

Lemma Get_facts tenant id m r :
  MemoryRepository.Get tenant id m = Ok r <->
  MemoryRepository.resolutions m !! id = Some r /\ Resolution.TenantID r = tenant.
Proof.
  unfold MemoryRepository.Get, cloneResolution. destruct (_ !! id) as [r'|]; [|naive_solver].
  case_bool_decide; cbn; naive_solver.
Qed.

Lemma finishTransition_advances current request now evt m out m' :
  finishTransition current request now evt m = (out, m') -> m' = m /\ (exists e, out = Err e) \/
  exists r ev event, let id := TransitionRequest.ResolutionID request in
    let next := TransitionRequest.NextState request in
    MemoryRepository.resolutions m !! id = Some r /\ Resolution.TenantID r = TransitionRequest.TenantID request /\
    Resolution.Version r = Resolution.Version current /\ Resolution.State r = Resolution.State current /\
    ValidateTransition (Resolution.State r) next = None /\ Resolution.UpdatedAt r <= now /\
    resolutionEvent ev "resolution.state_changed" (MemoryRepository.advance next now current) now = Ok event /\
    validateEventBinding event (TransitionRequest.TenantID request) id = None /\
    out = Ok (MemoryRepository.advance next now r) /\
    m' = MemoryRepository.mk (<[id := MemoryRepository.advance next now r]> (MemoryRepository.resolutions m))
           (MemoryRepository.idempotency m) (MemoryRepository.events m ++ [event]).
Proof.
  intros [?|(ev & event & Hv & Hvt & He & Hc)]%finishTransition_calls; [by left|]. revert Hc.
  unfold repo_Transition, memory_repository, MemoryRepository.Transition.
  destruct (MemoryRepository.Get _ _ m) as [r|] eqn:Hg; [|intros; simplify_eq; eauto].
  apply Get_facts in Hg as [Hg Htn].
  destruct (Z.eqb_spec (Resolution.Version r) (TransitionRequest.ExpectedVersion request)) as [Hv'|];
    cbn [negb orb]; [|intros; simplify_eq; eauto].
  case_bool_decide as Hs; cbn [negb]; [|intros; simplify_eq; eauto]. rewrite Hvt.
  unfold IsZero, Before. destruct (_ || _) eqn:Ht; [intros; simplify_eq; eauto|].
  apply orb_false_iff in Ht as [_ Ht%Z.ltb_ge].
  destruct (validateEventBinding _ _ _) eqn:Hb; [intros; simplify_eq; eauto|].
  intros [<- <-]%pair_equal_spec. right. exists r, ev, event. cbn zeta. rewrite Hs, Hv, Hv'. by split_and!.
Qed.

(** ** The invariant of the repository

    Every resolution is stored under its identifier, is completed exactly when
    its state is terminal, owns its idempotency key, and its events project to a
    history that ends in its present state; there are no other events. *)
Definition of_id (id : string) (e : Event.t) : bool :=
  (Event.AggregateType e ==? "resolution") && (Event.AggregateID e ==? id).
Definition projects (tenant : string) (e : Event.t) (w : WatchEvent.t) : Prop :=
  Event.TenantID e = tenant /\ safeWatchEvent e = Ok w.
Definition recorded (m : MemoryRepository.t) (id : string) (r : Resolution.t) (ws : list WatchEvent.t) : Prop :=
  (Resolution.ID r = id /\ id <> "" /\ validateCreateRequest (create_request_of r) = None) /\
  Resolution.Completed r = Terminal (Resolution.State r) /\
  MemoryRepository.idempotency m !! key_of r = Some (idempotencyRecord.mk (Resolution.RequestDigest r) id) /\
  history ws (Resolution.State r) (Resolution.Version r) (Resolution.UpdatedAt r) /\
  Forall2 (projects (Resolution.TenantID r)) (List.filter (of_id id) (MemoryRepository.events m)) ws.
Record Inv (m : MemoryRepository.t) : Prop := {
  inv_recorded : forall id r, MemoryRepository.resolutions m !! id = Some r -> exists ws, recorded m id r ws;
  inv_orphan : forall id, MemoryRepository.resolutions m !! id = None ->
    List.filter (of_id id) (MemoryRepository.events m) = [];
  inv_key : forall k rec, MemoryRepository.idempotency m !! k = Some rec ->
    exists r, MemoryRepository.resolutions m !! idempotencyRecord.resolutionID rec = Some r /\ key_of r = k /\
              Resolution.RequestDigest r = idempotencyRecord.requestDigest rec }.

Lemma filter_of_id id e l :
  Event.AggregateType e = "resolution" ->
  List.filter (of_id id) (l ++ [e]) = List.filter (of_id id) l ++ (if Event.AggregateID e ==? id then [e] else []).
Proof. intros H. rewrite filter_app. unfold of_id at 2. cbn. by rewrite H. Qed.

Lemma event_fields evt ty r t e :
  resolutionEvent evt ty r t = Ok e ->
  Event.TenantID e = Resolution.TenantID r /\ Event.AggregateType e = "resolution" /\
  Event.AggregateID e = Resolution.ID r /\ Event.OccurredAt e = t.
Proof. unfold resolutionEvent. by destruct (payload_tree _ _); intros [= <-]. Qed.

Lemma validateNewResolution_binding r event :
  validateNewResolution r event = None ->
  (Resolution.ID r <> "" /\ validateCreateRequest (create_request_of r) = None) /\
  validateEventBinding event (Resolution.TenantID r) (Resolution.ID r) = None /\ Resolution.CreatedAt r <> 0.
Proof.
  unfold validateNewResolution. case_bool_decide; [done|].
  destruct (validateCreateRequest _); [done|]. case_match; [done|].
  destruct (IsZero _) eqn:Hz; [done|]. unfold IsZero in Hz. apply Z.eqb_neq in Hz. case_match; done.
Qed.

(** The event that a successful [Create] stores opens the history. *)
Lemma received_projects ev request id now event :
  let r := created_by request id now in
  embeddable (CreateRequest.RequestDocument request) ->
  resolutionEvent ev "resolution.received" r now = Ok event -> validateNewResolution r event = None ->
  projects (CreateRequest.TenantID request) event (WatchEvent.mk 1 "resolution.received" ResolutionReceived now).
Proof.
  intros r Hemb He Hv. pose proof (event_fields _ _ _ _ _ He) as (Ht & _). split; [done|].
  apply validateNewResolution_binding in Hv as (_ & _ & Hz). apply (event_projects _ _ _ _ _ He); try done.
  by left.
Qed.

Lemma advanced_projects ev next now r event ws s t :
  history ws s (Resolution.Version r) t -> ValidateTransition s next = None -> now <> 0 ->
  resolutionEvent ev "resolution.state_changed" (MemoryRepository.advance next now r) now = Ok event ->
  projects (Resolution.TenantID r) event
    (WatchEvent.mk (Resolution.Version r + 1) "resolution.state_changed" next now).
Proof.
  intros Hh Hs Hz He. apply history_bounds in Hh as (Hv & Hr & _).
  assert (Hint : int64 (Resolution.Version r + 1) = Resolution.Version r + 1)
    by (apply int64_small; unfold max_int64; lia).
  pose proof (event_fields _ _ _ _ _ He) as (Ht & _). split; [done|].
  rewrite <- Hint. apply transition_facts in Hs as (_ & Hk & Hvs & Hne).
  apply (event_projects _ _ _ _ _ He); try done.
  - by right; left.
  - cbn. rewrite Hint. unfold max_int64. lia.
Qed.

(** Storing one more event changes the history of its own resolution only. *)
Lemma recorded_other m m' id r ws event :
  recorded m id r ws -> Event.AggregateType event = "resolution" -> Event.AggregateID event <> id ->
  MemoryRepository.events m' = MemoryRepository.events m ++ [event] ->
  MemoryRepository.idempotency m' !! key_of r = MemoryRepository.idempotency m !! key_of r ->
  recorded m' id r ws.
Proof.
  intros ((Hid & Hid' & Hreq) & Hc & Hk & Hh & Hf) Hty Hne He Hi. unfold recorded. rewrite Hi, He, (filter_of_id _ _ _ Hty).
  rewrite bool_decide_eq_false_2 by done. rewrite app_nil_r. by split_and!.
Qed.

Lemma inv_create request now rid evt m out m' :
  embeddable (CreateRequest.RequestDocument request) -> Inv m -> Create request now rid evt m = (out, m') -> Inv m'.
Proof.
  intros Hemb HI [->|(id & ev & event & He & Hv & Hi & Hr & _ & ->)]%Create_inserts; [done|].
  pose proof (received_projects _ _ _ _ _ Hemb He Hv) as Hproj.
  pose proof (event_fields _ _ _ _ _ He) as (_ & Hty & Hag & _). cbn in Hag.
  destruct (validateNewResolution_binding _ _ Hv) as ([Hidne Hreq] & _).
  set (r := created_by request id now) in *.
  assert (Hevents : forall i, List.filter (of_id i) (MemoryRepository.events m ++ [event]) =
    List.filter (of_id i) (MemoryRepository.events m) ++ if id ==? i then [event] else [])
    by (intros i; rewrite <- Hag; by apply filter_of_id).
  split; cbn [MemoryRepository.resolutions MemoryRepository.idempotency MemoryRepository.events].
  - intros i r' [[<- <-]|[Hne Hlook]]%lookup_insert_Some.
    + exists [WatchEvent.mk 1 "resolution.received" ResolutionReceived now]. unfold recorded.
      cbn [MemoryRepository.resolutions MemoryRepository.idempotency MemoryRepository.events].
      rewrite Hevents, (inv_orphan _ HI _ Hr), bool_decide_eq_true_2 by done.
      split_and!; try done; [apply lookup_insert_eq|apply history_received|apply Forall2_cons; [exact Hproj|constructor]].
    + destruct (inv_recorded _ HI _ _ Hlook) as [ws Hws]. exists ws.
      apply (recorded_other m _ _ _ _ event); try done; [congruence|]. apply lookup_insert_ne. intros Heq.
      destruct Hws as (_ & _ & Hk & _). rewrite <- Heq in Hk. by rewrite Hi in Hk.
  - intros i [Hlook Hne]%lookup_insert_None. rewrite Hevents, (inv_orphan _ HI _ Hlook), bool_decide_eq_false_2; done.
  - intros k rec [[<- <-]|[Hne Hlook]]%lookup_insert_Some.
    + exists r. split_and!; try done. apply lookup_insert_eq.
    + destruct (inv_key _ HI _ _ Hlook) as (r' & Hr' & Hk'). exists r'. split; [|done].
      cbn. rewrite lookup_insert_ne; [done|]. intros ->. by rewrite Hr in Hr'.
Qed.

Lemma inv_transition current request now evt m out m' :
  Inv m -> finishTransition current request now evt m = (out, m') -> Inv m'.
Proof.
  intros HI [[-> _]|(r & ev & event & Hr & Htn & Hver & Hst & Hs & Ht & He & Hb & _ & ->)]%finishTransition_advances; [done|].
  apply binding_facts in Hb as (Hbt & Hty & Hag & Hz).
  pose proof (event_fields _ _ _ _ _ He) as (Hte & _ & _ & Hocc). rewrite Hocc in Hz.
  set (id := TransitionRequest.ResolutionID request) in *. set (next := TransitionRequest.NextState request) in *.
  destruct (inv_recorded _ HI _ _ Hr) as [ws ((Hid & Hid' & Hreq) & Hc & Hk & Hh & Hf)].
  assert (Hint : int64 (Resolution.Version r + 1) = Resolution.Version r + 1)
    by (apply history_bounds in Hh; apply int64_small; unfold max_int64; lia).
  split; cbn [MemoryRepository.resolutions MemoryRepository.idempotency MemoryRepository.events].
  - intros i r' [[<- <-]|[Hne Hlook]]%lookup_insert_Some.
    + exists (ws ++ [WatchEvent.mk (Resolution.Version r + 1) "resolution.state_changed" next now]). unfold recorded.
      cbn [MemoryRepository.resolutions MemoryRepository.idempotency MemoryRepository.events].
      rewrite (filter_of_id _ _ _ Hty), bool_decide_eq_true_2 by done.
      change (Resolution.Version (MemoryRepository.advance next now r)) with (int64 (Resolution.Version r + 1)).
      rewrite Hint. split_and!; try done; [by eapply history_advanced|].
      apply Forall2_app; [done|]. constructor; [|constructor].
      rewrite Hver in Hh |- *. destruct (advanced_projects _ _ _ _ _ _ _ _ Hh Hs Hz He) as [_ Hp].
      split; [|done]. cbn. congruence.
    + destruct (inv_recorded _ HI _ _ Hlook) as [ws' Hws]. exists ws'.
      apply (recorded_other m _ _ _ _ event); try done. congruence.
  - intros i [Hlook Hne]%lookup_insert_None.
    rewrite (filter_of_id _ _ _ Hty), (inv_orphan _ HI _ Hlook), bool_decide_eq_false_2; [done|congruence].
  - intros k rec Hlook. destruct (inv_key _ HI _ _ Hlook) as (r' & Hr' & Hk' & Hd'). cbn.
    destruct (decide (idempotencyRecord.resolutionID rec = id)) as [Heq|Hne].
    + rewrite Heq in Hr' |- *. rewrite lookup_insert_eq. exists (MemoryRepository.advance next now r).
      rewrite Hr in Hr'. injection Hr' as <-. done.
    + exists r'. by rewrite lookup_insert_ne.
Qed.

Lemma inv_empty : Inv MemoryRepository.empty.
Proof. split; done. Qed.

Lemma inv_step o m : op_ok o -> Inv m -> Inv (step o m).2.
Proof.
  destruct o as [request now rid evt|current request now evt]; intros Hok HI; cbn.
  - destruct (Create request now rid evt m) as [[[r b]|e] m'] eqn:E; cbn; by eapply inv_create.
  - destruct (finishTransition _ _ _ _ _) as [out m'] eqn:E. by eapply inv_transition.
Qed.

Lemma inv_run ops : Forall op_ok ops -> Inv (run step ops MemoryRepository.empty).2.
Proof. intros Hok. apply (run_invariant step op_ok Inv); [intros; by apply inv_step|done|apply inv_empty]. Qed.

(** ** Watching *)
Lemma project_filter tenant id after n l ws :
  Forall2 (projects tenant) (List.filter (of_id id) l) ws ->
  MemoryRepository.project tenant id after n l =
  Ok (firstn n (List.filter (fun w => negb (WatchEvent.Cursor w <=? after)) ws)).
Proof.
  revert n ws. induction l as [|e l IH]; intros n ws Hf.
  - inversion Hf; subst. destruct n; done.
  - destruct n as [|n]; [done|]. cbn [MemoryRepository.project]. cbn [List.filter] in Hf.
    destruct (of_id id e) eqn:He; unfold of_id in He.
    + apply andb_true_iff in He as [H1%bool_decide_eq_true H2%bool_decide_eq_true].
      inversion Hf as [|? w ? ws' [Ht Hw] Hrest]; subst. rewrite !bool_decide_eq_true_2 by done. cbn [negb orb].
      rewrite Hw. cbn [List.filter]. destruct (WatchEvent.Cursor w <=? after); cbn [negb]; [by apply (IH (S n))|].
      by rewrite (IH n _ Hrest).
    + replace ((Event.TenantID e !=? tenant) || (Event.AggregateType e !=? "resolution") ||
        (Event.AggregateID e !=? id)) with true; [by apply (IH (S n))|].
      by destruct (Event.TenantID e ==? tenant), (Event.AggregateType e ==? "resolution"), (Event.AggregateID e ==? id).
Qed.

Lemma tenant_required r : validateCreateRequest (create_request_of r) = None -> Resolution.TenantID r <> "".
Proof.
  unfold validateCreateRequest. cbn. intros H Ht. rewrite Ht in H. by rewrite (bool_decide_eq_true_2 (""="")), orb_true_r in H.
Qed.

(** ** Progress of one resolution *)
Definition accepted (id : string) (entry : op * result Resolution.t) : bool :=
  match entry with
  | (OpTransition _ request _ _, Ok _) => TransitionRequest.ResolutionID request ==? id
  | _ => false
  end.
Definition accepted_count (id : string) (log : list (op * result Resolution.t)) : Z :=
  Z.of_nat (List.length (List.filter (accepted id) log)).
Definition ranked (m : MemoryRepository.t) : Prop :=
  forall id r, MemoryRepository.resolutions m !! id = Some r ->
    1 <= Resolution.Version r <= 1 + rank (Resolution.State r) /\ rank (Resolution.State r) <= 4.
Definition advances (r r' : Resolution.t) (n : Z) : Prop :=
  Resolution.ID r' = Resolution.ID r /\ create_request_of r' = create_request_of r /\
  Resolution.Version r' = Resolution.Version r + n /\ (Terminal (Resolution.State r) = true -> r' = r).

Lemma advance_ranked next now r :
  1 <= Resolution.Version r <= 1 + rank (Resolution.State r) -> ValidateTransition (Resolution.State r) next = None ->
  Resolution.Version (MemoryRepository.advance next now r) = Resolution.Version r + 1 /\
  Resolution.Version r + 1 <= 1 + rank next /\ rank next <= 4.
Proof.
  intros Hv Hs. destruct (transition_facts _ _ Hs) as (Hr & _). cbn.
  rewrite int64_small by (unfold max_int64; lia). lia.
Qed.

Lemma ranked_step o m : ranked m -> ranked (step o m).2.
Proof.
  intros HR. destruct o as [request now rid evt|current request now evt]; cbn.
  - destruct (Create request now rid evt m) as [out m'] eqn:E.
    apply Create_inserts in E as [->|(id & ev & event & He & Hv & Hi & Hr & -> & ->)]; [by destruct out as [[]|]|].
    unfold ranked. cbn [snd MemoryRepository.resolutions]. intros i r' [[<- <-]|[_ Hl]]%lookup_insert_Some; [by vm_compute|by apply (HR i)].
  - destruct (finishTransition _ _ _ _ _) as [out m'] eqn:E.
    apply finishTransition_advances in E as [[-> _]|(r & ev & event & Hr & Htn & Hver & Hst & Hs & Ht & He & Hb & _ & ->)]; [done|].
    unfold ranked. cbn [snd MemoryRepository.resolutions]. intros i r' [[<- <-]|[_ Hl]]%lookup_insert_Some; [|by apply (HR i)].
    destruct (HR _ _ Hr) as [Hv _]. destruct (advance_ranked _ now _ Hv Hs) as (-> & H1 & H2). cbn. lia.
Qed.

Lemma step_advances o m id r :
  ranked m -> MemoryRepository.resolutions m !! id = Some r ->
  exists r', MemoryRepository.resolutions (step o m).2 !! id = Some r' /\
    advances r r' (accepted_count id [(o, (step o m).1)]).
Proof.
  intros HR Hl. assert (Hsame : advances r r 0) by (unfold advances; split_and!; (done || lia)).
  destruct o as [request now rid evt|current request now evt]; cbn [step].
  - destruct (Create request now rid evt m) as [out m'] eqn:E.
    apply Create_inserts in E as [->|(i & ev & event & He & Hv & Hi & Hr & -> & ->)].
    + exists r. by destruct out as [[]|].
    + exists r. split; [|done]. cbn. rewrite lookup_insert_ne; [done|]. intros ->. by rewrite Hl in Hr.
  - destruct (finishTransition _ _ _ _ _) as [out m'] eqn:E. cbn [fst snd].
    apply finishTransition_advances in E as [[-> [e ->]]|(r0 & ev & event & Hr & Htn & Hver & Hst & Hs & Ht & He & Hb & -> & ->)];
      [by exists r|].
    unfold accepted_count. cbn [List.filter accepted MemoryRepository.resolutions].
    case_bool_decide as Hid; [subst id|by exists r; rewrite lookup_insert_ne].
    rewrite lookup_insert_eq. eexists. split; [done|]. rewrite Hr in Hl. injection Hl as ->.
    destruct (HR _ _ Hr) as [Hv _]. destruct (advance_ranked _ now _ Hv Hs) as (Hver' & _).
    split_and!; try done. by rewrite (Terminal_rank _ _ Hs).
Qed.

Lemma run_advances ops : forall m id r,
  ranked m -> MemoryRepository.resolutions m !! id = Some r ->
  exists r', MemoryRepository.resolutions (run step ops m).2 !! id = Some r' /\
    advances r r' (accepted_count id (run step ops m).1).
Proof.
  induction ops as [|o ops IH]; intros m id r HR Hl.
  { exists r. split; [done|]. unfold advances. split_and!; try done. unfold accepted_count. cbn. lia. }
  destruct (step_advances o m id r HR Hl) as (r1 & Hl1 & Hid1 & Hc1 & Hv1 & Ht1).
  pose proof (ranked_step o m HR) as HR1. cbn [run]. destruct (step o m) as [out m1]. cbn [fst snd] in *.
  destruct (IH m1 id r1 HR1 Hl1) as (r2 & Hl2 & Hid2 & Hc2 & Hv2 & Ht2).
  destruct (run step ops m1) as [log m2]. cbn [fst snd] in *. exists r2. split; [done|]. unfold advances.
  split_and!; [congruence|congruence| |].
  - rewrite Hv2, Hv1. unfold accepted_count. cbn [List.filter]. destruct (accepted id (o, out)); cbn; lia.
  - intros Ht. rewrite (Ht1 Ht) in *. by apply Ht2.
Qed.

Lemma Marshal_object_nonempty fields : (len (Marshal (object fields)) =? 0) = false.
Proof. apply Z.eqb_neq. unfold Marshal, object, of_bytes, len. cbn [print map String.string_of_list_ascii String.length]. lia. Qed.

Lemma resolutionEvent_binds ev ty r t event :
  resolutionEvent ev ty r t = Ok event -> ev <> "" -> ty <> "" -> t <> 0 -> Resolution.TenantID r <> "" ->
  Resolution.ID r <> "" -> validateEventBinding event (Resolution.TenantID r) (Resolution.ID r) = None.
Proof.
  intros (extras & _ & ->)%resolutionEvent_inv Hev Hty Ht Htn Hid.
  unfold validateEventBinding, Event.Validate, IsZero.
  cbn [Event.ID Event.TenantID Event.AggregateType Event.AggregateID Event.Type_ Event.Payload Event.OccurredAt].
  rewrite !bool_decide_eq_false_2 by done. rewrite Marshal_object_nonempty, (proj2 (Z.eqb_neq _ _) Ht).
  by rewrite !bool_decide_eq_true_2.
Qed.

Lemma request_facts request :
  validateCreateRequest request = None ->
  CreateRequest.TenantID request <> "" /\ Valid (CreateRequest.RequestDocument request) = true.
Proof.
  unfold validateCreateRequest. destruct (_ || (len _ =? 0)) eqn:E; [done|].
  rewrite !orb_false_iff in E. destruct E as ((((_ & E%bool_decide_eq_false) & _) & _) & _).
  case_match; [done|]. destruct (Valid _); [done|]. by rewrite orb_true_r.
Qed.

Lemma received_encodes request id now ev :
  Valid (CreateRequest.RequestDocument request) = true ->
  exists event, resolutionEvent ev "resolution.received" (created_by request id now) now = Ok event.
Proof.
  intros Hvalid. unfold resolutionEvent, payload_tree, payload_extras, jraw.
  change (Resolution.RequestDocument (created_by request id now)) with (CreateRequest.RequestDocument request).
  unfold Valid in Hvalid. destruct (parse _); [|done]. rewrite (bool_decide_eq_true_2 (_ = _)) by done.
  destruct (len _ =? 0); cbn [option_map]; by eexists.
Qed.

(** A valid request reaches the repository: its event is encoded and accepted. *)
Lemma Create_reaches `{Repository St} request now id ev (m : St) :
  validateCreateRequest request = None -> now <> 0 -> id <> "" -> ev <> "" ->
  exists event, Create request now (Ok id) (Ok ev) m = repo_Create (created_by request id now) event m /\
    validateNewResolution (created_by request id now) event = None.
Proof.
  intros Hreq Hnow Hid Hev. destruct (request_facts _ Hreq) as [Htn Hvalid].
  destruct (received_encodes request id now ev Hvalid) as [event He]. exists event.
  split; [unfold Create; rewrite Hreq; fold (created_by request id now); by rewrite He|].
  pose proof (resolutionEvent_binds _ _ _ _ _ He Hev ltac:(done) Hnow Htn Hid) as Hb.
  unfold validateNewResolution. rewrite (bool_decide_eq_false_2 (_ = "")) by done.
  replace (create_request_of _) with request by (by destruct request). rewrite Hreq, Hb.
  unfold IsZero, Before, created_by.
  cbn [Resolution.State Resolution.Version Resolution.Completed Resolution.CreatedAt Resolution.UpdatedAt].
  rewrite (proj2 (Z.eqb_neq _ _) Hnow), Z.ltb_irrefl. by rewrite (bool_decide_eq_true_2 (_ = _)).
Qed.

Lemma Get_missing tenant id m e : MemoryRepository.Get tenant id m = Err e -> errors_Is e ErrNotFound = true.
Proof.
  unfold MemoryRepository.Get. destruct (_ !! id); [case_match; [|done]|]; intros [= <-]; reflexivity.
Qed.

Lemma ValidateTransition_Is s s' e : ValidateTransition s s' = Some e -> errors_Is e ErrInvalidTransition = true.
Proof. unfold ValidateTransition. intros H. repeat case_match; try done; injection H as <-; reflexivity. Qed.

(** A transition that acts on the stored resolution, case by case. *)
Lemma finishTransition_current r request now ev m :
  let id := TransitionRequest.ResolutionID request in let next := TransitionRequest.NextState request in
  MemoryRepository.Get (TransitionRequest.TenantID request) id m = Ok r ->
  TransitionRequest.TenantID request <> "" -> id <> "" -> now <> 0 -> ev <> "" -> Resolution.ID r = id ->
  exists event, resolutionEvent ev "resolution.state_changed" (MemoryRepository.advance next now r) now = Ok event /\
  finishTransition r request now (Ok ev) m =
    if negb (Resolution.Version r =? TransitionRequest.ExpectedVersion request) then (Err ErrVersionConflict, m)
    else match ValidateTransition (Resolution.State r) next with
    | Some e => (Err e, m)
    | None =>
      if Before now (Resolution.UpdatedAt r) then (Err (Text "resolution update time must not move backwards"), m)
      else (Ok (MemoryRepository.advance next now r),
            MemoryRepository.mk (<[id := MemoryRepository.advance next now r]> (MemoryRepository.resolutions m))
              (MemoryRepository.idempotency m) (MemoryRepository.events m ++ [event]))
    end.
Proof.
  intros id next Hg Htn Hid Hnow Hev Hrid. destruct (proj1 (Get_facts _ _ _ _) Hg) as [Hl Hrt].
  assert (He : exists event, resolutionEvent ev "resolution.state_changed" (MemoryRepository.advance next now r) now = Ok event)
    by (unfold resolutionEvent, payload_tree, payload_extras; cbn [bool_decide]; by eexists).
  destruct He as [event He]. exists event. split; [done|]. unfold finishTransition. fold next.
  destruct (negb _) eqn:Hv; [done|]. destruct (ValidateTransition _ next) eqn:Hs; [done|]. rewrite He.
  unfold repo_Transition, memory_repository, MemoryRepository.Transition. fold id. rewrite Hg, Hv, Hs.
  rewrite bool_decide_eq_true_2 by done. unfold IsZero. rewrite (proj2 (Z.eqb_neq _ _) Hnow). cbn [negb orb].
  destruct (Before _ _); [done|].
  pose proof (resolutionEvent_binds _ _ _ _ _ He Hev ltac:(done) Hnow) as Hb. cbn in Hb. rewrite Hrt, Hrid in Hb.
  by rewrite (Hb Htn Hid).
Qed.

(** ** Properties *)

(** C24.  A watcher of a resolution reads exactly its history.  After any run
    of creates and transitions, in any interleaving, the events of a stored
    resolution decode to a history of the workflow graph that ends in its
    present state, version and time; and for every cursor and limit the
    tenant's watch returns the events after that cursor, in order, up to the
    limit, without an error. *)
Theorem watch_replays_history (ops : list op) (id : string) (r : Resolution.t) :
  let m := (run step ops MemoryRepository.empty).2 in
  Forall op_ok ops -> MemoryRepository.resolutions m !! id = Some r ->
  exists ws, history ws (Resolution.State r) (Resolution.Version r) (Resolution.UpdatedAt r) /\
    forall after limit, 0 <= after -> 1 <= limit <= maximumWatchEvents ->
      MemoryRepository.ListEvents (Resolution.TenantID r) id after limit m =
      Ok (firstn (Z.to_nat limit) (skipn (Z.to_nat after) ws)).
Proof.
  intros m Hok Hl. destruct (inv_recorded _ (inv_run _ Hok) _ _ Hl) as [ws ((_ & Hid & Hreq) & _ & _ & Hh & Hf)].
  exists ws. split; [done|]. intros after limit Ha Hlim. unfold MemoryRepository.ListEvents, validateWatchRequest.
  rewrite (bool_decide_eq_false_2 (Resolution.TenantID r = "")), (bool_decide_eq_false_2 (id = "")) by
    (done || by apply tenant_required).
  rewrite (proj2 (Z.ltb_ge after 0)), (proj2 (Z.leb_gt limit 0)), (proj2 (Z.ltb_ge _ limit)) by lia. cbn [orb].
  fold m. rewrite Hl, bool_decide_eq_true_2 by done. cbn [negb].
  by rewrite (project_filter _ _ _ _ _ _ Hf), (history_after _ _ _ _ _ Hh Ha).
Qed.

(** C25.  The workflow terminates.  Whatever operations follow, a stored
    resolution stays stored with its identity and request, its version grows by
    one for each accepted transition, at most four transitions of it are ever
    accepted, and once its state is terminal nothing about it changes. *)
Theorem workflow_terminates (ops later : list op) (id : string) (r : Resolution.t) :
  MemoryRepository.resolutions (run step ops MemoryRepository.empty).2 !! id = Some r ->
  exists r', MemoryRepository.resolutions (run step (ops ++ later) MemoryRepository.empty).2 !! id = Some r' /\
    advances r r' (accepted_count id (run step later (run step ops MemoryRepository.empty).2).1) /\
    1 <= Resolution.Version r /\ Resolution.Version r <= Resolution.Version r' <= 5 /\
    accepted_count id (run step later (run step ops MemoryRepository.empty).2).1 <= 4.
Proof.
  intros Hl. rewrite run_app. cbn [snd]. set (m := (run step ops MemoryRepository.empty).2) in *.
  assert (HR : ranked m).
  { apply (run_invariant step (fun _ => True) ranked); [intros; by apply ranked_step|by apply list.Forall_forall|done]. }
  destruct (run_advances later m id r HR Hl) as (r' & Hl' & Ha). exists r'. split; [done|]. split; [done|].
  assert (HR' : ranked (run step later m).2)
    by (apply (run_invariant step (fun _ => True) ranked); [intros; by apply ranked_step|by apply list.Forall_forall|done]).
  destruct (HR _ _ Hl), (HR' _ _ Hl'), Ha as (_ & _ & Hv & _). unfold accepted_count in *. lia.
Qed.

(** Creating a resolution is idempotent.  Once a resolution is stored for
    a tenant, actor and idempotency key, a further valid create under that key
    returns the resolution as it now is, marked as not created, when the digest
    agrees, and the idempotency conflict otherwise; the repository is unchanged
    in both cases, so there is never a second resolution for the key. *)
Theorem create_idempotent (ops : list op) (id : string) (r : Resolution.t) (request : CreateRequest.t)
    (now : Z) (newID ev : string) :
  let m := (run step ops MemoryRepository.empty).2 in
  Forall op_ok ops -> MemoryRepository.resolutions m !! id = Some r ->
  validateCreateRequest request = None -> now <> 0 -> newID <> "" -> ev <> "" ->
  CreateRequest.TenantID request = Resolution.TenantID r -> CreateRequest.ActorID request = Resolution.ActorID r ->
  CreateRequest.IdempotencyKey request = Resolution.IdempotencyKey r ->
  Create request now (Ok newID) (Ok ev) m =
  (if CreateRequest.RequestDigest request ==? Resolution.RequestDigest r then Ok (r, false)
   else Err ErrIdempotencyConflict, m).
Proof.
  intros m Hok Hl Hreq Hnow Hid Hev Ht Ha Hk.
  destruct (inv_recorded _ (inv_run _ Hok) _ _ Hl) as [ws (_ & _ & Hrec & _)]. fold m in Hrec.
  destruct (Create_reaches request now newID ev m Hreq Hnow Hid Hev) as (event & -> & Hv).
  unfold repo_Create, memory_repository, MemoryRepository.Create. rewrite Hv. fold (key_of (created_by request newID now)).
  replace (key_of (created_by request newID now)) with (key_of r) by (unfold key_of; cbn; congruence).
  rewrite Hrec. cbn [idempotencyRecord.requestDigest idempotencyRecord.resolutionID Resolution.RequestDigest created_by].
  unfold cloneResolution. rewrite Hl. cbn [default].
  destruct (decide (CreateRequest.RequestDigest request = Resolution.RequestDigest r)) as [Heq|Hne].
  - by rewrite !bool_decide_eq_true_2.
  - by rewrite !bool_decide_eq_false_2.
Qed.

(** C27.  What a transition returns.  In any state whose resolutions are stored
    under their identifiers, as every run keeps them, a caller who names a tenant,
    a resolution and a positive version, and whose clock and identifier generator
    work, gets: not-found for a resolution its tenant does not own; the version
    conflict for a stale version; else the graph's invalid-transition error for a
    step that is no edge of it; else, if the clock is behind the last update, the
    error that time must not move backwards; and otherwise the advanced
    resolution, stored with its event.  Every refusal leaves the repository
    unchanged. *)
Theorem transition_outcome (m : MemoryRepository.t) (request : TransitionRequest.t) (now : Z) (ev : string) :
  let id := TransitionRequest.ResolutionID request in let next := TransitionRequest.NextState request in
  TransitionRequest.TenantID request <> "" -> id <> "" -> 0 < TransitionRequest.ExpectedVersion request ->
  now <> 0 -> ev <> "" ->
  (forall i r, MemoryRepository.resolutions m !! i = Some r -> Resolution.ID r = i) ->
  match MemoryRepository.Get (TransitionRequest.TenantID request) id m, Transition request now (Ok ev) m with
  | Err e, (out, m') => out = Err e /\ errors_Is e ErrNotFound = true /\ m' = m
  | Ok r, (Err e, m') => m' = m /\
    (e = ErrVersionConflict /\ Resolution.Version r <> TransitionRequest.ExpectedVersion request \/
     Resolution.Version r = TransitionRequest.ExpectedVersion request /\
     (errors_Is e ErrInvalidTransition = true /\ ValidateTransition (Resolution.State r) next = Some e \/
      e = Text "resolution update time must not move backwards" /\
      ValidateTransition (Resolution.State r) next = None /\ now < Resolution.UpdatedAt r))
  | Ok r, (Ok r', m') =>
    Resolution.Version r = TransitionRequest.ExpectedVersion request /\
    ValidateTransition (Resolution.State r) next = None /\ Resolution.UpdatedAt r <= now /\
    r' = MemoryRepository.advance next now r /\ MemoryRepository.resolutions m' !! id = Some r' /\
    exists event, resolutionEvent ev "resolution.state_changed" r' now = Ok event /\
      MemoryRepository.events m' = MemoryRepository.events m ++ [event]
  end.
Proof.
  intros id next Htn Hid Hev0 Hnow Hev Hids. unfold Transition.
  rewrite (bool_decide_eq_false_2 _ Htn), (bool_decide_eq_false_2 _ Hid), (proj2 (Z.leb_gt _ _) Hev0). cbn [orb].
  fold id. change (repo_Get (TransitionRequest.TenantID request) id m)
    with (MemoryRepository.Get (TransitionRequest.TenantID request) id m).
  destruct (MemoryRepository.Get _ id m) as [r|e] eqn:Hg; [|split_and!; [done|by eapply Get_missing|done]].
  destruct (proj1 (Get_facts _ _ _ _) Hg) as [Hl Hrt].
  destruct (finishTransition_current r request now ev m Hg) as (event & He & ->); try done; [by apply Hids|].
  fold id next. destruct (Z.eqb_spec (Resolution.Version r) (TransitionRequest.ExpectedVersion request)) as [Hver|Hver];
    cbn [negb]; [|split; [done|by left]].
  destruct (ValidateTransition (Resolution.State r) next) as [e|] eqn:Hs.
  { split; [done|]. right. split; [done|]. left. split; [by eapply ValidateTransition_Is|done]. }
  unfold Before. destruct (Z.ltb_spec now (Resolution.UpdatedAt r)); [by split; [|right; split; [|right]]|].
  split_and!; try done; [apply lookup_insert_eq|by exists event].
Qed.

(** ** Witnesses *)
Definition demo_request : CreateRequest.t :=
  CreateRequest.mk "actor" "tenant" "key" ("sha256:" +:+ sha256_hex "{}") "{}".
Definition demo_advance : TransitionRequest.t := TransitionRequest.mk "tenant" "res-1" 1 ResolutionResolvingTargets.
Definition demo_ops : list op :=
  [ OpCreate demo_request 10 (Ok "res-1") (Ok "evt-1");
    OpTransition (created_by demo_request "res-1" 10) demo_advance 20 (Ok "evt-2") ].
Definition demo_resolution : Resolution.t :=
  MemoryRepository.advance ResolutionResolvingTargets 20 (created_by demo_request "res-1" 10).

Lemma demo_ok : Forall op_ok demo_ops.
Proof.
  repeat constructor. intros t Ht. vm_compute in Ht. injection Ht as <-. by vm_compute.
Qed.

Lemma watch_replays_history_witness :
  exists ws, history ws ResolutionResolvingTargets 2 20 /\
    forall after limit, 0 <= after -> 1 <= limit <= maximumWatchEvents ->
      MemoryRepository.ListEvents "tenant" "res-1" after limit (run step demo_ops MemoryRepository.empty).2 =
      Ok (firstn (Z.to_nat limit) (skipn (Z.to_nat after) ws)).
Proof. apply (watch_replays_history demo_ops "res-1" demo_resolution demo_ok). by vm_compute. Defined.

Lemma workflow_terminates_witness :
  exists r', MemoryRepository.resolutions (run step (demo_ops ++ demo_ops) MemoryRepository.empty).2 !! "res-1" = Some r' /\
    advances demo_resolution r'
      (accepted_count "res-1" (run step demo_ops (run step demo_ops MemoryRepository.empty).2).1) /\
    1 <= Resolution.Version demo_resolution /\ Resolution.Version demo_resolution <= Resolution.Version r' <= 5 /\
    accepted_count "res-1" (run step demo_ops (run step demo_ops MemoryRepository.empty).2).1 <= 4.
Proof. apply (workflow_terminates demo_ops demo_ops "res-1" demo_resolution). by vm_compute. Defined.

Lemma create_idempotent_witness :
  Create demo_request 30 (Ok "res-2") (Ok "evt-3") (run step demo_ops MemoryRepository.empty).2 =
  (if CreateRequest.RequestDigest demo_request ==? Resolution.RequestDigest demo_resolution then Ok (demo_resolution, false)
   else Err ErrIdempotencyConflict, (run step demo_ops MemoryRepository.empty).2).
Proof.
  apply (create_idempotent demo_ops "res-1" demo_resolution demo_request 30 "res-2" "evt-3" demo_ok);
    [by vm_compute|by vm_compute|done|done|done|reflexivity|reflexivity|reflexivity].
Defined.

Definition demo_store : MemoryRepository.t := (run step demo_ops MemoryRepository.empty).2.
Definition demo_plan : TransitionRequest.t := TransitionRequest.mk "tenant" "res-1" 2 ResolutionPlanning.

Lemma demo_keyed : forall i r, MemoryRepository.resolutions demo_store !! i = Some r -> Resolution.ID r = i.
Proof.
  apply (bool_decide_unpack (map_Forall (fun i r => Resolution.ID r = i) (MemoryRepository.resolutions demo_store))).
  by vm_compute.
Qed.

Lemma demo_reads : MemoryRepository.Get "tenant" "res-1" demo_store = Ok demo_resolution.
Proof. by vm_compute. Qed.

Lemma demo_transition_accepted : is_ok (Transition demo_plan 30 (Ok "evt-4") demo_store).1 = true.
Proof. by vm_compute. Qed.

Lemma demo_transition_refused : is_ok (Transition demo_plan 19 (Ok "evt-4") demo_store).1 = false.
Proof. by vm_compute. Qed.

(** A step of the graph is made, and refused when the clock is behind. *)
Lemma transition_outcome_witness :
  (exists m', Transition demo_plan 30 (Ok "evt-4") demo_store =
    (Ok (MemoryRepository.advance ResolutionPlanning 30 demo_resolution), m')) /\
  Transition demo_plan 19 (Ok "evt-4") demo_store =
    (Err (Text "resolution update time must not move backwards"), demo_store).
Proof.
  pose proof (fun now (Hnow : now <> 0) => transition_outcome demo_store demo_plan now "evt-4" ltac:(done) ltac:(done) ltac:(done) Hnow
    ltac:(done) demo_keyed) as H.
  change (TransitionRequest.TenantID demo_plan) with "tenant" in H.
  change (TransitionRequest.ResolutionID demo_plan) with "res-1" in H. rewrite demo_reads in H.
  split.
  - specialize (H 30 ltac:(discriminate)). pose proof demo_transition_accepted as Hok.
    destruct (Transition demo_plan 30 (Ok "evt-4") demo_store) as [[r'|e] m']; [|discriminate Hok].
    exists m'. destruct H as (_ & _ & _ & -> & _). reflexivity.
  - specialize (H 19 ltac:(discriminate)). pose proof demo_transition_refused as Hno.
    destruct (Transition demo_plan 19 (Ok "evt-4") demo_store) as [[r'|e] m']; [discriminate Hno|].
    destruct H as [-> [[_ Hv]|[_ [[_ Hs]|[-> _]]]]]; [destruct Hv; vm_compute; reflexivity|vm_compute in Hs; discriminate Hs|reflexivity].
Defined.

(** ** Keys that collide

    The in-memory key joins its parts with NUL bytes: identifiers that contain
    one can be split in two ways, and a create for one tenant is then answered
    with the resolution of another. *)
Definition colliding_request (tenant actor : string) : CreateRequest.t :=
  CreateRequest.mk actor tenant "key" ("sha256:" +:+ sha256_hex "{}") "{}".

Example idempotency_keys_collide :
  let first := Create (colliding_request "a" ("b" +:+ NUL +:+ "c")) 10 (Ok "res-1") (Ok "evt-1") MemoryRepository.empty in
  match (Create (colliding_request ("a" +:+ NUL +:+ "b") "c") 20 (Ok "res-2") (Ok "evt-2") first.2).1 with
  | Ok (r, created) => Resolution.TenantID r = "a" /\ created = false
  | Err _ => False
  end.
Proof. by vm_compute. Qed.
