(* ===== verification/ResolutionPostgres.v ===== *)
(** * The durable resolution repository

    [internal/resolution/postgres_repository.go] over the database of the
    schema.  A transaction's writes take effect together when it commits and
    not at all when it rolls back; the row locks its statements take make a
    committed transaction one step.  The read that follows an UPDATE without a
    match sees a snapshot of its own ([seen]), any database.  Gaps in the
    identity column are not represented.

    JSONB is PostgreSQL's own: what it makes of a document is a parameter, of
    which only documented behaviour is assumed ([JsonbLaws]). *)
From stdpp Require Import sorting.
From S2P Require Import Prelude GoStrings GoEncoding Json Task Schema Outbox Resolution.
Local Open Scope Z_scope.

(** ** JSONB *)
Class Jsonb := {
  (** The text of the stored document, or a refusal. *)
  jsonb : string -> option string;
  (** [(document->>name)::bigint]: NULL for a missing member. *)
  jsonb_bigint : string -> string -> result (option Z) }.

(** A stored object keeps its text and integer members: they read back as the
    same text and the same integer. *)
Class JsonbLaws `{Jsonb} : Prop := {
  jsonb_members : forall fields doc, Forall value_fits fields -> jsonb (Marshal (object fields)) = Some doc ->
    exists fs, members doc = Some fs /\
      (forall name s, sole_member fields name (jstr s) -> key_is name name = true -> ValidString s = true ->
         decode_field dec_string name "" fs = Some s) /\
      (forall name n, sole_member fields name (jint n) -> key_is name name = true -> int64_range n ->
         decode_field dec_int64 name 0 fs = Some n /\ jsonb_bigint doc name = Ok (Some n)) }.

(** ** Rows *)
Definition resolution_row (r : Resolution.t) : ResolutionRow.t :=
  ResolutionRow.mk (Resolution.ID r) (Resolution.ActorID r) (Resolution.TenantID r) (Resolution.IdempotencyKey r)
    (Resolution.RequestDigest r) (Some (Resolution.RequestDocument r)) (Resolution.State r) (Resolution.TargetCount r)
    (Resolution.Completed r) (Resolution.Version r) (normaliseTime (Resolution.CreatedAt r))
    (normaliseTime (Resolution.UpdatedAt r)).

(** A NULL document is scanned as the empty one. *)
Definition scanResolution (row : ResolutionRow.t) : Resolution.t :=
  Resolution.mk (ResolutionRow.id row) (ResolutionRow.actor_id row) (ResolutionRow.tenant_id row)
    (ResolutionRow.idempotency_key row) (ResolutionRow.request_digest row)
    (COALESCE (ResolutionRow.request_document row)) (ResolutionRow.state row) (ResolutionRow.target_count row)
    (ResolutionRow.completed row) (ResolutionRow.version row) (ResolutionRow.created_at row) (ResolutionRow.updated_at row).

Definition resolution_row_error (row : ResolutionRow.t) : option error :=
  if negb (ResolutionRow.in_range row) then Some out_of_range
  else if negb (ResolutionRow.check row) then Some check_violation else None.
Definition put_resolution (row : ResolutionRow.t) (db : DB.t) : DB.t :=
  db <| DB.resolutions := <[ResolutionRow.id row := row]> (DB.resolutions db) |>.

Definition insert_resolution (r : Resolution.t) (db : DB.t) : result DB.t :=
  if negb (all_encodable [Resolution.ID r; Resolution.ActorID r; Resolution.TenantID r; Resolution.IdempotencyKey r;
       Resolution.RequestDigest r; Resolution.State r]) then Err invalid_text
  else match resolution_row_error (resolution_row r), DB.resolutions db !! Resolution.ID r with
  | Some e, _ => Err e
  | None, Some _ => Err unique_violation
  | None, None => Ok (put_resolution (resolution_row r) db)
  end.

Definition idempotency_row (r : Resolution.t) : IdempotencyRow.t :=
  IdempotencyRow.mk (Resolution.TenantID r) (Resolution.ActorID r) (Resolution.IdempotencyKey r)
    (Resolution.RequestDigest r) (Resolution.ID r) (normaliseTime (Resolution.CreatedAt r)).
(** [INSERT ... ON CONFLICT DO NOTHING]: whether a row was inserted. *)
Definition insert_idempotency (r : Resolution.t) (db : DB.t) : result (bool * DB.t) :=
  let row := idempotency_row r in
  if negb (IdempotencyRow.check row) then Err check_violation
  else match DB.resolution_idempotency db !! IdempotencyRow.primary_key row with
  | Some _ => Ok (false, db)
  | None => Ok (true, db <| DB.resolution_idempotency :=
                             <[IdempotencyRow.primary_key row := row]> (DB.resolution_idempotency db) |>)
  end.

(** ** The outbox *)
Definition invalid_json : error := Text "SQLSTATE 22P02: invalid input syntax for type json".

Module PostgresRepository.
Section Operations.
Context `{Jsonb}.

(** [INSERT INTO broker_outbox]: [None] when the event identifier is taken. *)
Definition insert_outbox (e : Event.t) (db : DB.t) : result (option DB.t) :=
  if negb (all_encodable [Event.ID e; Event.TenantID e; Event.AggregateType e; Event.AggregateID e; Event.Type_ e]) then
    Err invalid_text
  else match jsonb (Event.Payload e) with
  | None => Err invalid_json
  | Some doc =>
    if existsb (fun r => OutboxRow.id r ==? Event.ID e) (rows db) then Ok None
    else Ok (Some (set_outbox (event_row (DB.outbox_next db) doc e) db <| DB.outbox_next := DB.outbox_next db + 1 |>))
  end.

Definition insertOutboxEvent (e : Event.t) (db : DB.t) : result DB.t :=
  match insert_outbox e db with
  | Err err => Err (Wrapf "insert resolution outbox event: " err "")
  | Ok None => Err (Wrapf "insert resolution outbox event: " unique_violation "")
  | Ok (Some db) => Ok db
  end.

(** ** The operations *)
Definition getResolutionTx (tenantID resolutionID : string) (db : DB.t) : option Resolution.t :=
  match DB.resolutions db !! resolutionID with
  | Some row => if ResolutionRow.tenant_id row ==? tenantID then Some (scanResolution row) else None
  | None => None
  end.

Definition getIdempotentResolution (tenantID actorID key : string) (db : DB.t) : result (Resolution.t * string) :=
  match DB.resolution_idempotency db !! (tenantID, actorID, key) with
  | None => Err (Wrapf "get resolution idempotency record: " (Text "sql: no rows in result set") "")
  | Some row =>
    match getResolutionTx tenantID (IdempotencyRow.resolution_id row) db with
    | None => Err (Wrapf "get idempotent resolution: " (Text "sql: no rows in result set") "")
    | Some r => Ok (r, IdempotencyRow.request_digest row)
    end
  end.

Definition Create (r : Resolution.t) (event : Event.t) (db : DB.t) : result (Resolution.t * bool) * DB.t :=
  match validateNewResolution r event with
  | Some e => (Err e, db)
  | None =>
    match insert_resolution r db with
    | Err e => (Err (Wrapf "insert resolution: " e ""), db)
    | Ok db1 =>
      match insert_idempotency r db1 with
      | Err e => (Err (Wrapf "insert resolution idempotency record: " e ""), db)
      | Ok (false, _) =>
        match getIdempotentResolution (Resolution.TenantID r) (Resolution.ActorID r) (Resolution.IdempotencyKey r) db1 with
        | Err e => (Err e, db)
        | Ok (existing, digest) =>
          if digest !=? Resolution.RequestDigest r then (Err ErrIdempotencyConflict, db) else (Ok (existing, false), db)
        end
      | Ok (true, db2) =>
        match insertOutboxEvent event db2 with
        | Err e => (Err e, db)
        | Ok db3 => (Ok (r, true), db3)
        end
      end
    end
  end.

Definition Get (tenantID resolutionID : string) (db : DB.t) : result Resolution.t :=
  if negb (all_encodable [tenantID; resolutionID]) then Err (Wrapf "get resolution: " invalid_text "")
  else match getResolutionTx tenantID resolutionID db with
  | None => Err (Wrapf "" ErrNotFound (": " +:+ quote resolutionID))
  | Some r => Ok r
  end.

Definition transition_matches (tenantID : string) (expectedVersion : Z) (expectedState : ResolutionState) (updatedAt : Z)
    (row : ResolutionRow.t) : bool :=
  (ResolutionRow.tenant_id row ==? tenantID) && (ResolutionRow.version row =? expectedVersion) &&
  (ResolutionRow.state row ==? expectedState) && (ResolutionRow.updated_at row <=? updatedAt).

Definition transition_row (next : ResolutionState) (updatedAt : Z) (row : ResolutionRow.t) : ResolutionRow.t :=
  row <| ResolutionRow.state := next |> <| ResolutionRow.completed := Terminal next |>
      <| ResolutionRow.version := ResolutionRow.version row + 1 |> <| ResolutionRow.updated_at := updatedAt |>.

Definition Transition (seen : DB.t) (tenantID resolutionID : string) (expectedVersion : Z)
    (expectedState next : ResolutionState) (updatedAt : Z) (event : Event.t) (db : DB.t) : result Resolution.t * DB.t :=
  match ValidateTransition expectedState next with
  | Some e => (Err e, db)
  | None =>
    if IsZero updatedAt then (Err (Text "resolution update time is required"), db)
    else match validateEventBinding event tenantID resolutionID with
    | Some e => (Err e, db)
    | None =>
      let unmatched := match getResolutionTx tenantID resolutionID seen with
                       | None => Wrapf "" ErrNotFound (": " +:+ quote resolutionID)
                       | Some _ => ErrVersionConflict
                       end in
      if negb (all_encodable [next; tenantID; resolutionID; expectedState]) then
        (Err (Wrapf "transition resolution: " invalid_text ""), db)
      else match DB.resolutions db !! resolutionID with
      | None => (Err unmatched, db)
      | Some row =>
        if negb (transition_matches tenantID expectedVersion expectedState (normaliseTime updatedAt) row) then (Err unmatched, db)
        else
          let row' := transition_row next (normaliseTime updatedAt) row in
          match resolution_row_error row' with
          | Some e => (Err (Wrapf "transition resolution: " e ""), db)
          | None =>
            match insertOutboxEvent event (put_resolution row' db) with
            | Err e => (Err e, db)
            | Ok db' => (Ok (scanResolution row'), db')
            end
          end
      end
    end
  end.
(** The query of [ListEvents]. *)
Definition listed (tenantID resolutionID : string) (r : OutboxRow.t) : bool :=
  (OutboxRow.tenant_id r ==? tenantID) && (OutboxRow.aggregate_type r ==? "resolution") &&
  (OutboxRow.aggregate_id r ==? resolutionID) &&
  bool_decide (OutboxRow.event_type r ∈ ["resolution.received"; "resolution.state_changed"; "resolution.tasks_queued"]).

(** Each row with its version; a row without one is not selected. *)
Fixpoint versions (l : list OutboxRow.t) : result (list (Z * OutboxRow.t)) :=
  match l with
  | [] => Ok []
  | r :: rest =>
    match jsonb_bigint (OutboxRow.payload r) "version", versions rest with
    | Err e, _ | _, Err e => Err e
    | Ok None, Ok rest => Ok rest
    | Ok (Some v), Ok rest => Ok ((v, r) :: rest)
    end
  end.
Definition version_leb (a b : Z * OutboxRow.t) : bool := fst a <=? fst b.

Definition watch_event (tenantID resolutionID : string) (r : OutboxRow.t) : Event.t :=
  Event.mk "" tenantID "resolution" resolutionID (OutboxRow.event_type r) (OutboxRow.payload r) (OutboxRow.occurred_at r).
Fixpoint project (tenantID resolutionID : string) (l : list OutboxRow.t) : result (list WatchEvent.t) :=
  match l with
  | [] => Ok []
  | r :: rest =>
    match safeWatchEvent (watch_event tenantID resolutionID r) with
    | Err e => Err e
    | Ok w =>
      match project tenantID resolutionID rest with
      | Err e => Err e
      | Ok ws => Ok (w :: ws)
      end
    end
  end.

Definition ListEvents (tenantID resolutionID : string) (after limit : Z) (db : DB.t) : result (list WatchEvent.t) :=
  match validateWatchRequest tenantID resolutionID after limit with
  | Some e => Err e
  | None =>
    match Get tenantID resolutionID db with
    | Err e => Err e
    | Ok _ =>
      match versions (List.filter (listed tenantID resolutionID) (rows db)) with
      | Err e => Err (Wrapf "list resolution events: " e "")
      | Ok found =>
        project tenantID resolutionID (map snd (firstn (Z.to_nat limit)
          (isort version_leb (List.filter (fun x => after <? fst x) found))))
      end
    end
  end.
End Operations.
End PostgresRepository.

(** The service runs over the durable repository as over the in-memory one. *)
#[export] Instance postgres_repository `{Jsonb} (seen : DB.t) : Repository DB.t := {|
  repo_Create := PostgresRepository.Create; repo_Get := PostgresRepository.Get;
  repo_Transition := PostgresRepository.Transition seen |}.

(** ** The outbox grows at its end *)
Definition next_free (db : DB.t) : Prop := forall k r, DB.outbox db !! k = Some r -> k < DB.outbox_next db.

Lemma rows_snoc db row :
  outbox_ok db -> next_free db -> OutboxRow.sequence row = DB.outbox_next db ->
  outbox_row_ok (OutboxRow.sequence row) row ->
  outbox_ok (set_outbox row db) /\ rows (set_outbox row db) = rows db ++ [row].
Proof.
  intros Hok Hnext Hseq Hrow.
  assert (Hfresh : DB.outbox db !! OutboxRow.sequence row = None).
  { destruct (DB.outbox db !! _) eqn:E; [|done]. apply Hnext in E. lia. }
  assert (Hok' : outbox_ok (set_outbox row db)) by by apply map_Forall_insert_2.
  split; [done|]. pose proof (rows_sorted _ Hok) as Hs.
  assert (Hs' : StronglySorted (fun a b => OutboxRow.sequence a < OutboxRow.sequence b) (rows db ++ [row])).
  { apply StronglySorted_snoc; [done|]. apply list.Forall_forall. intros r Hr%(rows_elem _ _ Hok).
    apply Hnext in Hr. lia. }
  apply (StronglySorted_unique_strong (fun a b => OutboxRow.sequence a < OutboxRow.sequence b));
    [intros; lia|by apply rows_sorted|done|].
  unfold rows at 1. rewrite (isort_perm seq_leb). unfold set_outbox. cbn [DB.outbox set_field].
  rewrite (fmap_Permutation _ _ _ (map_to_list_insert _ _ _ Hfresh)). cbn.
  unfold rows. rewrite (isort_perm seq_leb). by rewrite <- Permutation_cons_append.
Qed.

(** ** Delivery leaves the events as they are *)
Definition content (r : OutboxRow.t) : Z * Event.t := (OutboxRow.sequence r, Record_.Event_ (scanRecord r)).

Lemma rows_content db :
  map content (rows db) ≡ₚ map snd (map_to_list (content <$> DB.outbox db)).
Proof.
  rewrite map_to_list_fmap. unfold rows. rewrite (fmap_Permutation content _ _ (isort_perm seq_leb _)).
  apply Permutation_refl'. generalize (map_to_list (DB.outbox db)). induction l as [|[k r] l IH]; [done|].
  exact (f_equal (cons (content r)) IH).
Qed.

Lemma content_sorted l :
  StronglySorted (fun a b => OutboxRow.sequence a < OutboxRow.sequence b) l ->
  StronglySorted (fun a b => fst a < fst b) (map content l).
Proof.
  induction 1 as [|r l _ IH Hr]; cbn; [constructor|]. constructor; [done|]. apply Forall_map. exact Hr.
Qed.

Lemma same_content db db' :
  outbox_ok db -> outbox_ok db' -> content <$> DB.outbox db' = content <$> DB.outbox db ->
  Forall2 (fun r r' => content r = content r') (rows db') (rows db).
Proof.
  intros Hok Hok' Heq. assert (Hm : map content (rows db') = map content (rows db)).
  { apply (StronglySorted_unique_strong (fun a b => fst a < fst b)); [intros; lia|..];
      [by apply content_sorted, rows_sorted|by apply content_sorted, rows_sorted|].
    by rewrite !rows_content, Heq. }
  revert Hm. generalize (rows db') (rows db). induction l as [|r l IH]; intros [|r' l'] Hm; try done.
  cbn [map] in Hm. constructor; [exact (f_equal (hd (content r)) Hm)|]. apply IH. exact (f_equal tail Hm).
Qed.

Lemma outbox_exec_content op db :
  outbox_ok db -> content <$> DB.outbox (outbox_exec op db).2 = content <$> DB.outbox db.
Proof.
  intros Hok. apply map_eq. intros k. rewrite !lookup_fmap.
  destruct (DB.outbox db !! k) as [r|] eqn:Hk.
  - destruct (outbox_exec_change op db k r Hok Hk) as (r' & -> & Hc). cbn. f_equal. unfold content.
    inversion Hc; subst; try done;
      match goal with H : acknowledged _ _ _ _ |- _ => destruct H as (_ & _ & _ & _ & He & Hs) end; by rewrite He, Hs.
  - destruct (DB.outbox (outbox_exec op db).2 !! k) as [r'|] eqn:Hk'; [|done].
    destruct (outbox_exec_dom op db k r' Hok Hk') as [r Hr]. congruence.
Qed.

Definition same_workflow (db db' : DB.t) : Prop :=
  DB.resolutions db' = DB.resolutions db /\ DB.resolution_idempotency db' = DB.resolution_idempotency db /\
  DB.outbox_next db' = DB.outbox_next db.

Lemma outbox_exec_frame op db : same_workflow db (outbox_exec op db).2.
Proof.
  assert (Hset : forall rs, same_workflow db (fold_right set_outbox db rs)) by (by induction rs).
  assert (Hupd : forall o s w p a f, same_workflow db (updateLease o s w p a f db).2).
  { intros o s w p a f. pose proof (updateLease_spec o s w p a f db) as H.
    destruct (updateLease _ _ _ _ _ _ _) as [[u|e] db']; cbn; [|by subst].
    destruct H as (r & _ & _ & _ & ->). done. }
  destruct op; cbn.
  - unfold Claim. repeat (case_match; [done|]). apply Hset.
  - apply Hupd.
  - unfold Retry. repeat (case_match; [done|]). apply Hupd.
  - apply Hupd.
Qed.

Section Invariant.
Context `{JL : JsonbLaws}.
Import PostgresRepository.

Lemma insert_outbox_Some e db db' :
  insert_outbox e db = Ok (Some db') ->
  exists doc, jsonb (Event.Payload e) = Some doc /\
    db' = set_outbox (event_row (DB.outbox_next db) doc e) db <| DB.outbox_next := DB.outbox_next db + 1 |>.
Proof.
  unfold insert_outbox. case_match; [done|]. destruct (jsonb _) as [doc|]; [|done]. case_match; [done|].
  intros [= <-]. by exists doc.
Qed.

Lemma insertOutboxEvent_Ok e db db' : insertOutboxEvent e db = Ok db' -> insert_outbox e db = Ok (Some db').
Proof. unfold insertOutboxEvent. by destruct (insert_outbox e db) as [[?|]|]; intros [= ->]. Qed.

(** ** The invariant

    As for the in-memory repository: every resolution owns its idempotency key
    and its outbox rows project to a history that ends in its row. *)
Definition row_of_id (id : string) (r : OutboxRow.t) : bool :=
  (OutboxRow.aggregate_type r ==? "resolution") && (OutboxRow.aggregate_id r ==? id).
Definition row_projects (tenant id : string) (r : OutboxRow.t) (w : WatchEvent.t) : Prop :=
  listed tenant id r = true /\ jsonb_bigint (OutboxRow.payload r) "version" = Ok (Some (WatchEvent.Cursor w)) /\
  safeWatchEvent (watch_event tenant id r) = Ok w.
Definition row_key (row : ResolutionRow.t) : string * string * string :=
  (ResolutionRow.tenant_id row, ResolutionRow.actor_id row, ResolutionRow.idempotency_key row).
Definition row_identified (id : string) (row : ResolutionRow.t) : Prop :=
  ResolutionRow.id row = id /\ id <> "" /\ ResolutionRow.tenant_id row <> "" /\
  all_encodable [ResolutionRow.tenant_id row; id] = true.
Definition key_owned (db : DB.t) (id : string) (row : ResolutionRow.t) : Prop :=
  exists key_row, DB.resolution_idempotency db !! row_key row = Some key_row /\
    IdempotencyRow.resolution_id key_row = id /\ IdempotencyRow.request_digest key_row = ResolutionRow.request_digest row.
Definition row_recorded (db : DB.t) (id : string) (row : ResolutionRow.t) (ws : list WatchEvent.t) : Prop :=
  row_identified id row /\ ResolutionRow.completed row = Terminal (ResolutionRow.state row) /\ key_owned db id row /\
  history ws (ResolutionRow.state row) (ResolutionRow.version row) (ResolutionRow.updated_at row) /\
  Forall2 (row_projects (ResolutionRow.tenant_id row) id) (List.filter (row_of_id id) (rows db)) ws.
Record Durable (db : DB.t) : Prop := {
  durable_outbox : outbox_ok db;
  durable_next : next_free db;
  durable_recorded : forall id row, DB.resolutions db !! id = Some row -> exists ws, row_recorded db id row ws;
  durable_orphan : forall id, DB.resolutions db !! id = None -> List.filter (row_of_id id) (rows db) = [];
  durable_key : forall k key_row, DB.resolution_idempotency db !! k = Some key_row ->
    exists row, DB.resolutions db !! IdempotencyRow.resolution_id key_row = Some row /\ row_key row = k }.

(** A stored payload with these members is projected as the service meant it. *)
Lemma stored_projects fields doc state version r tenant id :
  Forall value_fits fields -> jsonb (Marshal (object fields)) = Some doc ->
  sole_member fields "schema_version" (jstr "v1") -> sole_member fields "state" (jstr state) ->
  sole_member fields "version" (jint version) -> ValidString state = true -> knownResolutionState state = true ->
  state <> "" -> 0 < version <= max_int64 -> OutboxRow.payload r = doc -> OutboxRow.occurred_at r <> 0 ->
  OutboxRow.tenant_id r = tenant -> row_of_id id r = true -> occurs (OutboxRow.event_type r) ->
  row_projects tenant id r (WatchEvent.mk version (OutboxRow.event_type r) state (OutboxRow.occurred_at r)).
Proof.
  intros Hfit Hdoc H1 H2 H3 Hvs Hk Hne Hv Hp Hz Ht Hid Hty.
  destruct (jsonb_members _ _ Hfit Hdoc) as (fs & Hm & Hstr & Hint).
  assert (Hrange : int64_range version) by (unfold int64_range; lia).
  destruct (Hint _ _ H3 eq_refl Hrange) as [Hver Hbig].
  split_and!; [|by rewrite Hp|].
  - unfold listed, row_of_id in *. apply andb_true_iff in Hid as [-> ->].
    rewrite !bool_decide_eq_true_2; [done|unfold occurs in Hty; set_solver|done].
  - apply (safeWatchEvent_decoded (watch_event tenant id r) fs); cbn [watch_event Event.Payload Event.Type_ Event.OccurredAt];
      try assumption; [by rewrite Hp|by apply Hstr|by apply Hstr|lia].
Qed.

Definition append_event (doc : string) (e : Event.t) (db : DB.t) : DB.t :=
  set_outbox (event_row (DB.outbox_next db) doc e) db <| DB.outbox_next := DB.outbox_next db + 1 |>.

Lemma append_event_rows doc e db :
  outbox_ok db -> next_free db ->
  outbox_ok (append_event doc e db) /\ next_free (append_event doc e db) /\
  rows (append_event doc e db) = rows db ++ [event_row (DB.outbox_next db) doc e].
Proof.
  intros Hok Hn.
  destruct (rows_snoc db (event_row (DB.outbox_next db) doc e) Hok Hn) as [Hok' Hrows]; [done|by repeat split; left|].
  split_and!; [exact Hok'| |exact Hrows].
  unfold next_free, append_event. cbn. intros k r [[<- _]|[_ Hl]]%lookup_insert_Some; cbn; [lia|]. apply Hn in Hl. lia.
Qed.

(** Committing a resolution row together with its event. *)
Lemma durable_append db db1 doc e id row ws w :
  Durable db -> DB.outbox db1 = DB.outbox db -> DB.outbox_next db1 = DB.outbox_next db ->
  DB.resolutions db1 = <[id := row]> (DB.resolutions db) ->
  DB.resolution_idempotency db ⊆ DB.resolution_idempotency db1 ->
  (forall k kr, DB.resolution_idempotency db1 !! k = Some kr ->
     exists row, DB.resolutions db1 !! IdempotencyRow.resolution_id kr = Some row /\ row_key row = k) ->
  Event.AggregateType e = "resolution" -> Event.AggregateID e = id ->
  Forall2 (row_projects (ResolutionRow.tenant_id row) id) (List.filter (row_of_id id) (rows db)) ws ->
  row_identified id row -> ResolutionRow.completed row = Terminal (ResolutionRow.state row) -> key_owned db1 id row ->
  history (ws ++ [w]) (ResolutionRow.state row) (ResolutionRow.version row) (ResolutionRow.updated_at row) ->
  row_projects (ResolutionRow.tenant_id row) id (event_row (DB.outbox_next db) doc e) w ->
  Durable (append_event doc e db1).
Proof.
  intros HD Ho Hn Hr Hi Hk Hty Hag Hws Hid Hc Hkey Hh Hw.
  assert (Hok1 : outbox_ok db1) by (unfold outbox_ok; rewrite Ho; apply HD).
  assert (Hn1 : next_free db1) by (unfold next_free; rewrite Ho, Hn; apply HD).
  assert (Hrows1 : rows db1 = rows db) by (unfold rows; by rewrite Ho).
  destruct (append_event_rows doc e db1 Hok1 Hn1) as (Hok' & Hn' & Hrows'). rewrite Hrows1, Hn in Hrows'.
  set (new := event_row (DB.outbox_next db) doc e) in *.
  assert (Hfilter : forall i, List.filter (row_of_id i) (rows (append_event doc e db1)) =
    List.filter (row_of_id i) (rows db) ++ if id ==? i then [new] else []).
  { intros i. rewrite Hrows', filter_app. f_equal. unfold row_of_id. cbn. by rewrite Hty, Hag. }
  split; [done|done|..]; change (DB.resolutions (append_event doc e db1)) with (DB.resolutions db1);
    change (DB.resolution_idempotency (append_event doc e db1)) with (DB.resolution_idempotency db1);
    rewrite ?Hr in *.
  - intros i row' [[<- <-]|[Hne Hl]]%lookup_insert_Some.
    + exists (ws ++ [w]). split_and!; try done. rewrite Hfilter, bool_decide_eq_true_2 by done.
      apply Forall2_app; [done|]. by apply Forall2_cons.
    + destruct (durable_recorded _ HD _ _ Hl) as [ws' (H1 & H2 & (kr & H3 & H3') & H4 & H5)]. exists ws'.
      refine (conj H1 (conj H2 (conj _ (conj H4 _)))).
      * exists kr. split; [|done]. by apply (lookup_weaken _ _ _ _ H3).
      * by rewrite Hfilter, bool_decide_eq_false_2, app_nil_r.
  - intros i [Hl Hne]%lookup_insert_None. rewrite Hfilter, (durable_orphan _ HD _ Hl), bool_decide_eq_false_2; done.
  - done.
Qed.

(** Whatever keeps the resolutions, their keys and the contents of the outbox
    keeps the invariant. *)
Lemma durable_same db db' :
  Durable db -> outbox_ok db' -> same_workflow db db' -> content <$> DB.outbox db' = content <$> DB.outbox db ->
  Durable db'.
Proof.
  intros HD Hok' (Hr & Hi & Hn) Hc. pose proof (same_content db db' (durable_outbox _ HD) Hok' Hc) as Hrows.
  assert (Hf : forall id, Forall2 (fun r r' => content r = content r') (List.filter (row_of_id id) (rows db'))
    (List.filter (row_of_id id) (rows db))).
  { intros id. apply Forall2_filter; [|done]. intros r r' [= _ _ _ H1 H2 _ _ _]. unfold row_of_id. by rewrite H1, H2. }
  split; [done|..].
  - intros k r Hk. rewrite Hn. assert (Hk' : (content <$> DB.outbox db') !! k = Some (content r)) by (by rewrite lookup_fmap, Hk).
    rewrite Hc, lookup_fmap in Hk'. destruct (DB.outbox db !! k) as [r0|] eqn:E; [|done]. exact (durable_next _ HD _ _ E).
  - rewrite Hr. intros id row Hl. destruct (durable_recorded _ HD _ _ Hl) as [ws (H1 & H2 & H3 & H4 & H5)].
    exists ws. unfold row_recorded, key_owned. rewrite Hi. refine (conj H1 (conj H2 (conj H3 (conj H4 _)))).
    eapply list.Forall2_trans; [|apply Hf|exact H5].
    intros r r' w [= Hs Hid Htn Hat Hai Hty Hp Ho]. unfold row_projects, listed, watch_event.
    by rewrite Htn, Hat, Hai, Hty, Hp, Ho.
  - rewrite Hr. intros id Hl. specialize (Hf id). rewrite (durable_orphan _ HD _ Hl) in Hf. by inversion Hf.
  - rewrite Hr, Hi. apply HD.
Qed.

(** ** Creation *)
Definition with_resolution (r : Resolution.t) (db : DB.t) : DB.t :=
  put_resolution (resolution_row r) db <| DB.resolution_idempotency :=
    <[IdempotencyRow.primary_key (idempotency_row r) := idempotency_row r]> (DB.resolution_idempotency db) |>.

Lemma Create_commits r event db out db' :
  PostgresRepository.Create r event db = (out, db') -> db' = db \/
  exists doc, validateNewResolution r event = None /\ out = Ok (r, true) /\
    all_encodable [Resolution.TenantID r; Resolution.ID r] = true /\ DB.resolutions db !! Resolution.ID r = None /\
    DB.resolution_idempotency db !! IdempotencyRow.primary_key (idempotency_row r) = None /\
    jsonb (Event.Payload event) = Some doc /\ db' = append_event doc event (with_resolution r db).
Proof.
  unfold PostgresRepository.Create. destruct (validateNewResolution r event) eqn:Hv; [intros; simplify_eq; auto|].
  unfold insert_resolution. destruct (all_encodable _) eqn:Henc; cbn [negb]; [|intros; simplify_eq; auto].
  destruct (resolution_row_error _); [intros; simplify_eq; auto|].
  destruct (DB.resolutions db !! _) eqn:Hr; [intros; simplify_eq; auto|].
  unfold insert_idempotency. destruct (IdempotencyRow.check _); cbn [negb]; [|intros; simplify_eq; auto].
  cbn [put_resolution set_field DB.resolution_idempotency].
  destruct (DB.resolution_idempotency db !! _) eqn:Hi; [repeat case_match; intros; simplify_eq; auto|].
  destruct (insertOutboxEvent _ _) as [db3|] eqn:Ho; [|intros; simplify_eq; auto].
  apply insertOutboxEvent_Ok, insert_outbox_Some in Ho as (doc & Hdoc & ->).
  intros [<- <-]%pair_equal_spec. right. exists doc. split_and!; try done.
  unfold all_encodable in *. cbn [forallb] in *. rewrite !andb_true_iff in *. naive_solver.
Qed.

Lemma payload_stored ev ty r now event doc seq tenant :
  resolutionEvent ev ty r now = Ok event -> jsonb (Event.Payload event) = Some doc ->
  (ty = "resolution.received" -> embeddable (Resolution.RequestDocument r)) ->
  ValidString (Resolution.State r) = true -> knownResolutionState (Resolution.State r) = true -> Resolution.State r <> "" ->
  0 < Resolution.Version r <= max_int64 -> normaliseTime now <> 0 -> occurs ty -> Resolution.TenantID r = tenant ->
  row_projects tenant (Resolution.ID r) (event_row seq doc event)
    (WatchEvent.mk (Resolution.Version r) ty (Resolution.State r) (normaliseTime now)).
Proof.
  intros (extra & Hx & ->)%resolutionEvent_inv Hdoc Hemb Hvs Hk Hne Hv Ht Hty Htn.
  pose proof (extras_fit _ _ _ Hx Hemb) as Hf. apply list.Forall_and in Hf as [Hfit Hother].
  destruct (base_members r extra Hother) as (H1 & H2 & H3).
  apply (stored_projects (payload_base r ++ extra) doc _ _ (event_row seq doc (Event.mk _ _ _ _ ty _ now)));
    try assumption; [|reflexivity|by unfold row_of_id; cbn; rewrite !bool_decide_eq_true_2].
  apply Forall_app. split; [|done]. apply base_fits. unfold int64_range. lia.
Qed.

Lemma durable_create request id now ev event db out db' :
  embeddable (CreateRequest.RequestDocument request) -> normaliseTime now <> 0 -> Durable db ->
  resolutionEvent ev "resolution.received" (created_by request id now) now = Ok event ->
  PostgresRepository.Create (created_by request id now) event db = (out, db') -> Durable db'.
Proof.
  intros Hemb Ht HD He [->|(doc & Hv & _ & Henc & Hr & Hi & Hdoc & ->)]%Create_commits; [done|].
  set (r := created_by request id now) in *. change (Resolution.ID r) with id in Hr.
  destruct (validateNewResolution_binding _ _ Hv) as ([Hid Hreq] & _). pose proof (tenant_required _ Hreq) as Htn.
  destruct (event_fields _ _ _ _ _ He) as (_ & Hty & Hag & _).
  eapply (durable_append db _ _ _ id (resolution_row r) []
    (WatchEvent.mk 1 "resolution.received" ResolutionReceived (normaliseTime now))); try done.
  - by apply insert_subseteq.
  - intros k kr Hl. unfold with_resolution in Hl. cbn in Hl.
    apply lookup_insert_Some in Hl as [[<- <-]|[Hne Hl]].
    + exists (resolution_row r). split; [apply lookup_insert_eq|done].
    + destruct (durable_key _ HD _ _ Hl) as (row & Hrow & Hk). exists row. split; [|done]. cbn.
      rewrite lookup_insert_ne; [done|]. intros Heq. rewrite <- Heq in Hrow. congruence.
  - by rewrite (durable_orphan _ HD _ Hr).
  - exists (idempotency_row r). split; [apply lookup_insert_eq|done].
  - apply history_received.
  - apply (payload_stored _ _ _ _ _ _ _ _ He Hdoc); try done. by left.
Qed.

(** ** Transitions *)
Lemma Transition_commits seen tenant id version state next now event db out db' :
  PostgresRepository.Transition seen tenant id version state next now event db = (out, db') -> db' = db /\ (exists e, out = Err e) \/
  exists row doc, DB.resolutions db !! id = Some row /\ ValidateTransition state next = None /\
    validateEventBinding event tenant id = None /\
    ResolutionRow.tenant_id row = tenant /\ ResolutionRow.version row = version /\ ResolutionRow.state row = state /\
    ResolutionRow.updated_at row <= normaliseTime now /\ jsonb (Event.Payload event) = Some doc /\
    out = Ok (scanResolution (transition_row next (normaliseTime now) row)) /\
    db' = append_event doc event (put_resolution (transition_row next (normaliseTime now) row) db).
Proof.
  unfold PostgresRepository.Transition. destruct (ValidateTransition state next) eqn:Hs; [intros; simplify_eq; eauto|].
  case_match; [intros; simplify_eq; eauto|].
  destruct (validateEventBinding event tenant id) eqn:Hb; [intros; simplify_eq; eauto|].
  case_match; [intros; simplify_eq; eauto|]. destruct (DB.resolutions db !! id) as [row|]; [|intros; simplify_eq; eauto].
  destruct (transition_matches _ _ _ _ row) eqn:Hm; cbn [negb]; [|intros; simplify_eq; eauto].
  destruct (resolution_row_error _); [intros; simplify_eq; eauto|].
  destruct (insertOutboxEvent _ _) as [db3|] eqn:Ho; [|intros; simplify_eq; eauto].
  apply insertOutboxEvent_Ok, insert_outbox_Some in Ho as (doc & Hdoc & ->).
  intros [<- <-]%pair_equal_spec. right. exists row, doc. unfold transition_matches in Hm.
  rewrite !andb_true_iff, !bool_decide_eq_true, Z.eqb_eq, Z.leb_le in Hm. destruct_and!. by split_and!.
Qed.

Lemma durable_transition seen current request now ev event db out db' :
  let next := TransitionRequest.NextState request in
  normaliseTime now <> 0 -> Durable db ->
  Resolution.Version current = TransitionRequest.ExpectedVersion request ->
  resolutionEvent ev "resolution.state_changed" (MemoryRepository.advance next now current) now = Ok event ->
  PostgresRepository.Transition seen (TransitionRequest.TenantID request) (TransitionRequest.ResolutionID request)
    (TransitionRequest.ExpectedVersion request) (Resolution.State current) next now event db = (out, db') -> Durable db'.
Proof.
  intros next Ht HD Hver He
    [[-> _]|(row & doc & Hr & Hs & Hb & Htn & Hv & Hst & Hle & Hdoc & _ & ->)]%Transition_commits; [done|].
  set (id := TransitionRequest.ResolutionID request) in *.
  destruct (durable_recorded _ HD _ _ Hr) as [ws ((Hid & Hid' & Htn' & Henc) & Hc & Hk & Hh & Hf)].
  destruct (event_fields _ _ _ _ _ He) as (Hte & Hty & Hag & _).
  apply binding_facts in Hb as (Hbt & _ & Hbi & _). pose proof (history_bounds _ _ _ _ Hh) as (Hb1 & Hb2 & _).
  assert (Hint : int64 (Resolution.Version current + 1) = ResolutionRow.version row + 1)
    by (rewrite int64_small by (unfold max_int64; lia); lia).
  rewrite Hst in Hh. destruct (transition_facts _ _ Hs) as (_ & Hkn & Hvs & Hne).
  eapply (durable_append db _ _ _ id (transition_row next (normaliseTime now) row) ws
    (WatchEvent.mk (ResolutionRow.version row + 1) "resolution.state_changed" next (normaliseTime now))); try done.
  - cbn. by rewrite Hid.
  - cbn. rewrite Hid. intros k kr Hl. destruct (durable_key _ HD _ _ Hl) as (row' & Hrow' & Hkey).
    destruct (decide (IdempotencyRow.resolution_id kr = id)) as [Heq|Hne'].
    + rewrite Heq in Hrow' |- *. rewrite lookup_insert_eq. eexists. split; [done|]. rewrite Hr in Hrow'. by injection Hrow' as <-.
    + exists row'. by rewrite lookup_insert_ne.
  - exact (history_advanced _ _ _ _ next (normaliseTime now) Hh Hs Hle).
  - pose proof (payload_stored _ _ _ _ _ _ (DB.outbox_next db) (TransitionRequest.TenantID request) He Hdoc) as Hp.
    cbn [MemoryRepository.advance set_field Resolution.Version Resolution.State Resolution.ID Resolution.TenantID] in Hp, Hte, Hag.
    change (ResolutionRow.tenant_id (transition_row next (normaliseTime now) row)) with (ResolutionRow.tenant_id row).
    rewrite Hint in Hp. rewrite Htn. replace (Resolution.ID current) with id in Hp by congruence.
    apply Hp; try done; [unfold max_int64; lia|by right; left|congruence].
Qed.

(** ** Watching *)
Definition versioned (tenant id : string) (x : Z * OutboxRow.t) (w : WatchEvent.t) : Prop :=
  fst x = WatchEvent.Cursor w /\ safeWatchEvent (watch_event tenant id (snd x)) = Ok w.

Lemma versions_found tenant id l ws :
  Forall2 (row_projects tenant id) l ws -> exists found, versions l = Ok found /\ Forall2 (versioned tenant id) found ws.
Proof.
  induction 1 as [|r w l ws (_ & Hv & Hw) _ (found & Hf & IH)]; [by exists []|].
  exists ((WatchEvent.Cursor w, r) :: found). cbn. rewrite Hv, Hf. split; [done|]. by constructor.
Qed.

Lemma project_versioned tenant id found ws :
  Forall2 (versioned tenant id) found ws -> PostgresRepository.project tenant id (map snd found) = Ok ws.
Proof. induction 1 as [|x w found ws [_ Hw] _ IH]; [done|]. cbn. by rewrite Hw, IH. Qed.

Lemma versioned_sorted tenant id found ws :
  Forall2 (versioned tenant id) found ws -> StronglySorted (fun a b => WatchEvent.Cursor a < WatchEvent.Cursor b) ws ->
  StronglySorted (fun a b => version_leb a b = true) found.
Proof.
  induction 1 as [|x w found ws [Hx _] Hf IH]; intros Hs; [constructor|]. inversion Hs as [|? ? Hs' Hw]; subst.
  constructor; [by apply IH|]. clear -Hx Hf Hw. induction Hf as [|y v found ws [Hy _] _ IH]; [done|].
  inversion Hw; subst. constructor; [unfold version_leb; apply Z.leb_le; lia|by apply IH].
Qed.

Lemma listed_rows tenant id l ws :
  Forall2 (row_projects tenant id) (List.filter (row_of_id id) l) ws ->
  List.filter (listed tenant id) l = List.filter (row_of_id id) l.
Proof.
  revert ws. induction l as [|r l IH]; intros ws Hf; [done|]. cbn in *.
  destruct (row_of_id id r) eqn:Hr.
  - inversion Hf as [|? w ? ws' (Hl & _) Hrest]; subst. by rewrite Hl, (IH _ Hrest).
  - replace (listed tenant id r) with false; [by eapply IH|]. unfold listed, row_of_id in *.
    destruct (_ ==? tenant), (_ ==? "resolution"), (_ ==? id); done.
Qed.

Lemma recorded_watch db id row ws after limit :
  DB.resolutions db !! id = Some row -> row_recorded db id row ws -> 0 <= after -> 1 <= limit <= maximumWatchEvents ->
  PostgresRepository.ListEvents (ResolutionRow.tenant_id row) id after limit db =
  Ok (firstn (Z.to_nat limit) (skipn (Z.to_nat after) ws)).
Proof.
  intros Hl ((Hid & Hne & Htn & Henc) & _ & _ & Hh & Hf) Ha Hlim. unfold PostgresRepository.ListEvents, validateWatchRequest.
  rewrite (bool_decide_eq_false_2 _ Htn), (bool_decide_eq_false_2 _ Hne).
  rewrite (proj2 (Z.ltb_ge after 0)), (proj2 (Z.leb_gt limit 0)), (proj2 (Z.ltb_ge _ limit)) by lia. cbn [orb].
  unfold PostgresRepository.Get, getResolutionTx. rewrite Henc, Hl, bool_decide_eq_true_2 by done. cbn [negb].
  rewrite (listed_rows _ _ _ _ Hf). destruct (versions_found _ _ _ _ Hf) as (found & -> & Hfound).
  assert (Hkept : Forall2 (versioned (ResolutionRow.tenant_id row) id) (List.filter (fun x => after <? fst x) found)
    (skipn (Z.to_nat after) ws)).
  { rewrite <- (history_after _ _ _ _ _ Hh Ha). apply Forall2_filter; [|done].
    intros x w [-> _]. by rewrite Z.leb_antisym, negb_involutive. }
  rewrite isort_id; [|eapply versioned_sorted; [exact Hkept|]].
  - apply project_versioned. by apply Forall2_take.
  - rewrite <- (history_after _ _ _ _ _ Hh Ha). apply StronglySorted_filter, (history_sorted _ _ _ _ Hh).
Qed.
Lemma durable_watch db id row :
  Durable db -> DB.resolutions db !! id = Some row ->
  exists ws, history ws (ResolutionRow.state row) (ResolutionRow.version row) (ResolutionRow.updated_at row) /\
    forall after limit, 0 <= after -> 1 <= limit <= maximumWatchEvents ->
      PostgresRepository.ListEvents (ResolutionRow.tenant_id row) id after limit db =
      Ok (firstn (Z.to_nat limit) (skipn (Z.to_nat after) ws)).
Proof.
  intros HD Hl. destruct (durable_recorded _ HD _ _ Hl) as [ws Hws]. exists ws. split; [apply Hws|].
  intros after limit. by apply recorded_watch.
Qed.
End Invariant.
