(* ===== verification/Planning.v ===== *)
(** * Planning

    [internal/collector/fanout.go] and [internal/planning/service.go]: an
    authenticated planner submits the complete task set of a planned
    resolution; one transaction inserts the tasks, moves the resolution to
    queued and writes the event.  The runs below interleave it with creations,
    transitions, event delivery and any activity on other tables. *)
From S2P Require Import Prelude GoStrings GoEncoding Json Authctx Task Schema TaskPostgres Outbox Resolution ResolutionPostgres.
Local Open Scope Z_scope.

(** ** The fan-out transaction *)
Definition ErrFanoutConflict := New "collector.ErrFanoutConflict" "collector task fan-out authority changed".

Module FanoutRequest.
Record t := mk {
  TenantID : string; ResolutionID : string; ExpectedResolutionVersion : Z; Tasks : list Task.t; Event_ : Event.t;
  QueuedAt : Z }.
End FanoutRequest.

(** The loop of [validateFanoutTasks]; [seen] holds the identifiers so far. *)
Fixpoint validate_tasks (tenantID resolutionID : string) (index : Z) (seen : gset string) (tasks : list Task.t) :
    option error :=
  match tasks with
  | [] => None
  | task :: rest =>
    match validateDurableTask task with
    | Some e => Some (Wrapf ("validate fan-out task " +:+ itoa index +:+ ": ") e "")
    | None =>
      if (Task.TenantID task !=? tenantID) || (Task.ResolutionID task !=? resolutionID) ||
         ((Task.State task !=? TaskOther "") && (Task.State task !=? TaskQueued)) then
        Some (Text "fan-out task does not match resolution authority")
      else if bool_decide (Task.ID task ∈ seen) then Some (Text "fan-out contains duplicate task id")
      else validate_tasks tenantID resolutionID (index + 1) ({[Task.ID task]} ∪ seen) rest
    end
  end.
Definition validateFanoutTasks (r : FanoutRequest.t) : option error :=
  validate_tasks (FanoutRequest.TenantID r) (FanoutRequest.ResolutionID r) 0 ∅ (FanoutRequest.Tasks r).

Definition validateFanoutEvent (r : FanoutRequest.t) : option error :=
  let event := FanoutRequest.Event_ r in
  match Event.Validate event with
  | Some e => Some e
  | None =>
    if (Event.TenantID event !=? FanoutRequest.TenantID r) || (Event.AggregateType event !=? "resolution") ||
       (Event.AggregateID event !=? FanoutRequest.ResolutionID r) || (Event.Type_ event !=? "resolution.tasks_queued") ||
       negb (Event.OccurredAt event =? FanoutRequest.QueuedAt r) then
      Some (Text "fan-out event does not match resolution authority")
    else None
  end.

Definition task_count (tasks : list Task.t) : Z := Z.of_nat (List.length tasks).

Definition validateFanoutRequest (r : FanoutRequest.t) : option error :=
  if (FanoutRequest.TenantID r ==? "") || (FanoutRequest.ResolutionID r ==? "") ||
     (FanoutRequest.ExpectedResolutionVersion r <=? 0) || (task_count (FanoutRequest.Tasks r) =? 0) ||
     (10000 <? task_count (FanoutRequest.Tasks r)) || IsZero (FanoutRequest.QueuedAt r) then
    Some (Text "database, resolution authority, bounded tasks and queue time are required")
  else match validateFanoutTasks r with
  | Some e => Some e
  | None => validateFanoutEvent r
  end.

(** A task without a state is queued. *)
Definition queued_task (task : Task.t) : Task.t :=
  if Task.State task ==? TaskOther "" then task <| Task.State := TaskQueued |> else task.

Definition insertTaskTx (current_timestamp : Z) (task : Task.t) (db : DB.t) : result DB.t :=
  match insert_task (task_params (queued_task task)) (new_row current_timestamp (queued_task task)) db with
  | (Err e, _) => Err (Wrapf "insert fan-out collector task: " e "")
  | (Ok _, db) => Ok db
  end.
Fixpoint insertTasks (current_timestamp : Z) (tasks : list Task.t) (db : DB.t) : result DB.t :=
  match tasks with
  | [] => Ok db
  | task :: rest =>
    match insertTaskTx current_timestamp task db with
    | Err e => Err e
    | Ok db => insertTasks current_timestamp rest db
    end
  end.

Section Fanout.
Context `{Jsonb}.

Definition insertFanoutEvent (e : Event.t) (db : DB.t) : result DB.t :=
  match PostgresRepository.insert_outbox e db with
  | Err err => Err (Wrapf "insert task fan-out outbox event: " err "")
  | Ok None => Err ErrFanoutConflict
  | Ok (Some db) => Ok db
  end.

Definition queue_row (count queuedAt : Z) (row : ResolutionRow.t) : ResolutionRow.t :=
  row <| ResolutionRow.state := "queued" |> <| ResolutionRow.target_count := count |>
      <| ResolutionRow.version := ResolutionRow.version row + 1 |>
      <| ResolutionRow.updated_at := Z.max queuedAt (ResolutionRow.updated_at row) |>.

(** [current_timestamp] is the database clock, for column defaults. *)
Definition CreateFanoutContext (current_timestamp : Z) (r : FanoutRequest.t) (db : DB.t) : result unit * DB.t :=
  match validateFanoutRequest r with
  | Some e => (Err e, db)
  | None =>
    if negb (all_encodable [FanoutRequest.TenantID r; FanoutRequest.ResolutionID r]) then
      (Err (Wrapf "lock resolution for task fan-out: " invalid_text ""), db)
    else
    let not_found := (Err (Wrapf "" ErrFanoutConflict ": resolution was not found"), db) in
    match DB.resolutions db !! FanoutRequest.ResolutionID r with
    | None => not_found
    | Some row =>
      if ResolutionRow.tenant_id row !=? FanoutRequest.TenantID r then not_found
      else if negb (ResolutionRow.version row =? FanoutRequest.ExpectedResolutionVersion r) ||
              (ResolutionRow.state row !=? "planning") then (Err ErrFanoutConflict, db)
      else match insertTasks current_timestamp (FanoutRequest.Tasks r) db with
      | Err e => (Err e, db)
      | Ok db1 =>
        let row' := queue_row (task_count (FanoutRequest.Tasks r)) (normaliseTime (FanoutRequest.QueuedAt r)) row in
        match resolution_row_error row' with
        | Some e => (Err (Wrapf "queue resolution after task fan-out: " e ""), db)
        | None =>
          match insertFanoutEvent (FanoutRequest.Event_ r) (put_resolution row' db1) with
          | Err e => (Err e, db)
          | Ok db2 => (Ok tt, db2)
          end
        end
      end
    end
  end.
End Fanout.

(** ** The planning service *)
Definition queueScope : string := "resolutions:plan".
Definition queueEventSchemaVersion : string := "v1".
Definition maximumTasksPerRequest : Z := 1000.
Definition ErrDenied := New "planning.ErrDenied" "planning authority denied".
Definition ErrInvalidRequest := New "planning.ErrInvalidRequest" "invalid planning request".

Class FanoutRepository (St : Type) := {
  repo_CreateFanout : FanoutRequest.t -> St -> result unit * St }.

Module QueueRequest.
Record t := mk { ResolutionID : string; ExpectedResolutionVersion : Z; Tasks : list Task.t }.
End QueueRequest.
Module QueueResult.
Record t := mk { ResolutionID : string; Version : Z; TaskCount : Z }.
End QueueResult.

(** The loop that binds the tasks to the planner's tenant and resolution. *)
Fixpoint bind_tasks (tenantID resolutionID : string) (tasks : list Task.t) : result (list Task.t) :=
  match tasks with
  | [] => Ok []
  | task :: rest =>
    if ((Task.TenantID task !=? "") && (Task.TenantID task !=? tenantID)) ||
       ((Task.ResolutionID task !=? "") && (Task.ResolutionID task !=? resolutionID)) then
      Err (Wrapf "" ErrInvalidRequest ": task authority override")
    else match bind_tasks tenantID resolutionID rest with
    | Err e => Err e
    | Ok rest => Ok (task <| Task.TenantID := tenantID |> <| Task.ResolutionID := resolutionID |>
                          <| Task.State := TaskQueued |> :: rest)
    end
  end.

Definition queue_payload (resolutionID : string) (version : Z) (count : Z) : list (string * jtree) :=
  [ ("schema_version", jstr queueEventSchemaVersion); ("resolution_id", jstr resolutionID);
    ("state", jstr ResolutionQueued); ("version", jint version); ("task_count", jint count) ].

(** The request the service makes of the repository. *)
Definition fanout_request (actor : AuthContext.t) (request : QueueRequest.t) (tasks : list Task.t) (evt : string) (now : Z) :
    FanoutRequest.t :=
  let version := int64 (QueueRequest.ExpectedResolutionVersion request + 1) in
  FanoutRequest.mk (AuthContext.TenantID actor) (QueueRequest.ResolutionID request)
    (QueueRequest.ExpectedResolutionVersion request) tasks
    (Event.mk evt (AuthContext.TenantID actor) "resolution" (QueueRequest.ResolutionID request) "resolution.tasks_queued"
       (Marshal (object (queue_payload (QueueRequest.ResolutionID request) version (task_count tasks)))) now) now.

Definition Queue `{FanoutRepository St} (actor : AuthContext.t) (request : QueueRequest.t) (now : Z)
    (eventID : result string) (st : St) : result QueueResult.t * St :=
  match AuthContext.Validate actor with
  | Some e => (Err (Wrap2 ErrDenied ": " e), st)
  | None =>
    if negb (contains (AuthContext.AllowedScopes actor) queueScope) then (Err ErrDenied, st)
    else if (QueueRequest.ResolutionID request ==? "") || (QueueRequest.ExpectedResolutionVersion request <=? 0) ||
            (task_count (QueueRequest.Tasks request) =? 0) ||
            (maximumTasksPerRequest <? task_count (QueueRequest.Tasks request)) then (Err ErrInvalidRequest, st)
    else match bind_tasks (AuthContext.TenantID actor) (QueueRequest.ResolutionID request) (QueueRequest.Tasks request) with
    | Err e => (Err e, st)
    | Ok tasks =>
      if IsZero now then (Err (Text "planning clock returned zero time"), st)
      else match eventID with
      | Err e => (Err (Wrapf "generate planning event id: " e ""), st)
      | Ok evt =>
        match repo_CreateFanout (fanout_request actor request tasks evt now) st with
        | (Err e, st) => (Err e, st)
        | (Ok _, st) => (Ok (QueueResult.mk (QueueRequest.ResolutionID request)
                              (int64 (QueueRequest.ExpectedResolutionVersion request + 1)) (task_count tasks)), st)
        end
      end
    end
  end.

#[export] Instance postgres_fanout `{Jsonb} (current_timestamp : Z) : FanoutRepository DB.t := {|
  repo_CreateFanout := CreateFanoutContext current_timestamp |}.

(** ** What a fan-out writes *)
Lemma insert_task_Ok params row db db' :
  insert_task params row db = (Ok tt, db') ->
  DB.tasks db !! TaskRow.id row = None /\ db' = put_task row db.
Proof. intros H. pose proof (insert_task_spec params row db) as Hs. rewrite H in Hs. by destruct Hs as (? & ? & _). Qed.

(** The tasks of the plan, and nothing else, are added to the table. *)
Definition tasks_added (current_timestamp : Z) (tasks : list Task.t) (old new : gmap string TaskRow.t) : Prop :=
  NoDup (map Task.ID tasks) /\
  (forall task, task ∈ tasks -> old !! Task.ID task = None /\
     new !! Task.ID task = Some (new_row current_timestamp (queued_task task))) /\
  (forall id, id ∉ map Task.ID tasks -> new !! id = old !! id).

Lemma queued_task_ID task : Task.ID (queued_task task) = Task.ID task.
Proof. unfold queued_task. by case_match. Qed.

Lemma insertTasks_Ok ts tasks : forall db db',
  insertTasks ts tasks db = Ok db' ->
  db' = db <| DB.tasks := DB.tasks db' |> /\ tasks_added ts tasks (DB.tasks db) (DB.tasks db').
Proof.
  induction tasks as [|task tasks IH]; intros db db'; cbn [insertTasks].
  { intros [= <-]. split; [by destruct db|]. split_and!; [constructor|set_solver|done]. }
  unfold insertTaskTx. destruct (insert_task _ _ db) as [[[]|e] db1] eqn:Hi; [|done].
  apply insert_task_Ok in Hi as [Hfresh ->]. cbn [new_row TaskRow.id] in Hfresh. rewrite queued_task_ID in Hfresh.
  intros (Hdb & Hnd & Hin & Hout)%IH. split; [by rewrite Hdb|].
  cbn in Hin, Hout. rewrite queued_task_ID in Hin, Hout.
  assert (Hnew : Task.ID task ∉ map Task.ID tasks).
  { intros (t & Ht & Htin)%list_elem_of_fmap. destruct (Hin t Htin) as [Hnone _].
    by rewrite <- Ht, lookup_insert_eq in Hnone. }
  split_and!.
  - by apply list.NoDup_cons.
  - intros t [->|Ht]%elem_of_cons.
    + split; [done|]. by rewrite (Hout _ Hnew), lookup_insert_eq.
    + destruct (Hin t Ht) as [Hnone Hsome]. split; [|done].
      by apply lookup_insert_None in Hnone as [? _].
  - intros id Hid. cbn in Hid. rewrite Hout by set_solver. rewrite lookup_insert_ne by set_solver. done.
Qed.

Section Runs.
Context `{JL : JsonbLaws}.

Lemma CreateFanout_commits ts r db out db' :
  CreateFanoutContext ts r db = (out, db') -> db' = db /\ (exists e, out = Err e) \/
  exists row db1 doc, let id := FanoutRequest.ResolutionID r in
    validateFanoutRequest r = None /\ DB.resolutions db !! id = Some row /\
    ResolutionRow.tenant_id row = FanoutRequest.TenantID r /\
    ResolutionRow.version row = FanoutRequest.ExpectedResolutionVersion r /\ ResolutionRow.state row = ResolutionPlanning /\
    insertTasks ts (FanoutRequest.Tasks r) db = Ok db1 /\
    ResolutionRow.version row + 1 <= max_int64 /\ jsonb (Event.Payload (FanoutRequest.Event_ r)) = Some doc /\
    out = Ok tt /\
    db' = append_event doc (FanoutRequest.Event_ r)
      (put_resolution (queue_row (task_count (FanoutRequest.Tasks r)) (normaliseTime (FanoutRequest.QueuedAt r)) row) db1).
Proof.
  unfold CreateFanoutContext. destruct (validateFanoutRequest r) eqn:Hv; [intros; simplify_eq; eauto|].
  destruct (negb _); [intros; simplify_eq; eauto|].
  destruct (DB.resolutions db !! _) as [row|] eqn:Hr; [|intros; simplify_eq; eauto].
  destruct (decide (ResolutionRow.tenant_id row = FanoutRequest.TenantID r)) as [Ht|Ht];
    [rewrite bool_decide_eq_true_2 by done|rewrite bool_decide_eq_false_2 by done]; cbn [negb]; [|intros; simplify_eq; eauto].
  destruct (_ || _) eqn:Hg; [intros; simplify_eq; eauto|].
  apply orb_false_iff in Hg as [Hver%negb_false_iff%Z.eqb_eq Hst%negb_false_iff%bool_decide_eq_true].
  destruct (insertTasks _ _ _) as [db1|] eqn:Hi; [|intros; simplify_eq; eauto].
  destruct (resolution_row_error _) eqn:Hrow; [intros; simplify_eq; eauto|].
  unfold insertFanoutEvent. destruct (PostgresRepository.insert_outbox _ _) as [[db2|]|] eqn:Ho;
    [|intros; simplify_eq; eauto..].
  apply insert_outbox_Some in Ho as (doc & Hdoc & ->).
  intros [<- <-]%pair_equal_spec. right. exists row, db1, doc. split_and!; try done.
  unfold resolution_row_error, ResolutionRow.in_range, in_int8, between in Hrow.
  destruct (_ && (_ && _)) eqn:E; [|done]. rewrite !andb_true_iff, !Z.leb_le in E. cbn in E. lia.
Qed.

Definition bound (tenant id : string) (task bound_task : Task.t) : Prop :=
  bound_task = task <| Task.TenantID := tenant |> <| Task.ResolutionID := id |> <| Task.State := TaskQueued |>.

Lemma bind_tasks_Ok tenant id tasks : forall tasks',
  bind_tasks tenant id tasks = Ok tasks' -> Forall2 (bound tenant id) tasks tasks'.
Proof.
  induction tasks as [|task tasks IH]; intros tasks'; cbn; [intros [= <-]; constructor|].
  case_match; [done|]. destruct (bind_tasks tenant id tasks) as [rest|]; [|done].
  intros [= <-]. constructor; [done|by apply IH].
Qed.

Lemma Queue_calls `{FanoutRepository St} actor request now evt (st : St) out st' :
  Queue actor request now evt st = (out, st') -> (st' = st /\ exists e, out = Err e) \/
  exists tasks ev res,
    AuthContext.Validate actor = None /\ contains (AuthContext.AllowedScopes actor) queueScope = true /\
    1 <= task_count (QueueRequest.Tasks request) <= maximumTasksPerRequest /\
    bind_tasks (AuthContext.TenantID actor) (QueueRequest.ResolutionID request) (QueueRequest.Tasks request) = Ok tasks /\
    repo_CreateFanout (fanout_request actor request tasks ev now) st = (res, st') /\
    out = match res with
          | Err e => Err e
          | Ok _ => Ok (QueueResult.mk (QueueRequest.ResolutionID request)
                          (int64 (QueueRequest.ExpectedResolutionVersion request + 1)) (task_count tasks))
          end.
Proof.
  unfold Queue. destruct (AuthContext.Validate actor) eqn:Hv; [intros; simplify_eq; eauto|].
  destruct (contains _ _) eqn:Hc; cbn [negb]; [|intros; simplify_eq; eauto].
  destruct (_ || _ || _ || _) eqn:Hg; [intros; simplify_eq; eauto|].
  rewrite !orb_false_iff, Z.eqb_neq, Z.ltb_ge in Hg. destruct Hg as [[_ Hn] Hmax].
  destruct (bind_tasks _ _ _) as [tasks|] eqn:Hb; [|intros; simplify_eq; eauto].
  case_match; [intros; simplify_eq; eauto|]. destruct evt as [ev|]; [|intros; simplify_eq; eauto].
  destruct (repo_CreateFanout _ _) as [res st1] eqn:Hf. intros Heq. right. exists tasks, ev, res.
  assert (st1 = st' /\ out = match res with Err e => Err e | Ok _ => Ok _ end) as [-> ->]
    by (destruct res; simplify_eq; done).
  unfold task_count in *. split_and!; try done; lia.
Qed.

(** The members of the event of a fan-out. *)
Lemma queue_members id version count :
  sole_member (queue_payload id version count) "schema_version" (jstr "v1") /\
  sole_member (queue_payload id version count) "state" (jstr ResolutionQueued) /\
  sole_member (queue_payload id version count) "version" (jint version).
Proof.
  unfold queue_payload. split_and!; [eexists [], _|eexists [_; _], _|eexists [_; _; _], _];
    (split; [reflexivity|]; split; repeat (constructor; [by vm_compute|]); constructor).
Qed.

Lemma queue_fits id version count : int64_range version -> int64_range count -> Forall value_fits (queue_payload id version count).
Proof.
  intros Hv Hc. unfold queue_payload, value_fits.
  repeat (constructor; [split; [first [apply jstr_ok | by apply jint_ok]|done]|]). constructor.
Qed.

Lemma bound_count tenant id tasks tasks' : Forall2 (bound tenant id) tasks tasks' -> task_count tasks' = task_count tasks.
Proof. intros Hb. unfold task_count. by rewrite (Forall2_length Hb). Qed.

Lemma durable_queue ts actor request tasks ev now db out db' :
  normaliseTime now <> 0 -> task_count tasks <= maximumTasksPerRequest -> Durable db ->
  CreateFanoutContext ts (fanout_request actor request tasks ev now) db = (out, db') -> Durable db'.
Proof.
  intros Ht Hcount HD [[-> _]|(row & db1 & doc & _ & Hr & Htn & Hver & Hst & Htasks & Hmax & Hdoc & _ & ->)]%CreateFanout_commits;
    [done|].
  cbn [fanout_request FanoutRequest.ResolutionID FanoutRequest.TenantID FanoutRequest.ExpectedResolutionVersion
    FanoutRequest.Tasks FanoutRequest.Event_ FanoutRequest.QueuedAt] in *.
  set (id := QueueRequest.ResolutionID request) in *.
  destruct (durable_recorded _ HD _ _ Hr) as [ws ((Hid & Hid' & Htn' & Henc) & Hc & Hk & Hh & Hf)].
  pose proof (history_bounds _ _ _ _ Hh) as (Hb1 & Hb2 & _).
  assert (Hint : int64 (QueueRequest.ExpectedResolutionVersion request + 1) = ResolutionRow.version row + 1)
    by (rewrite int64_small by (unfold max_int64 in *; lia); lia).
  apply insertTasks_Ok in Htasks as [-> _]. rewrite Hst in Hh.
  eapply (durable_append db _ _ _ id (queue_row (task_count tasks) (normaliseTime now) row) ws
    (WatchEvent.mk (ResolutionRow.version row + 1) "resolution.tasks_queued" ResolutionQueued (normaliseTime now))); try done.
  - cbn. by rewrite Hid.
  - cbn. rewrite Hid. intros k kr Hl. destruct (durable_key _ HD _ _ Hl) as (row' & Hrow' & Hkey).
    destruct (decide (IdempotencyRow.resolution_id kr = id)) as [Heq|Hne'].
    + rewrite Heq in Hrow' |- *. rewrite lookup_insert_eq. eexists. split; [done|]. rewrite Hr in Hrow'. by injection Hrow' as <-.
    + exists row'. by rewrite lookup_insert_ne.
  - cbn. rewrite Hc, Hst. by vm_compute.
  - exact (history_queued _ _ _ (normaliseTime now) Hh).
  - rewrite Hint in *. cbn [Event.Payload] in Hdoc.
    destruct (queue_members id (ResolutionRow.version row + 1) (task_count tasks)) as (H1 & H2 & H3).
    eapply (stored_projects (queue_payload id (ResolutionRow.version row + 1) (task_count tasks)) doc ResolutionQueued);
      try done; [| |by unfold row_of_id; cbn; rewrite !bool_decide_eq_true_2|by right; right].
    + apply queue_fits; unfold int64_range, task_count, maximumTasksPerRequest, max_int64 in *; lia.
    + lia.
Qed.

(** ** Runs of the durable workflow

    A transition acts on any snapshot [current] and its diagnosis on any
    [seen]; delivery and operations on other tables come at any point. *)
Inductive wop :=
| WCreate (request : CreateRequest.t) (now : Z) (resolutionID eventID : result string)
| WTransition (seen : DB.t) (current : Resolution.t) (request : TransitionRequest.t) (now : Z) (eventID : result string)
| WQueue (current_timestamp : Z) (actor : AuthContext.t) (request : QueueRequest.t) (now : Z) (eventID : result string)
| WDeliver (o : OutboxOp)
| WOther (f : DB.t -> DB.t).

Definition outcome {A} (r : result A) : result unit := match r with Ok _ => Ok tt | Err e => Err e end.
Definition wstep (o : wop) (db : DB.t) : result unit * DB.t :=
  match o with
  | WCreate request now rid evt =>
    let '(out, db) := Resolution.Create (H := postgres_repository db) request now rid evt db in (outcome out, db)
  | WTransition seen current request now evt =>
    let '(out, db) := Resolution.finishTransition (H := postgres_repository seen) current request now evt db in
    (outcome out, db)
  | WQueue ts actor request now evt =>
    let '(out, db) := Queue (H := postgres_fanout ts) actor request now evt db in (outcome out, db)
  | WDeliver o => let '(out, db) := outbox_exec o db in (outcome out, db)
  | WOther f => (Ok tt, f db)
  end.

Definition wop_ok (o : wop) : Prop :=
  match o with
  | WCreate request now _ _ => embeddable (CreateRequest.RequestDocument request) /\ normaliseTime now <> 0
  | WTransition _ _ _ now _ | WQueue _ _ _ now _ => normaliseTime now <> 0
  | WDeliver _ => True
  | WOther f => forall db, same_workflow db (f db) /\ DB.outbox (f db) = DB.outbox db
  end.

Lemma durable_empty : Durable DB.empty.
Proof. split; done. Qed.

Lemma durable_step o db : wop_ok o -> Durable db -> Durable (wstep o db).2.
Proof.
  destruct o as [request now rid evt|seen current request now evt|ts actor request now evt|o|f]; intros Hok HD; cbn [wstep].
  - destruct (Resolution.Create _ _ _ _ _) as [out db'] eqn:E. destruct Hok as [Hemb Hz].
    apply Create_calls in E as [->|(id & ev & event & He & Hc)]; [done|].
    exact (durable_create _ _ _ _ _ _ _ _ Hemb Hz HD He Hc).
  - destruct (finishTransition _ _ _ _ _) as [out db'] eqn:E.
    apply finishTransition_calls in E as [[-> _]|(ev & event & Hv & _ & He & Hc)]; [done|].
    exact (durable_transition _ _ _ _ _ _ _ _ _ Hok HD Hv He Hc).
  - destruct (Queue _ _ _ _ _) as [out db'] eqn:E.
    apply Queue_calls in E as [[-> _]|(tasks & ev & res & _ & _ & Hn & Hb & Hc & _)]; [done|].
    apply bind_tasks_Ok, bound_count in Hb. eapply durable_queue; [done| |done|exact Hc]. lia.
  - pose proof (outbox_exec_ok o db (durable_outbox _ HD)) as Ho. pose proof (outbox_exec_frame o db) as Hs.
    pose proof (outbox_exec_content o db (durable_outbox _ HD)) as Hcn.
    destruct (outbox_exec o db) as [out db']. by apply (durable_same db).
  - destruct (Hok db) as [Hs Ho]. cbn [snd].
    apply (durable_same db); try done; [|by rewrite Ho]. unfold outbox_ok. rewrite Ho. apply HD.
Qed.

Lemma durable_run ops : Forall wop_ok ops -> Durable (run wstep ops DB.empty).2.
Proof. intros Hok. apply (run_invariant wstep wop_ok Durable); [intros; by apply durable_step|done|apply durable_empty]. Qed.

(** ** Progress *)
Definition queues (id : string) (entry : wop * result unit) : bool :=
  match entry with
  | (WQueue _ _ request _ _, Ok _) => QueueRequest.ResolutionID request ==? id
  | _ => false
  end.
Definition queued_count (id : string) (log : list (wop * result unit)) : nat :=
  List.length (List.filter (queues id) log).
Definition row_rank (db : DB.t) (id : string) : Z :=
  match DB.resolutions db !! id with Some row => rank (ResolutionRow.state row) | None => -1 end.

Lemma rank_insert db db' id row row' i :
  DB.resolutions db !! id = Some row -> DB.resolutions db' = <[id := row']> (DB.resolutions db) ->
  rank (ResolutionRow.state row) <= rank (ResolutionRow.state row') -> row_rank db i <= row_rank db' i.
Proof.
  intros Hl Hm Hr. unfold row_rank. rewrite Hm. destruct (decide (id = i)) as [->|Hne].
  - by rewrite lookup_insert_eq, Hl.
  - by rewrite lookup_insert_ne.
Qed.

Lemma append_event_resolutions doc e row db :
  DB.resolutions (append_event doc e (put_resolution row db)) = <[ResolutionRow.id row := row]> (DB.resolutions db).
Proof. done. Qed.

Lemma append_event_tasks doc e row db : DB.tasks (append_event doc e (put_resolution row db)) = DB.tasks db.
Proof. done. Qed.

(** What a planner's call does. *)
Lemma queue_effect ts actor request now evt db out db' :
  let id := QueueRequest.ResolutionID request in
  Durable db -> Queue (H := postgres_fanout ts) actor request now evt db = (out, db') ->
  (db' = db /\ exists e, out = Err e) \/
  exists tasks row,
    out = Ok (QueueResult.mk id (ResolutionRow.version row + 1) (task_count tasks)) /\
    contains (AuthContext.AllowedScopes actor) queueScope = true /\
    1 <= task_count tasks <= maximumTasksPerRequest /\
    Forall2 (bound (AuthContext.TenantID actor) id) (QueueRequest.Tasks request) tasks /\
    DB.resolutions db !! id = Some row /\ ResolutionRow.tenant_id row = AuthContext.TenantID actor /\
    ResolutionRow.state row = ResolutionPlanning /\
    ResolutionRow.version row = QueueRequest.ExpectedResolutionVersion request /\
    DB.resolutions db' = <[id := queue_row (task_count tasks) (normaliseTime now) row]> (DB.resolutions db) /\
    tasks_added ts tasks (DB.tasks db) (DB.tasks db') /\
    exists r, rows db' = rows db ++ [r] /\ OutboxRow.event_type r = "resolution.tasks_queued" /\
      OutboxRow.aggregate_id r = id /\ OutboxRow.tenant_id r = AuthContext.TenantID actor.
Proof.
  intros id; unfold id; clear id. intros HD [[-> ?]|(tasks & ev & res & _ & Hs & Hn & Hb & Hc & ->)]%Queue_calls; [by left|].
  apply bind_tasks_Ok in Hb. rewrite <- (bound_count _ _ _ _ Hb) in Hn. revert Hc.
  set (r := fanout_request actor request tasks ev now).
  change (repo_CreateFanout r db) with (CreateFanoutContext ts r db). change (QueueRequest.ResolutionID request)
    with (FanoutRequest.ResolutionID r) in *. assert (Htn : AuthContext.TenantID actor = FanoutRequest.TenantID r) by reflexivity.
  assert (Hver : QueueRequest.ExpectedResolutionVersion request = FanoutRequest.ExpectedResolutionVersion r) by reflexivity.
  assert (Hev : Event.Type_ (FanoutRequest.Event_ r) = "resolution.tasks_queued" /\
    Event.AggregateID (FanoutRequest.Event_ r) = FanoutRequest.ResolutionID r /\
    Event.TenantID (FanoutRequest.Event_ r) = FanoutRequest.TenantID r) by (by split_and!).
  assert (Hts : FanoutRequest.Tasks r = tasks) by reflexivity. assert (Hnow : FanoutRequest.QueuedAt r = now) by reflexivity.
  rewrite Htn, Hver in *. clearbody r.
  intros [[-> [e ->]]|(row & db1 & doc & _ & Hr & Ht & Hv & Hst & Htasks & Hmax & _ & -> & ->)]%CreateFanout_commits;
    [left; eauto|right].
  destruct (durable_recorded _ HD _ _ Hr) as [ws ((Hid & _) & _ & _ & Hh & _)]. apply history_bounds in Hh as (Hb1 & _).
  rewrite Hts, Hnow in *. apply insertTasks_Ok in Htasks as [Hdb1 Hadded]. exists tasks, row.
  rewrite append_event_resolutions, append_event_tasks.
  assert (Hres : DB.resolutions db1 = DB.resolutions db) by (rewrite Hdb1; done). rewrite Hres.
  rewrite <- Hv, int64_small by (unfold max_int64 in *; lia).
  change (ResolutionRow.id (queue_row _ _ row)) with (ResolutionRow.id row). rewrite Hid. destruct Hn.
  set (row' := queue_row _ _ row). assert (Ho : DB.outbox (put_resolution row' db1) = DB.outbox db) by (rewrite Hdb1; done).
  assert (Hx : DB.outbox_next (put_resolution row' db1) = DB.outbox_next db) by (rewrite Hdb1; done).
  destruct (append_event_rows doc (FanoutRequest.Event_ r) (put_resolution row' db1)) as (_ & _ & Hrows).
  { unfold outbox_ok. rewrite Ho. apply HD. }
  { unfold next_free. rewrite Ho, Hx. apply HD. }
  assert (Hrows1 : rows (put_resolution row' db1) = rows db) by (unfold rows; by rewrite Ho). rewrite Hrows1 in Hrows.
  split_and!; try done. eexists. split; [exact Hrows|]. apply Hev.
Qed.

(** No operation moves a resolution back, and a plan is queued from planning. *)
Lemma rank_step o db id :
  wop_ok o -> Durable db ->
  row_rank db id <= row_rank (wstep o db).2 id /\
  (queues id (o, (wstep o db).1) = true -> row_rank db id = 2 /\ row_rank (wstep o db).2 id = 3).
Proof.
  intros Hok HD. pose proof (durable_step o db Hok HD) as HD'.
  destruct o as [request now rid evt|seen current request now evt|ts actor request now evt|o|f]; cbn [wstep] in *.
  - destruct (Resolution.Create _ _ _ _ _) as [out db'] eqn:E. split; [|done]. cbn [snd].
    apply Create_calls in E as [->|(i & ev & event & He & Hc)]; [done|].
    apply Create_commits in Hc as [->|(doc & _ & _ & _ & Hr & _ & _ & ->)]; [done|].
    unfold row_rank. cbn. destruct (decide (i = id)) as [->|Hne]; [|by rewrite lookup_insert_ne].
    cbn in Hr. rewrite Hr, lookup_insert_eq. by vm_compute.
  - destruct (finishTransition _ _ _ _ _) as [out db'] eqn:E. split; [|done]. cbn [snd].
    apply finishTransition_calls in E as [[-> _]|(ev & event & Hv & _ & He & Hc)]; [done|].
    apply Transition_commits in Hc as [[-> _]|(row & doc & Hr & Hs & _ & _ & _ & Hst & _ & _ & _ & ->)]; [done|].
    destruct (durable_recorded _ HD _ _ Hr) as [ws ((Hid & _) & _)]. apply transition_facts in Hs as (Hrank & _).
    eapply rank_insert; [exact Hr|cbn; by rewrite Hid|]. cbn. rewrite Hst. lia.
  - destruct (Queue _ _ _ _ _) as [out db'] eqn:E. cbn [fst snd].
    apply queue_effect in E as [[-> [e ->]]|(tasks & row & -> & _ & _ & _ & Hr & _ & Hst & _ & Hres & _)]; [done| |done].
    split.
    + eapply rank_insert; [exact Hr|exact Hres|]. cbn. rewrite Hst. by vm_compute.
    + cbn. intros <-%bool_decide_eq_true. unfold row_rank. rewrite Hres, lookup_insert_eq, Hr, Hst. by vm_compute.
  - pose proof (outbox_exec_frame o db) as [Hr _]. destruct (outbox_exec o db) as [out db']. cbn [fst snd] in *.
    unfold row_rank. by rewrite Hr.
  - destruct (Hok db) as [[Hr _] _]. cbn [fst snd]. unfold row_rank. by rewrite Hr.
Qed.

(** ** Properties *)

(** C28.  A plan is queued completely or not at all.  After any run of the
    workflow, a planner's call that fails changes nothing.  One that succeeds
    came from a caller with the planning scope for a resolution of its own
    tenant that was in planning at the expected version; it adds exactly the
    submitted tasks, between one and a thousand, all new, distinct, queued and
    bound to the caller's tenant and the resolution, sets the resolution to
    queued at the next version with the number of tasks, changes no other
    resolution or task, and appends one event. *)
Theorem queue_all_or_nothing (ops : list wop) (ts : Z) (actor : AuthContext.t) (request : QueueRequest.t) (now : Z)
    (evt : result string) :
  let db := (run wstep ops DB.empty).2 in let id := QueueRequest.ResolutionID request in
  Forall wop_ok ops ->
  match Queue (H := postgres_fanout ts) actor request now evt db with
  | (Err _, db') => db' = db
  | (Ok res, db') => exists tasks row,
    res = QueueResult.mk id (ResolutionRow.version row + 1) (task_count tasks) /\
    contains (AuthContext.AllowedScopes actor) queueScope = true /\ 1 <= task_count tasks <= maximumTasksPerRequest /\
    Forall2 (bound (AuthContext.TenantID actor) id) (QueueRequest.Tasks request) tasks /\
    DB.resolutions db !! id = Some row /\ ResolutionRow.tenant_id row = AuthContext.TenantID actor /\
    ResolutionRow.state row = ResolutionPlanning /\
    ResolutionRow.version row = QueueRequest.ExpectedResolutionVersion request /\
    DB.resolutions db' = <[id := queue_row (task_count tasks) (normaliseTime now) row]> (DB.resolutions db) /\
    tasks_added ts tasks (DB.tasks db) (DB.tasks db') /\
    exists r, rows db' = rows db ++ [r] /\ OutboxRow.event_type r = "resolution.tasks_queued" /\
      OutboxRow.aggregate_id r = id /\ OutboxRow.tenant_id r = AuthContext.TenantID actor
  end.
Proof.
  intros db id Hok. pose proof (durable_run ops Hok) as HD. fold db in HD.
  destruct (Queue (H := postgres_fanout ts) actor request now evt db) as [out db'] eqn:E.
  apply (queue_effect _ _ _ _ _ _ _ _ HD) in E as [[-> [e ->]]|(tasks & row & -> & E)]; [done|].
  exists tasks, row. split; [done|exact E].
Qed.

(** C29.  A resolution is planned at most once.  In every interleaving of
    creations, transitions, planners, delivery and other activity, at most one
    planner's call for a given resolution succeeds. *)
Theorem plan_queued_once (ops : list wop) (id : string) :
  Forall wop_ok ops -> (queued_count id (run wstep ops DB.empty).1 <= 1)%nat.
Proof.
  intros Hok.
  assert (HI : let '(log, db) := run wstep ops DB.empty in
    Durable db /\ (queued_count id log <= 1)%nat /\ (queued_count id log = 1%nat -> 3 <= row_rank db id)).
  { rewrite (surjective_pairing (run wstep ops DB.empty)). apply (run_log_invariant wstep wop_ok (fun log db =>
      Durable db /\ (queued_count id log <= 1)%nat /\ (queued_count id log = 1%nat -> 3 <= row_rank db id)));
      [|done|split_and!; [apply durable_empty|cbn; lia|done]].
    intros log o db Ho (HD & Hle & Hrank). destruct (rank_step o db id Ho HD) as [Hmono Hq].
    split; [by apply durable_step|]. unfold queued_count in *. rewrite filter_app, length_app. cbn [List.filter].
    destruct (queues id (o, (wstep o db).1)) eqn:Eq; cbn [List.length].
    - destruct (Hq eq_refl) as [H2 H3]. split; [|lia].
      destruct (Nat.eq_dec (List.length (List.filter (queues id) log)) 1%nat) as [E|]; [specialize (Hrank E)|]; lia.
    - rewrite Nat.add_0_r. split; [done|]. intros E. specialize (Hrank E). lia. }
  destruct (run wstep ops DB.empty) as [log db]. by destruct HI as (_ & ? & _).
Qed.

(** C30.  The durable watch reads exactly the history.  After any run of the
    durable workflow, the outbox events of a stored resolution, as JSONB gives
    them back, decode to a history of the workflow graph that ends in its row;
    for every cursor and limit the tenant's watch returns the events after the
    cursor, in order, up to the limit. *)
Theorem durable_watch_replays_history (ops : list wop) (id : string) (row : ResolutionRow.t) :
  let db := (run wstep ops DB.empty).2 in
  Forall wop_ok ops -> DB.resolutions db !! id = Some row ->
  exists ws, history ws (ResolutionRow.state row) (ResolutionRow.version row) (ResolutionRow.updated_at row) /\
    forall after limit, 0 <= after -> 1 <= limit <= maximumWatchEvents ->
      PostgresRepository.ListEvents (ResolutionRow.tenant_id row) id after limit db =
      Ok (firstn (Z.to_nat limit) (skipn (Z.to_nat after) ws)).
Proof. intros db Hok Hl. exact (durable_watch _ _ _ (durable_run ops Hok) Hl). Qed.
End Runs.

(** ** Witnesses

    A JSONB that keeps valid documents as they are written. *)
#[export] Instance demo_jsonb : Jsonb := {|
  jsonb := fun doc => if Valid doc then Some doc else None;
  jsonb_bigint := fun doc name =>
    match members doc with
    | Some fs => match decode_field dec_int64 name 0 fs with Some n => Ok (Some n) | None => Err invalid_json end
    | None => Ok None
    end |}.

#[export] Instance demo_jsonb_laws : JsonbLaws.
Proof.
  constructor. intros fields doc Hfit. cbn [jsonb demo_jsonb]. case_match; [|done]. intros [= <-].
  exists (map (fun kv => key (fst kv) (snd kv)) fields). pose proof (members_Marshal _ Hfit) as Hm.
  split; [done|]. split.
  - intros name s Hs Hk Hv. apply (decode_sole _ _ _ _ _ _ Hs Hk); [done|by apply dec_string_jstr].
  - intros name n Hn Hk Hr. assert (Hd : decode_field dec_int64 name 0 (map (fun kv => key (fst kv) (snd kv)) fields) = Some n)
      by (apply (decode_sole _ _ _ _ _ _ Hn Hk); [done|by apply dec_int64_jint]).
    split; [done|]. cbn [jsonb_bigint demo_jsonb]. by rewrite Hm, Hd.
Qed.

Definition plan_demo_task (id : string) : Task.t :=
  Task.mk id "" "" "claim" "snapshot" "hash" "target" "" "recipe" "1" "trigger" "plan" "" "" "" "compat" (TaskOther "")
    0 "" 0 0 "" "" "".
Definition plan_demo_actor : AuthContext.t :=
  AuthContext.mk "planner" "spiffe://planner" "tenant" [] [queueScope] [] "x509" 1000 "rev".
Definition demo_plan_request : QueueRequest.t := QueueRequest.mk "res-1" 3 [plan_demo_task "task-1"; plan_demo_task "task-2"].
Definition demo_move (version : Z) (next : ResolutionState) : TransitionRequest.t :=
  TransitionRequest.mk "tenant" "res-1" version next.
Definition demo_seen (version : Z) (state : ResolutionState) : Resolution.t :=
  (created_by demo_request "res-1" 10000) <| Resolution.State := state |> <| Resolution.Version := version |>.
(** A resolution on its way to planning, two planners, and a delivery. *)
Definition demo_prefix : list wop :=
  [ WCreate demo_request 10000 (Ok "res-1") (Ok "evt-1");
    WTransition DB.empty (demo_seen 1 ResolutionReceived) (demo_move 1 ResolutionResolvingTargets) 20000 (Ok "evt-2");
    WDeliver (OClaim (fun _ => false) (fun l => l) "dispatcher" 10 30000 1000000);
    WTransition DB.empty (demo_seen 2 ResolutionResolvingTargets) (demo_move 2 ResolutionPlanning) 40000 (Ok "evt-3") ].
Definition demo_workflow : list wop :=
  demo_prefix ++ [ WQueue 5000 plan_demo_actor demo_plan_request 50000 (Ok "evt-4");
                   WQueue 5000 plan_demo_actor demo_plan_request 60000 (Ok "evt-5") ].

Lemma demo_prefix_ok : Forall wop_ok demo_prefix.
Proof.
  repeat constructor; try done. intros t Ht. vm_compute in Ht. injection Ht as <-. by vm_compute.
Qed.
Lemma demo_workflow_ok : Forall wop_ok demo_workflow.
Proof. apply Forall_app. split; [apply demo_prefix_ok|]. by repeat constructor. Qed.

Lemma demo_queues : is_ok (Queue (H := postgres_fanout 5000) plan_demo_actor demo_plan_request 50000 (Ok "evt-4")
  (run wstep demo_prefix DB.empty).2).1 = true.
Proof. by vm_compute. Qed.

Lemma queue_all_or_nothing_witness :
  exists db' tasks, Queue (H := postgres_fanout 5000) plan_demo_actor demo_plan_request 50000 (Ok "evt-4")
      (run wstep demo_prefix DB.empty).2 = (Ok (QueueResult.mk "res-1" 4 (task_count tasks)), db') /\
    tasks_added 5000 tasks (DB.tasks (run wstep demo_prefix DB.empty).2) (DB.tasks db').
Proof.
  pose proof (queue_all_or_nothing demo_prefix 5000 plan_demo_actor demo_plan_request 50000 (Ok "evt-4") demo_prefix_ok) as Hq.
  pose proof demo_queues as Hok.
  destruct (Queue (H := postgres_fanout 5000) plan_demo_actor demo_plan_request 50000 (Ok "evt-4")
    (run wstep demo_prefix DB.empty).2) as [[res|e] db']; [|done].
  destruct Hq as (tasks & row & -> & _ & _ & _ & _ & _ & _ & Hv & _ & Hadded & _).
  exists db', tasks. split; [|exact Hadded]. rewrite Hv. reflexivity.
Defined.

Lemma plan_queued_once_witness :
  (queued_count "res-1" (run wstep demo_workflow DB.empty).1 <= 1)%nat /\
  queued_count "res-1" (run wstep demo_workflow DB.empty).1 = 1%nat.
Proof. split; [exact (plan_queued_once demo_workflow "res-1" demo_workflow_ok)|by vm_compute]. Defined.

Definition demo_row : ResolutionRow.t :=
  ResolutionRow.mk "res-1" "actor" "tenant" "key" (CreateRequest.RequestDigest demo_request) (Some "{}") "queued" 2 false 4
    10000 50000.

Lemma demo_row_stored : DB.resolutions (run wstep demo_workflow DB.empty).2 !! "res-1" = Some demo_row.
Proof. by vm_compute. Qed.

Lemma durable_watch_replays_history_witness :
  exists ws, history ws ResolutionQueued 4 50000 /\
    forall after limit, 0 <= after -> 1 <= limit <= maximumWatchEvents ->
      PostgresRepository.ListEvents "tenant" "res-1" after limit (run wstep demo_workflow DB.empty).2 =
      Ok (firstn (Z.to_nat limit) (skipn (Z.to_nat after) ws)).
Proof. exact (durable_watch_replays_history demo_workflow "res-1" demo_row demo_workflow_ok demo_row_stored). Defined.

(** ** Queued without tasks

    The fan-out is not the only way to the queued state: the workflow graph also
    lets the resolution service move a planned resolution there on its own. *)
Example queued_without_tasks :
  let db := (run wstep (demo_prefix ++
    [WTransition DB.empty (demo_seen 3 ResolutionPlanning) (demo_move 3 ResolutionQueued) 50000 (Ok "evt-4")]) DB.empty).2 in
  ResolutionRow.state <$> DB.resolutions db !! "res-1" = Some ResolutionQueued /\ DB.tasks db = ∅.
Proof. split; by vm_compute. Qed.
