(* ===== verification/Approval.v ===== *)
(** * Approval grants

    [internal/approval]: an approval allows a bounded number of uses of a recipe
    on a set of targets until it expires.  Each use is consumed for one task
    under an identifier that makes the call repeatable.  The service is generic
    in its repository, a type class with the in-memory and the PostgreSQL
    implementation.  A consumption in PostgreSQL is one serializable
    transaction, hence one step; the statement that looks for an earlier
    consumption may return any row that matches ([pick]). *)
From S2P Require Import Prelude GoStrings Task Schema.
Local Open Scope Z_scope.

Definition ErrNotFound := New "approval.ErrNotFound" "approval grant was not found".
Definition ErrExhausted := New "approval.ErrExhausted" "approval grant is exhausted".
Definition ErrExpired := New "approval.ErrExpired" "approval grant has expired".
Definition ErrBindingMismatch := New "approval.ErrBindingMismatch" "approval grant binding does not match".

Module Grant.
Record t := mk {
  GrantID : string; TenantID : string; RecipeID : string; TargetSubsetHash : string; MaxUses : Z; Used : Z;
  ExpiresAt : Z; CreatedBy : string; PolicyDecisionID : string; Version : Z; CreatedAt : Z }.
#[global] Instance eta_t : Eta t := fun x =>
  mk (GrantID x) (TenantID x) (RecipeID x) (TargetSubsetHash x) (MaxUses x) (Used x) (ExpiresAt x) (CreatedBy x)
     (PolicyDecisionID x) (Version x) (CreatedAt x).
End Grant.

Module CreateRequest.
Record t := mk {
  GrantID : string; TenantID : string; RecipeID : string; TargetSubsetHash : string; MaxUses : Z; ExpiresAt : Z;
  CreatedBy : string; PolicyDecisionID : string }.
End CreateRequest.

Module ConsumeRequest.
Record t := mk {
  ConsumptionID : string; GrantID : string; TenantID : string; RecipeID : string; TargetSubsetHash : string;
  TaskID : string; ActorID : string; Now : Z }.
#[global] Instance eta_t : Eta t := fun x =>
  mk (ConsumptionID x) (GrantID x) (TenantID x) (RecipeID x) (TargetSubsetHash x) (TaskID x) (ActorID x) (Now x).
End ConsumeRequest.

Definition validateCreate (r : CreateRequest.t) : option error :=
  if (CreateRequest.GrantID r ==? "") || (CreateRequest.TenantID r ==? "") || (CreateRequest.RecipeID r ==? "") ||
     (CreateRequest.TargetSubsetHash r ==? "") || (CreateRequest.MaxUses r <=? 0) || IsZero (CreateRequest.ExpiresAt r) ||
     (CreateRequest.CreatedBy r ==? "") || (CreateRequest.PolicyDecisionID r ==? "") then
    Some (Text "complete approval identity, bounds, expiry, actor and policy provenance are required")
  else None.

Definition validateConsume (r : ConsumeRequest.t) : option error :=
  if (ConsumeRequest.ConsumptionID r ==? "") || (ConsumeRequest.GrantID r ==? "") || (ConsumeRequest.TenantID r ==? "") ||
     (ConsumeRequest.RecipeID r ==? "") || (ConsumeRequest.TargetSubsetHash r ==? "") || (ConsumeRequest.TaskID r ==? "") ||
     (ConsumeRequest.ActorID r ==? "") || IsZero (ConsumeRequest.Now r) then
    Some (Text "complete approval consumption identity and bindings are required")
  else None.

(** [Used++] and [Version++]. *)
Definition use (g : Grant.t) : Grant.t :=
  g <| Grant.Used := int64 (Grant.Used g + 1) |> <| Grant.Version := int64 (Grant.Version g + 1) |>.

(** ** The in-memory repository *)
Module MemoryRepository.
Record t := mk { grants : gmap string Grant.t; uses : gmap string string }.
#[global] Instance eta_t : Eta t := fun x => mk (grants x) (uses x).
Definition empty : t := mk ∅ ∅.

(** [now] is the wall clock. *)
Definition Create (now : Z) (r : CreateRequest.t) (m : t) : result Grant.t * t :=
  match grants m !! CreateRequest.GrantID r with
  | Some _ => (Err (Text "approval grant already exists"), m)
  | None =>
    let grant := Grant.mk (CreateRequest.GrantID r) (CreateRequest.TenantID r) (CreateRequest.RecipeID r)
      (CreateRequest.TargetSubsetHash r) (CreateRequest.MaxUses r) 0 (CreateRequest.ExpiresAt r)
      (CreateRequest.CreatedBy r) (CreateRequest.PolicyDecisionID r) 1 now in
    (Ok grant, m <| grants := <[Grant.GrantID grant := grant]> (grants m) |>)
  end.

Definition Get (tenantID grantID : string) (m : t) : result Grant.t :=
  match grants m !! grantID with
  | Some grant => if Grant.TenantID grant !=? tenantID then Err ErrNotFound else Ok grant
  | None => Err ErrNotFound
  end.

Definition Consume (r : ConsumeRequest.t) (m : t) : result Grant.t * t :=
  match Get (ConsumeRequest.TenantID r) (ConsumeRequest.GrantID r) m with
  | Err e => (Err e, m)
  | Ok grant =>
    match uses m !! ConsumeRequest.ConsumptionID r with
    | Some existingGrant =>
      if existingGrant ==? ConsumeRequest.GrantID r then (Ok grant, m) else (Err ErrBindingMismatch, m)
    | None =>
      if (Grant.RecipeID grant !=? ConsumeRequest.RecipeID r) ||
         (Grant.TargetSubsetHash grant !=? ConsumeRequest.TargetSubsetHash r) then (Err ErrBindingMismatch, m)
      else if negb (Before (ConsumeRequest.Now r) (Grant.ExpiresAt grant)) then (Err ErrExpired, m)
      else if Grant.MaxUses grant <=? Grant.Used grant then (Err ErrExhausted, m)
      else (Ok (use grant), mk (<[Grant.GrantID grant := use grant]> (grants m))
                               (<[ConsumeRequest.ConsumptionID r := ConsumeRequest.GrantID r]> (uses m)))
    end
  end.

Definition ConsumeLegacy (grantID : string) (m : t) : result unit * t :=
  match grants m !! grantID with
  | None => (Err (Text ("approval grant " +:+ quote grantID +:+ " not found")), m)
  | Some grant =>
    if Grant.MaxUses grant <=? Grant.Used grant then
      (Err (Text ("approval grant " +:+ quote grantID +:+ " is exhausted")), m)
    else (Ok tt, m <| grants := <[grantID := use grant]> (grants m) |>)
  end.
End MemoryRepository.

(** ** The PostgreSQL repository *)
Definition scanGrant (r : ApprovalRow.t) : Grant.t :=
  Grant.mk (ApprovalRow.grant_id r) (ApprovalRow.tenant_id r) (ApprovalRow.recipe_id r) (ApprovalRow.target_subset_hash r)
    (ApprovalRow.max_uses r) (ApprovalRow.used r) (ApprovalRow.expires_at r) (ApprovalRow.created_by r)
    (ApprovalRow.policy_decision_id r) (ApprovalRow.version r) (ApprovalRow.created_at r).

Definition approval_row_error (r : ApprovalRow.t) : option error :=
  if negb (ApprovalRow.in_range r) then Some out_of_range
  else if negb (ApprovalRow.check r) then Some check_violation else None.

Module PostgresRepository.
Section Operations.
(** The database clock, with the precision of its column type, and the row
    that [LIMIT 1] returns. *)
Variable current_timestamp : Z.
Variable pick : list ApprovalConsumptionRow.t -> option ApprovalConsumptionRow.t.

Definition new_grant (r : CreateRequest.t) : ApprovalRow.t :=
  ApprovalRow.mk (CreateRequest.GrantID r) (CreateRequest.TenantID r) (CreateRequest.RecipeID r)
    (CreateRequest.TargetSubsetHash r) (CreateRequest.MaxUses r) 0 (normaliseTime (CreateRequest.ExpiresAt r))
    (CreateRequest.CreatedBy r) (CreateRequest.PolicyDecisionID r) 1 current_timestamp.

Definition Create (r : CreateRequest.t) (db : DB.t) : result Grant.t * DB.t :=
  let failed e := (Err (Wrapf "create approval grant: " e ""), db) in
  let row := new_grant r in
  if negb (all_encodable [CreateRequest.GrantID r; CreateRequest.TenantID r; CreateRequest.RecipeID r;
       CreateRequest.TargetSubsetHash r; CreateRequest.CreatedBy r; CreateRequest.PolicyDecisionID r]) then failed invalid_text
  else if ApprovalRow.expires_at row <=? current_timestamp then (Err ErrExpired, db)
  else match approval_row_error row, DB.approval_grants db !! CreateRequest.GrantID r with
  | Some e, _ => failed e
  | None, Some _ => failed unique_violation
  | None, None =>
    if is_null (DB.policy_decisions db !! CreateRequest.PolicyDecisionID r) then failed foreign_key_violation
    else (Ok (scanGrant row), db <| DB.approval_grants := <[ApprovalRow.grant_id row := row]> (DB.approval_grants db) |>)
  end.

(** [SELECT ... WHERE tenant_id = $1 AND grant_id = $2]. *)
Definition find_grant (tenantID grantID : string) (db : DB.t) : result (option ApprovalRow.t) :=
  if negb (all_encodable [tenantID; grantID]) then Err invalid_text
  else match DB.approval_grants db !! grantID with
  | Some row => Ok (if ApprovalRow.tenant_id row ==? tenantID then Some row else None)
  | None => Ok None
  end.

Definition Get (tenantID grantID : string) (db : DB.t) : result Grant.t :=
  match find_grant tenantID grantID db with
  | Err e => Err (Wrapf "get approval grant: " e "")
  | Ok None => Err ErrNotFound
  | Ok (Some row) => Ok (scanGrant row)
  end.

(** The rows that may stand for an earlier consumption. *)
Definition earlier (r : ConsumeRequest.t) (c : ApprovalConsumptionRow.t) : bool :=
  (ApprovalConsumptionRow.consumption_id c ==? ConsumeRequest.ConsumptionID r) ||
  (ApprovalConsumptionRow.grant_id c ==? ConsumeRequest.GrantID r) &&
  (ApprovalConsumptionRow.task_id c ==? ConsumeRequest.TaskID r).
Definition consumptions (db : DB.t) : list ApprovalConsumptionRow.t := map snd (map_to_list (DB.approval_consumptions db)).

Definition existingConsumption (r : ConsumeRequest.t) (db : DB.t) : result bool :=
  if negb (all_encodable [ConsumeRequest.ConsumptionID r; ConsumeRequest.GrantID r; ConsumeRequest.TaskID r]) then
    Err (Wrapf "check approval consumption idempotency: " invalid_text "")
  else match pick (List.filter (earlier r) (consumptions db)) with
  | None => Ok false
  | Some c =>
    if (ApprovalConsumptionRow.consumption_id c !=? ConsumeRequest.ConsumptionID r) ||
       (ApprovalConsumptionRow.grant_id c !=? ConsumeRequest.GrantID r) ||
       (ApprovalConsumptionRow.tenant_id c !=? ConsumeRequest.TenantID r) ||
       (ApprovalConsumptionRow.task_id c !=? ConsumeRequest.TaskID r) then Err ErrBindingMismatch
    else Ok true
  end.

Definition use_row (r : ApprovalRow.t) : ApprovalRow.t :=
  r <| ApprovalRow.used := int64 (ApprovalRow.used r + 1) |> <| ApprovalRow.version := int64 (ApprovalRow.version r + 1) |>.
Definition consumption_row (r : ConsumeRequest.t) (version : Z) : ApprovalConsumptionRow.t :=
  ApprovalConsumptionRow.mk (ConsumeRequest.ConsumptionID r) (ConsumeRequest.GrantID r) (ConsumeRequest.TenantID r)
    (ConsumeRequest.TaskID r) (ConsumeRequest.ActorID r) current_timestamp version.

(** [INSERT INTO broker_approval_consumptions]: primary key, UNIQUE (grant_id, task_id), CHECK. *)
Definition insert_consumption (c : ApprovalConsumptionRow.t) (db : DB.t) : result DB.t :=
  if negb (all_encodable [ApprovalConsumptionRow.consumption_id c; ApprovalConsumptionRow.grant_id c;
       ApprovalConsumptionRow.tenant_id c; ApprovalConsumptionRow.task_id c; ApprovalConsumptionRow.actor_id c]) then Err invalid_text
  else if negb (ApprovalConsumptionRow.check c) then Err check_violation
  else if existsb (fun x => (ApprovalConsumptionRow.consumption_id x ==? ApprovalConsumptionRow.consumption_id c) ||
                            (ApprovalConsumptionRow.grant_id x ==? ApprovalConsumptionRow.grant_id c) &&
                            (ApprovalConsumptionRow.task_id x ==? ApprovalConsumptionRow.task_id c)) (consumptions db)
  then Err unique_violation
  else Ok (db <| DB.approval_consumptions :=
                   <[ApprovalConsumptionRow.consumption_id c := c]> (DB.approval_consumptions db) |>).

Definition Consume (r : ConsumeRequest.t) (db : DB.t) : result Grant.t * DB.t :=
  match find_grant (ConsumeRequest.TenantID r) (ConsumeRequest.GrantID r) db with
  | Err e => (Err (Wrapf "lock approval grant: " e ""), db)
  | Ok None => (Err ErrNotFound, db)
  | Ok (Some row) =>
    match existingConsumption r db with
    | Err e => (Err e, db)
    | Ok true => (Ok (scanGrant row), db)
    | Ok false =>
      if (ApprovalRow.recipe_id row !=? ConsumeRequest.RecipeID r) ||
         (ApprovalRow.target_subset_hash row !=? ConsumeRequest.TargetSubsetHash r) then (Err ErrBindingMismatch, db)
      else if negb (Before current_timestamp (ApprovalRow.expires_at row)) then (Err ErrExpired, db)
      else if ApprovalRow.max_uses row <=? ApprovalRow.used row then (Err ErrExhausted, db)
      else match approval_row_error (use_row row) with
      | Some e => (Err (Wrapf "update approval grant consumption: " e ""), db)
      | None =>
        match insert_consumption (consumption_row r (ApprovalRow.version (use_row row)))
                (db <| DB.approval_grants := <[ConsumeRequest.GrantID r := use_row row]> (DB.approval_grants db) |>) with
        | Err e => (Err (Wrapf "record approval consumption: " e ""), db)
        | Ok db => (Ok (scanGrant (use_row row)), db)
        end
      end
    end
  end.
End Operations.
End PostgresRepository.

(** ** The service *)
Class ApprovalRepository (St : Type) := {
  repo_Create : CreateRequest.t -> St -> result Grant.t * St;
  repo_Get : string -> string -> St -> result Grant.t;
  repo_Consume : ConsumeRequest.t -> St -> result Grant.t * St;
  (** The unbound consumption of the local scaffold. *)
  repo_legacy : option (string -> St -> result unit * St) }.

#[export] Instance memory_approvals (now : Z) : ApprovalRepository MemoryRepository.t := {|
  repo_Create := MemoryRepository.Create now; repo_Get := MemoryRepository.Get;
  repo_Consume := MemoryRepository.Consume; repo_legacy := Some MemoryRepository.ConsumeLegacy |}.
#[export] Instance postgres_approvals (current_timestamp : Z)
    (pick : list ApprovalConsumptionRow.t -> option ApprovalConsumptionRow.t) : ApprovalRepository DB.t := {|
  repo_Create := PostgresRepository.Create current_timestamp; repo_Get := PostgresRepository.Get;
  repo_Consume := PostgresRepository.Consume current_timestamp pick; repo_legacy := None |}.

Section Service.
Context {St : Type} `{ApprovalRepository St}.

Definition CreateContext (r : CreateRequest.t) (st : St) : result Grant.t * St :=
  match validateCreate r with Some e => (Err e, st) | None => repo_Create r st end.

(** The scaffold's [Create]: a day's validity and no real provenance. *)
Definition Create (now : Z) (grantID tenantID recipeID targetSubsetHash : string) (maxUses : Z) (st : St) :
    result Grant.t * St :=
  CreateContext (CreateRequest.mk grantID tenantID recipeID targetSubsetHash maxUses (now + 24 * 3600 * Second)
    "local-scaffold" "local-scaffold") st.

Definition ConsumeContext (r : ConsumeRequest.t) (st : St) : result Grant.t * St :=
  match validateConsume r with Some e => (Err e, st) | None => repo_Consume r st end.

Definition Consume (grantID : string) (st : St) : result unit * St :=
  match repo_legacy with
  | None => (Err (Text "legacy approval consumption is unavailable for durable repositories"), st)
  | Some legacy => legacy grantID st
  end.
End Service.

(** ** The invariant of the tables

    Every grant's counter is the number of its consumptions, which are for
    distinct tasks and carry its tenant; its version counts its changes. *)
Import PostgresRepository.
Definition consumed_of (grantID : string) (db : DB.t) : list ApprovalConsumptionRow.t :=
  List.filter (fun c => ApprovalConsumptionRow.grant_id c ==? grantID) (consumptions db).
Definition uses_of (grantID : string) (db : DB.t) : Z := Z.of_nat (List.length (consumed_of grantID db)).

Record Accounted (db : DB.t) : Prop := {
  accounted_grants : forall id row, DB.approval_grants db !! id = Some row ->
    ApprovalRow.grant_id row = id /\ ApprovalRow.used row = uses_of id db /\
    ApprovalRow.version row = ApprovalRow.used row + 1 /\ ApprovalRow.used row <= ApprovalRow.max_uses row <= max_int32;
  accounted_consumptions : forall k c, DB.approval_consumptions db !! k = Some c ->
    ApprovalConsumptionRow.consumption_id c = k /\
    exists row, DB.approval_grants db !! ApprovalConsumptionRow.grant_id c = Some row /\
      ApprovalRow.tenant_id row = ApprovalConsumptionRow.tenant_id c;
  accounted_tasks : forall k1 k2 c1 c2,
    DB.approval_consumptions db !! k1 = Some c1 -> DB.approval_consumptions db !! k2 = Some c2 ->
    ApprovalConsumptionRow.grant_id c1 = ApprovalConsumptionRow.grant_id c2 ->
    ApprovalConsumptionRow.task_id c1 = ApprovalConsumptionRow.task_id c2 -> k1 = k2 }.

Lemma consumptions_elem db c :
  Accounted db -> c ∈ consumptions db <-> DB.approval_consumptions db !! ApprovalConsumptionRow.consumption_id c = Some c.
Proof.
  intros HA. unfold consumptions. rewrite list_elem_of_fmap. split.
  - intros ([k c'] & -> & Hin%elem_of_map_to_list). cbn. by destruct (accounted_consumptions _ HA _ _ Hin) as [<- _].
  - intros Hl. exists (ApprovalConsumptionRow.consumption_id c, c). by rewrite elem_of_map_to_list.
Qed.

Lemma consumed_insert id c db :
  DB.approval_consumptions db !! ApprovalConsumptionRow.consumption_id c = None ->
  consumed_of id (db <| DB.approval_consumptions :=
    <[ApprovalConsumptionRow.consumption_id c := c]> (DB.approval_consumptions db) |>) ≡ₚ
  (if ApprovalConsumptionRow.grant_id c ==? id then [c] else []) ++ consumed_of id db.
Proof.
  intros Hfresh. unfold consumed_of, consumptions. cbn [set_field DB.approval_consumptions].
  rewrite (filter_perm _ _ _ (fmap_Permutation snd _ _ (map_to_list_insert _ _ c Hfresh))). cbn.
  by case_match.
Qed.

(** ** What the operations write *)
Lemma find_grant_Some tenant id db row :
  find_grant tenant id db = Ok (Some row) ->
  DB.approval_grants db !! id = Some row /\ ApprovalRow.tenant_id row = tenant.
Proof.
  unfold find_grant. case_match; [done|]. destruct (DB.approval_grants db !! id) as [row'|]; [|done].
  case_bool_decide; [|done]. by intros [= <-].
Qed.

Lemma insert_consumption_Ok c db db' :
  insert_consumption c db = Ok db' ->
  db' = db <| DB.approval_consumptions := <[ApprovalConsumptionRow.consumption_id c := c]> (DB.approval_consumptions db) |> /\
  forall x, x ∈ consumptions db -> ApprovalConsumptionRow.consumption_id x <> ApprovalConsumptionRow.consumption_id c /\
    (ApprovalConsumptionRow.grant_id x = ApprovalConsumptionRow.grant_id c ->
     ApprovalConsumptionRow.task_id x <> ApprovalConsumptionRow.task_id c).
Proof.
  unfold insert_consumption. case_match; [done|]. case_match; [done|]. destruct (existsb _ _) eqn:E; [done|].
  intros [= <-]. split; [done|]. intros x Hx%list_elem_of_In.
  assert (Hf : forall P, existsb P (consumptions db) = false -> P x = false).
  { intros P HP. apply not_true_is_false. intros Ht. apply not_false_iff_true in HP; [done|].
    apply existsb_exists. by exists x. }
  apply Hf in E. rewrite orb_false_iff, andb_false_iff, !bool_decide_eq_false in E. naive_solver.
Qed.

Definition consumed (ts : Z) (r : ConsumeRequest.t) (row : ApprovalRow.t) (db : DB.t) : DB.t :=
  db <| DB.approval_grants := <[ConsumeRequest.GrantID r := use_row row]> (DB.approval_grants db) |>
     <| DB.approval_consumptions := <[ConsumeRequest.ConsumptionID r :=
          consumption_row ts r (ApprovalRow.version (use_row row))]> (DB.approval_consumptions db) |>.

Lemma Consume_cases ts pick r db out db' :
  PostgresRepository.Consume ts pick r db = (out, db') ->
  (exists e, out = Err e /\ db' = db) \/
  exists row, find_grant (ConsumeRequest.TenantID r) (ConsumeRequest.GrantID r) db = Ok (Some row) /\
    (existingConsumption pick r db = Ok true /\ out = Ok (scanGrant row) /\ db' = db \/
     existingConsumption pick r db = Ok false /\
     ApprovalRow.recipe_id row = ConsumeRequest.RecipeID r /\
     ApprovalRow.target_subset_hash row = ConsumeRequest.TargetSubsetHash r /\
     ts < ApprovalRow.expires_at row /\ ApprovalRow.used row < ApprovalRow.max_uses row /\
     (forall x, x ∈ consumptions db -> ApprovalConsumptionRow.consumption_id x <> ConsumeRequest.ConsumptionID r /\
        (ApprovalConsumptionRow.grant_id x = ConsumeRequest.GrantID r ->
         ApprovalConsumptionRow.task_id x <> ConsumeRequest.TaskID r)) /\
     out = Ok (scanGrant (use_row row)) /\ db' = consumed ts r row db).
Proof.
  unfold PostgresRepository.Consume. destruct (find_grant _ _ _) as [[row|]|] eqn:Hf; [|intros; simplify_eq; eauto..].
  destruct (existingConsumption _ _ _) as [[]|];
    [intros [<- <-]%pair_equal_spec; right; exists row; split; [done|by left]| |intros; simplify_eq; eauto].
  destruct (_ || _) eqn:Hb; [intros; simplify_eq; eauto|].
  rewrite orb_false_iff, !negb_false_iff, !bool_decide_eq_true in Hb. destruct Hb as [Hrec Htgt].
  unfold Before. destruct (Z.ltb_spec ts (ApprovalRow.expires_at row)); cbn [negb]; [|intros; simplify_eq; eauto].
  destruct (Z.leb_spec (ApprovalRow.max_uses row) (ApprovalRow.used row)); [intros; simplify_eq; eauto|].
  case_match; [intros; simplify_eq; eauto|].
  destruct (insert_consumption _ _) as [db1|] eqn:Hi; [|intros; simplify_eq; eauto].
  apply insert_consumption_Ok in Hi as [-> Hx]. intros [<- <-]%pair_equal_spec. right. exists row. split; [done|]. right.
  by split_and!.
Qed.

Lemma Create_cases ts r db out db' :
  PostgresRepository.Create ts r db = (out, db') ->
  db' = db \/
  DB.approval_grants db !! CreateRequest.GrantID r = None /\ 0 < CreateRequest.MaxUses r <= max_int32 /\
  db' = db <| DB.approval_grants := <[CreateRequest.GrantID r := new_grant ts r]> (DB.approval_grants db) |>.
Proof.
  unfold PostgresRepository.Create. case_match; [intros; simplify_eq; auto|]. case_match; [intros; simplify_eq; auto|].
  destruct (approval_row_error _) eqn:He; [intros; simplify_eq; auto|].
  destruct (DB.approval_grants db !! _) eqn:Hl; [intros; simplify_eq; auto|].
  case_match; [intros; simplify_eq; auto|]. intros [<- <-]%pair_equal_spec. right. split_and!; try done.
  all: unfold approval_row_error, ApprovalRow.in_range, ApprovalRow.check, in_int4, between in He; cbn in He;
    destruct (_ && _) eqn:E1; [|done]; destruct (_ && _) eqn:E2 in He; [|done].
  all: rewrite !andb_true_iff, ?Z.leb_le, ?Z.ltb_lt in *; lia.
Qed.

Lemma no_consumptions db id : Accounted db -> DB.approval_grants db !! id = None -> uses_of id db = 0.
Proof.
  intros HA Hl. unfold uses_of, consumed_of. destruct (List.filter _ _) as [|c l] eqn:E; [done|].
  assert (Hin : In c (List.filter (fun c => ApprovalConsumptionRow.grant_id c ==? id) (consumptions db)))
    by (rewrite E; by left).
  apply filter_In in Hin as [Hin%list_elem_of_In Hg%bool_decide_eq_true].
  apply (consumptions_elem _ _ HA) in Hin. destruct (accounted_consumptions _ HA _ _ Hin) as (_ & row & Hrow & _).
  rewrite Hg in Hrow. congruence.
Qed.

Lemma accounted_create ts r db out db' :
  Accounted db -> PostgresRepository.Create ts r db = (out, db') -> Accounted db'.
Proof.
  intros HA [->|(Hl & Hmax & ->)]%Create_cases; [done|]. split; cbn [set_field DB.approval_grants DB.approval_consumptions].
  - intros id row [[<- <-]|[Hne Hrow]]%lookup_insert_Some; [|exact (accounted_grants _ HA _ _ Hrow)].
    pose proof (no_consumptions _ _ HA Hl) as Hn. change (uses_of (CreateRequest.GrantID r) (db <| DB.approval_grants := _ |>))
      with (uses_of (CreateRequest.GrantID r) db). rewrite Hn. cbn. split_and!; (done || lia).
  - intros k c Hc. destruct (accounted_consumptions _ HA _ _ Hc) as (Hk & row & Hrow & Ht). split; [done|].
    exists row. split; [|done]. rewrite lookup_insert_ne; [done|]. congruence.
  - exact (accounted_tasks _ HA).
Qed.

Lemma use_row_exact db id row :
  Accounted db -> DB.approval_grants db !! id = Some row -> ApprovalRow.used row < ApprovalRow.max_uses row ->
  use_row row = row <| ApprovalRow.used := ApprovalRow.used row + 1 |> <| ApprovalRow.version := ApprovalRow.version row + 1 |>.
Proof.
  intros HA Hl Hlt. destruct (accounted_grants _ HA _ _ Hl) as (_ & Hu & Hv & Hm). unfold use_row, uses_of, max_int32 in *.
  rewrite !int64_small by (unfold max_int64; lia). done.
Qed.

Lemma accounted_consume ts pick r db out db' :
  Accounted db -> PostgresRepository.Consume ts pick r db = (out, db') -> Accounted db'.
Proof.
  intros HA [(e & _ & ->)|(row & Hf & [(_ & _ & ->)|(_ & _ & _ & _ & Hlt & Hnew & _ & ->)])]%Consume_cases; [done|done|].
  apply find_grant_Some in Hf as [Hl Ht].
  destruct (accounted_grants _ HA _ _ Hl) as (Hid & Hu & Hv & Hm).
  pose proof (use_row_exact _ _ _ HA Hl Hlt) as Huse. set (c := consumption_row ts r (ApprovalRow.version (use_row row))).
  assert (Hfresh : DB.approval_consumptions db !! ConsumeRequest.ConsumptionID r = None).
  { destruct (DB.approval_consumptions db !! _) as [x|] eqn:E; [|done]. exfalso.
    destruct (accounted_consumptions _ HA _ _ E) as [Hx _]. destruct (Hnew x) as [Hne _]; [|done].
    apply (consumptions_elem _ _ HA). by rewrite Hx. }
  assert (Huses : forall id, uses_of id (consumed ts r row db) =
    uses_of id db + if ConsumeRequest.GrantID r ==? id then 1 else 0).
  { intros id. unfold uses_of. pose proof (consumed_insert id c (db <| DB.approval_grants :=
      <[ConsumeRequest.GrantID r := use_row row]> (DB.approval_grants db) |>) Hfresh) as Hp.
    apply Permutation_length in Hp. rewrite length_app in Hp. cbn [ApprovalConsumptionRow.grant_id c consumption_row] in Hp.
    etransitivity; [exact (f_equal Z.of_nat Hp)|]. change (consumed_of id (db <| DB.approval_grants := _ |>))
      with (consumed_of id db). case_match; cbn; lia. }
  split; cbn [consumed set_field DB.approval_grants DB.approval_consumptions].
  - intros id row' [[<- <-]|[Hne Hrow]]%lookup_insert_Some; rewrite Huses.
    + rewrite bool_decide_eq_true_2, Huse by done. cbn. split_and!; (done || lia).
    + rewrite bool_decide_eq_false_2, Z.add_0_r by done. exact (accounted_grants _ HA _ _ Hrow).
  - intros k x [[<- <-]|[Hne Hx]]%lookup_insert_Some.
    + split; [done|]. exists (use_row row). split; [apply lookup_insert_eq|by rewrite Huse].
    + destruct (accounted_consumptions _ HA _ _ Hx) as (Hk & row' & Hrow' & Ht'). split; [done|].
      destruct (decide (ConsumeRequest.GrantID r = ApprovalConsumptionRow.grant_id x)) as [Heq|Hne'].
      * rewrite <- Heq in *. exists (use_row row). split; [apply lookup_insert_eq|]. rewrite Huse. cbn. congruence.
      * exists row'. by rewrite lookup_insert_ne.
  - assert (Hold : forall k x, DB.approval_consumptions db !! k = Some x -> x ∈ consumptions db).
    { intros k x Hx. apply (consumptions_elem _ _ HA). by destruct (accounted_consumptions _ HA _ _ Hx) as [-> _]. }
    intros k1 k2 c1 c2 [[<- <-]|[_ H1]]%lookup_insert_Some [[<- <-]|[_ H2]]%lookup_insert_Some Hg Htask; try done.
    + by destruct (Hnew c2 (Hold _ _ H2)) as [_ []].
    + by destruct (Hnew c1 (Hold _ _ H1)) as [_ []].
    + exact (accounted_tasks _ HA _ _ _ _ H1 H2 Hg Htask).
Qed.

(** ** Runs *)
Inductive aop :=
| ACreate (current_timestamp : Z) (request : CreateRequest.t)
| AConsume (current_timestamp : Z) (pick : list ApprovalConsumptionRow.t -> option ApprovalConsumptionRow.t)
    (request : ConsumeRequest.t)
| AOther (f : DB.t -> DB.t).

Definition astep (o : aop) (db : DB.t) : result (option Grant.t) * DB.t :=
  let some (r : result Grant.t * DB.t) := (match r.1 with Ok g => Ok (Some g) | Err e => Err e end, r.2) in
  match o with
  | ACreate ts r => some (CreateContext (H := postgres_approvals ts (fun _ => None)) r db)
  | AConsume ts pick r => some (ConsumeContext (H := postgres_approvals ts pick) r db)
  | AOther f => (Ok None, f db)
  end.
(** Other activity leaves the two tables alone. *)
Definition aop_ok (o : aop) : Prop :=
  match o with
  | AOther f => forall db, DB.approval_grants (f db) = DB.approval_grants db /\
                           DB.approval_consumptions (f db) = DB.approval_consumptions db
  | _ => True
  end.

Lemma accounted_same db db' :
  DB.approval_grants db' = DB.approval_grants db -> DB.approval_consumptions db' = DB.approval_consumptions db ->
  Accounted db -> Accounted db'.
Proof.
  intros Hg Hc HA. assert (Hu : forall id, uses_of id db' = uses_of id db)
    by (intros id; unfold uses_of, consumed_of, consumptions; by rewrite Hc).
  split; rewrite ?Hg, ?Hc; [|exact (accounted_consumptions _ HA)|exact (accounted_tasks _ HA)].
  intros id row Hl. rewrite Hu. exact (accounted_grants _ HA _ _ Hl).
Qed.

Lemma accounted_step o db : aop_ok o -> Accounted db -> Accounted (astep o db).2.
Proof.
  intros Hok HA. destruct o as [ts r|ts pick r|f]; cbn.
  - unfold CreateContext. destruct (validateCreate r); [done|].
    destruct (repo_Create r db) as [out db'] eqn:E. exact (accounted_create _ _ _ _ _ HA E).
  - unfold ConsumeContext. destruct (validateConsume r); [done|].
    destruct (repo_Consume r db) as [out db'] eqn:E. exact (accounted_consume _ _ _ _ _ _ HA E).
  - destruct (Hok db). by apply (accounted_same db).
Qed.

Lemma accounted_empty : Accounted DB.empty.
Proof. split; done. Qed.

Lemma accounted_run ops : Forall aop_ok ops -> Accounted (run astep ops DB.empty).2.
Proof. intros Hok. apply (run_invariant astep aop_ok Accounted); [intros; by apply accounted_step|done|apply accounted_empty]. Qed.

(** ** Consumptions that are already recorded *)

(** [LIMIT 1] returns one of the rows, if there is one. *)
Definition pick_ok (pick : list ApprovalConsumptionRow.t -> option ApprovalConsumptionRow.t) : Prop :=
  pick [] = None /\ forall c l, exists x, pick (c :: l) = Some x /\ x ∈ c :: l.
Definition stands_for (r : ConsumeRequest.t) (c : ApprovalConsumptionRow.t) : Prop :=
  ApprovalConsumptionRow.consumption_id c = ConsumeRequest.ConsumptionID r /\
  ApprovalConsumptionRow.grant_id c = ConsumeRequest.GrantID r /\
  ApprovalConsumptionRow.tenant_id c = ConsumeRequest.TenantID r /\
  ApprovalConsumptionRow.task_id c = ConsumeRequest.TaskID r.
Definition params_ok (r : ConsumeRequest.t) : Prop :=
  all_encodable [ConsumeRequest.TenantID r; ConsumeRequest.GrantID r] = true /\
  all_encodable [ConsumeRequest.ConsumptionID r; ConsumeRequest.GrantID r; ConsumeRequest.TaskID r] = true.

Lemma pick_elem pick l x : pick_ok pick -> pick l = Some x -> x ∈ l.
Proof.
  intros [Hnil Hcons] Hp. destruct l as [|c l]; [congruence|]. destruct (Hcons c l) as (y & Hy & Hin). congruence.
Qed.

Lemma earlier_elem r db c : c ∈ List.filter (earlier r) (consumptions db) <-> c ∈ consumptions db /\ earlier r c = true.
Proof. by rewrite !list_elem_of_In, filter_In. Qed.

Lemma existing_cases pick r db :
  pick_ok pick -> Accounted db -> all_encodable [ConsumeRequest.ConsumptionID r; ConsumeRequest.GrantID r; ConsumeRequest.TaskID r] = true ->
  match existingConsumption pick r db with
  | Ok true => exists c, DB.approval_consumptions db !! ConsumeRequest.ConsumptionID r = Some c /\ stands_for r c
  | Ok false => forall c, c ∈ consumptions db -> earlier r c = false
  | Err e => e = ErrBindingMismatch /\ exists c, c ∈ consumptions db /\ earlier r c = true /\ ~ stands_for r c
  end.
Proof.
  intros Hpick HA Henc. unfold existingConsumption. rewrite Henc. cbn [negb].
  destruct (pick _) as [c|] eqn:Hp.
  - pose proof (pick_elem _ _ _ Hpick Hp) as Hin. apply earlier_elem in Hin as [Hin He].
    destruct (_ || _) eqn:Hb.
    + split; [done|]. exists c. split_and!; try done. intros (H1 & H2 & H3 & H4).
      by rewrite H1, H2, H3, H4, !bool_decide_eq_true_2 in Hb.
    + rewrite !orb_false_iff, !negb_false_iff, !bool_decide_eq_true in Hb. destruct Hb as (((H1 & H2) & H3) & H4).
      exists c. split; [|by split_and!]. rewrite <- H1. by apply (consumptions_elem _ _ HA).
  - intros c Hc. destruct (earlier r c) eqn:He; [|done]. exfalso.
    destruct (List.filter (earlier r) (consumptions db)) as [|x l] eqn:E.
    + assert (Hin : c ∈ List.filter (earlier r) (consumptions db)) by (by apply earlier_elem). rewrite E in Hin. by apply elem_of_nil in Hin.
    + destruct Hpick as [_ Hcons]. destruct (Hcons x l) as (y & Hy & _). congruence.
Qed.

(** A recorded consumption is found, whichever row comes first. *)
Lemma recorded_found pick r db c :
  pick_ok pick -> Accounted db -> params_ok r ->
  DB.approval_consumptions db !! ConsumeRequest.ConsumptionID r = Some c -> stands_for r c ->
  existingConsumption pick r db = Ok true.
Proof.
  intros Hpick HA [_ Henc] Hc Hs. pose proof (existing_cases pick r db Hpick HA Henc) as Hcases.
  pose proof Hs as (H1 & H2 & H3 & H4).
  assert (Hin : c ∈ consumptions db) by (apply (consumptions_elem _ _ HA); by rewrite H1).
  destruct (existingConsumption pick r db) as [[]|e]; [done|..].
  - specialize (Hcases c Hin). unfold earlier in Hcases. by rewrite H1, bool_decide_eq_true_2 in Hcases.
  - destruct Hcases as (_ & x & Hx & He & Hn). exfalso. apply Hn. apply (consumptions_elem _ _ HA) in Hx.
    assert (x = c) as ->; [|done]. unfold earlier in He.
    rewrite orb_true_iff, andb_true_iff, !bool_decide_eq_true in He. destruct He as [He|[Hg Ht]].
    + rewrite He in Hx. congruence.
    + rewrite <- H1 in Hc. pose proof (accounted_tasks _ HA _ _ _ _ Hx Hc ltac:(congruence) ltac:(congruence)). congruence.
Qed.

(** What a successful call leaves behind. *)
Lemma Consume_recorded ts pick r db g db' :
  pick_ok pick -> Accounted db -> PostgresRepository.Consume ts pick r db = (Ok g, db') ->
  params_ok r /\ (exists c, DB.approval_consumptions db' !! ConsumeRequest.ConsumptionID r = Some c /\ stands_for r c) /\
  exists row, DB.approval_grants db' !! ConsumeRequest.GrantID r = Some row /\ ApprovalRow.tenant_id row = ConsumeRequest.TenantID r.
Proof.
  intros Hpick HA [(e & [=] & _)|(row & Hf & Hcases)]%Consume_cases.
  assert (Hp1 : all_encodable [ConsumeRequest.TenantID r; ConsumeRequest.GrantID r] = true)
    by (unfold find_grant in Hf; destruct (all_encodable _); done).
  apply find_grant_Some in Hf as [Hl Ht].
  assert (Hp2 : all_encodable [ConsumeRequest.ConsumptionID r; ConsumeRequest.GrantID r; ConsumeRequest.TaskID r] = true)
    by (unfold existingConsumption in Hcases; destruct (all_encodable _); naive_solver).
  split; [done|]. pose proof (existing_cases pick r db Hpick HA Hp2) as He.
  destruct Hcases as [(Hex & _ & ->)|(Hex & _ & _ & _ & _ & _ & _ & ->)]; rewrite Hex in He.
  - split; [done|by exists row].
  - cbn. rewrite !lookup_insert_eq. split; [by eexists|]. by eexists.
Qed.

(** Consumptions and grants stay where they are. *)
Lemma consumption_kept o db k c :
  aop_ok o -> Accounted db -> DB.approval_consumptions db !! k = Some c -> DB.approval_consumptions (astep o db).2 !! k = Some c.
Proof.
  intros Hok HA Hc. destruct o as [ts r|ts pick r|f]; cbn.
  - unfold CreateContext. destruct (validateCreate r); [done|]. destruct (repo_Create r db) as [out db'] eqn:E.
    by apply Create_cases in E as [->|(_ & _ & ->)].
  - unfold ConsumeContext. destruct (validateConsume r); [done|]. destruct (repo_Consume r db) as [out db'] eqn:E.
    apply Consume_cases in E as [(e & _ & ->)|(row & _ & [(_ & _ & ->)|(_ & _ & _ & _ & _ & Hnew & _ & ->)])]; [done|done|].
    cbn. rewrite lookup_insert_ne; [done|]. intros Heq. destruct (accounted_consumptions _ HA _ _ Hc) as [Hk _].
    destruct (Hnew c) as [Hne _]; [apply (consumptions_elem _ _ HA); by rewrite Hk|congruence].
  - destruct (Hok db) as [_ ->]. done.
Qed.

Lemma run_keeps ops : forall db k c,
  Forall aop_ok ops -> Accounted db -> DB.approval_consumptions db !! k = Some c ->
  DB.approval_consumptions (run astep ops db).2 !! k = Some c.
Proof.
  intros db k c Hok HA Hc. cut (Accounted (run astep ops db).2 /\ DB.approval_consumptions (run astep ops db).2 !! k = Some c);
    [by intros []|].
  apply (run_invariant astep aop_ok (fun db => Accounted db /\ DB.approval_consumptions db !! k = Some c)); [|done|done].
  intros o db0 Ho [HA0 Hc0]. split; [by apply accounted_step|by apply consumption_kept].
Qed.

(** ** The two repositories side by side *)
Definition abs (db : DB.t) : MemoryRepository.t :=
  MemoryRepository.mk (scanGrant <$> DB.approval_grants db) (ApprovalConsumptionRow.grant_id <$> DB.approval_consumptions db).
(** The caller names a task by one consumption identifier. *)
Definition one_name_per_task (r : ConsumeRequest.t) (db : DB.t) : Prop :=
  forall c, c ∈ consumptions db -> ApprovalConsumptionRow.grant_id c = ConsumeRequest.GrantID r ->
    (ApprovalConsumptionRow.consumption_id c = ConsumeRequest.ConsumptionID r <->
     ApprovalConsumptionRow.task_id c = ConsumeRequest.TaskID r).
Definition storable (r : ConsumeRequest.t) : Prop :=
  params_ok r /\ all_encodable [ConsumeRequest.ConsumptionID r; ConsumeRequest.GrantID r; ConsumeRequest.TenantID r;
    ConsumeRequest.TaskID r; ConsumeRequest.ActorID r] = true.

Lemma memory_Get db tenant id :
  MemoryRepository.Get tenant id (abs db) =
  match DB.approval_grants db !! id with
  | Some row => if ApprovalRow.tenant_id row !=? tenant then Err ErrNotFound else Ok (scanGrant row)
  | None => Err ErrNotFound
  end.
Proof. unfold MemoryRepository.Get, abs. cbn. rewrite lookup_fmap. by destruct (_ !! id). Qed.

Lemma use_accepted db id row :
  Accounted db -> DB.approval_grants db !! id = Some row -> ApprovalRow.used row < ApprovalRow.max_uses row ->
  approval_row_error (use_row row) = None /\ 1 < ApprovalRow.version (use_row row).
Proof.
  intros HA Hl Hlt. rewrite (use_row_exact _ _ _ HA Hl Hlt).
  destruct (accounted_grants _ HA _ _ Hl) as (_ & Hu & Hv & Hm). assert (Hpos : 0 <= ApprovalRow.used row) by (rewrite Hu; unfold uses_of; lia).
  unfold approval_row_error, ApprovalRow.in_range, ApprovalRow.check, in_int4, in_int8, between. cbn.
  unfold max_int32, max_int64 in *.
  repeat first [rewrite (proj2 (Z.leb_le _ _)) by lia | rewrite (proj2 (Z.ltb_lt _ _)) by lia]. cbn. split; [done|lia].
Qed.

Lemma insert_accepted ts r row db :
  Accounted db -> storable r -> (forall c, c ∈ consumptions db -> earlier r c = false) ->
  1 < ApprovalRow.version (use_row row) ->
  insert_consumption (consumption_row ts r (ApprovalRow.version (use_row row)))
    (db <| DB.approval_grants := <[ConsumeRequest.GrantID r := use_row row]> (DB.approval_grants db) |>) =
  Ok (consumed ts r row db).
Proof.
  intros HA [_ Henc] Hnew Hv. unfold insert_consumption, consumption_row, ApprovalConsumptionRow.check.
  cbn [ApprovalConsumptionRow.consumption_id ApprovalConsumptionRow.grant_id ApprovalConsumptionRow.tenant_id
    ApprovalConsumptionRow.task_id ApprovalConsumptionRow.actor_id ApprovalConsumptionRow.grant_version].
  rewrite Henc, (proj2 (Z.ltb_lt _ _) Hv). cbn [negb].
  replace (existsb _ _) with false; [done|]. symmetry. apply not_true_is_false. intros (c & Hc & He)%existsb_exists.
  specialize (Hnew c). rewrite list_elem_of_In in Hnew. unfold earlier in Hnew. rewrite (Hnew Hc) in He. done.
Qed.

(** A row that stands in the way belongs to another grant. *)
Lemma mismatch_named r db c :
  Accounted db -> one_name_per_task r db -> c ∈ consumptions db -> earlier r c = true -> ~ stands_for r c ->
  (exists row, DB.approval_grants db !! ConsumeRequest.GrantID r = Some row /\ ApprovalRow.tenant_id row = ConsumeRequest.TenantID r) ->
  DB.approval_consumptions db !! ConsumeRequest.ConsumptionID r = Some c /\
  ApprovalConsumptionRow.grant_id c <> ConsumeRequest.GrantID r.
Proof.
  intros HA Hname Hc He Hn (row & Hl & Ht). unfold earlier in He.
  rewrite orb_true_iff, andb_true_iff, !bool_decide_eq_true in He. pose proof (proj1 (consumptions_elem _ _ HA) Hc) as Hk.
  assert (Hg : ApprovalConsumptionRow.grant_id c <> ConsumeRequest.GrantID r).
  { intros Hg. apply Hn. destruct (accounted_consumptions _ HA _ _ Hk) as (_ & row' & Hl' & Ht').
    assert (Htc : ApprovalConsumptionRow.tenant_id c = ConsumeRequest.TenantID r) by (rewrite Hg in Hl'; congruence).
    specialize (Hname c Hc Hg). unfold stands_for. naive_solver. }
  destruct He as [He|[He _]]; [|done]. by rewrite <- He.
Qed.

Lemma consume_agrees ts pick r db :
  Accounted db -> pick_ok pick -> ConsumeRequest.Now r = ts -> storable r -> one_name_per_task r db ->
  MemoryRepository.Consume r (abs db) =
  ((PostgresRepository.Consume ts pick r db).1, abs (PostgresRepository.Consume ts pick r db).2).
Proof.
  intros HA Hpick Hnow Hst Hname. pose proof Hst as [[Hp1 Hp2] _].
  unfold MemoryRepository.Consume, PostgresRepository.Consume, find_grant. rewrite memory_Get, Hp1. cbn [negb].
  destruct (DB.approval_grants db !! ConsumeRequest.GrantID r) as [row|] eqn:Hl; [|done].
  case_bool_decide as Ht; cbn [negb]; [|done].
  destruct (accounted_grants _ HA _ _ Hl) as (Hid & _).
  change (MemoryRepository.uses (abs db)) with (ApprovalConsumptionRow.grant_id <$> DB.approval_consumptions db).
  rewrite lookup_fmap. pose proof (existing_cases pick r db Hpick HA Hp2) as Hex.
  destruct (existingConsumption pick r db) as [[]|e].
  - destruct Hex as (c & -> & _ & Hg & _). cbn. by rewrite Hg, bool_decide_eq_true_2.
  - destruct (DB.approval_consumptions db !! ConsumeRequest.ConsumptionID r) as [c|] eqn:Hc.
    { destruct (accounted_consumptions _ HA _ _ Hc) as [Hk _].
      assert (Hin : c ∈ consumptions db) by (apply (consumptions_elem _ _ HA); by rewrite Hk).
      specialize (Hex c Hin). unfold earlier in Hex. by rewrite Hk, bool_decide_eq_true_2 in Hex. }
    cbn [fmap option_fmap option_map scanGrant Grant.RecipeID Grant.TargetSubsetHash Grant.ExpiresAt Grant.MaxUses Grant.Used Grant.GrantID].
    rewrite Hnow. destruct (_ || _); [done|]. destruct (negb _); [done|].
    destruct (Z.leb_spec (ApprovalRow.max_uses row) (ApprovalRow.used row)) as [|Hlt]; [done|].
    destruct (use_accepted _ _ _ HA Hl Hlt) as [-> Hv]. rewrite (insert_accepted ts r row db HA Hst Hex Hv).
    unfold consumed, abs. cbn. rewrite !fmap_insert, Hid. done.
  - destruct Hex as (-> & c & Hc & He & Hn).
    destruct (mismatch_named r db c HA Hname Hc He Hn) as [Hk Hg]; [by rewrite Hl; eexists|].
    rewrite Hk. cbn. by rewrite bool_decide_eq_false_2.
Qed.

Lemma consumptions_NoDup db : Accounted db -> NoDup (consumptions db).
Proof.
  intros HA. apply NoDup_fmap_2_strong; [|apply NoDup_map_to_list].
  intros [k1 c1] [k2 c2] H1%elem_of_map_to_list H2%elem_of_map_to_list Heq. cbn in Heq. subst c2.
  destruct (accounted_consumptions _ HA _ _ H1) as [<- _], (accounted_consumptions _ HA _ _ H2) as [<- _]. done.
Qed.

(** ** Properties *)

(** C31.  An approval is never used more often than it allows.  After any run of
    creations, consumptions and other activity, every stored approval's counter
    lies between zero and its maximum and is exactly the number of recorded
    consumptions of it, its version is one more, and those consumptions are for
    distinct tasks of the approval's tenant. *)
Theorem approval_uses_bounded (ops : list aop) (id : string) (row : ApprovalRow.t) :
  let db := (run astep ops DB.empty).2 in
  Forall aop_ok ops -> DB.approval_grants db !! id = Some row ->
  0 <= ApprovalRow.used row <= ApprovalRow.max_uses row /\ ApprovalRow.used row = uses_of id db /\
  ApprovalRow.version row = ApprovalRow.used row + 1 /\
  NoDup (map ApprovalConsumptionRow.task_id (consumed_of id db)) /\
  Forall (fun c => ApprovalConsumptionRow.tenant_id c = ApprovalRow.tenant_id row) (consumed_of id db).
Proof.
  intros db Hok Hl. pose proof (accounted_run ops Hok) as HA. fold db in HA.
  destruct (accounted_grants _ HA _ _ Hl) as (_ & Hu & Hv & Hm).
  assert (Hof : forall c, c ∈ consumed_of id db -> c ∈ consumptions db /\ ApprovalConsumptionRow.grant_id c = id).
  { intros c Hc%list_elem_of_In. apply filter_In in Hc as [Hc%list_elem_of_In Hg%bool_decide_eq_true]. done. }
  split_and!; try done; [rewrite Hu; unfold uses_of; lia|lia|..].
  - apply NoDup_fmap_2_strong; [|by apply NoDup_ListNoDup, NoDup_filter, NoDup_ListNoDup, consumptions_NoDup].
    intros c1 c2 [H1 G1]%Hof [H2 G2]%Hof Ht. apply (consumptions_elem _ _ HA) in H1, H2.
    pose proof (accounted_tasks _ HA _ _ _ _ H1 H2 ltac:(congruence) Ht). congruence.
  - apply list.Forall_forall. intros c [Hc Hg]%Hof. apply (consumptions_elem _ _ HA) in Hc.
    destruct (accounted_consumptions _ HA _ _ Hc) as (_ & row' & Hl' & <-). rewrite Hg in Hl'. congruence.
Qed.

(** A consumption can be repeated.  Once a request has been granted, the
    same request is granted again at any later time, whatever happened in
    between, even when the approval has expired or is exhausted: it returns the
    approval as it now is and consumes nothing. *)
Theorem consume_repeatable (ops later : list aop) (ts ts' : Z)
    (pick pick' : list ApprovalConsumptionRow.t -> option ApprovalConsumptionRow.t) (r : ConsumeRequest.t) (g : Grant.t) (db1 : DB.t) :
  Forall aop_ok ops -> Forall aop_ok later -> pick_ok pick -> pick_ok pick' ->
  ConsumeContext (H := postgres_approvals ts pick) r (run astep ops DB.empty).2 = (Ok g, db1) ->
  let db2 := (run astep later db1).2 in
  exists row, DB.approval_grants db2 !! ConsumeRequest.GrantID r = Some row /\
    ConsumeContext (H := postgres_approvals ts' pick') r db2 = (Ok (scanGrant row), db2).
Proof.
  intros Hops Hlater Hp Hp' Hc db2. pose proof (accounted_run ops Hops) as HA. unfold ConsumeContext in *.
  destruct (validateConsume r); [done|]. cbn [repo_Consume postgres_approvals] in *.
  pose proof (accounted_consume _ _ _ _ _ _ HA Hc) as HA1.
  destruct (Consume_recorded _ _ _ _ _ _ Hp HA Hc) as (Hpar & (c & Hrec & Hst) & _).
  assert (HA2 : Accounted db2) by (apply (run_invariant astep aop_ok Accounted); [intros; by apply accounted_step|done|done]).
  pose proof (run_keeps later db1 _ _ Hlater HA1 Hrec) as Hrec2. fold db2 in Hrec2.
  destruct (accounted_consumptions _ HA2 _ _ Hrec2) as (_ & row & Hl & Ht). pose proof Hst as (_ & Hg & Htn & _).
  rewrite Hg in Hl. exists row. split; [done|]. unfold PostgresRepository.Consume, find_grant.
  destruct Hpar as [Hp1 Hp2]. rewrite Hp1, Hl. cbn [negb].
  rewrite bool_decide_eq_true_2 by congruence. by rewrite (recorded_found pick' r db2 c Hp' HA2 (conj Hp1 Hp2) Hrec2 Hst).
Qed.

(** C33.  The two repositories decide alike, each by its own clock.  On the same
    approvals and consumptions, for a storable request of a caller that names
    each task by one consumption identifier, the PostgreSQL repository gives the
    answer of the in-memory one to the same request stamped with the database
    clock, and ends with the same approvals and consumptions.  The time the
    caller stamped does not matter to PostgreSQL; the in-memory repository has no
    other clock. *)
Theorem repositories_agree (ops : list aop) (ts : Z)
    (pick : list ApprovalConsumptionRow.t -> option ApprovalConsumptionRow.t) (r : ConsumeRequest.t) :
  let db := (run astep ops DB.empty).2 in
  Forall aop_ok ops -> pick_ok pick -> ConsumeRequest.Now r <> 0 -> ts <> 0 -> storable r -> one_name_per_task r db ->
  ConsumeContext (H := memory_approvals ts) (r <| ConsumeRequest.Now := ts |>) (abs db) =
  ((ConsumeContext (H := postgres_approvals ts pick) r db).1, abs (ConsumeContext (H := postgres_approvals ts pick) r db).2).
Proof.
  intros db Hok Hp Hnow Hts Hst Hname. unfold ConsumeContext.
  assert (Hv : validateConsume (r <| ConsumeRequest.Now := ts |>) = validateConsume r).
  { unfold validateConsume, IsZero. cbn. by rewrite (proj2 (Z.eqb_neq _ _) Hnow), (proj2 (Z.eqb_neq _ _) Hts). }
  rewrite Hv. destruct (validateConsume r); [done|].
  exact (consume_agrees ts pick (r <| ConsumeRequest.Now := ts |>) db (accounted_run ops Hok) Hp eq_refl Hst Hname).
Qed.

(** ** Witnesses *)
Definition approval_demo_create : CreateRequest.t :=
  CreateRequest.mk "grant-1" "tenant" "recipe" "targets" 2 9000000 "operator" "decision-1".
Definition approval_demo_consume (consumption task : string) (now : Z) : ConsumeRequest.t :=
  ConsumeRequest.mk consumption "grant-1" "tenant" "recipe" "targets" task "actor" now.
(** The policy decision that the approval refers to. *)
Definition record_decision (db : DB.t) : DB.t :=
  let row := PolicyDecisionRow.mk "decision-1" "tenant-a" "actor" "candidate" "scope" "recipe" "core" "" "bundle" 1 "" true true
               "null" "{}" 500 in
  db <| DB.policy_decisions := <["decision-1" := row]> (DB.policy_decisions db) |>.
Definition approval_demo_ops : list aop :=
  [ AOther record_decision; ACreate 1000 approval_demo_create;
    AConsume 2000 head (approval_demo_consume "use-1" "task-1" 2000) ].

Lemma approval_demo_ok : Forall aop_ok approval_demo_ops.
Proof. by repeat constructor. Qed.
Lemma head_pick : pick_ok head.
Proof. split; [done|]. intros c l. exists c. split; [done|]. by left. Qed.

Lemma approval_uses_bounded_witness :
  exists row, DB.approval_grants (run astep approval_demo_ops DB.empty).2 !! "grant-1" = Some row /\
    0 <= ApprovalRow.used row <= ApprovalRow.max_uses row.
Proof.
  eexists. split; [by vm_compute|].
  apply (approval_uses_bounded approval_demo_ops "grant-1" _ approval_demo_ok). by vm_compute.
Defined.

Definition approval_demo_used : DB.t :=
  (ConsumeContext (H := postgres_approvals 3000 head) (approval_demo_consume "use-2" "task-2" 3000)
    (run astep approval_demo_ops DB.empty).2).2.
Definition approval_demo_grant : Grant.t :=
  Grant.mk "grant-1" "tenant" "recipe" "targets" 2 2 9000000 "operator" "decision-1" 3 1000.

(** Granted again after the approval is exhausted and has expired. *)
Lemma consume_repeatable_witness :
  exists row, DB.approval_grants (run astep [AOther (fun db => db)] approval_demo_used).2 !! "grant-1" = Some row /\
    ConsumeContext (H := postgres_approvals 10000000 head) (approval_demo_consume "use-2" "task-2" 3000)
      (run astep [AOther (fun db => db)] approval_demo_used).2 =
    (Ok (scanGrant row), (run astep [AOther (fun db => db)] approval_demo_used).2).
Proof.
  apply (consume_repeatable approval_demo_ops [AOther (fun db => db)] 3000 10000000 head head
    (approval_demo_consume "use-2" "task-2" 3000) approval_demo_grant approval_demo_used approval_demo_ok);
    [by repeat constructor|apply head_pick|apply head_pick|by vm_compute].
Defined.

Lemma approval_demo_names : one_name_per_task (approval_demo_consume "use-2" "task-2" 3000) (run astep approval_demo_ops DB.empty).2.
Proof.
  intros c Hc _. assert (Hl : consumptions (run astep approval_demo_ops DB.empty).2 =
    [ApprovalConsumptionRow.mk "use-1" "grant-1" "tenant" "task-1" "actor" 2000 2]) by (by vm_compute).
  rewrite Hl in Hc. apply list_elem_of_singleton in Hc as ->. split; discriminate.
Qed.

(** The caller's clock is far ahead of the database's. *)
Lemma repositories_agree_witness :
  ConsumeContext (H := memory_approvals 3000) (approval_demo_consume "use-2" "task-2" 3000)
    (abs (run astep approval_demo_ops DB.empty).2) =
  ((ConsumeContext (H := postgres_approvals 3000 head) (approval_demo_consume "use-2" "task-2" 9500000)
      (run astep approval_demo_ops DB.empty).2).1, abs approval_demo_used).
Proof.
  apply (repositories_agree approval_demo_ops 3000 head (approval_demo_consume "use-2" "task-2" 9500000) approval_demo_ok head_pick);
    [done|done|by repeat split|exact approval_demo_names].
Defined.

(** ** Where they differ

    A second use for the same task under another identifier is granted by the
    in-memory repository and refused by PostgreSQL. *)
Example second_use_for_task :
  let again := approval_demo_consume "use-2" "task-1" 3000 in let db := (run astep approval_demo_ops DB.empty).2 in
  is_ok (ConsumeContext (H := memory_approvals 3000) again (abs db)).1 = true /\
  (ConsumeContext (H := postgres_approvals 3000 head) again db).1 = Err ErrBindingMismatch.
Proof. split; by vm_compute. Qed.

(** The same request: the in-memory repository finds the approval expired by the
    caller's clock, PostgreSQL grants it by its own. *)
Example clocks_differ :
  let request := approval_demo_consume "use-2" "task-2" 9500000 in
  let db := (run astep approval_demo_ops DB.empty).2 in
  (ConsumeContext (H := memory_approvals 3000) request (abs db)).1 = Err ErrExpired /\
  is_ok (ConsumeContext (H := postgres_approvals 3000 head) request db).1 = true.
Proof. by vm_compute. Qed.
