(* ===== verification/Worker.v ===== *)
(** * The collector worker

    [internal/collector/worker.go], with the transport contract and the stub
    adapter of [internal/transport/transport.go] and the tenant check of
    [internal/collectorruntime/runtime.go]: one bounded attempt of a task.  The
    worker leases the task, asks for a fresh decision, obtains and exchanges a
    single-use grant, runs the operation on the device, stores what was captured
    and commits, or hands the task back.

    The task repository is a class with the laws the worker relies on; the
    in-memory store and the PostgreSQL repository are its instances.  The other
    collaborators are arbitrary.  Every call may change the state in any way, so
    the theorems hold whatever other clients do between two calls. *)
From S2P Require Import Prelude GoStrings GoEncoding Keys Authctx Task Schema TaskPostgres Grants.
Local Open Scope Z_scope.

(** ** The transport contract *)
Module TargetConnection.
Record t := mk {
  TargetID : string; Endpoint : string; CredentialToken : string; CredentialExpiry : Z; CredentialClass : string }.
End TargetConnection.

Module BoundedOperation.
Record t := mk { RecipeID : string; RecipeVersion : string; MaximumDuration : Z; MaximumBytes : Z }.
End BoundedOperation.

Module CapturedBytes.
Record t := mk { TargetID : string; Payload : string; Digest : list Z; MediaType : string; CapturedAt : Z }.
End CapturedBytes.

(** The deterministic adapter.  [cancelled] is the error of a context that is
    already done; a nil payload or an empty media type gets a default. *)
Module StubAdapter.
Record t := mk { Payload : option string; MediaType : string }.
Definition Execute (a : t) (executedAt : Z) (cancelled : option error) (target : TargetConnection.t)
    (operation : BoundedOperation.t) : result CapturedBytes.t :=
  if TargetConnection.TargetID target ==? "" then Err (Text "target id is required")
  else if (TargetConnection.CredentialToken target ==? "") || IsZero (TargetConnection.CredentialExpiry target) then
    Err (Text "bounded target credential is required")
  else if negb (Before executedAt (TargetConnection.CredentialExpiry target)) then
    Err (Text "bounded target credential has expired")
  else if BoundedOperation.RecipeID operation ==? "" then Err (Text "recipe id is required")
  else if (BoundedOperation.MaximumDuration operation <=? 0) || (BoundedOperation.MaximumBytes operation <=? 0) then
    Err (Text "positive duration and response byte limits are required")
  else match cancelled with
  | Some e => Err e
  | None =>
    let payload := match Payload a with Some p => p | None => "ok" end in
    if BoundedOperation.MaximumBytes operation <? len payload then
      Err (Text ("transport response exceeds " +:+ itoa (BoundedOperation.MaximumBytes operation) +:+ " byte limit"))
    else
      let mediaType := if MediaType a ==? "" then "application/octet-stream" else MediaType a in
      Ok (CapturedBytes.mk (TargetConnection.TargetID target) payload (Sum256 (bytes payload)) mediaType executedAt)
  end.
End StubAdapter.

(** ** The worker's collaborators *)
Module ExecutionRequest.
Record t := mk {
  CollectorID : string; Task_ : Task.t; FencingToken : Z; MaximumDuration : Z; MaximumBytes : Z; EvaluatedAt : Z }.
End ExecutionRequest.

Module ExecutionAuthorization.
Record t := mk { DecisionID : string; MaximumDuration : Z; MaximumBytes : Z }.
End ExecutionAuthorization.

(** [TaskRepository]; every method may observe and change the whole state. *)
Class TaskRepository (St : Type) := {
  AcquireContext : string -> string -> Z -> Z -> St -> result Lease.t * St;
  StartExecutionContext : string -> string -> Z -> Z -> St -> result unit * St;
  RecordExecutionAuthorityContext : string -> string -> Z -> string -> string -> Z -> St -> result unit * St;
  BeginCommitContext : string -> string -> Z -> Z -> St -> result unit * St;
  CommitContext : string -> string -> Z -> string -> string -> Z -> St -> result unit * St;
  RetryContext : string -> string -> Z -> Z -> option error -> St -> result unit * St;
  GetContext : string -> St -> result Task.t * St }.

(** The clock, the random source and the interfaces [ExecutionAuthorizer],
    [GrantIssuer], [CredentialExchanger], [transport.Adapter] (which also gets
    the timeout of its context) and [CapturedSink]. *)
Class Environment (St : Type) := {
  Now : St -> Z * St;
  rand_Read : nat -> St -> result (list Z) * St;
  AuthorizeExecution : ExecutionRequest.t -> St -> result ExecutionAuthorization.t * St;
  IssueContext : ExecutionGrant.t -> St -> result ExecutionGrant.t * St;
  ExchangeContext : ExecutionGrant.t -> ExchangeRequest.t -> St -> result SessionCredential.t * St;
  Execute : Z -> TargetConnection.t -> BoundedOperation.t -> St -> result CapturedBytes.t * St;
  WriteCaptured : Task.t -> Lease.t -> CapturedBytes.t -> St -> result (string * string) * St }.

(** ** Attempts

    A computation yields the calls it made with their answers, its result and
    the state it leaves.  Clock readings are not recorded. *)
Inductive Call : Type :=
| TaskCall (op : Op) (r : result Reply)
| Got (taskID : string) (r : result Task.t)
| Randomness (r : result (list Z))
| Authorized (request : ExecutionRequest.t) (r : result ExecutionAuthorization.t)
| Issued (template : ExecutionGrant.t) (r : result ExecutionGrant.t)
| Exchanged (grant : ExecutionGrant.t) (request : ExchangeRequest.t) (r : result SessionCredential.t)
| Executed (timeout : Z) (connection : TargetConnection.t) (operation : BoundedOperation.t) (r : result CapturedBytes.t)
| Wrote (task : Task.t) (lease : Lease.t) (captured : CapturedBytes.t) (r : result (string * string)).

Definition M (St A : Type) : Type := St -> list Call * A * St.
Definition ret {St A} (a : A) : M St A := fun st => ([], a, st).
Definition bind {St A B} (m : M St A) (k : A -> M St B) : M St B := fun st =>
  let '(calls, a, st') := m st in
  let '(calls', b, st'') := k a st' in (calls ++ calls', b, st'').
Definition silent {St A} (f : St -> A * St) : M St A := fun st => let '(a, st') := f st in ([], a, st').
Definition call {St A} (f : St -> A * St) (record : A -> Call) : M St A :=
  fun st => let '(a, st') := f st in ([record a], a, st').

Declare Scope attempt_scope.
Delimit Scope attempt_scope with attempt.
Bind Scope attempt_scope with M.
Notation "'let*' x := m 'in' k" := (bind m (fun x => k))
  (at level 200, x name, m at level 100, k at level 200, right associativity) : attempt_scope.
(** [let? x := m catch e => h in k]: the check of the error a call returned. *)
Notation "'let?' x := m 'catch' e => h 'in' k" :=
  (bind m (fun r => match r with Ok x => k | Err e => h end))
  (at level 200, x name, e name, m at level 100, h at level 200, k at level 200, right associativity) : attempt_scope.

Module Worker.
Record t := mk { ID : string; LeaseDuration : Z; GrantTTL : Z; MaximumDuration : Z; MaximumBytes : Z }.
End Worker.

Definition answer {A} (f : A -> Reply) (r : result A) : result Reply :=
  match r with Ok a => Ok (f a) | Err e => Err e end.
Definition no_lease (_ : unit) : Reply := None.

Section Attempt.
Local Open Scope attempt_scope.
Context {St : Type} `{TaskRepository St} `{Environment St}.

Definition now : M St Z := silent Now.
Definition acquire (id owner : string) (at_ d : Z) : M St (result Lease.t) :=
  call (AcquireContext id owner at_ d) (fun r => TaskCall (OpAcquire id owner at_ d) (answer Some r)).
Definition start (id owner : string) (token at_ : Z) : M St (result unit) :=
  call (StartExecutionContext id owner token at_) (fun r => TaskCall (OpStart id owner token at_) (answer no_lease r)).
Definition record_authority (id owner : string) (token : Z) (decision grant : string) (at_ : Z) : M St (result unit) :=
  call (RecordExecutionAuthorityContext id owner token decision grant at_)
    (fun r => TaskCall (OpAuthority id owner token decision grant at_) (answer no_lease r)).
Definition begin_commit (id owner : string) (token at_ : Z) : M St (result unit) :=
  call (BeginCommitContext id owner token at_) (fun r => TaskCall (OpBegin id owner token at_) (answer no_lease r)).
Definition commit (id owner : string) (token : Z) (attempt evidence : string) (at_ : Z) : M St (result unit) :=
  call (CommitContext id owner token attempt evidence at_)
    (fun r => TaskCall (OpCommit id owner token attempt evidence at_) (answer no_lease r)).
Definition retry (id owner : string) (token at_ : Z) (cause : error) : M St (result unit) :=
  call (RetryContext id owner token at_ (Some cause))
    (fun r => TaskCall (OpRetry id owner token at_ (Some cause)) (answer no_lease r)).
Definition get (id : string) : M St (result Task.t) := call (GetContext id) (Got id).

Definition randomID (prefix : string) : M St (result string) :=
  let? b := call (rand_Read 16) Randomness
    catch e => ret (Err (Wrapf ("generate " +:+ prefix +:+ " id: ") e "")) in
  ret (Ok (prefix +:+ "-" +:+ hex_EncodeToString b)).

Definition failAttempt (w : Worker.t) (taskID : string) (lease : Lease.t) (cause : error) : M St (result unit) :=
  let* failedAt := now in
  let? _ := retry taskID (Worker.ID w) (Lease.FencingToken lease) failedAt cause
    catch retryErr =>
      ret (Err (Join cause (Wrapf ("return task " +:+ quote taskID +:+ " to retry wait: ") retryErr ""))) in
  ret (Err cause).

(** The grant asked for, and the window it gets: the grant's time to live, cut
    at the end of the lease. *)
Definition grant_template (w : Worker.t) (task : Task.t) (lease : Lease.t) (authorization : ExecutionAuthorization.t)
    (grantID nonce : string) (issuedAt expiresAt : Z) : ExecutionGrant.t :=
  ExecutionGrant.mk grantID nonce (Task.TenantID task) (Worker.ID w) (Task.ResolutionID task) (Task.ID task)
    (Task.TargetSnapshotID task) (Task.TargetSnapshotHash task) (Task.TargetID task) (Task.RecipeID task)
    (Task.RecipeVersion task) "" (Lease.FencingToken lease) (Task.TriggerDecisionID task)
    (Task.PlanningDecisionID task) (ExecutionAuthorization.DecisionID authorization) (Task.ApprovalGrantID task) ""
    issuedAt expiresAt (ExecutionAuthorization.MaximumDuration authorization)
    (ExecutionAuthorization.MaximumBytes authorization) "network-read" true "" "" "" None.
Definition grant_expiry (w : Worker.t) (lease : Lease.t) (issuedAt : Z) : Z :=
  let expiresAt := issuedAt + Worker.GrantTTL w in
  if Before (Lease.ExpiresAt lease) expiresAt then Lease.ExpiresAt lease else expiresAt.

Definition expanded (w : Worker.t) (a : ExecutionAuthorization.t) : bool :=
  (ExecutionAuthorization.DecisionID a ==? "") || (ExecutionAuthorization.MaximumDuration a <=? 0) ||
  (ExecutionAuthorization.MaximumBytes a <=? 0) ||
  (Worker.MaximumDuration w <? ExecutionAuthorization.MaximumDuration a) ||
  (Worker.MaximumBytes w <? ExecutionAuthorization.MaximumBytes a).
Definition mismatched (credential : SessionCredential.t) (grant : ExecutionGrant.t) (task : Task.t) (lease : Lease.t) : bool :=
  (SessionCredential.Token credential ==? "") ||
  (SessionCredential.GrantID credential !=? ExecutionGrant.GrantID grant) ||
  (SessionCredential.TargetID credential !=? Task.TargetID task) ||
  (SessionCredential.RecipeID credential !=? Task.RecipeID task) ||
  (SessionCredential.FencingToken credential !=? Lease.FencingToken lease).

Definition exchange_request (w : Worker.t) (task : Task.t) (lease : Lease.t) (at_ : Z) : ExchangeRequest.t :=
  ExchangeRequest.mk (Worker.ID w) (Task.ID task) (Task.TargetID task) (Task.RecipeID task)
    (Task.RecipeVersion task) (Lease.FencingToken lease) at_.
Definition connection (task : Task.t) (credential : SessionCredential.t) : TargetConnection.t :=
  TargetConnection.mk (Task.TargetID task) (Task.TargetEndpoint task) (SessionCredential.Token credential)
    (SessionCredential.ExpiresAt credential) (SessionCredential.CredentialClass credential).
Definition operation (task : Task.t) (authorization : ExecutionAuthorization.t) : BoundedOperation.t :=
  BoundedOperation.mk (Task.RecipeID task) (Task.RecipeVersion task)
    (ExecutionAuthorization.MaximumDuration authorization) (ExecutionAuthorization.MaximumBytes authorization).

(** The second half of [Run]: from the exchanged credential to the commit. *)
Definition execute_and_commit (w : Worker.t) (taskID : string) (lease : Lease.t) (task : Task.t)
    (authorization : ExecutionAuthorization.t) (credential : SessionCredential.t) : M St (result unit) :=
  let failed := failAttempt w taskID lease in
  let timeout := ExecutionAuthorization.MaximumDuration authorization in
  let target := connection task credential in
  let bounded := operation task authorization in
  let? captured := call (Execute timeout target bounded) (Executed timeout target bounded)
    catch e => failed (Wrapf ("execute task " +:+ quote taskID +:+ ": ") e "") in
  if Worker.MaximumBytes w <? len (CapturedBytes.Payload captured) then
    failed (Text ("transport returned " +:+ itoa (len (CapturedBytes.Payload captured)) +:+ " bytes above the " +:+
                  itoa (Worker.MaximumBytes w) +:+ " byte limit"))
  else
  let? ids := call (WriteCaptured task lease captured) (Wrote task lease captured)
    catch e => failed (Wrapf ("persist captured evidence for task " +:+ quote taskID +:+ ": ") e "") in
  let* at_ := now in
  let? _ := begin_commit taskID (Worker.ID w) (Lease.FencingToken lease) at_ catch e => ret (Err e) in
  let* at_ := now in
  let? _ := commit taskID (Worker.ID w) (Lease.FencingToken lease) ids.1 ids.2 at_
    catch e => ret (Err (Wrapf ("commit task " +:+ quote taskID +:+ ": ") e "")) in
  ret (Ok tt).

(** The first half: from the issued grant to the credential. *)
Definition use_grant (w : Worker.t) (taskID : string) (lease : Lease.t)
    (authorization : ExecutionAuthorization.t) (grant : ExecutionGrant.t) : M St (result unit) :=
  let failed := failAttempt w taskID lease in
  let* at_ := now in
  let? _ := record_authority taskID (Worker.ID w) (Lease.FencingToken lease)
      (ExecutionAuthorization.DecisionID authorization) (ExecutionGrant.GrantID grant) at_
    catch e => ret (Err e) in
  let? task := get taskID catch e => ret (Err e) in
  let* at_ := now in
  let request := exchange_request w task lease at_ in
  let? credential := call (ExchangeContext grant request) (Exchanged grant request)
    catch e => failed (Wrapf ("exchange execution grant for task " +:+ quote taskID +:+ ": ") e "") in
  if mismatched credential grant task lease then failed (Text "credential broker returned mismatched credential")
  else execute_and_commit w taskID lease task authorization credential.

Definition Run (w : Worker.t) (taskID : string) : M St (result unit) :=
  if Worker.ID w ==? "" then
    ret (Err (Text "collector id, task store, transport and captured sink are required"))
  else if (Worker.LeaseDuration w <=? 0) || (Worker.MaximumDuration w <=? 0) || (Worker.MaximumBytes w <=? 0) then
    ret (Err (Text "positive lease, duration and response byte limits are required"))
  else if Worker.GrantTTL w <=? 0 then
    ret (Err (Text "execution authorizer, grant issuer, credential broker and positive grant ttl are required"))
  else
  let* at_ := now in
  let? lease := acquire taskID (Worker.ID w) at_ (Worker.LeaseDuration w) catch e => ret (Err e) in
  let failed := failAttempt w taskID lease in
  let* at_ := now in
  let? _ := start taskID (Worker.ID w) (Lease.FencingToken lease) at_ catch e => ret (Err e) in
  let? task := get taskID catch e => ret (Err e) in
  let* at_ := now in
  let request := ExecutionRequest.mk (Worker.ID w) task (Lease.FencingToken lease) (Worker.MaximumDuration w)
    (Worker.MaximumBytes w) at_ in
  let? authorization := call (AuthorizeExecution request) (Authorized request)
    catch e => failed (Wrapf ("re-authorize task " +:+ quote taskID +:+ ": ") e "") in
  if expanded w authorization then failed (Text "execution authorization returned invalid or expanded limits")
  else
  let* issuedAt := now in
  let expiresAt := grant_expiry w lease issuedAt in
  if Before expiresAt (issuedAt + ExecutionAuthorization.MaximumDuration authorization) then
    failed (Text "lease and grant validity do not cover authorised execution duration")
  else
  let? grantID := randomID "grant" catch e => ret (Err e) in
  let? nonce := randomID "nonce" catch e => ret (Err e) in
  let template := grant_template w task lease authorization grantID nonce issuedAt expiresAt in
  let? grant := call (IssueContext template) (Issued template)
    catch e => failed (Wrapf ("issue execution grant for task " +:+ quote taskID +:+ ": ") e "") in
  use_grant w taskID lease authorization grant.
End Attempt.

(** [MemorySink]: identifiers made of the task, the fence and the digest. *)
Definition memory_WriteCaptured (task : Task.t) (lease : Lease.t) (captured : CapturedBytes.t) :
    result (string * string) :=
  if CapturedBytes.Payload captured ==? "" then Err (Text "captured payload is empty")
  else Ok ("attempt-" +:+ Task.ID task +:+ "-" +:+ itoa (Lease.FencingToken lease),
           "evidence-" +:+ Task.ID task +:+ "-" +:+ hex_EncodeToString (firstn 8 (CapturedBytes.Digest captured))).

(** ** The runtime

    [New] checks the workload's identity and the bounds before it builds the
    worker; the adapters themselves are the instances of the classes above. *)
Module Config.
Record t := mk {
  Identity : AuthContext.t; TransportName : string; CollectorVersion : string; AssemblerVersion : string;
  NormaliserVersion : string; LeaseDuration : Z; GrantTTL : Z; MaximumDuration : Z; MaximumBytes : Z;
  EvidenceValidity : Z; ParserID : string; ParserVersion : string }.
End Config.

Definition validateIdentity (identity : AuthContext.t) : option error :=
  match AuthContext.Validate identity with
  | Some e => Some (Wrapf "validate collector workload identity: " e "")
  | None =>
    if (AuthContext.SPIFFEID identity ==? "") || (AuthContext.IdentityRevision identity ==? "") ||
       negb (contains (AuthContext.Roles identity) "collector") ||
       negb (contains (AuthContext.AllowedScopes identity) "tasks:execute") then
      Some (Text "verified collector SPIFFE identity and execution scope are required")
    else None
  end.

Definition validateRuntimeBounds (c : Config.t) : option error :=
  if (Config.TransportName c ==? "") || (Config.CollectorVersion c ==? "") || (Config.AssemblerVersion c ==? "") ||
     (Config.NormaliserVersion c ==? "") || (Config.ParserID c ==? "") || (Config.ParserVersion c ==? "") ||
     (Config.LeaseDuration c <=? 0) || (Config.GrantTTL c <=? 0) || (Config.MaximumDuration c <=? 0) ||
     (Config.MaximumBytes c <=? 0) || (Config.EvidenceValidity c <=? 0) then
    Some (Text "collector identities, versions and positive bounds are required")
  else None.

Definition validateConfiguration (c : Config.t) : option error :=
  match validateIdentity (Config.Identity c) with
  | Some e => Some e
  | None => validateRuntimeBounds c
  end.

Module Runtime.
Record t := mk { identity : AuthContext.t; worker : Worker.t }.
Definition New (c : Config.t) : result t :=
  match validateConfiguration c with
  | Some e => Err e
  | None => Ok (mk (Config.Identity c)
                  (Worker.mk (AuthContext.SPIFFEID (Config.Identity c)) (Config.LeaseDuration c) (Config.GrantTTL c)
                     (Config.MaximumDuration c) (Config.MaximumBytes c)))
  end.
End Runtime.

(** [Runtime.Run]: the task must belong to the tenant of the workload. *)
Definition runtime_Run {St} `{TaskRepository St} `{Environment St} (r : Runtime.t) (taskID : string) :
    M St (result unit) :=
  (if taskID ==? "" then ret (Err (Text "production collector runtime and task id are required"))
   else
   let? task := get taskID catch e => ret (Err e) in
   if Task.TenantID task !=? AuthContext.TenantID (Runtime.identity r) then
     ret (Err (Text "collector workload tenant does not match task tenant"))
   else Run (Runtime.worker r) taskID)%attempt.

(** ** What the worker relies on

    The repository's methods by operation; the worker neither adds nor renews. *)
Definition worker_op {St} `{TaskRepository St} (op : Op) : option (St -> result Reply * St) :=
  match op with
  | OpAdd _ | OpRenew _ _ _ _ _ => None
  | OpAcquire id owner at_ d => Some (fun st => reply Some (AcquireContext id owner at_ d st))
  | OpStart id owner token at_ => Some (fun st => reply no_lease (StartExecutionContext id owner token at_ st))
  | OpAuthority id owner token decision grant at_ =>
    Some (fun st => reply no_lease (RecordExecutionAuthorityContext id owner token decision grant at_ st))
  | OpBegin id owner token at_ => Some (fun st => reply no_lease (BeginCommitContext id owner token at_ st))
  | OpCommit id owner token attempt evidence at_ =>
    Some (fun st => reply no_lease (CommitContext id owner token attempt evidence at_ st))
  | OpRetry id owner token at_ cause => Some (fun st => reply no_lease (RetryContext id owner token at_ cause st))
  end.

(** The contract of the repository: a method that succeeds makes a change that
    the task's life cycle allows (lease times possibly at the precision of the
    database), one that fails changes no task. *)
Class TaskRepositoryLaws (St : Type) `{TaskRepository St} := {
  tasks : St -> Store;
  repo_ok : St -> Prop;
  step_law : forall op f st, worker_op op = Some f -> repo_ok st -> admissible op ->
    let '(r, st') := f st in
    repo_ok st' /\
    match r with
    | Ok reply => exists op' t, (op' = op \/ op' = durable op) /\
        change op' (tasks st !! op_id op') t reply /\ tasks st' = <[op_id op' := t]> (tasks st)
    | Err _ => tasks st' = tasks st
    end;
  get_law : forall id st, repo_ok st -> repo_ok (GetContext id st).2 }.

(** The clock runs, and no collaborator or other client breaks the repository. *)
Record env_ok {St} `{TaskRepositoryLaws St} `{Environment St} : Prop := {
  now_ok st : repo_ok st -> repo_ok (Now st).2 /\ Microsecond <= (Now st).1;
  random_ok n st : repo_ok st -> repo_ok (rand_Read n st).2;
  authorize_ok request st : repo_ok st -> repo_ok (AuthorizeExecution request st).2;
  issue_ok template st : repo_ok st -> repo_ok (IssueContext template st).2;
  exchange_ok grant request st : repo_ok st -> repo_ok (ExchangeContext grant request st).2;
  execute_ok timeout target operation st : repo_ok st -> repo_ok (Execute timeout target operation st).2;
  write_ok task lease captured st : repo_ok st -> repo_ok (WriteCaptured task lease captured st).2 }.
Arguments env_ok St {_ _ _}.

(** ** The calls of an attempt *)

(** What the worker learnt before it contacted the device. *)
Module Contact.
Record t := mk {
  acquiredAt : Z; lease : Lease.t; startedAt : Z; task : Task.t; evaluatedAt : Z;
  authorization : ExecutionAuthorization.t; issuedAt : Z; random1 : list Z; random2 : list Z;
  grant : ExecutionGrant.t; recordedAt : Z; reread : Task.t; exchangedAt : Z; credential : SessionCredential.t }.
End Contact.

Definition contact_request (w : Worker.t) (c : Contact.t) : ExecutionRequest.t :=
  ExecutionRequest.mk (Worker.ID w) (Contact.task c) (Lease.FencingToken (Contact.lease c))
    (Worker.MaximumDuration w) (Worker.MaximumBytes w) (Contact.evaluatedAt c).
Definition contact_template (w : Worker.t) (c : Contact.t) : ExecutionGrant.t :=
  grant_template w (Contact.task c) (Contact.lease c) (Contact.authorization c)
    ("grant" +:+ "-" +:+ hex_EncodeToString (Contact.random1 c)) ("nonce" +:+ "-" +:+ hex_EncodeToString (Contact.random2 c))
    (Contact.issuedAt c) (grant_expiry w (Contact.lease c) (Contact.issuedAt c)).

(** The calls that precede the contact: lease, start, fresh decision, grant,
    recorded authority, exchange, each with its successful answer. *)
Definition calls_to_device (w : Worker.t) (id : string) (c : Contact.t) : list Call :=
  let token := Lease.FencingToken (Contact.lease c) in
  [ TaskCall (OpAcquire id (Worker.ID w) (Contact.acquiredAt c) (Worker.LeaseDuration w)) (Ok (Some (Contact.lease c)));
    TaskCall (OpStart id (Worker.ID w) token (Contact.startedAt c)) (Ok None);
    Got id (Ok (Contact.task c));
    Authorized (contact_request w c) (Ok (Contact.authorization c));
    Randomness (Ok (Contact.random1 c)); Randomness (Ok (Contact.random2 c));
    Issued (contact_template w c) (Ok (Contact.grant c));
    TaskCall (OpAuthority id (Worker.ID w) token (ExecutionAuthorization.DecisionID (Contact.authorization c))
                (ExecutionGrant.GrantID (Contact.grant c)) (Contact.recordedAt c)) (Ok None);
    Got id (Ok (Contact.reread c));
    Exchanged (Contact.grant c) (exchange_request w (Contact.reread c) (Contact.lease c) (Contact.exchangedAt c))
      (Ok (Contact.credential c)) ].
Definition contact (c : Contact.t) (r : result CapturedBytes.t) : Call :=
  Executed (ExecutionAuthorization.MaximumDuration (Contact.authorization c))
    (connection (Contact.reread c) (Contact.credential c)) (operation (Contact.reread c) (Contact.authorization c)) r.

(** The checks the worker made: limits within its own, a grant that ends with
    the lease and covers the operation, a credential for this grant, target,
    recipe and fence. *)
Definition authorised (w : Worker.t) (c : Contact.t) : Prop :=
  let a := Contact.authorization c in
  let template := contact_template w c in
  ExecutionAuthorization.DecisionID a <> "" /\
  0 < ExecutionAuthorization.MaximumDuration a <= Worker.MaximumDuration w /\
  0 < ExecutionAuthorization.MaximumBytes a <= Worker.MaximumBytes w /\
  ExecutionGrant.ExpiresAt template <= Lease.ExpiresAt (Contact.lease c) /\
  ExecutionGrant.NotBefore template + ExecutionAuthorization.MaximumDuration a <= ExecutionGrant.ExpiresAt template /\
  SessionCredential.Token (Contact.credential c) <> "" /\
  SessionCredential.GrantID (Contact.credential c) = ExecutionGrant.GrantID (Contact.grant c) /\
  SessionCredential.TargetID (Contact.credential c) = Task.TargetID (Contact.reread c) /\
  SessionCredential.RecipeID (Contact.credential c) = Task.RecipeID (Contact.reread c) /\
  SessionCredential.FencingToken (Contact.credential c) = Lease.FencingToken (Contact.lease c).

Definition is_contact (k : Call) : bool := match k with Executed _ _ _ _ => true | _ => false end.

(** ** A small program logic

    [wp calls m Q st]: the computation [m], started in [st] after [calls], ends
    so that [Q] holds of all the calls made, the result and the state. *)
Definition wp {St A} (calls : list Call) (m : M St A) (Q : list Call -> A -> St -> Prop) (st : St) : Prop :=
  let '(new, a, st') := m st in Q (calls ++ new) a st'.

Lemma wp_ret {St A} calls (a : A) Q (st : St) : Q calls a st -> wp calls (ret a) Q st.
Proof. unfold wp, ret. by rewrite app_nil_r. Qed.
Lemma wp_bind {St A B} calls (m : M St A) (k : A -> M St B) Q st :
  wp calls m (fun calls' a st' => wp calls' (k a) Q st') st -> wp calls (bind m k) Q st.
Proof.
  unfold wp, bind. destruct (m st) as [[new a] st']. destruct (k a st') as [[new' b] st''].
  by rewrite app_assoc.
Qed.
Lemma wp_silent {St A} calls (f : St -> A * St) Q st :
  Q calls (f st).1 (f st).2 -> wp calls (silent f) Q st.
Proof. unfold wp, silent. destruct (f st). by rewrite app_nil_r. Qed.
Lemma wp_call {St A} calls (f : St -> A * St) record Q st :
  Q (calls ++ [record (f st).1]) (f st).1 (f st).2 -> wp calls (call f record) Q st.
Proof. unfold wp, call. by destruct (f st). Qed.
Lemma wp_mono {St A} calls (m : M St A) (Q Q' : list Call -> A -> St -> Prop) st :
  wp calls m Q st -> (forall calls' a st', Q calls' a st' -> Q' calls' a st') -> wp calls m Q' st.
Proof. unfold wp. destruct (m st) as [[new a] st']. auto. Qed.

Definition quiet (calls : list Call) : Prop := Forall (fun k => is_contact k = false) calls.

Section Outcome.
Context {St : Type} `{TaskRepositoryLaws St} `{Environment St}.
Context (w : Worker.t) (id : string).

(** How an attempt fails: it is not configured; or its last call was refused by
    the repository or the random source; or its last call handed the task back,
    with the cause that it also reports. *)
Inductive gives_up : list Call -> error -> St -> Prop :=
| up_not_configured e st :
    Worker.ID w = "" \/ Worker.LeaseDuration w <= 0 \/ Worker.MaximumDuration w <= 0 \/
      Worker.MaximumBytes w <= 0 \/ Worker.GrantTTL w <= 0 ->
    gives_up [] e st
| up_refused calls op e' e st : op_id op = id -> gives_up (calls ++ [TaskCall op (Err e')]) e st
| up_unreadable calls e st : gives_up (calls ++ [Got id (Err e)]) e st
| up_no_randomness calls e' e st : gives_up (calls ++ [Randomness (Err e')]) e st
| up_handed_back calls token at_ cause t st :
    tasks st !! id = Some (released t (Some cause)) ->
    gives_up (calls ++ [TaskCall (OpRetry id (Worker.ID w) token at_ (Some cause)) (Ok None)]) cause st.

(** How it succeeds: what was captured is within the limit and stored, and the
    task has accepted the stored identifiers under the worker's own lease. *)
Definition succeeds (c : Contact.t) (res : result CapturedBytes.t) (rest : list Call) (st : St) : Prop :=
  let token := Lease.FencingToken (Contact.lease c) in
  exists captured attemptID evidenceID begunAt committedAt t,
    res = Ok captured /\ len (CapturedBytes.Payload captured) <= Worker.MaximumBytes w /\
    rest = [ Wrote (Contact.reread c) (Contact.lease c) captured (Ok (attemptID, evidenceID));
             TaskCall (OpBegin id (Worker.ID w) token begunAt) (Ok None);
             TaskCall (OpCommit id (Worker.ID w) token attemptID evidenceID committedAt) (Ok None) ] /\
    tasks st !! id = Some t /\ Task.State t = TaskSucceeded /\
    Task.AcceptedAttemptID t = attemptID /\ Task.AcceptedEvidenceID t = evidenceID /\
    Task.LeaseOwner t = Worker.ID w /\ Task.FencingToken t = token.

(** The answers a contact rests on were given: both readings of the task by the
    repository in order, and the grant by the issuer for the worker's template. *)
Definition answered (c : Contact.t) : Prop :=
  (exists st, repo_ok st /\ (GetContext id st).1 = Ok (Contact.task c)) /\
  (exists st, repo_ok st /\ (GetContext id st).1 = Ok (Contact.reread c)) /\
  exists st, (IssueContext (contact_template w c) st).1 = Ok (Contact.grant c).
Definition established (c : Contact.t) : Prop := authorised w c /\ answered c.

Definition contacted (calls : list Call) (r : result unit) (st : St) : Prop :=
  exists c res rest, established c /\ calls = calls_to_device w id c ++ contact c res :: rest /\ quiet rest /\
    match r with Ok _ => succeeds c res rest st | Err e => gives_up calls e st end.
Definition aborted (calls : list Call) (r : result unit) (st : St) : Prop :=
  quiet calls /\ exists e, r = Err e /\ gives_up calls e st.

Hypothesis Henv : env_ok St.

(** A call of the repository keeps its state in order; a commit or a retry that
    succeeds leaves the task accepted or handed back. *)
Lemma op_ok op f st : worker_op op = Some f -> repo_ok st -> admissible op -> repo_ok (f st).2.
Proof. intros Hf Hok Hadm. pose proof (step_law op f st Hf Hok Hadm) as Hl. by destruct (f st), Hl. Qed.

Lemma commit_ok token att ev at_ st r :
  repo_ok st -> Microsecond <= at_ -> (CommitContext id (Worker.ID w) token att ev at_ st).1 = Ok r ->
  exists t, tasks (CommitContext id (Worker.ID w) token att ev at_ st).2 !! id = Some t /\
    Task.State t = TaskSucceeded /\ Task.AcceptedAttemptID t = att /\ Task.AcceptedEvidenceID t = ev /\
    Task.LeaseOwner t = Worker.ID w /\ Task.FencingToken t = token.
Proof.
  intros Hok Hat Hr.
  pose proof (step_law (OpCommit id (Worker.ID w) token att ev at_) _ st eq_refl Hok (conj Hat I)) as Hl.
  unfold reply in Hl. destruct (CommitContext _ _ _ _ _ _ st) as [r' st']. cbn [fst snd] in *. subst r'.
  destruct Hl as (_ & op' & t & Hop & Hc & ->).
  assert (op' = OpCommit id (Worker.ID w) token att ev at_) as -> by by destruct Hop.
  exists t. cbn [op_id]. rewrite lookup_insert_eq. inversion Hc; subst.
  match goal with Hh : held _ _ _ _ |- _ => destruct Hh as (? & ? & _) end. done.
Qed.

Lemma retry_ok token at_ cause st r :
  repo_ok st -> Microsecond <= at_ -> (RetryContext id (Worker.ID w) token at_ (Some cause) st).1 = Ok r ->
  exists t, tasks (RetryContext id (Worker.ID w) token at_ (Some cause) st).2 !! id = Some (released t (Some cause)).
Proof.
  intros Hok Hat Hr.
  pose proof (step_law (OpRetry id (Worker.ID w) token at_ (Some cause)) _ st eq_refl Hok (conj Hat I)) as Hl.
  unfold reply in Hl. destruct (RetryContext _ _ _ _ _ st) as [r' st']. cbn [fst snd] in *. subst r'.
  destruct Hl as (_ & op' & t & Hop & Hc & ->).
  assert (op' = OpRetry id (Worker.ID w) token at_ (Some cause)) as -> by by destruct Hop.
  cbn [op_id]. rewrite lookup_insert_eq. inversion Hc; subst. by eexists.
Qed.

(** One call: its answer is split into success and error. *)
Lemma wp_now {A} calls (k : Z -> M St A) Q st :
  repo_ok st -> (forall at_ st', repo_ok st' -> Microsecond <= at_ -> wp calls (k at_) Q st') ->
  wp calls (bind now k) Q st.
Proof. intros Hok Hk. apply wp_bind, wp_silent. destruct (now_ok Henv st Hok). by apply Hk. Qed.

Lemma wp_answer {A B} calls (f : St -> result A * St) record (ok : A -> M St B) (bad : error -> M St B) Q st :
  repo_ok (f st).2 ->
  (forall a st', f st = (Ok a, st') -> repo_ok st' -> wp (calls ++ [record (Ok a)]) (ok a) Q st') ->
  (forall e st', f st = (Err e, st') -> repo_ok st' -> wp (calls ++ [record (Err e)]) (bad e) Q st') ->
  wp calls (bind (call f record) (fun r => match r with Ok a => ok a | Err e => bad e end)) Q st.
Proof. intros Hok Ha He. apply wp_bind, wp_call. destruct (f st) as [[a|e] st']; cbn [fst snd] in *; auto. Qed.

Lemma wp_randomID calls prefix (ok : string -> M St (result unit)) Q st :
  repo_ok st ->
  (forall b st', repo_ok st' ->
     wp (calls ++ [Randomness (Ok b)]) (ok (prefix +:+ "-" +:+ hex_EncodeToString b)) Q st') ->
  (forall e e' st', repo_ok st' -> Q (calls ++ [Randomness (Err e')]) (Err e) st') ->
  wp calls (bind (randomID prefix) (fun r => match r with Ok x => ok x | Err e => ret (Err e) end)) Q st.
Proof.
  intros Hok Ha He. apply wp_bind. unfold randomID. apply wp_answer; [by apply random_ok|..].
  - intros b st' _ Hok'. by apply wp_ret, Ha.
  - intros e st' _ Hok'. by apply wp_ret, wp_ret, He.
Qed.

(** A failed attempt makes one more call, which hands the task back or is
    refused. *)
Lemma failAttempt_gives_up calls lease cause st :
  repo_ok st ->
  wp calls (failAttempt w id lease cause)
    (fun calls' r st' => exists e k, r = Err e /\ calls' = calls ++ [k] /\ is_contact k = false /\
       gives_up calls' e st') st.
Proof.
  intros Hok. apply wp_now; [done|]. intros at_ st1 Hok1 Hat. apply wp_answer.
  - apply (op_ok (OpRetry id (Worker.ID w) (Lease.FencingToken lease) at_ (Some cause)) _ st1 eq_refl Hok1).
    by split.
  - intros [] st2 Hr _. apply wp_ret. eexists cause, _. split_and!; [done..|].
    destruct (retry_ok (Lease.FencingToken lease) at_ cause st1 tt Hok1 Hat) as [t Ht]; [by rewrite Hr|].
    rewrite Hr in Ht. by eapply up_handed_back.
  - intros e st2 _ _. apply wp_ret. eexists _, _. split_and!; [done..|]. by apply up_refused.
Qed.

Lemma failed_aborts calls lease cause st :
  repo_ok st -> quiet calls ->
  wp calls (failAttempt w id lease cause) (fun calls' r st' => aborted calls' r st' \/ contacted calls' r st') st.
Proof.
  intros Hok Hq. eapply wp_mono; [by apply failAttempt_gives_up|].
  intros calls' r st' (e & k & -> & -> & Hk & Hup). left. split; [|by exists e].
  apply list.Forall_app. split; [done|]. by apply list.Forall_singleton.
Qed.

(** The same, once the device has been contacted. *)
Lemma failed_after_contact c res rest lease cause st :
  repo_ok st -> established c -> quiet rest ->
  wp ((calls_to_device w id c ++ [contact c res]) ++ rest) (failAttempt w id lease cause) contacted st.
Proof.
  intros Hok Hc Hq. eapply wp_mono; [by apply failAttempt_gives_up|].
  intros calls' r st' (e & k & -> & -> & Hk & Hup).
  exists c, res, (rest ++ [k]). split; [done|]. rewrite <- !app_assoc. split; [done|].
  split; [|by rewrite !app_assoc]. apply list.Forall_app. split; [done|]. by apply list.Forall_singleton.
Qed.

Lemma refused_after_contact c res rest op e e' st :
  established c -> quiet rest -> op_id op = id ->
  contacted (((calls_to_device w id c ++ [contact c res]) ++ rest) ++ [TaskCall op (Err e')]) (Err e) st.
Proof.
  intros Hc Hq Hop. exists c, res, (rest ++ [TaskCall op (Err e')]). split; [done|].
  split; [by rewrite <- !app_assoc|]. split; [|by apply up_refused].
  apply list.Forall_app. split; [done|]. by apply list.Forall_singleton.
Qed.

Lemma execute_and_commit_outcome c st :
  repo_ok st -> established c ->
  wp (calls_to_device w id c)
    (execute_and_commit w id (Contact.lease c) (Contact.reread c) (Contact.authorization c) (Contact.credential c))
    contacted st.
Proof.
  intros Hok Hc. unfold execute_and_commit. cbv zeta. set (token := Lease.FencingToken (Contact.lease c)).
  apply wp_answer; [by apply execute_ok|..].
  2: { intros e st1 _ Hok1. rewrite <- (app_nil_r (_ ++ _)). by apply failed_after_contact; [..|constructor]. }
  intros captured st1 _ Hok1. destruct (Z.ltb_spec (Worker.MaximumBytes w) (len (CapturedBytes.Payload captured))) as [|Hlen].
  { rewrite <- (app_nil_r (_ ++ _)). by apply failed_after_contact; [..|constructor]. }
  apply wp_answer; [by apply write_ok|..].
  2: { intros e st2 _ Hok2. by apply failed_after_contact; [..|apply list.Forall_singleton]. }
  intros [attemptID evidenceID] st2 _ Hok2. apply wp_now; [done|]. intros begunAt st3 Hok3 Hbegun. apply wp_answer.
  { apply (op_ok (OpBegin id (Worker.ID w) token begunAt) _ st3 eq_refl Hok3). by split. }
  2: { intros e st4 _ _. apply wp_ret. by apply refused_after_contact; [|apply list.Forall_singleton|]. }
  intros [] st4 _ Hok4. apply wp_now; [done|]. intros committedAt st5 Hok5 Hcommitted. apply wp_answer.
  { apply (op_ok (OpCommit id (Worker.ID w) token attemptID evidenceID committedAt) _ st5 eq_refl Hok5). by split. }
  2: { intros e st6 _ _. apply wp_ret.
       refine (refused_after_contact c (Ok captured) [_; _] (OpCommit id _ _ _ _ _) _ _ st6 Hc _ eq_refl).
       by repeat constructor. }
  intros [] st6 Hr _. apply wp_ret. cbn [fst snd] in Hr.
  destruct (commit_ok token attemptID evidenceID committedAt st5 tt Hok5 Hcommitted) as (t & Ht); [by rewrite Hr|].
  rewrite Hr in Ht. eexists c, (Ok captured), _. rewrite <- !app_assoc. split; [done|]. split; [done|].
  split; [by repeat constructor|]. by exists captured, attemptID, evidenceID, begunAt, committedAt, t.
Qed.

Lemma mismatched_false credential grant task lease :
  mismatched credential grant task lease = false ->
  SessionCredential.Token credential <> "" /\
  SessionCredential.GrantID credential = ExecutionGrant.GrantID grant /\
  SessionCredential.TargetID credential = Task.TargetID task /\
  SessionCredential.RecipeID credential = Task.RecipeID task /\
  SessionCredential.FencingToken credential = Lease.FencingToken lease.
Proof. unfold mismatched. intros Hm. reflect_bools. naive_solver. Qed.

Lemma expanded_false a :
  expanded w a = false ->
  ExecutionAuthorization.DecisionID a <> "" /\
  0 < ExecutionAuthorization.MaximumDuration a <= Worker.MaximumDuration w /\
  0 < ExecutionAuthorization.MaximumBytes a <= Worker.MaximumBytes w.
Proof. unfold expanded. intros Hx. reflect_bools. naive_solver lia. Qed.

(** What is established when the grant has been issued. *)
Definition covered (lease : Lease.t) (a : ExecutionAuthorization.t) (issuedAt : Z) : Prop :=
  expanded w a = false /\
  Before (grant_expiry w lease issuedAt) (issuedAt + ExecutionAuthorization.MaximumDuration a) = false.

Lemma covered_authorised c :
  covered (Contact.lease c) (Contact.authorization c) (Contact.issuedAt c) ->
  mismatched (Contact.credential c) (Contact.grant c) (Contact.reread c) (Contact.lease c) = false ->
  authorised w c.
Proof.
  intros [(Hid & Hd & Hb)%expanded_false Hw] Hm%mismatched_false.
  unfold authorised, contact_template, grant_template. cbn [ExecutionGrant.ExpiresAt ExecutionGrant.NotBefore].
  unfold Before in Hw. apply Z.ltb_ge in Hw. split_and!; try tauto; try lia.
  unfold grant_expiry, Before. case_match; reflect_bools; lia.
Qed.

(** The attempt stops without having contacted the device. *)
Ltac stop_here := left; split; [by repeat constructor|eexists; split; [done|]].

Lemma use_grant_outcome acquiredAt lease startedAt task evaluatedAt a issuedAt b1 b2 grant st :
  repo_ok st -> covered lease a issuedAt ->
  (exists st0, repo_ok st0 /\ (GetContext id st0).1 = Ok task) ->
  (exists st0, (IssueContext (grant_template w task lease a ("grant" +:+ "-" +:+ hex_EncodeToString b1)
     ("nonce" +:+ "-" +:+ hex_EncodeToString b2) issuedAt (grant_expiry w lease issuedAt)) st0).1 = Ok grant) ->
  let pre credential recordedAt reread exchangedAt :=
    Contact.mk acquiredAt lease startedAt task evaluatedAt a issuedAt b1 b2 grant recordedAt reread exchangedAt credential in
  forall credential0 recordedAt0 reread0 exchangedAt0,
  wp (take 7 (calls_to_device w id (pre credential0 recordedAt0 reread0 exchangedAt0)))
    (use_grant w id lease a grant) (fun calls' r st' => aborted calls' r st' \/ contacted calls' r st') st.
Proof.
  intros Hok Hcov Htask Hgrant pre credential0 recordedAt0 reread0 exchangedAt0. unfold use_grant. cbv zeta.
  apply wp_now; [done|]. intros recordedAt st1 Hok1 Hat. apply wp_answer.
  { apply (op_ok (OpAuthority id (Worker.ID w) (Lease.FencingToken lease) (ExecutionAuthorization.DecisionID a)
      (ExecutionGrant.GrantID grant) recordedAt) _ st1 eq_refl Hok1). by split. }
  2: { intros e st2 _ _. apply wp_ret. stop_here. by apply up_refused. }
  intros [] st2 _ Hok2. apply wp_answer; [by apply get_law|..].
  2: { intros e st3 _ _. apply wp_ret. stop_here. by apply up_unreadable. }
  intros reread st3 Hread Hok3. apply wp_now; [done|]. intros exchangedAt st4 Hok4 _.
  apply wp_answer; [by apply exchange_ok|..].
  2: { intros e st5 _ Hok5. apply failed_aborts; [done|]. by repeat constructor. }
  intros credential st5 _ Hok5. destruct (mismatched credential grant reread lease) eqn:Hm.
  { apply failed_aborts; [done|]. by repeat constructor. }
  eapply wp_mono; [|by right].
  apply (execute_and_commit_outcome (pre credential recordedAt reread exchangedAt)); [done|].
  split; [by apply covered_authorised|]. split; [exact Htask|]. split; [|exact Hgrant].
  exists st2. by rewrite Hread.
Qed.

Lemma Run_outcome st :
  repo_ok st -> wp [] (Run w id) (fun calls r st' => aborted calls r st' \/ contacted calls r st') st.
Proof.
  intros Hok. unfold Run. cbv zeta.
  destruct (_ ==? "") eqn:Hid; [|destruct (_ || _ || _) eqn:Hlim; [|destruct (Worker.GrantTTL w <=? 0) eqn:Httl]]; reflect_bools;
    try (apply wp_ret; stop_here; apply up_not_configured; naive_solver).
  apply wp_now; [done|]. intros acquiredAt st1 Hok1 Hat1. apply wp_answer.
  { apply (op_ok (OpAcquire id (Worker.ID w) acquiredAt (Worker.LeaseDuration w)) _ st1 eq_refl Hok1). by split. }
  2: { intros e st2 _ _. apply wp_ret. stop_here. by apply (up_refused []). }
  intros lease st2 _ Hok2. apply wp_now; [done|]. intros startedAt st3 Hok3 Hat3. apply wp_answer.
  { apply (op_ok (OpStart id (Worker.ID w) (Lease.FencingToken lease) startedAt) _ st3 eq_refl Hok3). by split. }
  2: { intros e st4 _ _. apply wp_ret. stop_here. by apply up_refused. }
  intros [] st4 _ Hok4. apply wp_answer; [by apply get_law|..].
  2: { intros e st5 _ _. apply wp_ret. stop_here. by apply up_unreadable. }
  intros task st5 Htask Hok5. apply wp_now; [done|]. intros evaluatedAt st6 Hok6 _.
  apply wp_answer; [by apply authorize_ok|..].
  2: { intros e st7 _ Hok7. apply failed_aborts; [done|]. by repeat constructor. }
  intros a st7 _ Hok7. destruct (expanded w a) eqn:Hexp.
  { apply failed_aborts; [done|]. by repeat constructor. }
  apply wp_now; [done|]. intros issuedAt st8 Hok8 _.
  destruct (grant_expiry w lease issuedAt <? _) eqn:Hcov.
  { apply failed_aborts; [done|]. by repeat constructor. }
  apply wp_randomID; [done|intros b1 st9 Hok9|].
  2: { intros e e' st9 _. stop_here. apply up_no_randomness. }
  apply wp_randomID; [done|intros b2 st10 Hok10|].
  2: { intros e e' st10 _. stop_here. apply up_no_randomness. }
  apply wp_answer; [by apply issue_ok|..].
  2: { intros e st11 _ Hok11. apply failed_aborts; [done|]. by repeat constructor. }
  intros grant st11 Hgrant Hok11.
  apply (use_grant_outcome acquiredAt lease startedAt task evaluatedAt a issuedAt b1 b2 grant st11 Hok11
    (conj Hexp Hcov) (ex_intro _ st4 (conj Hok4 (f_equal fst Htask))) (ex_intro _ st10 (f_equal fst Hgrant))
    (SessionCredential.mk "" "" "" "" "" "" 0 0 "") 0 task 0).
Qed.
End Outcome.

(** ** The two repositories

    Either repository may be part of a larger state. *)
Section Part.
Context {St S : Type} (part : St -> S) (with_part : S -> St -> St).
Hypothesis part_with : forall s st, part (with_part s st) = s.

Definition on_part {A} (f : S -> A * S) (st : St) : A * St := let '(a, s) := f (part st) in (a, with_part s st).
Lemma on_part_spec {A} (f : S -> A * S) st : (on_part f st).1 = (f (part st)).1 /\ part (on_part f st).2 = (f (part st)).2.
Proof using part_with. unfold on_part. destruct (f (part st)). cbn [fst snd]. by rewrite part_with. Qed.
End Part.

Section MemoryRepository.
Context {St : Type} (part : St -> Store) (with_part : Store -> St -> St).

Definition memory_repository : TaskRepository St := {|
  AcquireContext id owner at_ d := on_part part with_part (Acquire id owner at_ d);
  StartExecutionContext id owner token at_ := on_part part with_part (StartExecution id owner token at_);
  RecordExecutionAuthorityContext id owner token decision grant at_ :=
    on_part part with_part (RecordExecutionAuthority id owner token decision grant at_);
  BeginCommitContext id owner token at_ := on_part part with_part (BeginCommit id owner token at_);
  CommitContext id owner token attempt evidence at_ := on_part part with_part (Commit id owner token attempt evidence at_);
  RetryContext id owner token at_ cause := on_part part with_part (Retry id owner token at_ cause);
  GetContext id st := (Get id (part st), st) |}.

Hypothesis part_with : forall s st, part (with_part s st) = s.

Lemma memory_op op f st :
  @worker_op St memory_repository op = Some f ->
  (f st).1 = (exec op (part st)).1 /\ part (f st).2 = (exec op (part st)).2.
Proof using part_with.
  intros Hf. destruct op; simplify_eq/=; try done; unfold reply; cbn [fst snd];
    match goal with |- context [on_part _ _ ?g ?s] => destruct (on_part_spec part with_part part_with g s) as [E1 E2];
      by rewrite E1, E2 end.
Qed.

#[refine] Definition memory_repository_laws : @TaskRepositoryLaws St memory_repository :=
  {| tasks := part; repo_ok _ := True |}.
Proof using part_with.
  - intros op f st Hf _ _. destruct (memory_op op f st Hf) as [E1 E2]. destruct (f st) as [r st']. cbn [fst snd] in *.
    split; [done|]. rewrite E2, E1. pose proof (exec_sound op (part st)) as Hs.
    destruct (exec op (part st)) as [[reply_|e] s]; cbn [fst snd]; [|done].
    destruct Hs as (t & Hc & ->). exists op, t. auto.
  - done.
Defined.
End MemoryRepository.

Section PostgresRepository.
Context {St : Type} (part : St -> DB.t) (with_part : DB.t -> St -> St).
#[local] Abbreviation alone := (fun db : DB.t => db).

Definition postgres_repository : TaskRepository St := {|
  AcquireContext id owner at_ d := on_part part with_part (TaskPostgres.AcquireContext alone id owner at_ d);
  StartExecutionContext id owner token at_ :=
    on_part part with_part (TaskPostgres.StartExecutionContext alone id owner token at_);
  RecordExecutionAuthorityContext id owner token decision grant at_ :=
    on_part part with_part (TaskPostgres.RecordExecutionAuthorityContext alone id owner token decision grant at_);
  BeginCommitContext id owner token at_ := on_part part with_part (TaskPostgres.BeginCommitContext alone id owner token at_);
  CommitContext id owner token attempt evidence at_ :=
    on_part part with_part (TaskPostgres.CommitContext alone id owner token attempt evidence at_);
  RetryContext id owner token at_ cause := on_part part with_part (TaskPostgres.RetryContext alone id owner token at_ cause);
  GetContext id st := (TaskPostgres.GetContext id (part st), st) |}.

Hypothesis part_with : forall s st, part (with_part s st) = s.

Lemma postgres_op op f st :
  @worker_op St postgres_repository op = Some f ->
  (f st).1 = (pg_exec alone 0 op (part st)).1 /\ part (f st).2 = (pg_exec alone 0 op (part st)).2.
Proof using part_with.
  intros Hf. destruct op; simplify_eq/=; try done; unfold reply; cbn [fst snd];
    match goal with |- context [on_part _ _ ?g ?s] => destruct (on_part_spec part with_part part_with g s) as [E1 E2];
      by rewrite E1, E2 end.
Qed.

#[refine] Definition postgres_repository_laws : @TaskRepositoryLaws St postgres_repository :=
  {| tasks st := abs (part st); repo_ok st := db_ok (part st) |}.
Proof using part_with.
  - intros op f st Hf Hok Hadm. destruct (postgres_op op f st Hf) as [E1 E2]. destruct (f st) as [r st']. cbn [fst snd] in *.
    destruct (pg_exec_simulates 0 op (part st) Hok Hadm) as [Hok' Hsim]. rewrite E2, E1. split; [done|].
    pose proof (exec_sound (durable op) (abs (part st))) as Hs.
    destruct (pg_exec alone 0 op (part st)) as [r' db']. cbn [fst snd] in *.
    destruct Hsim as [[Href ->]|[Hsame ->]]; [by destruct r'|].
    destruct (exec (durable op) (abs (part st))) as [[reply_|e] s]; destruct r'; try done; cbn [fst snd] in *.
    simpl in Hsame. subst. destruct Hs as (t & Hc & ->). exists (durable op), t. auto.
  - done.
Defined.
End PostgresRepository.

(** The tenant of a task never changes, and an issuer that grants what it is
    asked for, adding only its name, its audience and its signature. *)
Definition tenant_fixed {St} `{TaskRepositoryLaws St} (id : string) : Prop :=
  forall st st' t t', repo_ok st -> repo_ok st' -> (GetContext id st).1 = Ok t -> (GetContext id st').1 = Ok t' ->
    Task.TenantID t = Task.TenantID t'.
Definition terms (g : ExecutionGrant.t) : ExecutionGrant.t :=
  g <| ExecutionGrant.Issuer := "" |> <| ExecutionGrant.Audience := "" |> <| ExecutionGrant.SignatureAlgorithm := "" |>
    <| ExecutionGrant.SigningKeyRef := "" |> <| ExecutionGrant.Signature := None |>.
Definition issuer_keeps {St} `{Environment St} : Prop :=
  forall template (st : St) g, (IssueContext template st).1 = Ok g -> terms g = terms template.
Arguments tenant_fixed St {_ _} id.
Arguments issuer_keeps St {_}.

(** ** Tenants

    No method of the worker's changes the tenant of a task: over either
    repository the contract also holds with one task's tenant fixed. *)
Lemma worker_change_tenant {St} `{TaskRepository St} op op' f t t' r :
  @worker_op St _ op = Some f -> op' = op \/ op' = durable op -> change op' t t' r ->
  exists t0, t = Some t0 /\ Task.TenantID t' = Task.TenantID t0.
Proof. intros Hf Hop Hc. destruct Hc; try (by eexists). by destruct op, Hop; simplify_eq/=. Qed.

Section FixedTenant.
Context {St : Type} {R : TaskRepository St} (L : TaskRepositoryLaws St) (id tenant : string).
Hypothesis get_reads : forall i st, (GetContext i st).2 = st.
Hypothesis get_stored : forall st t, (GetContext id st).1 = Ok t -> tasks st !! id = Some t.

#[refine] Definition tenant_laws : TaskRepositoryLaws St :=
  {| tasks := tasks; repo_ok st := repo_ok st /\ forall t, tasks st !! id = Some t -> Task.TenantID t = tenant |}.
Proof using L id tenant get_reads.
  - intros op f st Hf [Hok Ht] Hadm. pose proof (step_law op f st Hf Hok Hadm) as Hl.
    destruct (f st) as [r st']. destruct Hl as [Hok' Hl]. split; [|exact Hl]. split; [exact Hok'|].
    destruct r as [reply_|e]; [|by rewrite Hl]. destruct Hl as (op' & t & Hop & Hc & ->).
    destruct (worker_change_tenant op op' f _ _ _ Hf Hop Hc) as (t0 & Ht0 & Hkeeps).
    intros t' [[Hid <-]|[_ Ht']]%lookup_insert_Some; [|auto]. rewrite Hkeeps. apply Ht. by rewrite <- Hid.
  - intros i st [Hok Ht]. pose proof (get_law i st Hok). by rewrite get_reads in *.
Defined.

Lemma tenant_laws_fixed : @tenant_fixed St R tenant_laws id.
Proof using L id tenant get_stored. intros st st' t t' [_ H1] [_ H2] Ht Ht'. by rewrite (H1 t), (H2 t') by auto. Qed.
End FixedTenant.

Lemma postgres_tenant_fixed {St} part with_part part_with id tenant :
  @tenant_fixed St (postgres_repository part with_part)
    (tenant_laws (postgres_repository_laws part with_part part_with) id tenant (fun _ _ => eq_refl)) id.
Proof.
  apply tenant_laws_fixed. intros st t Hg. cbn in *. unfold TaskPostgres.GetContext in Hg. rewrite abs_lookup.
  repeat (case_match; try done). by injection Hg as <-.
Qed.

(** ** Properties *)

Lemma quiet_no_contact calls timeout conn op r : quiet calls -> Executed timeout conn op r ∉ calls.
Proof. intros Hq Hin. unfold quiet in Hq. rewrite list.Forall_forall in Hq. by specialize (Hq _ Hin). Qed.

Lemma contact_unique pre c res rest timeout conn op r :
  quiet pre -> quiet rest -> Executed timeout conn op r ∈ pre ++ contact c res :: rest ->
  Executed timeout conn op r = contact c res.
Proof.
  intros Hpre Hrest [Hin|[Heq|Hin]%elem_of_cons]%elem_of_app; [|done|].
  - by apply quiet_no_contact in Hin.
  - by apply quiet_no_contact in Hin.
Qed.

(** An attempt of the runtime contacts no device, or reads the task as one of its
    tenant and then runs as the worker does. *)
Lemma runtime_Run_outcome {St} `{TaskRepositoryLaws St} `{Environment St} runtime id (Henv : env_ok St) (st : St) :
  let w := Runtime.worker runtime in
  repo_ok st ->
  wp [] (runtime_Run runtime id) (fun calls r _ => quiet calls \/
    exists task c res rest, (GetContext id st).1 = Ok task /\
      Task.TenantID task = AuthContext.TenantID (Runtime.identity runtime) /\ established w id c /\
      calls = Got id (Ok task) :: calls_to_device w id c ++ contact c res :: rest /\ quiet rest) st.
Proof.
  intros w Hok. unfold runtime_Run. fold w. destruct (_ ==? "") eqn:Hid; [by apply wp_ret; left; constructor|].
  apply wp_answer; [by apply get_law|..].
  2: { intros e st' _ _. apply wp_ret. left. by repeat constructor. }
  intros task st' Htask Hok'. destruct (_ !=? _) eqn:Ht; [by apply wp_ret; left; repeat constructor|]. reflect_bools.
  pose proof (Run_outcome w id Henv st' Hok') as Hrun. unfold wp in *. destruct (Run w id st') as [[calls r] st''].
  cbn [app] in Hrun |- *. destruct Hrun as [[Hq _]|(c & res & rest & Hc & -> & Hq & _)]; [left; by constructor|right].
  exists task, c, res, rest. split; [by rewrite Htask|]. done.
Qed.

(** The grant that was used: for this worker, attempt and decision, covering the
    operation and ending with the lease. *)
Definition grant_within_lease (w : Worker.t) (c : Contact.t) : Prop :=
  let g := Contact.grant c in let a := Contact.authorization c in
  ExecutionGrant.CollectorSPIFFEID g = Worker.ID w /\
  ExecutionGrant.TenantID g = Task.TenantID (Contact.task c) /\ ExecutionGrant.TaskID g = Task.ID (Contact.task c) /\
  ExecutionGrant.TargetID g = Task.TargetID (Contact.task c) /\ ExecutionGrant.RecipeID g = Task.RecipeID (Contact.task c) /\
  ExecutionGrant.FencingToken g = Lease.FencingToken (Contact.lease c) /\
  ExecutionGrant.ExecutionDecisionID g = ExecutionAuthorization.DecisionID a /\
  ExecutionGrant.MaximumDuration g = ExecutionAuthorization.MaximumDuration a /\
  ExecutionGrant.MaximumResponseBytes g = ExecutionAuthorization.MaximumBytes a /\ ExecutionGrant.SingleUse g = true /\
  ExecutionGrant.ExpiresAt g <= Lease.ExpiresAt (Contact.lease c) /\
  ExecutionGrant.NotBefore g + ExecutionAuthorization.MaximumDuration a <= ExecutionGrant.ExpiresAt g.

Lemma kept_within_lease w c :
  authorised w c -> terms (Contact.grant c) = terms (contact_template w c) -> grant_within_lease w c.
Proof.
  intros (_ & _ & _ & Hend & Hcover & _) Hterms. unfold grant_within_lease. revert Hend Hcover.
  unfold terms in Hterms. unfold contact_template in *. destruct (Contact.grant c). cbn in *.
  injection Hterms as -> -> -> -> -> -> -> -> -> -> -> -> -> -> -> -> -> -> -> -> -> -> ->. cbn. tauto.
Qed.

(** C34.  A device is contacted only with authority.  Whenever a production
    attempt has contacted a device, whatever the collaborators answered and
    whatever other clients did meanwhile, it contacted it once, as the workload's
    own identity and after it had read the task as one of its tenant, leased it,
    started execution, obtained a decision within its own limits, asked for a
    grant that ends with the lease and covers the operation, recorded the decision
    and the grant it got, and exchanged that grant for a credential of the same
    grant, target, recipe and fence; the operation ran with the decision's limits
    and that credential.  The worker does not compare the grant it gets with the
    one it asked for, nor the tenant of the task again: if the issuer keeps the
    terms it is asked for, the grant it used was its own, covered the operation
    and ended with the lease; if the tenant of a task is fixed, the task whose
    device was contacted belonged to the workload's tenant. *)
Theorem device_contact_authorised {St} `{TaskRepositoryLaws St} `{Environment St} config runtime id (st : St)
    (Hnew : Runtime.New config = Ok runtime) (Hok : repo_ok st) (Henv : env_ok St) :
  let w := Runtime.worker runtime in
  let identity := Config.Identity config in
  let '(calls, _, _) := runtime_Run runtime id st in
  forall timeout conn op r, Executed timeout conn op r ∈ calls ->
  exists task c rest, Task.TenantID task = AuthContext.TenantID identity /\
    Worker.ID w = AuthContext.SPIFFEID identity /\ authorised w c /\
    Executed timeout conn op r = contact c r /\
    calls = Got id (Ok task) :: calls_to_device w id c ++ contact c r :: rest /\ quiet rest /\
    (issuer_keeps St -> grant_within_lease w c) /\
    (tenant_fixed St id -> Task.TenantID (Contact.task c) = AuthContext.TenantID identity /\
                           Task.TenantID (Contact.reread c) = AuthContext.TenantID identity).
Proof.
  cbv zeta. set (w := Runtime.worker runtime). set (tenant := AuthContext.TenantID (Config.Identity config)).
  assert (Hnew' : tenant = AuthContext.TenantID (Runtime.identity runtime) /\
    Worker.ID w = AuthContext.SPIFFEID (Config.Identity config)).
  { unfold Runtime.New in Hnew. case_match; [done|]. injection Hnew as <-. done. }
  destruct Hnew' as [Htenant Hw].
  pose proof (runtime_Run_outcome runtime id Henv st Hok) as Hwp. unfold wp in Hwp. fold w in Hwp. rewrite <- Htenant in Hwp.
  destruct (runtime_Run runtime id st) as [[calls r0] st']. simpl app in Hwp.
  intros timeout conn op r Hin. destruct Hwp as [Hq|(task & c & res & rest & Htask & Ht & [Hc Hans] & -> & Hq)].
  { by apply quiet_no_contact in Hin. }
  assert (Heq : Executed timeout conn op r = contact c res).
  { apply (contact_unique (Got id (Ok task) :: calls_to_device w id c) c res rest); [by repeat constructor|done|done]. }
  exists task, c, rest. rewrite Heq. assert (r = res) as -> by by injection Heq. do 6 (split; [done|]).
  destruct Hans as ((st1 & Hok1 & Hg1) & (st2 & Hok2 & Hg2) & st3 & Hissued). split.
  - intros Hkeeps. apply kept_within_lease; [done|]. by eapply Hkeeps.
  - intros Hfixed. rewrite <- Ht. split; [exact (Hfixed _ _ _ _ Hok1 Hok Hg1 Htask)|exact (Hfixed _ _ _ _ Hok2 Hok Hg2 Htask)].
Qed.


(** ** Witnesses

    A worker over the in-memory store, the grant authority of [Grants] with the
    in-memory ledger, the stub adapter and the in-memory sink. *)
Module World.
Record t := mk { store : Store; ledger : MemoryConsumptionRepository.t; clock : Z; drawn : Z }.
#[global] Instance eta_t : Eta t := fun x => mk (store x) (ledger x) (clock x) (drawn x).
End World.

#[local] Instance world_provider : SigningProvider Keyring.t := Keyring.provider demo_sign demo_verify.
#[local] Instance world_backend : GrantBackend World.t := {|
  Grants.CurrentFence id st := Task.CurrentFence id (World.store st);
  Grants.Consume c st := on_part World.ledger (fun l st => st <| World.ledger := l |>) (MemoryConsumptionRepository.Consume c) st |}.
Definition world_random (n : nat) (st : World.t) : result (list Z) * World.t :=
  (Ok (repeat (World.drawn st mod 256) n), st <| World.drawn := World.drawn st + 1 |>).
Definition world_environment (captured : string) (limit : Z) : Environment World.t := {|
  Now st := (Z.max demo_now (World.clock st), st <| World.clock := Z.max demo_now (World.clock st) + Second |>);
  rand_Read := world_random;
  AuthorizeExecution _ st := (Ok (ExecutionAuthorization.mk "decision" (60 * Second) limit), st);
  IssueContext template st := (Grants.IssueContext demo_authority template, st);
  ExchangeContext grant request st :=
    let '(random, st) := world_random 32 st in Grants.ExchangeContext demo_authority random grant request st;
  Execute _ target operation st := (StubAdapter.Execute (StubAdapter.mk (Some captured) "") (World.clock st) None target operation, st);
  WriteCaptured task lease captured st := (memory_WriteCaptured task lease captured, st) |}.

#[local] Instance world_repository : TaskRepository World.t :=
  memory_repository World.store (fun s st => st <| World.store := s |>).
#[local] Instance world_laws : TaskRepositoryLaws World.t :=
  memory_repository_laws World.store (fun s st => st <| World.store := s |>) (fun _ _ => eq_refl).

Definition demo_worker : Worker.t := Worker.mk "w1" (600 * Second) (300 * Second) (120 * Second) 4096.
Definition demo_world : World.t :=
  World.mk {["t1" := demo_task]} MemoryConsumptionRepository.empty demo_now 7.


Lemma world_consume_store c (st st' : World.t) r : Consume c st = (r, st') -> World.store st' = World.store st.
Proof. cbn. unfold on_part. destruct (MemoryConsumptionRepository.Consume _ _). by intros [= _ <-]. Qed.
Lemma world_tenant_ok captured limit :
  @env_ok World.t _ (tenant_laws world_laws "t1" "tenant" (fun _ _ => eq_refl)) (world_environment captured limit).
Proof.
  split; try done.
  - intros st Hst. split; [done|]. cbn. unfold demo_now, Second, Microsecond. lia.
  - intros grant request st [_ Hst]. cbn. unfold Grants.ExchangeContext.
    repeat (case_match; try done);
      match goal with Hc : Consume _ _ = (_, ?st') |- _ => apply world_consume_store in Hc as Hs end;
      (split; [exact I|]); cbn [snd tasks world_laws]; intros t0 Ht0; apply Hst; cbn in *; by rewrite <- Hs.
Qed.

Definition demo_config : Config.t :=
  Config.mk (AuthContext.mk "collector-1" "w1" "tenant" ["collector"] ["tasks:execute"] [] "mtls" demo_now "rev-1")
    "stub" "v1" "v1" "v1" (600 * Second) (300 * Second) (120 * Second) 4096 (3600 * Second) "interface-state" "v1".
Definition demo_runtime : Runtime.t := Runtime.mk (Config.Identity demo_config) demo_worker.

(** The grant authority adds its name and signature only. *)
Lemma authority_keeps {P} `{SigningProvider P} (a : Authority.t P) template g :
  Grants.IssueContext a template = Ok g -> terms g = terms template.
Proof.
  unfold Grants.IssueContext. destruct (CurrentSigningKey _ _); [|done]. destruct (validateGrant _); [done|].
  destruct (Grants.signingPayload _); [|done]. destruct (Sign _ _ _); [|done]. by intros [= <-].
Qed.

(** The runtime's one contact: with a grant of the authority within the lease,
    for a task of its tenant. *)
Lemma device_contact_authorised_witness :
  let '(calls, _, _) := @runtime_Run World.t _ (world_environment "output" 1024) demo_runtime "t1" demo_world in
  map is_contact calls = repeat false 11 ++ true :: repeat false 3 /\
  forall timeout conn op r, Executed timeout conn op r ∈ calls ->
  exists task c rest, Task.TenantID task = "tenant" /\ authorised demo_worker c /\
    Executed timeout conn op r = contact c r /\
    calls = Got "t1" (Ok task) :: calls_to_device demo_worker "t1" c ++ contact c r :: rest /\ quiet rest /\
    grant_within_lease demo_worker c /\ Task.TenantID (Contact.reread c) = "tenant".
Proof.
  set (laws := tenant_laws world_laws "t1" "tenant" (fun _ _ => eq_refl)).
  assert (Hok : @repo_ok _ _ laws demo_world) by (split; [exact I|]; intros t Ht; vm_compute in Ht; by injection Ht as <-).
  pose proof (@device_contact_authorised World.t _ laws (world_environment "output" 1024) demo_config demo_runtime "t1"
    demo_world eq_refl Hok (world_tenant_ok _ _)) as Hw.
  assert (Hc : map is_contact (@runtime_Run World.t _ (world_environment "output" 1024) demo_runtime "t1" demo_world).1.1 =
    repeat false 11 ++ true :: repeat false 3) by (vm_compute; reflexivity).
  cbv zeta in Hw. destruct (runtime_Run _ _ _) as [[calls r] st']. split; [exact Hc|].
  intros timeout conn op r' Hin. destruct (Hw timeout conn op r' Hin) as (task & c & rest & H1 & _ & H2 & H3 & H4 & H5 & H6 & H7).
  exists task, c, rest. do 5 (split; [assumption|]). split; [apply H6; intros template st g; apply authority_keeps|].
  apply H7, (tenant_laws_fixed world_laws). intros st t. apply taskLocked_ok.
Defined.


(** The decision's byte limit is passed to the transport but not checked on what
    it returns: with an adapter that ignores the limit, more bytes than were
    authorised are accepted, up to the worker's own limit. *)
Definition lenient_environment : Environment World.t :=
  let strict := world_environment "" 4 in
  {| Now := Now; rand_Read := rand_Read; AuthorizeExecution := AuthorizeExecution; IssueContext := IssueContext;
     ExchangeContext := ExchangeContext; WriteCaptured := WriteCaptured;
     Execute _ target _ st :=
       (Ok (CapturedBytes.mk (TargetConnection.TargetID target) "output" (Sum256 (bytes "output")) "text/plain" demo_now), st) |}.

Example unauthorised_bytes_accepted :
  let '(_, r, st') := @Run World.t _ lenient_environment demo_worker "t1" demo_world in
  r = Ok tt /\ ExecutionAuthorization.MaximumBytes (ExecutionAuthorization.mk "decision" (60 * Second) 4) < len "output" /\
  option_map Task.State (World.store st' !! "t1") = Some TaskSucceeded.
Proof. vm_compute. done. Qed.

(** Without randomness the attempt ends without handing the task back: it stays
    executing until its lease expires. *)
Definition exhausted_environment : Environment World.t :=
  let strict := world_environment "output" 1024 in
  {| Now := Now; AuthorizeExecution := AuthorizeExecution; IssueContext := IssueContext; ExchangeContext := ExchangeContext;
     WriteCaptured := WriteCaptured; Execute := Execute; rand_Read _ st := (Err (Text "entropy source unavailable"), st) |}.

Example no_randomness_keeps_lease :
  let '(_, r, st') := @Run World.t _ exhausted_environment demo_worker "t1" demo_world in
  r = Err (Wrapf "generate grant id: " (Text "entropy source unavailable") "") /\
  option_map (fun t => (Task.State t, Task.LeaseOwner t)) (World.store st' !! "t1") = Some (TaskExecuting, "w1").
Proof. vm_compute. done. Qed.
