(* ===== verification/Artefacts.v ===== *)
(** * Artefact storage

    [internal/artefacts]: captured and sanitised objects.  [store.go] is the
    in-memory store; [durable_store.go] combines immutable metadata
    ([postgres_repository.go]) with content-addressed blobs
    ([s3_blob_store.go]).  The S3 client is a parameter with the documented
    behaviour of conditional writes.

    A nil Go slice and an empty one differ for [reflect.DeepEqual] and in JSON,
    so the slices of a manifest are [option list]s. *)
From S2P Require Import Prelude GoStrings GoEncoding Json JsonStruct Task Schema Outbox Resolution ResolutionPostgres.
Local Open Scope Z_scope.

Definition MaximumArtefactBytes : Z := 16 * 1024 * 1024.
Definition sha256DigestHexLength : Z := 64.
Definition TransformationManifestVersionV1 : string := "network-broker-sanitisation-manifest/v1".

Definition ErrArtefactNotFound := New "artefacts.ErrArtefactNotFound" "artefact was not found".
Definition ErrIntegrityFailure := New "artefacts.ErrIntegrityFailure" "artefact integrity verification failed".
Definition ErrMetadataConflict :=
  New "artefacts.ErrMetadataConflict" "immutable artefact metadata conflicts with an existing record".

(** ** Data *)
Module CapturedRef.
Record t := mk {
  URI : string; SHA256Digest : string; ByteCount : Z; MediaType : string; Transport : string; CapturedAt : Z;
  AttemptID : string; EncryptionKeyRef : string }.
End CapturedRef.

Module SanitisedRef.
Record t := mk {
  URI : string; SHA256Digest : string; ByteCount : Z; MediaType : string; ParentCapturedDigest : string;
  TransformationManifestDigest : string; CreatedAt : Z }.
End SanitisedRef.

Module TransformationOutcome.
Record t := mk { Action : string; ReasonCode : string; JSONPath : string; RulePosition : Z; Count : Z }.
#[global] Instance eq_dec : EqDecision t.
Proof. solve_decision. Defined.
End TransformationOutcome.

Module TransformationManifest.
Record t := mk {
  ManifestVersion : string; PipelineID : string; PipelineVersion : string; RulesVersion : string;
  InputDigest : string; OutputDigest : string; OverallStatus : string; RedactionsApplied : option (list string);
  TaintedFields : option (list string); Outcomes : option (list TransformationOutcome.t); Quarantined : bool;
  Truncated : bool; OriginalByteCount : Z; OutputByteCount : Z }.
#[global] Instance eta_t : Eta t := fun x =>
  mk (ManifestVersion x) (PipelineID x) (PipelineVersion x) (RulesVersion x) (InputDigest x) (OutputDigest x)
     (OverallStatus x) (RedactionsApplied x) (TaintedFields x) (Outcomes x) (Quarantined x) (Truncated x)
     (OriginalByteCount x) (OutputByteCount x).
#[global] Instance eq_dec : EqDecision t.
Proof. solve_decision. Defined.
End TransformationManifest.
Import TransformationManifest (ManifestVersion, PipelineID, PipelineVersion, RulesVersion, InputDigest, OutputDigest,
  OverallStatus, RedactionsApplied, TaintedFields, Outcomes, Quarantined, Truncated, OriginalByteCount, OutputByteCount).

Inductive Class_ : Type := ClassCaptured | ClassSanitised | ClassOther (s : string).
#[global] Instance class_eq_dec : EqDecision Class_.
Proof. solve_decision. Defined.
Definition class_string (c : Class_) : string :=
  match c with ClassCaptured => "captured" | ClassSanitised => "sanitised" | ClassOther s => s end.
Definition class_of (s : string) : Class_ :=
  if s ==? "captured" then ClassCaptured else if s ==? "sanitised" then ClassSanitised else ClassOther s.

Module Metadata.
Record t := mk {
  ArtefactID : string; TenantID : string; Class : Class_; URI : string; ObjectKey : string; SHA256Digest : string;
  ByteCount : Z; MediaType : string; Transport : string; AttemptID : string; EncryptionKeyRef : string;
  ParentArtefactID : string; ParentDigest : string; Manifest : option TransformationManifest.t;
  ManifestDigest : string; CreatedAt : Z }.
#[global] Instance eta_t : Eta t := fun x =>
  mk (ArtefactID x) (TenantID x) (Class x) (URI x) (ObjectKey x) (SHA256Digest x) (ByteCount x) (MediaType x)
     (Transport x) (AttemptID x) (EncryptionKeyRef x) (ParentArtefactID x) (ParentDigest x) (Manifest x)
     (ManifestDigest x) (CreatedAt x).
#[global] Instance eq_dec : EqDecision t.
Proof. solve_decision. Defined.
End Metadata.

(** ** The manifest's JSON

    A manifest without a version has the legacy layout, one with a version the
    v1 layout; fields marked [omitempty] are left out when empty. *)
Definition jarr {A} (f : A -> jtree) (s : option (list A)) : jtree := TArr (map f (elems s)).

Definition legacy_outcome_tree (o : TransformationOutcome.t) : jtree :=
  TObj ([key "Action" (jstr (TransformationOutcome.Action o)); key "ReasonCode" (jstr (TransformationOutcome.ReasonCode o));
         key "JSONPath" (jstr (TransformationOutcome.JSONPath o))] ++
        omitempty (TransformationOutcome.RulePosition o =? 0) "RulePosition" (jint (TransformationOutcome.RulePosition o)) ++
        [key "Count" (jint (TransformationOutcome.Count o))]).
Definition legacy_tree (m : TransformationManifest.t) : jtree :=
  TObj (omitempty (ManifestVersion m ==? "") "ManifestVersion" (jstr (ManifestVersion m)) ++
        [key "PipelineID" (jstr (PipelineID m)); key "PipelineVersion" (jstr (PipelineVersion m))] ++
        omitempty (RulesVersion m ==? "") "RulesVersion" (jstr (RulesVersion m)) ++
        omitempty (InputDigest m ==? "") "InputDigest" (jstr (InputDigest m)) ++
        omitempty (OutputDigest m ==? "") "OutputDigest" (jstr (OutputDigest m)) ++
        omitempty (OverallStatus m ==? "") "OverallStatus" (jstr (OverallStatus m)) ++
        [key "RedactionsApplied" (jslice jstr (RedactionsApplied m))] ++
        omitempty (no_elems (TaintedFields m)) "TaintedFields" (jslice jstr (TaintedFields m)) ++
        omitempty (no_elems (Outcomes m)) "Outcomes" (jslice legacy_outcome_tree (Outcomes m)) ++
        omitempty (negb (Quarantined m)) "Quarantined" (TBool (Quarantined m)) ++
        [key "Truncated" (TBool (Truncated m)); key "OriginalByteCount" (jint (OriginalByteCount m));
         key "OutputByteCount" (jint (OutputByteCount m))]).

Definition outcome_v1_tree (o : TransformationOutcome.t) : jtree :=
  TObj ([key "action" (jstr (TransformationOutcome.Action o)); key "reason_code" (jstr (TransformationOutcome.ReasonCode o));
         key "path" (jstr (TransformationOutcome.JSONPath o))] ++
        omitempty (TransformationOutcome.RulePosition o =? 0) "rule_position" (jint (TransformationOutcome.RulePosition o)) ++
        [key "count" (jint (TransformationOutcome.Count o))]).
Definition v1_tree (m : TransformationManifest.t) : jtree :=
  TObj ([key "manifest_version" (jstr (ManifestVersion m)); key "pipeline_id" (jstr (PipelineID m));
         key "sanitiser_version" (jstr (PipelineVersion m)); key "rule_set_version" (jstr (RulesVersion m));
         key "input_digest" (jstr (InputDigest m)); key "output_digest" (jstr (OutputDigest m));
         key "overall_status" (jstr (OverallStatus m));
         key "redactions_applied" (jslice jstr (RedactionsApplied m))] ++
        omitempty (no_elems (TaintedFields m)) "tainted_fields" (jslice jstr (TaintedFields m)) ++
        omitempty (no_elems (Outcomes m)) "transformations" (jarr outcome_v1_tree (Outcomes m)) ++
        omitempty (negb (Quarantined m)) "quarantined" (TBool (Quarantined m)) ++
        [key "truncated" (TBool (Truncated m)); key "original_byte_count" (jint (OriginalByteCount m));
         key "output_byte_count" (jint (OutputByteCount m))]).
Definition manifest_tree (m : TransformationManifest.t) : jtree :=
  if ManifestVersion m ==? "" then legacy_tree m else v1_tree m.
Definition MarshalJSON (m : TransformationManifest.t) : string := Marshal (manifest_tree m).

(** Reading it back. *)
Definition dec_outcome (names : string * string * string * string * string) (t : jtree) : option TransformationOutcome.t :=
  let '(action, reason, path, position, count) := names in
  match t with
  | TObj fs =>
    match decode_field dec_string action "" fs, decode_field dec_string reason "" fs, decode_field dec_string path "" fs,
          decode_field dec_uint64 position 0 fs, decode_field dec_uint64 count 0 fs with
    | Some a, Some r, Some p, Some n, Some c => Some (TransformationOutcome.mk a r p n c)
    | _, _, _, _, _ => None
    end
  | _ => None
  end.
Definition legacy_names := ("Action", "ReasonCode", "JSONPath", "RulePosition", "Count").
Definition v1_names := ("action", "reason_code", "path", "rule_position", "count").
Definition zero_outcome : TransformationOutcome.t := TransformationOutcome.mk "" "" "" 0 0.

Definition dec_legacy (fs : list (list item * jtree)) : option TransformationManifest.t :=
  match decode_field dec_string "ManifestVersion" "" fs, decode_field dec_string "PipelineID" "" fs,
        decode_field dec_string "PipelineVersion" "" fs, decode_field dec_string "RulesVersion" "" fs,
        decode_field dec_string "InputDigest" "" fs, decode_field dec_string "OutputDigest" "" fs,
        decode_field dec_string "OverallStatus" "" fs with
  | Some mv, Some pid, Some pv, Some rv, Some ind, Some outd, Some st =>
    match decode_field dec_strings "RedactionsApplied" None fs, decode_field dec_strings "TaintedFields" None fs,
          decode_field (dec_slice (dec_outcome legacy_names) zero_outcome) "Outcomes" None fs,
          decode_field dec_bool "Quarantined" false fs, decode_field dec_bool "Truncated" false fs,
          decode_field dec_uint64 "OriginalByteCount" 0 fs, decode_field dec_uint64 "OutputByteCount" 0 fs with
    | Some red, Some tf, Some oc, Some q, Some tr, Some ob, Some outb =>
      Some (TransformationManifest.mk mv pid pv rv ind outd st red tf oc q tr ob outb)
    | _, _, _, _, _, _, _ => None
    end
  | _, _, _, _, _, _, _ => None
  end.
(** The v1 decoder copies the outcomes into a made slice, which is never nil. *)
Definition dec_v1 (fs : list (list item * jtree)) : option TransformationManifest.t :=
  match decode_field dec_string "manifest_version" "" fs, decode_field dec_string "pipeline_id" "" fs,
        decode_field dec_string "sanitiser_version" "" fs, decode_field dec_string "rule_set_version" "" fs,
        decode_field dec_string "input_digest" "" fs, decode_field dec_string "output_digest" "" fs,
        decode_field dec_string "overall_status" "" fs with
  | Some mv, Some pid, Some pv, Some rv, Some ind, Some outd, Some st =>
    match decode_field dec_strings "redactions_applied" None fs, decode_field dec_strings "tainted_fields" None fs,
          decode_field (dec_slice (dec_outcome v1_names) zero_outcome) "transformations" None fs,
          decode_field dec_bool "quarantined" false fs, decode_field dec_bool "truncated" false fs,
          decode_field dec_uint64 "original_byte_count" 0 fs, decode_field dec_uint64 "output_byte_count" 0 fs with
    | Some red, Some tf, Some oc, Some q, Some tr, Some ob, Some outb =>
      Some (TransformationManifest.mk mv pid pv rv ind outd st red tf (Some (elems oc)) q tr ob outb)
    | _, _, _, _, _, _, _ => None
    end
  | _, _, _, _, _, _, _ => None
  end.
Definition dec_manifest (fs : list (list item * jtree)) : option TransformationManifest.t :=
  match decode_field dec_string "manifest_version" "" fs with
  | None => None
  | Some version => if version ==? "" then dec_legacy fs else dec_v1 fs
  end.
Definition UnmarshalJSON (payload : string) : result TransformationManifest.t :=
  match members payload with
  | None => Err (Text "json: cannot unmarshal value into Go value")
  | Some fs => match dec_manifest fs with
               | Some m => Ok m
               | None => Err (Text "json: cannot unmarshal value into Go value")
               end
  end.

(** ** Validation *)
Definition digestBytes (payload : string) : string := sha256_hex payload.
Definition validDigest (value : string) : bool :=
  (len value =? sha256DigestHexLength) && match hex_DecodeString value with Some _ => true | None => false end.
Definition invalidSegment (value : string) : bool :=
  (value ==? "") || (128 <? len value) || ContainsFunc (fun r => IsSpace r || IsControl r) value.
Definition unsafeManifestValue (value : string) (maximum : Z) : bool :=
  (value ==? "") || (maximum <? len value) || ContainsFunc IsControl value.

Definition validateManifestIdentityAndBounds (m : TransformationManifest.t) : option error :=
  if (ManifestVersion m !=? "") && (ManifestVersion m !=? TransformationManifestVersionV1) then
    Some (Text ("unsupported transformation manifest version " +:+ quote (ManifestVersion m)))
  else if (ManifestVersion m !=? "") && unsafeManifestValue (ManifestVersion m) 128 ||
          unsafeManifestValue (PipelineID m) 128 || unsafeManifestValue (PipelineVersion m) 128 ||
          (RulesVersion m !=? "") && unsafeManifestValue (RulesVersion m) 128 ||
          (256 <? slice_len (RedactionsApplied m)) || (512 <? slice_len (TaintedFields m)) ||
          (512 <? slice_len (Outcomes m)) then
    Some (Text "transformation manifest identity or entry bounds are invalid")
  else None.
Definition validateManifestEntries (m : TransformationManifest.t) : option error :=
  if existsb (fun value => unsafeManifestValue value 512) (elems (RedactionsApplied m) ++ elems (TaintedFields m)) then
    Some (Text "transformation manifest field is invalid")
  else if existsb (fun o => unsafeManifestValue (TransformationOutcome.Action o) 64 ||
                            unsafeManifestValue (TransformationOutcome.ReasonCode o) 128 ||
                            unsafeManifestValue (TransformationOutcome.JSONPath o) 512 ||
                            (TransformationOutcome.Count o =? 0)) (elems (Outcomes m)) then
    Some (Text "transformation outcome is invalid")
  else None.
Definition validOverallStatus (m : TransformationManifest.t) : bool :=
  if OverallStatus m ==? "clean" then negb (Quarantined m) && (slice_len (TaintedFields m) =? 0)
  else if OverallStatus m ==? "tainted" then negb (Quarantined m) && (0 <? slice_len (TaintedFields m))
  else if OverallStatus m ==? "quarantined" then Quarantined m
  else false.
Definition validateTransformationManifest (m : TransformationManifest.t) : option error :=
  match validateManifestIdentityAndBounds m with
  | Some e => Some e
  | None =>
    if (ManifestVersion m !=? "") &&
       (negb (validDigest (InputDigest m)) || negb (validDigest (OutputDigest m)) || negb (validOverallStatus m)) then
      Some (Text "versioned transformation manifest digests or status are invalid")
    else validateManifestEntries m
  end.
(** Encoding a manifest never fails: it has no value that JSON lacks. *)
Definition transformationDigest (m : TransformationManifest.t) : string := digestBytes (MarshalJSON m).
Definition encodeManifest (m : option TransformationManifest.t) : option string := option_map MarshalJSON m.

(** The storage boundary of the evidence pipeline; both stores implement it. *)
Class PipelineStore (St : Type) := {
  PutCapturedForTenant : string -> string -> string -> string -> string -> string -> Z -> St -> result CapturedRef.t * St;
  PutSanitisedForTenant :
    string -> string -> string -> CapturedRef.t -> TransformationManifest.t -> Z -> St -> result SanitisedRef.t * St }.

(** ** The in-memory store *)
Module MemoryStore.
Record t := mk { objects : gmap string string }.
Definition NewStore : t := mk ∅.

Definition put (class payload : string) (s : t) : (string * string) * t :=
  let digest := digestBytes payload in
  let uri := "artefact://" +:+ class +:+ "/sha256/" +:+ digest in
  match objects s !! uri with
  | Some _ => ((digest, uri), s)
  | None => ((digest, uri), mk (<[uri := payload]> (objects s)))
  end.

Definition PutCaptured (payload mediaType transport attemptID encryptionKeyRef : string) (capturedAt : Z) (s : t) :
    result CapturedRef.t * t :=
  if (payload ==? "") || (mediaType ==? "") || (transport ==? "") || (attemptID ==? "") || (encryptionKeyRef ==? "") ||
     IsZero capturedAt then
    (Err (Text "captured payload and metadata are required"), s)
  else
    let '((digest, uri), s) := put "captured" payload s in
    (Ok (CapturedRef.mk uri digest (len payload) mediaType transport capturedAt attemptID encryptionKeyRef), s).

Definition PutSanitised (payload mediaType parentDigest : string) (m : TransformationManifest.t) (createdAt : Z) (s : t) :
    result SanitisedRef.t * t :=
  if (payload ==? "") || (mediaType ==? "") || (parentDigest ==? "") || (PipelineID m ==? "") ||
     (PipelineVersion m ==? "") || IsZero createdAt then
    (Err (Text "sanitised payload, parent, manifest and creation time are required"), s)
  else if negb (OutputByteCount m =? len payload) then
    (Err (Text "manifest output byte count does not match payload"), s)
  else if (ManifestVersion m !=? "") &&
          ((InputDigest m !=? parentDigest) || (OutputDigest m !=? digestBytes payload)) then
    (Err (Text "manifest input or output digest does not match artefact lineage"), s)
  else match validateTransformationManifest m with
  | Some e => (Err e, s)
  | None =>
    match objects s !! ("artefact://captured/sha256/" +:+ parentDigest) with
    | None => (Err (Text ("parent captured artefact " +:+ quote parentDigest +:+ " not found")), s)
    | Some _ =>
      let '((digest, uri), s) := put "sanitised" payload s in
      (Ok (SanitisedRef.mk uri digest (len payload) mediaType parentDigest (transformationDigest m) createdAt), s)
    end
  end.

Definition PutCapturedForTenant (tenantID payload mediaType transport attemptID encryptionKeyRef : string)
    (capturedAt : Z) (s : t) : result CapturedRef.t * t :=
  if invalidSegment tenantID then (Err (Text "tenant is required"), s)
  else PutCaptured payload mediaType transport attemptID encryptionKeyRef capturedAt s.
Definition PutSanitisedForTenant (tenantID payload mediaType : string) (parent : CapturedRef.t)
    (m : TransformationManifest.t) (createdAt : Z) (s : t) : result SanitisedRef.t * t :=
  if invalidSegment tenantID || (CapturedRef.URI parent ==? "") then
    (Err (Text "tenant and captured parent are required"), s)
  else PutSanitised payload mediaType (CapturedRef.SHA256Digest parent) m createdAt s.

Definition Get (uri : string) (s : t) : result string :=
  match objects s !! uri with
  | Some payload => Ok payload
  | None => Err (Text ("artefact " +:+ quote uri +:+ " not found"))
  end.
End MemoryStore.

#[export] Instance memory_store : PipelineStore MemoryStore.t := {|
  PutCapturedForTenant := MemoryStore.PutCapturedForTenant;
  PutSanitisedForTenant := MemoryStore.PutSanitisedForTenant |}.

(** ** The durable store *)

(** Unpadded URL-safe base64. *)
Definition base64_raw_url (s : string) : string :=
  of_bytes (map (fun b => if b =? 43 then 45 else if b =? 47 then 95 else b)
    (filter (fun b => b <> 61) (base64_encode (bytes s)))).
Definition objectKey (tenantID : string) (class : Class_) (digest : string) : string :=
  "tenants/" +:+ base64_raw_url tenantID +:+ "/" +:+ class_string class +:+ "/sha256/" +:+
  String.substring 0 2 digest +:+ "/" +:+ digest.

(** What opening an object gives: the outcome of reading it to the end and the
    outcome of closing it. *)
Module Reader.
Record t := mk { body : result string; Close : option error }.
End Reader.

Class BlobStore (St : Type) := {
  PutIfAbsent : string -> string -> string -> string -> St -> result unit * St;
  blob_Get : string -> St -> result Reader.t }.
Class MetadataRepository (St : Type) := {
  metadata_Create : Metadata.t -> St -> result unit * St;
  metadata_Get : string -> string -> St -> result Metadata.t }.

Definition newMetadata (tenantID : string) (class : Class_) (digest : string) (size : Z) (mediaType : string)
    (createdAt : Z) (identity : string) : Metadata.t :=
  let stableIdentity := tenantID +:+ NUL +:+ class_string class +:+ NUL +:+ identity +:+ NUL +:+ digest in
  let artefactID := "artefact-" +:+ hex_EncodeToString (firstn 16 (Sum256 (bytes stableIdentity))) in
  Metadata.mk artefactID tenantID class ("artefact://" +:+ artefactID) (objectKey tenantID class digest) digest size
    mediaType "" "" "" "" "" None "" (Truncate createdAt Microsecond).

Definition capturedRef (m : Metadata.t) : CapturedRef.t :=
  CapturedRef.mk (Metadata.URI m) (Metadata.SHA256Digest m) (Metadata.ByteCount m) (Metadata.MediaType m)
    (Metadata.Transport m) (Metadata.CreatedAt m) (Metadata.AttemptID m) (Metadata.EncryptionKeyRef m).
Definition sanitisedRef (m : Metadata.t) : SanitisedRef.t :=
  SanitisedRef.mk (Metadata.URI m) (Metadata.SHA256Digest m) (Metadata.ByteCount m) (Metadata.MediaType m)
    (Metadata.ParentDigest m) (Metadata.ManifestDigest m) (Metadata.CreatedAt m).

Definition validateCommon (tenantID payload mediaType : string) (createdAt : Z) : option error :=
  if invalidSegment tenantID || (payload ==? "") || (MaximumArtefactBytes <? len payload) || (mediaType ==? "") ||
     IsZero createdAt then
    Some (Text "tenant, bounded payload, media type and creation time are required")
  else None.

Module DurableStore.
Section Operations.
Context {St : Type} `{BlobStore St} `{MetadataRepository St}.

(** First the bytes, then the record that makes them reachable. *)
Definition persist (m : Metadata.t) (payload : string) (st : St) : result unit * St :=
  match PutIfAbsent (Metadata.ObjectKey m) payload (Metadata.SHA256Digest m) (Metadata.MediaType m) st with
  | (Err e, st) => (Err (Wrapf "store immutable artefact object: " e ""), st)
  | (Ok _, st) =>
    match metadata_Create m st with
    | (Err e, st) => (Err (Wrapf "record immutable artefact metadata: " e ""), st)
    | (Ok _, st) => (Ok tt, st)
    end
  end.

Definition captured_metadata (tenantID payload mediaType transport attemptID encryptionKeyRef : string) (capturedAt : Z) :
    Metadata.t :=
  (newMetadata tenantID ClassCaptured (digestBytes payload) (len payload) mediaType capturedAt attemptID)
    <| Metadata.Transport := transport |> <| Metadata.AttemptID := attemptID |>
    <| Metadata.EncryptionKeyRef := encryptionKeyRef |>.

Definition PutCaptured (tenantID payload mediaType transport attemptID encryptionKeyRef : string) (capturedAt : Z)
    (st : St) : result CapturedRef.t * St :=
  match validateCommon tenantID payload mediaType capturedAt with
  | Some e => (Err e, st)
  | None =>
    if (transport ==? "") || (attemptID ==? "") || (encryptionKeyRef ==? "") then
      (Err (Text "captured transport, attempt and encryption key are required"), st)
    else
      let m := captured_metadata tenantID payload mediaType transport attemptID encryptionKeyRef capturedAt in
      match persist m payload st with
      | (Err e, st) => (Err e, st)
      | (Ok _, st) => (Ok (capturedRef m), st)
      end
  end.

Definition sanitised_metadata (tenantID payload mediaType : string) (parent : Metadata.t) (parentDigest : string)
    (manifest : TransformationManifest.t) (createdAt : Z) : Metadata.t :=
  let manifestDigest := transformationDigest manifest in
  (newMetadata tenantID ClassSanitised (digestBytes payload) (len payload) mediaType createdAt
     (Metadata.ArtefactID parent +:+ NUL +:+ manifestDigest))
    <| Metadata.ParentArtefactID := Metadata.ArtefactID parent |>
    <| Metadata.ParentDigest := parentDigest |>
    <| Metadata.ManifestDigest := manifestDigest |>
    <| Metadata.Manifest := Some (manifest <| RedactionsApplied := copy_slice (RedactionsApplied manifest) |>
                                           <| TaintedFields := copy_slice (TaintedFields manifest) |>
                                           <| Outcomes := copy_slice (Outcomes manifest) |>) |>.

Definition PutSanitised (tenantID payload mediaType : string) (parent : CapturedRef.t)
    (manifest : TransformationManifest.t) (createdAt : Z) (st : St) : result SanitisedRef.t * St :=
  match validateCommon tenantID payload mediaType createdAt with
  | Some e => (Err e, st)
  | None =>
    if (CapturedRef.URI parent ==? "") || (CapturedRef.SHA256Digest parent ==? "") || (PipelineID manifest ==? "") ||
       (PipelineVersion manifest ==? "") || negb (OriginalByteCount manifest =? CapturedRef.ByteCount parent) ||
       negb (OutputByteCount manifest =? len payload) then
      (Err (Text "sanitised parent and matching transformation manifest are required"), st)
    else match validateTransformationManifest manifest with
    | Some e => (Err e, st)
    | None =>
      if (ManifestVersion manifest !=? "") &&
         ((InputDigest manifest !=? CapturedRef.SHA256Digest parent) || (OutputDigest manifest !=? digestBytes payload)) then
        (Err (Text "manifest input or output digest does not match artefact lineage"), st)
      else match metadata_Get tenantID (CapturedRef.URI parent) st with
      | Err e => (Err (Wrapf "get captured parent: " e ""), st)
      | Ok parentMetadata =>
        if (Metadata.Class parentMetadata !=? ClassCaptured) ||
           (Metadata.SHA256Digest parentMetadata !=? CapturedRef.SHA256Digest parent) then
          (Err (Text "captured parent metadata does not match the supplied reference"), st)
        else
          let m := sanitised_metadata tenantID payload mediaType parentMetadata (CapturedRef.SHA256Digest parent)
                     manifest createdAt in
          match persist m payload st with
          | (Err e, st) => (Err e, st)
          | (Ok _, st) => (Ok (sanitisedRef m), st)
          end
      end
    end
  end.

(** [io.LimitReader]: at most one byte more than the limit is read. *)
Definition limited (payload : string) : string :=
  if len payload <=? MaximumArtefactBytes + 1 then payload
  else String.substring 0 (Z.to_nat (MaximumArtefactBytes + 1)) payload.

Definition Get (tenantID uri : string) (st : St) : result (string * Metadata.t) :=
  if invalidSegment tenantID || (uri ==? "") then Err (Text "tenant and artefact URI are required")
  else match metadata_Get tenantID uri st with
  | Err e => Err e
  | Ok m =>
    match blob_Get (Metadata.ObjectKey m) st with
    | Err e => Err (Wrapf "get artefact object: " e "")
    | Ok reader =>
      let outcome :=
        match Reader.body reader with
        | Err e => Err (Wrapf "read artefact object: " e "")
        | Ok content =>
          let payload := limited content in
          if negb (len payload =? Metadata.ByteCount m) || (digestBytes payload !=? Metadata.SHA256Digest m) then
            Err ErrIntegrityFailure
          else Ok (payload, m)
        end in
      match Reader.Close reader, outcome with
      | None, _ => outcome
      | Some c, Ok _ => Err (Wrapf "close artefact object: " c "")
      | Some c, Err e => Err (Join e (Wrapf "close artefact object: " c ""))
      end
    end
  end.
End Operations.
End DurableStore.

#[export] Instance durable_store {St} `{BlobStore St} `{MetadataRepository St} : PipelineStore St := {|
  PutCapturedForTenant := DurableStore.PutCaptured;
  PutSanitisedForTenant := DurableStore.PutSanitised |}.

(** ** Blobs in S3

    [strings.Split], [strings.Trim] and [path.Clean] on slash-separated paths. *)
Definition slash : ascii := of_byte 47.
Fixpoint Split (s : string) : list string :=
  match s with
  | EmptyString => [""]
  | String c rest =>
    if decide (c = slash) then "" :: Split rest
    else match Split rest with part :: parts => String c part :: parts | [] => [String c ""] end
  end.
Definition join_path (parts : list string) : string := String.concat "/" parts.
Definition Trim_slashes (s : string) : string :=
  let keep := drop_while (fun c => bool_decide (c = slash)) in
  String.string_of_list_ascii (rev (keep (rev (keep (String.list_ascii_of_string s))))).

(** One element of the path: "" and "." are dropped, ".." removes the element
    before it, is dropped at a root and kept at the start of a relative path. *)
Definition clean_step (rooted : bool) (out : list string) (part : string) : list string :=
  if (part ==? "") || (part ==? ".") then out
  else if part ==? ".." then
    match out with
    | last :: rest => if last ==? ".." then ".." :: out else rest
    | [] => if rooted then [] else [".."]
    end
  else part :: out.
Definition path_Clean (p : string) : string :=
  let rooted := HasPrefix p "/" in
  let out := rev (fold_left (clean_step rooted) (Split p) []) in
  let body := join_path out in
  if rooted then "/" +:+ body else if body ==? "" then "." else body.

Definition base64url_value (b : Z) : option Z :=
  if in_range 65 b 90 then Some (b - 65) else if in_range 97 b 122 then Some (b - 71)
  else if in_range 48 b 57 then Some (b + 4) else if b =? 45 then Some 62 else if b =? 95 then Some 63 else None.
(** [base64.RawURLEncoding.DecodeString]: groups of four digits give three
    bytes, a last group of two or three gives one or two; line breaks are
    skipped. *)
Fixpoint base64url_digits (vs : list Z) : option (list Z) :=
  match vs with
  | [] => Some []
  | [_] => None
  | [a; b] => Some [a * 4 + b / 16]
  | [a; b; c] => Some [a * 4 + b / 16; b mod 16 * 16 + c / 4]
  | a :: b :: c :: d :: rest =>
    option_map (fun t => a * 4 + b / 16 :: b mod 16 * 16 + c / 4 :: c mod 4 * 64 + d :: t) (base64url_digits rest)
  end.
Definition base64url_decode (s : string) : option string :=
  let text := List.filter (fun b => negb (b =? 13) && negb (b =? 10)) (bytes s) in
  match mapM base64url_value text with
  | Some vs => option_map of_bytes (base64url_digits vs)
  | None => None
  end.

Definition canonical_key_error : error := Text "tenant-scoped canonical object key is required".
Definition validateBlobKey (k : string) : option error :=
  if negb (HasPrefix k "tenants/") || HasPrefix k "/" || Contains k ".." || (path_Clean k !=? k) then
    Some canonical_key_error
  else match Split k with
  | [p0; p1; p2; p3; p4; p5] =>
    if (p0 !=? "tenants") || (p1 ==? "") ||
       (p2 !=? class_string ClassCaptured) && (p2 !=? class_string ClassSanitised) || (p3 !=? "sha256") ||
       negb (validDigest p5) || (p4 !=? String.substring 0 2 p5) then Some canonical_key_error
    else match base64url_decode p1 with
    | Some tenant => if invalidSegment tenant then Some canonical_key_error else None
    | None => Some canonical_key_error
    end
  | _ => Some canonical_key_error
  end.
Definition validateBlobWrite (k payload digest mediaType : string) : option error :=
  match validateBlobKey k with
  | Some e => Some e
  | None =>
    if (payload ==? "") || (MaximumArtefactBytes <? len payload) || negb (len digest =? 64) ||
       (digestBytes payload !=? digest) || (mediaType ==? "") then
      Some (Text "bounded payload, matching SHA-256 digest and media type are required")
    else None
  end.

(** The part of the S3 client that is used.  An object has its bytes and the
    digest kept in its metadata; [HeadObject] gives the length, when the server
    sends one, and the digest; a response may lack a body. *)
Class S3 (St : Type) := {
  PutObject : string -> string -> string -> string -> string -> St -> result unit * St;
  HeadObject : string -> string -> St -> result (option Z * option string);
  GetObject : string -> string -> St -> result (option Reader.t) }.

Module S3BlobStore.
Record t := mk { bucket : string; prefix : string }.
Definition New (bucket prefix : string) : result t :=
  let prefix := Trim_slashes prefix in
  if (bucket ==? "") || Contains bucket "/" || Contains prefix ".." then
    Err (Text "S3 client, bucket and safe optional prefix are required")
  else Ok (mk bucket prefix).
Definition object_key (s : t) (k : string) : string :=
  if prefix s ==? "" then k else path_Clean (prefix s +:+ "/" +:+ k).

Section Operations.
Context {St : Type} `{S3 St} (s : t).
Definition PutIfAbsent (k payload digest mediaType : string) (st : St) : result unit * St :=
  match validateBlobWrite k payload digest mediaType with
  | Some e => (Err e, st)
  | None =>
    match PutObject (bucket s) (object_key s k) payload mediaType digest st with
    | (Ok _, st) => (Ok tt, st)
    | (Err e, st) =>
      match HeadObject (bucket s) (object_key s k) st with
      | Ok (Some n, Some d) =>
        if (n =? len payload) && (d ==? digest) then (Ok tt, st)
        else (Err (Wrapf "conditionally put S3 artefact object: " e ""), st)
      | _ => (Err (Wrapf "conditionally put S3 artefact object: " e ""), st)
      end
    end
  end.
Definition Get (k : string) (st : St) : result Reader.t :=
  match validateBlobKey k with
  | Some e => Err e
  | None =>
    match GetObject (bucket s) (object_key s k) st with
    | Err e => Err (Wrapf "get S3 artefact object: " e "")
    | Ok None => Err (Text "S3 artefact object has no response body")
    | Ok (Some reader) => Ok reader
    end
  end.
End Operations.
End S3BlobStore.

#[export] Instance s3_blobs {St} `{S3 St} (s : S3BlobStore.t) : BlobStore St := {|
  PutIfAbsent := S3BlobStore.PutIfAbsent s; blob_Get := S3BlobStore.Get s |}.

(** ** Metadata in PostgreSQL *)
Definition validateCapturedMetadata (m : Metadata.t) : option error :=
  if (Metadata.Transport m ==? "") || (Metadata.AttemptID m ==? "") || (Metadata.EncryptionKeyRef m ==? "") ||
     (Metadata.ParentArtefactID m !=? "") || (Metadata.ParentDigest m !=? "") || (Metadata.Manifest m !=? None) ||
     (Metadata.ManifestDigest m !=? "") then
    Some (Text "captured artefact metadata is invalid")
  else None.
Definition validateSanitisedMetadata (m : Metadata.t) : option error :=
  if (Metadata.Transport m !=? "") || (Metadata.AttemptID m !=? "") || (Metadata.EncryptionKeyRef m !=? "") ||
     (Metadata.ParentArtefactID m ==? "") || negb (validDigest (Metadata.ParentDigest m)) ||
     (Metadata.Manifest m ==? None) || negb (validDigest (Metadata.ManifestDigest m)) then
    Some (Text "sanitised artefact metadata is invalid")
  else None.
Definition validateMetadata (m : Metadata.t) : option error :=
  if (Metadata.ArtefactID m ==? "") || invalidSegment (Metadata.TenantID m) ||
     (Metadata.URI m !=? "artefact://" +:+ Metadata.ArtefactID m) || (Metadata.ObjectKey m ==? "") ||
     negb (validDigest (Metadata.SHA256Digest m)) || (Metadata.ByteCount m =? 0) ||
     (MaximumArtefactBytes <? Metadata.ByteCount m) || (Metadata.MediaType m ==? "") || IsZero (Metadata.CreatedAt m) then
    Some (Text "complete bounded artefact metadata and database are required")
  else if Metadata.ObjectKey m !=? objectKey (Metadata.TenantID m) (Metadata.Class m) (Metadata.SHA256Digest m) then
    Some (Text "artefact object key does not match tenant, class and digest")
  else match Metadata.Class m with
  | ClassCaptured => validateCapturedMetadata m
  | ClassSanitised => validateSanitisedMetadata m
  | ClassOther _ => Some (Text "artefact class is invalid")
  end.
(** Every field, the manifests by [reflect.DeepEqual]. *)
Definition metadataEqual (left right : Metadata.t) : bool := left ==? right.

Module PostgresRepository.
Section Operations.
Context `{Jsonb}.

(** The row of a record; [manifest] is the stored document. *)
Definition artefact_row (ts : Z) (m : Metadata.t) (manifest : option string) : ArtefactRow.t :=
  ArtefactRow.mk (Metadata.ArtefactID m) (Metadata.TenantID m) (class_string (Metadata.Class m)) (Metadata.URI m)
    (Metadata.ObjectKey m) (Metadata.SHA256Digest m) (Metadata.ByteCount m) (Metadata.MediaType m)
    (NULLIF (Metadata.Transport m)) (NULLIF (Metadata.AttemptID m)) (NULLIF (Metadata.EncryptionKeyRef m))
    (NULLIF (Metadata.ParentArtefactID m)) (NULLIF (Metadata.ParentDigest m)) manifest
    (NULLIF (Metadata.ManifestDigest m)) (normaliseTime (Metadata.CreatedAt m)) ts.
Definition artefact_params (m : Metadata.t) : list string :=
  [Metadata.ArtefactID m; Metadata.TenantID m; class_string (Metadata.Class m); Metadata.URI m; Metadata.ObjectKey m;
   Metadata.SHA256Digest m; Metadata.MediaType m; Metadata.Transport m; Metadata.AttemptID m;
   Metadata.EncryptionKeyRef m; Metadata.ParentArtefactID m; Metadata.ParentDigest m; Metadata.ManifestDigest m].

(** [broker_artefacts_parent]: the parent exists for the same tenant. *)
Definition parent_exists (db : DB.t) (row : ArtefactRow.t) : bool :=
  match ArtefactRow.parent_artefact_id row with
  | None => true
  | Some parent =>
    match DB.artefacts db !! parent with
    | Some r => ArtefactRow.tenant_id r ==? ArtefactRow.tenant_id row
    | None => false
    end
  end.
Definition by_uri (uri : string) (db : DB.t) : option ArtefactRow.t :=
  find (fun r => ArtefactRow.uri r ==? uri) (map snd (map_to_list (DB.artefacts db))).

(** [INSERT ... ON CONFLICT (artefact_id) DO NOTHING]: whether a row was
    inserted. *)
Definition insert_artefact (params : list string) (row : ArtefactRow.t) (db : DB.t) : result (bool * DB.t) :=
  if negb (all_encodable params) then Err invalid_text
  else if negb (ArtefactRow.check row) then Err check_violation
  else match DB.artefacts db !! ArtefactRow.artefact_id row with
  | Some _ => Ok (false, db)
  | None =>
    if negb (is_null (by_uri (ArtefactRow.uri row) db)) then Err unique_violation
    else if negb (parent_exists db row) then Err foreign_key_violation
    else Ok (true, db <| DB.artefacts := <[ArtefactRow.artefact_id row := row]> (DB.artefacts db) |>)
  end.

Definition initial_lifecycle (ts : Z) (tenantID artefactID : string) : LifecycleRow.t :=
  LifecycleRow.mk tenantID artefactID "active" None false 1 ts.
Definition initial_event (ts : Z) (tenantID artefactID : string) : LifecycleEventRow.t :=
  LifecycleEventRow.mk tenantID artefactID 1 "created" None "active" None None None false "system:artefact-store"
    "artefact metadata recorded" ts.
Definition insert_lifecycle (row : LifecycleRow.t) (db : DB.t) : result DB.t :=
  match DB.lifecycles db !! LifecycleRow.primary_key row with
  | Some _ => Err unique_violation
  | None => Ok (db <| DB.lifecycles := <[LifecycleRow.primary_key row := row]> (DB.lifecycles db) |>)
  end.
Definition append_event (row : LifecycleEventRow.t) (db : DB.t) : result DB.t :=
  if negb (LifecycleEventRow.check row) then Err check_violation
  else if existsb (fun r => LifecycleEventRow.unique_key r ==? LifecycleEventRow.unique_key row) (DB.lifecycle_events db) then
    Err unique_violation
  else Ok (db <| DB.lifecycle_events := DB.lifecycle_events db ++ [row] |>).

Definition scan_artefact (r : ArtefactRow.t) : result Metadata.t :=
  let scanned manifest :=
    Metadata.mk (ArtefactRow.artefact_id r) (ArtefactRow.tenant_id r) (class_of (ArtefactRow.class r)) (ArtefactRow.uri r)
      (ArtefactRow.object_key r) (ArtefactRow.sha256_digest r) (ArtefactRow.byte_count r) (ArtefactRow.media_type r)
      (COALESCE (ArtefactRow.transport r)) (COALESCE (ArtefactRow.attempt_id r))
      (COALESCE (ArtefactRow.encryption_key_ref r)) (COALESCE (ArtefactRow.parent_artefact_id r))
      (COALESCE (ArtefactRow.parent_digest r)) manifest (COALESCE (ArtefactRow.manifest_digest r))
      (ArtefactRow.created_at r) in
  let document := COALESCE (ArtefactRow.transformation_manifest r) in
  if document ==? "" then Ok (scanned None)
  else match UnmarshalJSON document with
  | Err e => Err (Wrapf "decode transformation manifest: " e "")
  | Ok manifest => Ok (scanned (Some manifest))
  end.

Definition Get (tenantID uri : string) (db : DB.t) : result Metadata.t :=
  if invalidSegment tenantID || (uri ==? "") then Err (Text "artefact database, tenant and URI are required")
  else if negb (all_encodable [tenantID; uri]) then Err (Wrapf "get artefact metadata: " invalid_text "")
  else match by_uri uri db with
  | Some r => if ArtefactRow.tenant_id r ==? tenantID then scan_artefact r else Err ErrArtefactNotFound
  | None => Err ErrArtefactNotFound
  end.

(** The document of the JSONB column, NULL for a nil manifest; [None] when the
    server refuses it. *)
Definition stored_manifest (m : Metadata.t) : option (option string) :=
  match encodeManifest (Metadata.Manifest m) with
  | None => Some None
  | Some document => option_map Some (jsonb document)
  end.

(** One transaction inserts the record, its lifecycle and its first event; a
    record that exists already must be the same.  [ts] is the database's
    [CURRENT_TIMESTAMP]. *)
Definition Create (ts : Z) (m : Metadata.t) (db : DB.t) : result unit * DB.t :=
  match validateMetadata m with
  | Some e => (Err e, db)
  | None =>
    match stored_manifest m with
    | None => (Err (Wrapf "insert artefact metadata: " invalid_json ""), db)
    | Some document =>
      match insert_artefact (artefact_params m) (artefact_row ts m document) db with
      | Err e => (Err (Wrapf "insert artefact metadata: " e ""), db)
      | Ok (true, db') =>
        match insert_lifecycle (initial_lifecycle ts (Metadata.TenantID m) (Metadata.ArtefactID m)) db' with
        | Err e => (Err (Wrapf "insert initial artefact lifecycle: " e ""), db)
        | Ok db' =>
          match append_event (initial_event ts (Metadata.TenantID m) (Metadata.ArtefactID m)) db' with
          | Err e => (Err (Wrapf "append initial artefact lifecycle event: " e ""), db)
          | Ok db' => (Ok tt, db')
          end
        end
      | Ok (false, _) =>
        match Get (Metadata.TenantID m) (Metadata.URI m) db with
        | Err e => if errors_Is e ErrArtefactNotFound then (Err ErrMetadataConflict, db)
                   else (Err (Wrapf "read idempotent artefact metadata: " e ""), db)
        | Ok existing => if metadataEqual existing m then (Ok tt, db) else (Err ErrMetadataConflict, db)
        end
      end
    end
  end.
End Operations.
End PostgresRepository.

(** ** The manifest round trip *)

(** Text that JSON represents exactly and numbers of their Go types. *)
Definition outcome_fits (o : TransformationOutcome.t) : Prop :=
  ValidString (TransformationOutcome.Action o) = true /\ ValidString (TransformationOutcome.ReasonCode o) = true /\
  ValidString (TransformationOutcome.JSONPath o) = true /\ uint64_range (TransformationOutcome.RulePosition o) /\
  uint64_range (TransformationOutcome.Count o).
Definition manifest_fits (m : TransformationManifest.t) : Prop :=
  Forall (fun s => ValidString s = true)
    [ManifestVersion m; PipelineID m; PipelineVersion m; RulesVersion m; InputDigest m; OutputDigest m; OverallStatus m] /\
  Forall (fun s => ValidString s = true) (elems (RedactionsApplied m) ++ elems (TaintedFields m)) /\
  Forall outcome_fits (elems (Outcomes m)) /\ uint64_range (OriginalByteCount m) /\ uint64_range (OutputByteCount m).

(** What is read back: empty slices that were left out are nil, and the
    outcomes of a versioned manifest are never nil. *)
Definition reread (m : TransformationManifest.t) : TransformationManifest.t :=
  if ManifestVersion m ==? "" then m <| TaintedFields := copy_slice (TaintedFields m) |> <| Outcomes := copy_slice (Outcomes m) |>
  else m <| TaintedFields := copy_slice (TaintedFields m) |> <| Outcomes := Some (elems (Outcomes m)) |>.

Definition fields_of (t : jtree) : list (list item * jtree) := match t with TObj fs => fs | _ => [] end.

Lemma outcome_roundtrip o : outcome_fits o ->
  dec_outcome legacy_names (legacy_outcome_tree o) = Some o /\ dec_outcome v1_names (outcome_v1_tree o) = Some o.
Proof.
  destruct o as [a r p n c]. intros (H1 & H2 & H3 & H4 & H5).
  cbn [TransformationOutcome.Action TransformationOutcome.ReasonCode TransformationOutcome.JSONPath
       TransformationOutcome.RulePosition TransformationOutcome.Count] in *.
  unfold dec_outcome, legacy_names, v1_names, legacy_outcome_tree, outcome_v1_tree. split; by decode_members.
Qed.

Lemma manifest_roundtrip m : manifest_fits m -> dec_manifest (fields_of (manifest_tree m)) = Some (reread m).
Proof.
  destruct m as [mv pid pv rv ind outd st red tf oc q tr ob outb]. intros (Hs & Hl & Ho & Hn1 & Hn2).
  cbn [ManifestVersion PipelineID PipelineVersion RulesVersion InputDigest OutputDigest OverallStatus
       RedactionsApplied TaintedFields Outcomes OriginalByteCount OutputByteCount] in *.
  rewrite !list.Forall_cons in Hs. destruct Hs as (H1 & H2 & H3 & H4 & H5 & H6 & H7 & _).
  apply list.Forall_app in Hl as [Hred Htf].
  assert (Hstr : forall l, Forall (fun s => ValidString s = true) l -> Forall (elem_reads jstr dec_string) l).
  { intros l. apply List.Forall_impl. intros s Hv. by split; [|apply dec_string_jstr]. }
  apply Hstr in Hred, Htf.
  assert (Hoc : Forall (elem_reads legacy_outcome_tree (dec_outcome legacy_names)) (elems oc) /\
                Forall (elem_reads outcome_v1_tree (dec_outcome v1_names)) (elems oc)).
  { split; (eapply List.Forall_impl; [|exact Ho]); intros o Hf; (split; [done|by apply outcome_roundtrip]). }
  destruct Hoc as [Hoc1 Hoc2]. unfold manifest_tree, reread, dec_manifest. cbn [ManifestVersion].
  destruct (mv ==? "") eqn:Hmv; reflect_bools.
  - subst mv. unfold legacy_tree. cbn [fields_of ManifestVersion PipelineID PipelineVersion RulesVersion InputDigest OutputDigest
       OverallStatus RedactionsApplied TaintedFields Outcomes Quarantined Truncated OriginalByteCount OutputByteCount].
    assert (E : decode_field dec_string "manifest_version" "" (fields_of (legacy_tree
      (TransformationManifest.mk "" pid pv rv ind outd st red tf oc q tr ob outb))) = Some "").
    { unfold legacy_tree. cbn [fields_of]. by skip_members. }
    unfold legacy_tree in E. cbn [fields_of ManifestVersion PipelineID PipelineVersion RulesVersion InputDigest OutputDigest
       OverallStatus RedactionsApplied TaintedFields Outcomes Quarantined Truncated OriginalByteCount OutputByteCount] in E.
    rewrite E. unfold dec_legacy, dec_strings. by decode_members.
  - unfold v1_tree, jarr. cbn [fields_of ManifestVersion PipelineID PipelineVersion RulesVersion InputDigest OutputDigest
       OverallStatus RedactionsApplied TaintedFields Outcomes Quarantined Truncated OriginalByteCount OutputByteCount].
    unfold dec_v1, dec_strings. decode_members. by rewrite bool_decide_eq_false_2, elems_copy_slice by done.
Qed.

Lemma outcome_good o : outcome_fits o -> good 1 (legacy_outcome_tree o) /\ good 1 (outcome_v1_tree o).
Proof.
  intros (_ & _ & _ & H4 & H5). split; (apply good_obj; [done|..]).
  - distinct (["Action"; "ReasonCode"; "JSONPath"] ++ ["RulePosition"] ++ ["Count"]).
  - good_members; by first [apply good_str | apply good_uint].
  - distinct (["action"; "reason_code"; "path"] ++ ["rule_position"] ++ ["count"]).
  - good_members; by first [apply good_str | apply good_uint].
Qed.

Lemma manifest_good m : manifest_fits m -> good 3 (manifest_tree m).
Proof.
  intros (_ & _ & Ho & Hn1 & Hn2).
  assert (Ho' : Forall (fun o => good 1 (legacy_outcome_tree o)) (elems (Outcomes m)) /\
                Forall (fun o => good 1 (outcome_v1_tree o)) (elems (Outcomes m))).
  { split; (eapply List.Forall_impl; [|exact Ho]); intros o Hf; by apply outcome_good. }
  destruct Ho' as [Ho1 Ho2]. assert (Hs : forall l, Forall (fun s => good 1 (jstr s)) l).
  { intros l. apply list.Forall_forall. intros s _. by apply good_str. }
  unfold manifest_tree. destruct (ManifestVersion m ==? ""); (apply good_obj; [done|..]).
  - distinct (["ManifestVersion"] ++ ["PipelineID"; "PipelineVersion"] ++ ["RulesVersion"] ++ ["InputDigest"] ++
      ["OutputDigest"] ++ ["OverallStatus"] ++ ["RedactionsApplied"] ++ ["TaintedFields"] ++ ["Outcomes"] ++
      ["Quarantined"] ++ ["Truncated"; "OriginalByteCount"; "OutputByteCount"]).
  - good_members; by first [apply good_str | apply good_uint | apply good_bool | apply good_slice].
  - distinct (["manifest_version"; "pipeline_id"; "sanitiser_version"; "rule_set_version"; "input_digest";
      "output_digest"; "overall_status"; "redactions_applied"] ++ ["tainted_fields"] ++ ["transformations"] ++
      ["quarantined"] ++ ["truncated"; "original_byte_count"; "output_byte_count"]).
  - good_members; by first [apply good_str | apply good_uint | apply good_bool | apply good_slice | apply good_arr].
Qed.

(** What JSONB keeps of a document: its values ([JsonStruct.jequiv]). *)
Class JsonbDocuments `{Jsonb} : Prop := {
  jsonb_document : forall t doc, tree_ok t -> nesting t <= max_depth -> plain t -> jsonb (Marshal t) = Some doc ->
    exists t', parse (bytes doc) = Some t' /\ jequiv t t' }.

Lemma dec_outcome_equiv names v v' : jequiv v v' -> dec_outcome names v = dec_outcome names v'.
Proof.
  intros Hv. destruct names as [[[[a r] p] n] c]. unfold dec_outcome.
  destruct v as [| | | | |fs], v' as [| | | | |fs']; try (by inversion Hv).
  rewrite !(decode_field_equiv _ _ _ fs fs') by (done || apply dec_string_equiv || apply dec_uint64_equiv). done.
Qed.

Lemma dec_manifest_equiv fs fs' : jequiv (TObj fs) (TObj fs') -> dec_manifest fs = dec_manifest fs'.
Proof.
  intros Hv. unfold dec_manifest, dec_legacy, dec_v1, dec_strings.
  repeat match goal with |- context [decode_field ?d ?n ?z fs] =>
    rewrite (decode_field_equiv d n z fs fs') by (done || apply dec_string_equiv || apply dec_uint64_equiv ||
      apply dec_bool_equiv || (intros ? ?; apply dec_slice_equiv; (apply dec_string_equiv || apply dec_outcome_equiv))) end.
  done.
Qed.

Lemma stored_manifest_reads `{JsonbDocuments} m doc :
  manifest_fits m -> jsonb (MarshalJSON m) = Some doc -> doc <> "" /\ UnmarshalJSON doc = Ok (reread m).
Proof.
  intros Hf Hdoc. destruct (manifest_good m Hf) as (Hok & Hp & Hn).
  destruct (jsonb_document _ doc Hok ltac:(unfold max_depth; lia) Hp Hdoc) as (t' & Hparse & He).
  split; [by intros ->|]. unfold UnmarshalJSON, members. rewrite Hparse.
  assert (Hm : exists fs, manifest_tree m = TObj fs).
  { unfold manifest_tree. destruct (_ ==? _); by eexists. }
  destruct Hm as [fs Hm]. pose proof (manifest_roundtrip m Hf) as Hr. rewrite Hm in He, Hr. cbn [fields_of] in Hr.
  destruct t' as [| | | | |fs']; try by inversion He. by rewrite <- (dec_manifest_equiv fs fs' He), Hr.
Qed.

(** ** The durable store over the two services *)

(** What the store relies on of its blobs: nothing is lost, and a key that was
    written holds bytes of the written digest and length. *)
Class BlobLaws (B : Type) `{BlobStore B} := {
  blob_at : B -> string -> option string;
  blobs_ok : B -> Prop;
  put_law : forall k payload digest mediaType b, blobs_ok b ->
    let '(r, b') := PutIfAbsent k payload digest mediaType b in
    blobs_ok b' /\ (forall k' stored, blob_at b k' = Some stored -> blob_at b' k' = Some stored) /\
    (is_ok r = true -> validateBlobKey k = None /\ exists stored, blob_at b' k = Some stored /\
       digestBytes stored = digestBytes payload /\ len stored = len payload);
  get_law : forall k stored b, blobs_ok b -> validateBlobKey k = None -> blob_at b k = Some stored ->
    blob_Get k b = Ok (Reader.mk (Ok stored) None) }.

(** S3 as documented: a conditional write succeeds only for a new key and is
    then visible, one that reports an error may still have been made, and
    nothing else changes an object.  The service is available for reads. *)
Class S3Laws (B : Type) `{S3 B} := {
  s3_objects : B -> gmap (string * string) (string * string);
  put_object_law : forall bucket k payload mediaType digest b,
    let '(r, b') := PutObject bucket k payload mediaType digest b in
    (s3_objects b !! (bucket, k) = None /\ s3_objects b' = <[(bucket, k) := (payload, digest)]> (s3_objects b)) \/
    (is_ok r = false /\ s3_objects b' = s3_objects b);
  head_object_law : forall bucket k b n d, HeadObject bucket k b = Ok (Some n, Some d) ->
    exists payload, s3_objects b !! (bucket, k) = Some (payload, d) /\ n = len payload;
  get_object_law : forall bucket k payload digest b, s3_objects b !! (bucket, k) = Some (payload, digest) ->
    GetObject bucket k b = Ok (Some (Reader.mk (Ok payload) None)) }.

Section S3BlobLaws.
Context {B : Type} `{S3Laws B} (s : S3BlobStore.t).

Definition s3_bucket_ok (b : B) : Prop :=
  forall k payload digest, s3_objects b !! (S3BlobStore.bucket s, k) = Some (payload, digest) -> digest = digestBytes payload.

Lemma s3_put_law k payload digest mediaType b :
  s3_bucket_ok b ->
  let '(r, b') := S3BlobStore.PutIfAbsent s k payload digest mediaType b in
  s3_bucket_ok b' /\
  (forall k' stored, fst <$> s3_objects b !! (S3BlobStore.bucket s, S3BlobStore.object_key s k') = Some stored ->
     fst <$> s3_objects b' !! (S3BlobStore.bucket s, S3BlobStore.object_key s k') = Some stored) /\
  (is_ok r = true -> validateBlobKey k = None /\ exists stored,
     fst <$> s3_objects b' !! (S3BlobStore.bucket s, S3BlobStore.object_key s k) = Some stored /\
     digestBytes stored = digestBytes payload /\ len stored = len payload).
Proof.
  intros Hok. unfold S3BlobStore.PutIfAbsent. destruct (validateBlobWrite k payload digest mediaType) eqn:Hv; [done|].
  unfold validateBlobWrite in Hv. destruct (validateBlobKey k) eqn:Hk; [done|]. case_match; [done|]. reflect_bools.
  pose proof (put_object_law (S3BlobStore.bucket s) (S3BlobStore.object_key s k) payload mediaType digest b) as Hput.
  assert (Hd : digest = digestBytes payload) by naive_solver.
  destruct (PutObject _ _ _ _ _ b) as [r b']. destruct Hput as [[Hnew Hb]|[Hr Hb]].
  - assert (Hok' : s3_bucket_ok b').
    { intros k' p d. rewrite Hb. intros [[Heq [= <- <-]]|[_ Hl]]%lookup_insert_Some; [done|]. by apply Hok in Hl. }
    assert (Hkeep : forall k' stored, fst <$> s3_objects b !! (S3BlobStore.bucket s, S3BlobStore.object_key s k') = Some stored ->
      fst <$> s3_objects b' !! (S3BlobStore.bucket s, S3BlobStore.object_key s k') = Some stored).
    { intros k' stored Hl. rewrite Hb, lookup_insert_ne; [done|]. intros Heq. by rewrite <- Heq, Hnew in Hl. }
    assert (Hres : exists stored, fst <$> s3_objects b' !! (S3BlobStore.bucket s, S3BlobStore.object_key s k) = Some stored /\
      digestBytes stored = digestBytes payload /\ len stored = len payload).
    { exists payload. by rewrite Hb, lookup_insert_eq. }
    destruct r as [|e]; [|destruct (HeadObject _ _ b') as [[[n|] [d|]]|]; [destruct (_ && _)|..]];
      (split; [exact Hok'|]; split; [exact Hkeep|]; intros _; by split).
  - destruct r as [|e]; [done|].
    assert (Hok' : s3_bucket_ok b') by (intros k' p d; rewrite Hb; apply Hok).
    assert (Hkeep : forall k' stored, fst <$> s3_objects b !! (S3BlobStore.bucket s, S3BlobStore.object_key s k') = Some stored ->
      fst <$> s3_objects b' !! (S3BlobStore.bucket s, S3BlobStore.object_key s k') = Some stored) by (intros k' st; by rewrite Hb).
    destruct (HeadObject _ _ b') as [[[n|] [d|]]|] eqn:Hhead; try done.
    destruct ((n =? len payload) && (d ==? digest)) eqn:Hsame; [|done]. reflect_bools.
    split; [done|]. split; [done|]. intros _. split; [done|].
    apply head_object_law in Hhead as (stored & Hl & ->). exists stored. rewrite Hl. split; [done|].
    apply Hok' in Hl. naive_solver.
Qed.

#[refine] Definition s3_blob_laws : @BlobLaws B (s3_blobs s) :=
  {| blob_at b k := fst <$> s3_objects b !! (S3BlobStore.bucket s, S3BlobStore.object_key s k);
     blobs_ok := s3_bucket_ok |}.
Proof.
  - exact s3_put_law.
  - intros k stored b _ Hk Hl. cbn [blob_Get s3_blobs]. unfold S3BlobStore.Get. rewrite Hk.
    destruct (s3_objects b !! _) as [[p d]|] eqn:E; [|done]. injection Hl as <-. by rewrite (get_object_law _ _ _ _ _ E).
Defined.
End S3BlobLaws.
