(* ===== verification/ArtefactStore.v ===== *)
(** * The durable artefact store as a whole

    The store of [durable_store.go] over the metadata repository and the blobs,
    used by any tenants in any order: what was stored stays readable, with its
    record and with bytes of the recorded digest. *)
From S2P Require Import Prelude GoStrings GoEncoding Json JsonStruct Task Schema TaskPostgres Outbox Resolution ResolutionPostgres Planning Artefacts.
Local Open Scope Z_scope.

Section System.
Context `{JB : Jsonb} {B : Type} `{BS : BlobStore B}.

(** The database and the blobs; [ts] is the database's clock. *)
Definition Sys : Type := DB.t * B.
Definition sys_blobs : BlobStore Sys := {|
  PutIfAbsent k payload digest mediaType st :=
    let '(r, b) := PutIfAbsent k payload digest mediaType st.2 in (r, (st.1, b));
  blob_Get k st := blob_Get k st.2 |}.
Definition sys_metadata (ts : Z) : MetadataRepository Sys := {|
  metadata_Create m st := let '(r, db) := PostgresRepository.Create ts m st.1 in (r, (db, st.2));
  metadata_Get tenantID uri st := PostgresRepository.Get tenantID uri st.1 |}.

Definition sys_Get (tenantID uri : string) (st : Sys) : result (string * Metadata.t) :=
  @DurableStore.Get Sys sys_blobs (sys_metadata 0) tenantID uri st.

(** The store's operations by any tenant, and anything that leaves artefact
    metadata and blobs alone. *)
Inductive sop : Type :=
| SCaptured (ts : Z) (tenantID payload mediaType transport attemptID encryptionKeyRef : string) (capturedAt : Z)
| SSanitised (ts : Z) (tenantID payload mediaType : string) (parent : CapturedRef.t) (manifest : TransformationManifest.t)
    (createdAt : Z)
| SOther (f : DB.t -> DB.t).

(** The answer is the artefact's URI. *)
Definition uri_of {A} (uri : A -> string) (r : result A * Sys) : result (option string) * Sys :=
  (match r.1 with Ok ref => Ok (Some (uri ref)) | Err e => Err e end, r.2).
Definition sstep (op : sop) (st : Sys) : result (option string) * Sys :=
  match op with
  | SCaptured ts tenantID payload mediaType transport attemptID encryptionKeyRef capturedAt =>
    uri_of CapturedRef.URI (@DurableStore.PutCaptured Sys sys_blobs (sys_metadata ts) tenantID payload mediaType transport
      attemptID encryptionKeyRef capturedAt st)
  | SSanitised ts tenantID payload mediaType parent manifest createdAt =>
    uri_of SanitisedRef.URI (@DurableStore.PutSanitised Sys sys_blobs (sys_metadata ts) tenantID payload mediaType parent
      manifest createdAt st)
  | SOther f => (Ok None, (f st.1, st.2))
  end.
Definition sop_ok (op : sop) : Prop :=
  match op with
  | SCaptured _ _ _ _ _ _ _ _ => True
  | SSanitised _ _ _ _ _ manifest _ => manifest_fits manifest
  | SOther f => forall db, DB.artefacts (f db) = DB.artefacts db
  end.
Definition sop_tenant (op : sop) : string :=
  match op with SCaptured _ t _ _ _ _ _ _ | SSanitised _ t _ _ _ _ _ => t | SOther _ => "" end.
Definition sop_payload (op : sop) : string :=
  match op with SCaptured _ _ p _ _ _ _ _ | SSanitised _ _ p _ _ _ _ => p | SOther _ => "" end.

(** The record an operation makes, as it is read back. *)
Definition read_metadata (m : Metadata.t) : Metadata.t := m <| Metadata.Manifest := option_map reread (Metadata.Manifest m) |>.
Definition describes (op : sop) (m : Metadata.t) : Prop :=
  match op with
  | SCaptured _ tenantID payload mediaType transport attemptID encryptionKeyRef capturedAt =>
    m = DurableStore.captured_metadata tenantID payload mediaType transport attemptID encryptionKeyRef capturedAt
  | SSanitised _ tenantID payload mediaType parent manifest createdAt =>
    exists parentMetadata, Metadata.Class parentMetadata = ClassCaptured /\
      Metadata.SHA256Digest parentMetadata = CapturedRef.SHA256Digest parent /\
      let made := DurableStore.sanitised_metadata tenantID payload mediaType parentMetadata (CapturedRef.SHA256Digest parent)
                    manifest createdAt in
      (m = made \/ m = read_metadata made)
  | SOther _ => False
  end.

(** ** Reading the table *)
Definition artefacts_ok (db : DB.t) : Prop :=
  map_Forall (fun id r => ArtefactRow.artefact_id r = id /\ ArtefactRow.uri r = "artefact://" +:+ id) (DB.artefacts db).

Lemma by_uri_spec db id r :
  artefacts_ok db -> DB.artefacts db !! id = Some r -> PostgresRepository.by_uri ("artefact://" +:+ id) db = Some r.
Proof.
  intros Hok Hr. unfold PostgresRepository.by_uri. destruct (Hok _ _ Hr) as [_ Hu].
  assert (Hin : In r (map snd (map_to_list (DB.artefacts db)))).
  { apply in_map_iff. exists (id, r). split; [done|]. by apply list_elem_of_In, elem_of_map_to_list. }
  destruct (find _ _) as [r'|] eqn:Hf.
  - apply find_some in Hf as [Hin' Hu']. reflect_bools. apply in_map_iff in Hin' as ([id' r''] & <- & Hin'). cbn [snd] in *.
    apply list_elem_of_In, elem_of_map_to_list in Hin'. destruct (Hok _ _ Hin') as [_ Hu''].
    assert (id' = id) as ->; [|congruence]. rewrite Hu'' in Hu'. by apply (inj (String.append "artefact://")).
  - pose proof (find_none _ _ Hf r Hin) as Hn. cbn beta in Hn. by rewrite Hu, bool_decide_eq_true_2 in Hn.
Qed.

(** ** Creating a record *)
Definition aligned (m : Metadata.t) : Prop := normaliseTime (Metadata.CreatedAt m) = Metadata.CreatedAt m.
Definition fits (m : Metadata.t) : Prop :=
  match Metadata.Manifest m with Some manifest => manifest_fits manifest | None => True end.

Lemma class_of_string c : (forall s, c <> ClassOther s) -> class_of (class_string c) = c.
Proof. destruct c as [| |s]; intros Hc; [done|done|]. by destruct (Hc s). Qed.

Lemma validateMetadata_facts m :
  validateMetadata m = None ->
  Metadata.URI m = "artefact://" +:+ Metadata.ArtefactID m /\ Metadata.URI m <> "" /\
  invalidSegment (Metadata.TenantID m) = false /\ (forall s, Metadata.Class m <> ClassOther s).
Proof.
  unfold validateMetadata. intros Hv. case_match; [done|]. reflect_bools. repeat case_match; try done;
    (split; [tauto|]; split; [|split; [tauto|done]]);
    destruct_and?; match goal with H : Metadata.URI m = _ |- _ => rewrite H end; done.
Qed.

Context `{JD : !JsonbDocuments}.

Lemma scan_new_row ts m document :
  validateMetadata m = None -> fits m -> aligned m -> PostgresRepository.stored_manifest m = Some document ->
  PostgresRepository.scan_artefact (PostgresRepository.artefact_row ts m document) = Ok (read_metadata m).
Proof.
  intros Hv Hf Ha Hd. apply validateMetadata_facts in Hv as (_ & _ & _ & Hc).
  unfold PostgresRepository.scan_artefact, PostgresRepository.artefact_row. cbn [ArtefactRow.transformation_manifest
    ArtefactRow.artefact_id ArtefactRow.tenant_id ArtefactRow.class ArtefactRow.uri ArtefactRow.object_key
    ArtefactRow.sha256_digest ArtefactRow.byte_count ArtefactRow.media_type ArtefactRow.transport ArtefactRow.attempt_id
    ArtefactRow.encryption_key_ref ArtefactRow.parent_artefact_id ArtefactRow.parent_digest ArtefactRow.manifest_digest
    ArtefactRow.created_at]. rewrite class_of_string, Ha, !NULLIF_COALESCE by done.
  unfold PostgresRepository.stored_manifest, encodeManifest in Hd. unfold fits in Hf. unfold read_metadata.
  destruct m as [id tn cl u ok dg bc mt tr att ek pid pd mf md ca]. cbn [Metadata.Manifest] in *. destruct mf as [mf|]; cbn [option_map] in *.
  - destruct (jsonb (MarshalJSON mf)) as [doc|] eqn:Hj; [|done]. injection Hd as <-.
    destruct (stored_manifest_reads mf doc Hf Hj) as [Hne Hu]. cbn [COALESCE]. by rewrite bool_decide_eq_false_2, Hu by done.
  - injection Hd as <-. done.
Qed.

(** A record that was created or found is in the table, readable by its tenant;
    no record is changed or lost. *)
Definition recorded (db : DB.t) (m m' : Metadata.t) : Prop :=
  exists row, DB.artefacts db !! Metadata.ArtefactID m = Some row /\ ArtefactRow.tenant_id row = Metadata.TenantID m /\
    PostgresRepository.scan_artefact row = Ok m' /\ (m' = m \/ m' = read_metadata m).

Lemma Create_spec ts m db :
  artefacts_ok db -> fits m -> aligned m ->
  let '(r, db') := PostgresRepository.Create ts m db in
  artefacts_ok db' /\ DB.artefacts db ⊆ DB.artefacts db' /\
  (is_ok r = true -> validateMetadata m = None /\ all_encodable [Metadata.TenantID m; Metadata.URI m] = true /\
     exists m', recorded db' m m').
Proof.
  intros Hok Hf Ha. unfold PostgresRepository.Create. destruct (validateMetadata m) eqn:Hv; [done|].
  destruct (validateMetadata_facts m Hv) as (Hu & Hne & Hseg & Hc).
  destruct (PostgresRepository.stored_manifest m) as [document|] eqn:Hd; [|done].
  unfold PostgresRepository.insert_artefact. destruct (all_encodable _) eqn:He; [|done].
  assert (He' : all_encodable [Metadata.TenantID m; Metadata.URI m] = true).
  { unfold all_encodable, PostgresRepository.artefact_params in *. cbn [forallb] in *. reflect_bools. tauto. }
  cbn [negb]. destruct (ArtefactRow.check _); [|done]. cbn [negb].
  change (ArtefactRow.artefact_id (PostgresRepository.artefact_row ts m document)) with (Metadata.ArtefactID m).
  destruct (DB.artefacts db !! Metadata.ArtefactID m) as [row|] eqn:Hrow.
  - unfold PostgresRepository.Get. rewrite Hseg, bool_decide_eq_false_2, He', Hu, (by_uri_spec db _ row Hok Hrow) by done.
    cbn [negb orb]. destruct (ArtefactRow.tenant_id row ==? Metadata.TenantID m) eqn:Ht; [|by destruct (errors_Is _ _)].
    destruct (PostgresRepository.scan_artefact row) as [existing|] eqn:Hscan; [|by destruct (errors_Is _ _)].
    destruct (metadataEqual existing m) eqn:Heq; [|done]. unfold metadataEqual in Heq. reflect_bools.
    split; [done|]. split; [done|]. intros _. split; [done|]. split; [done|]. exists existing, row. auto.
  - unfold PostgresRepository.insert_lifecycle, PostgresRepository.append_event.
    destruct (negb (is_null _)); [done|]. destruct (negb (PostgresRepository.parent_exists _ _)); [done|].
    destruct (_ !! LifecycleRow.primary_key _); [done|]. destruct (negb (LifecycleEventRow.check _)); [done|].
    destruct (existsb _ _); [done|].
    cbn [DB.artefacts]. split; [|split; [by apply insert_subseteq|]].
    + intros id r Hl.
      change (<[Metadata.ArtefactID m := PostgresRepository.artefact_row ts m document]> (DB.artefacts db) !! id = Some r) in Hl.
      apply lookup_insert_Some in Hl as [[<- <-]|[_ Hl]]; [by split|by apply Hok in Hl].
    + intros _. split; [done|]. split; [done|]. exists (read_metadata m).
      exists (PostgresRepository.artefact_row ts m document).
      split; [apply lookup_insert_eq|]. split; [done|]. split; [by apply scan_new_row|by right].
Qed.

(** ** Storing and reading *)
Context `{BL : !BlobLaws B}.

Definition sys_ok (st : Sys) : Prop := artefacts_ok st.1 /\ blobs_ok st.2.
(** Nothing is lost from one state to another. *)
Definition grows (st st' : Sys) : Prop :=
  DB.artefacts st.1 ⊆ DB.artefacts st'.1 /\ forall k stored, blob_at st.2 k = Some stored -> blob_at st'.2 k = Some stored.
(** [uri] names a record of the tenant whose object holds [stored]. *)
Definition holds_artefact (st : Sys) (tenant uri stored : string) (m : Metadata.t) : Prop :=
  exists id row, uri = "artefact://" +:+ id /\ DB.artefacts st.1 !! id = Some row /\ ArtefactRow.tenant_id row = tenant /\
    PostgresRepository.scan_artefact row = Ok m /\ invalidSegment tenant = false /\ all_encodable [tenant; uri] = true /\
    validateBlobKey (Metadata.ObjectKey m) = None /\ blob_at st.2 (Metadata.ObjectKey m) = Some stored /\
    digestBytes stored = Metadata.SHA256Digest m /\ len stored = Metadata.ByteCount m /\ len stored <= MaximumArtefactBytes.

Lemma holds_grows st st' tenant uri stored m :
  grows st st' -> holds_artefact st tenant uri stored m -> holds_artefact st' tenant uri stored m.
Proof.
  intros [Hdb Hb] (id & row & Hu & Hrow & Ht & Hs & Hseg & He & Hk & Hst & Hd & Hl & Hm).
  exists id, row. split_and!; try done; [by eapply lookup_weaken|by apply Hb].
Qed.

Lemma holds_Get st tenant uri stored m :
  sys_ok st -> holds_artefact st tenant uri stored m -> sys_Get tenant uri st = Ok (stored, m).
Proof.
  intros [Hdb Hb] (id & row & Hu & Hrow & Ht & Hs & Hseg & He & Hk & Hst & Hd & Hl & Hm).
  unfold sys_Get, DurableStore.Get. cbn [metadata_Get blob_Get sys_metadata sys_blobs]. unfold PostgresRepository.Get.
  rewrite Hseg, bool_decide_eq_false_2, He by (by rewrite Hu). cbn [negb orb].
  rewrite Hu, (by_uri_spec st.1 id row Hdb Hrow), Ht, bool_decide_eq_true_2, Hs by done.
  rewrite (get_law _ stored _ Hb Hk Hst). cbn [Reader.body Reader.Close]. unfold DurableStore.limited.
  rewrite (proj2 (Z.leb_le _ _)) by lia. by rewrite Hl, Z.eqb_refl, Hd, bool_decide_eq_true_2.
Qed.

Lemma persist_spec ts m payload st :
  sys_ok st -> fits m -> aligned m -> Metadata.SHA256Digest m = digestBytes payload -> Metadata.ByteCount m = len payload ->
  let '(r, st') := @DurableStore.persist Sys sys_blobs (sys_metadata ts) m payload st in
  sys_ok st' /\ grows st st' /\
  (is_ok r = true -> exists stored m', (m' = m \/ m' = read_metadata m) /\
     holds_artefact st' (Metadata.TenantID m) (Metadata.URI m) stored m' /\ digestBytes stored = digestBytes payload /\
     len stored = len payload).
Proof.
  intros [Hdb Hb] Hf Ha Hdig Hlen. unfold DurableStore.persist. cbn [PutIfAbsent metadata_Create sys_blobs sys_metadata].
  pose proof (put_law (Metadata.ObjectKey m) payload (Metadata.SHA256Digest m) (Metadata.MediaType m) st.2 Hb) as Hput.
  destruct (PutIfAbsent _ _ _ _ st.2) as [r1 b']. destruct Hput as (Hb' & Hkeep & Hstored).
  destruct r1 as [u|e]; [|done]. destruct (Hstored eq_refl) as (Hk & stored & Hst & Hd & Hl).
  pose proof (Create_spec ts m st.1 Hdb Hf Ha) as Hc. cbn [fst snd].
  destruct (PostgresRepository.Create ts m st.1) as [r2 db']. destruct Hc as (Hdb' & Hsub & Hrec).
  destruct r2 as [u2|e]; [|done]. split; [done|]. split; [done|]. intros _.
  destruct (Hrec eq_refl) as (Hv & He & m' & row & Hrow & Ht & Hs & Hm').
  destruct (validateMetadata_facts m Hv) as (Hu & _ & Hseg & _).
  assert (Hmax : Metadata.ByteCount m <= MaximumArtefactBytes).
  { unfold validateMetadata in Hv. case_match; [done|]. reflect_bools. lia. }
  exists stored, m'. split; [done|]. split; [|done]. exists (Metadata.ArtefactID m), row.
  assert (Hsame : Metadata.ObjectKey m' = Metadata.ObjectKey m /\ Metadata.SHA256Digest m' = Metadata.SHA256Digest m /\
    Metadata.ByteCount m' = Metadata.ByteCount m) by by destruct Hm' as [-> | ->].
  destruct Hsame as (-> & -> & ->). split_and!; try done; try congruence; lia.
Qed.

Lemma aligned_truncated t : normaliseTime (Truncate t Microsecond) = Truncate t Microsecond.
Proof. unfold normaliseTime. unfold Truncate at 1. rewrite Truncate_mod by done. lia. Qed.

(** Every operation keeps the system in order and loses nothing; one that
    answers with a URI leaves the artefact it describes under it. *)
Definition stored_by (st : Sys) (op : sop) (uri : string) : Prop :=
  exists stored m, holds_artefact st (sop_tenant op) uri stored m /\ describes op m /\
    digestBytes stored = digestBytes (sop_payload op) /\ len stored = len (sop_payload op).

Lemma sstep_spec op st :
  sop_ok op -> sys_ok st ->
  sys_ok (sstep op st).2 /\ grows st (sstep op st).2 /\
  forall uri, (sstep op st).1 = Ok (Some uri) -> stored_by (sstep op st).2 op uri.
Proof.
  intros Hop Hok. destruct op as [ts tenant payload media transport attempt keyref at_|ts tenant payload media parent manifest at_|f].
  - cbn [sstep]. unfold uri_of, DurableStore.PutCaptured. destruct (validateCommon _ _ _ _); [done|].
    destruct (_ || _ || _); [done|]. cbv zeta.
    set (m := DurableStore.captured_metadata tenant payload media transport attempt keyref at_).
    pose proof (persist_spec ts m payload st Hok I (aligned_truncated at_) eq_refl eq_refl) as Hp.
    destruct (DurableStore.persist m payload st) as [[u|e] st']; destruct Hp as (Hok' & Hg & Hh); [|done].
    split; [done|]. split; [done|]. intros uri [= <-]. destruct (Hh eq_refl) as (stored & m' & Hm' & Hhold & Hd).
    exists stored, m'. split; [done|]. split; [|done]. by destruct Hm' as [-> | ->].
  - cbn [sstep]. unfold uri_of, DurableStore.PutSanitised. destruct (validateCommon _ _ _ _); [done|].
    destruct (_ || _); [done|]. destruct (validateTransformationManifest _); [done|].
    destruct (_ && _); [done|]. destruct (metadata_Get _ _ st) as [parentM|]; [|done].
    destruct (_ || _) eqn:Hpar; [done|]. reflect_bools. cbv zeta.
    set (m := DurableStore.sanitised_metadata tenant payload media parentM (CapturedRef.SHA256Digest parent) manifest at_).
    assert (Hf : fits m).
    { destruct Hop as (H1 & H2 & H3 & H4 & H5). unfold m, fits, manifest_fits. cbn. rewrite !elems_copy_slice. done. }
    pose proof (persist_spec ts m payload st Hok Hf (aligned_truncated at_) eq_refl eq_refl) as Hp.
    destruct (DurableStore.persist m payload st) as [[u|e] st']; destruct Hp as (Hok' & Hg & Hh); [|done].
    split; [done|]. split; [done|]. intros uri [= <-]. destruct (Hh eq_refl) as (stored & m' & Hm' & Hhold & Hd).
    exists stored, m'. split; [done|]. split; [|done]. exists parentM. naive_solver.
  - cbn [sstep fst snd]. destruct Hok as [Hdb Hb]. split; [|split; [|done]].
    + split; [|done]. unfold artefacts_ok. cbn [fst]. by rewrite Hop.
    + split; [|done]. cbn [fst]. by rewrite Hop.
Qed.

Lemma stored_step log op st :
  sop_ok op -> sys_ok st /\ (forall op uri, (op, Ok (Some uri)) ∈ log -> stored_by st op uri) ->
  sys_ok (sstep op st).2 /\
  (forall op' uri, (op', Ok (Some uri)) ∈ log ++ [(op, (sstep op st).1)] -> stored_by (sstep op st).2 op' uri).
Proof.
  intros Hop [Hok Hlog]. destruct (sstep_spec op st Hop Hok) as (Hok' & Hg & Hnew). split; [done|].
  intros op' uri [Hin|Hin]%elem_of_app.
  - destruct (Hlog op' uri Hin) as (stored & m & Hh & Hrest). exists stored, m. by split; [eapply holds_grows|].
  - apply list_elem_of_singleton in Hin. injection Hin as -> Hr. by apply Hnew.
Qed.

(** C36.  Stored artefacts stay readable: whatever tenants store in whatever
    order, every artefact whose storage was reported as successful is read back
    at the end by its tenant under the returned URI, with the record it was
    stored with (class, media type, lineage, manifest, time) and with bytes that
    have the digest and the length of the payload. *)
Theorem stored_artefacts_readable ops st0
    (Hops : Forall sop_ok ops) (Hok : sys_ok st0) :
  let '(log, st) := run sstep ops st0 in
  forall op uri, (op, Ok (Some uri)) ∈ log ->
  exists stored m, sys_Get (sop_tenant op) uri st = Ok (stored, m) /\ describes op m /\
    digestBytes stored = digestBytes (sop_payload op) /\ len stored = len (sop_payload op).
Proof.
  pose proof (run_log_invariant sstep sop_ok (fun log st => sys_ok st /\
    forall op uri, (op, Ok (Some uri)) ∈ log -> stored_by st op uri) stored_step ops st0 Hops) as Hinv.
  destruct (run sstep ops st0) as [log st]. cbn [fst snd] in Hinv.
  destruct Hinv as [Hok' Hlog]; [split; [done|]; by intros ? ? ?%elem_of_nil|].
  intros op uri Hin. destruct (Hlog op uri Hin) as (stored & m & Hh & Hrest). exists stored, m.
  split; [by apply holds_Get|done].
Qed.
End System.

(** ** Witnesses

    An S3 service in one map, and the JSONB that keeps documents as written. *)
Abbreviation Bucket := (gmap (string * string) (string * string)).
#[export] Instance demo_s3 : S3 Bucket := {|
  PutObject bucket k payload mediaType digest b :=
    match b !! (bucket, k) with
    | Some _ => (Err (Text "PreconditionFailed"), b)
    | None => (Ok tt, <[(bucket, k) := (payload, digest)]> b)
    end;
  HeadObject bucket k b :=
    match b !! (bucket, k) with Some (p, d) => Ok (Some (len p), Some d) | None => Err (Text "NotFound") end;
  GetObject bucket k b :=
    match b !! (bucket, k) with Some (p, _) => Ok (Some (Reader.mk (Ok p) None)) | None => Err (Text "NoSuchKey") end |}.
#[export, refine] Instance demo_s3_laws : S3Laws Bucket := {| s3_objects b := b |}.
Proof.
  - intros bucket k payload media digest b. cbn [PutObject demo_s3]. destruct (b !! (bucket, k)) eqn:E; cbv beta iota;
      [by right|by left].
  - intros bucket k b n d. cbn [HeadObject demo_s3]. destruct (b !! (bucket, k)) as [[p d']|]; [|done].
    intros Heq. injection Heq as <- <-. by exists p.
  - intros bucket k payload digest b Hl. cbn. by rewrite Hl.
Defined.
#[export] Instance demo_documents : @JsonbDocuments demo_jsonb.
Proof.
  constructor. intros t doc Hok Hn Hp. cbn [jsonb demo_jsonb]. case_match; [|done]. intros [= <-].
  exists t. split; [by apply parse_Marshal|by apply jequiv_refl].
Qed.

Definition demo_bucket : S3BlobStore.t := S3BlobStore.mk "evidence" "broker/prod".
#[local] Instance demo_blobs : BlobStore Bucket := s3_blobs demo_bucket.
#[local] Instance demo_blob_laws : BlobLaws Bucket := s3_blob_laws demo_bucket.

Definition demo_output : string := "interface Gi0/0 is up".
Definition demo_clean : string := "interface is up".
Definition demo_captured : sop :=
  SCaptured 5000 "tenant a" demo_output "text/plain" "ssh" "attempt-t1-1" "key-1" 4500.
Definition demo_parent : CapturedRef.t :=
  capturedRef (DurableStore.captured_metadata "tenant-a" demo_output "text/plain" "ssh" "attempt-t1-1" "key-1" 4500).
Definition demo_manifest (outcomes : option (list TransformationOutcome.t)) : TransformationManifest.t :=
  TransformationManifest.mk TransformationManifestVersionV1 "pipeline" "1" "rules-1" (digestBytes demo_output)
    (digestBytes demo_clean) "clean" (Some ["hostname"]) None outcomes false false (len demo_output) (len demo_clean).
Definition demo_sanitised (outcomes : option (list TransformationOutcome.t)) : sop :=
  SSanitised 6000 "tenant-a" demo_clean "text/plain" demo_parent (demo_manifest outcomes) 5500.
Definition one_outcome : option (list TransformationOutcome.t) :=
  Some [TransformationOutcome.mk "redact" "hostname" "$" 3 1].
(** A refused tenant, a captured artefact stored twice, a sanitised one with an
    outcome stored twice, and one without outcomes stored twice. *)
Definition store_demo_ops : list sop :=
  [ demo_captured; SCaptured 5000 "tenant-a" demo_output "text/plain" "ssh" "attempt-t1-1" "key-1" 4500;
    SCaptured 5000 "tenant-a" demo_output "text/plain" "ssh" "attempt-t1-1" "key-1" 4500;
    demo_sanitised one_outcome; demo_sanitised one_outcome; demo_sanitised None; demo_sanitised None ].

Lemma store_demo_ok : Forall sop_ok store_demo_ops.
Proof.
  assert (Hm : forall o, Forall outcome_fits (elems o) -> manifest_fits (demo_manifest o)).
  { intros o Ho. split; [by repeat constructor|]. split; [by repeat constructor|]. split; [done|].
    split; unfold uint64_range, max_uint64; vm_compute; split; discriminate. }
  assert (Ho : outcome_fits (TransformationOutcome.mk "redact" "hostname" "$" 3 1)).
  { split_and!; try done; unfold uint64_range, max_uint64; cbn; lia. }
  repeat (constructor; [first [exact I | apply Hm; by repeat constructor]|]). constructor.
Qed.

Lemma store_demo_start : sys_ok (B := Bucket) (DB.empty, ∅).
Proof. split; [apply map_Forall_empty|]. intros k p d. cbn. by rewrite lookup_empty. Qed.

Lemma stored_artefacts_readable_witness :
  let '(log, st) := run (sstep (B := Bucket)) store_demo_ops (DB.empty, ∅) in
  map (fun e => is_ok e.2) log = [false; true; true; true; true; true; false] /\
  forall op uri, (op, Ok (Some uri)) ∈ log ->
  exists stored m, sys_Get (sop_tenant op) uri st = Ok (stored, m) /\ describes op m /\
    digestBytes stored = digestBytes (sop_payload op) /\ len stored = len (sop_payload op).
Proof.
  pose proof (stored_artefacts_readable store_demo_ops (DB.empty, ∅) store_demo_ok store_demo_start) as Hw.
  assert (Hlog : map (fun e => is_ok e.2) (run (sstep (B := Bucket)) store_demo_ops (DB.empty, ∅)).1 =
    [false; true; true; true; true; true; false]) by (vm_compute; reflexivity).
  destruct (run sstep store_demo_ops (DB.empty, ∅)) as [log st]. split; [exact Hlog|exact Hw].
Defined.

(** Storing a sanitised artefact again is answered with its reference, unless
    its manifest is versioned and lists no outcome: read back, the outcomes are
    an empty slice and not the nil one of the caller, the records differ, and
    the repetition is refused as a conflict. *)
Example clean_manifest_conflicts :
  map (fun e => match e.2 with Err e => Some (errors_Is e ErrMetadataConflict) | Ok _ => None end)
    (run (sstep (B := Bucket)) store_demo_ops (DB.empty, ∅)).1 = [Some false; None; None; None; None; None; Some true].
Proof. vm_compute. reflexivity. Qed.
