(* ===== verification/Lifecycle.v ===== *)
(** * Retention, legal holds and deletion of artefacts

    [internal/artefacts/lifecycle.go] and [postgres_lifecycle.go]: versioned
    lifecycle commands.  One transaction locks the record, applies the action,
    increments the version and appends an event; the rules of the actions are
    pure functions. *)
From S2P Require Import Prelude GoStrings GoEncoding Json JsonStruct Task Schema TaskPostgres Outbox Resolution ResolutionPostgres Planning Artefacts.
Local Open Scope Z_scope.

Definition ErrLifecycleConflict := New "artefacts.ErrLifecycleConflict" "artefact lifecycle version conflict".
Definition ErrLifecycleBlocked := New "artefacts.ErrLifecycleBlocked" "artefact lifecycle transition is blocked".

(** States and actions are strings in Go and in the tables. *)
Abbreviation LifecycleState := string (only parsing).
Definition LifecycleActive : LifecycleState := "active".
Definition LifecyclePendingDeletion : LifecycleState := "pending_deletion".
Definition LifecycleDeleted : LifecycleState := "deleted".

Abbreviation LifecycleAction := string (only parsing).
Definition LifecycleRetain : LifecycleAction := "retain".
Definition LifecyclePlaceHold : LifecycleAction := "place_hold".
Definition LifecycleReleaseHold : LifecycleAction := "release_hold".
Definition LifecycleRequestDeletion : LifecycleAction := "request_deletion".
Definition LifecycleConfirmDeletion : LifecycleAction := "confirm_deletion".

Module Lifecycle.
Record t := mk {
  TenantID : string; ArtefactID : string; State : LifecycleState; RetainUntil : option Z; LegalHold : bool;
  Version : Z; UpdatedAt : Z }.
#[global] Instance eta_t : Eta t := fun x =>
  mk (TenantID x) (ArtefactID x) (State x) (RetainUntil x) (LegalHold x) (Version x) (UpdatedAt x).
End Lifecycle.
Import Lifecycle (State, RetainUntil, LegalHold, Version, UpdatedAt).

Module LifecycleCommand.
Record t := mk {
  TenantID : string; ArtefactID : string; ExpectedVersion : Z; Action : LifecycleAction; RetainUntil : option Z;
  ActorID : string; Reason : string }.
End LifecycleCommand.

(** ** The rules *)
Definition applyRetention (current : Lifecycle.t) (retainUntil : option Z) (now : Z) : result Lifecycle.t :=
  match retainUntil with
  | None => Err ErrLifecycleBlocked
  | Some until =>
    if (State current !=? LifecycleActive) || negb (After until now) ||
       match RetainUntil current with Some r => negb (After until r) | None => false end
    then Err ErrLifecycleBlocked
    else Ok (current <| RetainUntil := Some (Truncate until Microsecond) |>)
  end.
Definition placeLegalHold (current : Lifecycle.t) : result Lifecycle.t :=
  if (State current ==? LifecycleDeleted) || LegalHold current then Err ErrLifecycleBlocked
  else Ok (current <| LegalHold := true |>).
Definition releaseLegalHold (current : Lifecycle.t) : result Lifecycle.t :=
  if (State current ==? LifecycleDeleted) || negb (LegalHold current) then Err ErrLifecycleBlocked
  else Ok (current <| LegalHold := false |>).
Definition applyDeletionRequest (current : Lifecycle.t) (now : Z) : result Lifecycle.t :=
  if (State current !=? LifecycleActive) || LegalHold current ||
     match RetainUntil current with Some r => After r now | None => false end
  then Err ErrLifecycleBlocked
  else Ok (current <| State := LifecyclePendingDeletion |>).
Definition applyDeletionConfirmation (current : Lifecycle.t) : result Lifecycle.t :=
  if (State current !=? LifecyclePendingDeletion) || LegalHold current then Err ErrLifecycleBlocked
  else Ok (current <| State := LifecycleDeleted |>).
Definition applyLifecycleAction (current : Lifecycle.t) (command : LifecycleCommand.t) (now : Z) : result Lifecycle.t :=
  let action := LifecycleCommand.Action command in
  if action ==? LifecycleRetain then applyRetention current (LifecycleCommand.RetainUntil command) now
  else if action ==? LifecyclePlaceHold then placeLegalHold current
  else if action ==? LifecycleReleaseHold then releaseLegalHold current
  else if action ==? LifecycleRequestDeletion then applyDeletionRequest current now
  else if action ==? LifecycleConfirmDeletion then applyDeletionConfirmation current
  else Err (Text "lifecycle action is invalid").

(** ** The repository *)
Definition scanLifecycle (row : LifecycleRow.t) : Lifecycle.t :=
  Lifecycle.mk (LifecycleRow.tenant_id row) (LifecycleRow.artefact_id row) (LifecycleRow.state row)
    (LifecycleRow.retain_until row) (LifecycleRow.legal_hold row) (LifecycleRow.version row) (LifecycleRow.updated_at row).

Definition GetLifecycle (tenantID artefactID : string) (db : DB.t) : result Lifecycle.t :=
  if invalidSegment tenantID || (artefactID ==? "") then
    Err (Text "artefact database, tenant and artefact are required")
  else if negb (all_encodable [tenantID; artefactID]) then Err (Wrapf "scan artefact lifecycle: " invalid_text "")
  else match DB.lifecycles db !! (tenantID, artefactID) with
  | Some row => Ok (scanLifecycle row)
  | None => Err ErrArtefactNotFound
  end.

(** [SELECT ... CURRENT_TIMESTAMP ... FOR UPDATE]. *)
Definition lockLifecycle (tenantID artefactID : string) (db : DB.t) : result Lifecycle.t :=
  if negb (all_encodable [tenantID; artefactID]) then Err (Wrapf "lock artefact lifecycle: " invalid_text "")
  else match DB.lifecycles db !! (tenantID, artefactID) with
  | Some row => Ok (scanLifecycle row)
  | None => Err ErrArtefactNotFound
  end.

(** [UPDATE ... WHERE tenant_id = $1 AND artefact_id = $2 AND version = $3]:
    whether a row was updated. *)
Definition update_lifecycle (tenantID artefactID : string) (version : Z) (next : Lifecycle.t) (db : DB.t) :
    result (bool * DB.t) :=
  match DB.lifecycles db !! (tenantID, artefactID) with
  | None => Ok (false, db)
  | Some row =>
    if negb (LifecycleRow.version row =? version) then Ok (false, db)
    else
      let row := LifecycleRow.mk tenantID artefactID (State next) (RetainUntil next) (LegalHold next) (Version next)
                   (UpdatedAt next) in
      if negb (LifecycleRow.check row) then Err check_violation
      else Ok (true, db <| DB.lifecycles := <[(tenantID, artefactID) := row]> (DB.lifecycles db) |>)
  end.

Definition lifecycle_event (command : LifecycleCommand.t) (current next : Lifecycle.t) (now : Z) : LifecycleEventRow.t :=
  LifecycleEventRow.mk (LifecycleCommand.TenantID command) (LifecycleCommand.ArtefactID command) (Version next)
    (LifecycleCommand.Action command) (Some (State current)) (State next) (RetainUntil current) (RetainUntil next)
    (Some (LegalHold current)) (LegalHold next) (LifecycleCommand.ActorID command) (LifecycleCommand.Reason command) now.

(** [ApplyLifecycle]; [now] is the database's [CURRENT_TIMESTAMP]. *)
Definition ApplyLifecycle (now : Z) (command : LifecycleCommand.t) (db : DB.t) : result Lifecycle.t * DB.t :=
  let tenantID := LifecycleCommand.TenantID command in
  let artefactID := LifecycleCommand.ArtefactID command in
  match lockLifecycle tenantID artefactID db with
  | Err e => (Err e, db)
  | Ok current =>
    if negb (Version current =? LifecycleCommand.ExpectedVersion command) then (Err ErrLifecycleConflict, db)
    else match applyLifecycleAction current command now with
    | Err e => (Err e, db)
    | Ok next =>
      let next := next <| Version := int64 (Version next + 1) |> <| UpdatedAt := now |> in
      match update_lifecycle tenantID artefactID (LifecycleCommand.ExpectedVersion command) next db with
      | Err e => (Err (Wrapf "update artefact lifecycle: " e ""), db)
      | Ok (false, _) => (Err ErrLifecycleConflict, db)
      | Ok (true, db') =>
        if negb (all_encodable [LifecycleCommand.Action command; LifecycleCommand.ActorID command; LifecycleCommand.Reason command])
        then (Err (Wrapf "append artefact lifecycle event: " invalid_text ""), db)
        else match PostgresRepository.append_event (lifecycle_event command current next now) db' with
        | Err e => (Err (Wrapf "append artefact lifecycle event: " e ""), db)
        | Ok db' => (Ok next, db')
        end
      end
    end
  end.

(** ** The service *)
Class LifecycleRepository (St : Type) := {
  repo_GetLifecycle : string -> string -> St -> result Lifecycle.t;
  repo_ApplyLifecycle : LifecycleCommand.t -> St -> result Lifecycle.t * St }.
Definition postgres_lifecycle (now : Z) : LifecycleRepository DB.t := {|
  repo_GetLifecycle := GetLifecycle; repo_ApplyLifecycle := ApplyLifecycle now |}.

Section Service.
Context {St : Type} `{LifecycleRepository St}.
Definition Get (tenantID artefactID : string) (st : St) : result Lifecycle.t :=
  if invalidSegment tenantID || (artefactID ==? "") then Err (Text "tenant and artefact are required")
  else repo_GetLifecycle tenantID artefactID st.

Definition validateCommand (c : LifecycleCommand.t) : option error :=
  if invalidSegment (LifecycleCommand.TenantID c) || (LifecycleCommand.ArtefactID c ==? "") ||
     (LifecycleCommand.ExpectedVersion c <=? 0) || (LifecycleCommand.ActorID c ==? "") ||
     (LifecycleCommand.Reason c ==? "") || (512 <? len (LifecycleCommand.Reason c)) then
    Some (Text "complete lifecycle identity, version, actor and bounded reason are required")
  else if LifecycleCommand.Action c ==? LifecycleRetain then
    match LifecycleCommand.RetainUntil c with
    | Some until => if IsZero until then Some (Text "retention deadline is required") else None
    | None => Some (Text "retention deadline is required")
    end
  else if existsb (fun a => a ==? LifecycleCommand.Action c)
            [LifecyclePlaceHold; LifecycleReleaseHold; LifecycleRequestDeletion; LifecycleConfirmDeletion] then
    match LifecycleCommand.RetainUntil c with
    | Some _ => Some (Text "retention deadline is valid only for retain actions")
    | None => None
    end
  else Some (Text "lifecycle action is invalid").
Definition Apply (c : LifecycleCommand.t) (st : St) : result Lifecycle.t * St :=
  match validateCommand c with
  | Some e => (Err e, st)
  | None => repo_ApplyLifecycle c st
  end.
End Service.

(** ** The specification

    [rule now action before after]: the action is allowed at that time and
    takes the state, the retention deadline and the hold from [before] to
    [after]. *)
Definition view : Type := string * option Z * bool.
Inductive rule (now : Z) : string -> view -> view -> Prop :=
| rule_retain r hold until :
    now <= until -> (forall r0, r = Some r0 -> r0 <= until) ->
    rule now LifecycleRetain (LifecycleActive, r, hold) (LifecycleActive, Some until, hold)
| rule_place st r : st <> LifecycleDeleted -> rule now LifecyclePlaceHold (st, r, false) (st, r, true)
| rule_release st r : st <> LifecycleDeleted -> rule now LifecycleReleaseHold (st, r, true) (st, r, false)
| rule_request r :
    (forall r0, r = Some r0 -> r0 <= now) ->
    rule now LifecycleRequestDeletion (LifecycleActive, r, false) (LifecyclePendingDeletion, r, false)
| rule_confirm r : rule now LifecycleConfirmDeletion (LifecyclePendingDeletion, r, false) (LifecycleDeleted, r, false).

Definition view_of (row : LifecycleRow.t) : view :=
  (LifecycleRow.state row, LifecycleRow.retain_until row, LifecycleRow.legal_hold row).
(** The event describes the step from one row to the next. *)
Definition describes_step (row : LifecycleRow.t) (e : LifecycleEventRow.t) (row' : LifecycleRow.t) : Prop :=
  LifecycleRow.primary_key row' = LifecycleRow.primary_key row /\
  LifecycleRow.version row' = LifecycleRow.version row + 1 /\ LifecycleEventRow.version e = LifecycleRow.version row' /\
  (LifecycleEventRow.previous_state e, LifecycleEventRow.previous_retain_until e, LifecycleEventRow.previous_legal_hold e) =
    (Some (LifecycleRow.state row), LifecycleRow.retain_until row, Some (LifecycleRow.legal_hold row)) /\
  (LifecycleEventRow.next_state e, LifecycleEventRow.next_retain_until e, LifecycleEventRow.next_legal_hold e) = view_of row' /\
  LifecycleEventRow.occurred_at e = LifecycleRow.updated_at row'.

(** The events of an artefact tell a lawful history that ends in its row. *)
Inductive history (key : string * string) : list LifecycleEventRow.t -> LifecycleRow.t -> Prop :=
| history_created ts :
    history key [PostgresRepository.initial_event ts key.1 key.2] (PostgresRepository.initial_lifecycle ts key.1 key.2)
| history_step events row e row' :
    history key events row -> describes_step row e row' ->
    rule (LifecycleEventRow.occurred_at e) (LifecycleEventRow.action e) (view_of row) (view_of row') ->
    history key (events ++ [e]) row'.

Definition event_key (e : LifecycleEventRow.t) : string * string :=
  (LifecycleEventRow.tenant_id e, LifecycleEventRow.artefact_id e).
Definition events_of (key : string * string) (db : DB.t) : list LifecycleEventRow.t :=
  List.filter (fun e => event_key e ==? key) (DB.lifecycle_events db).

(** A deletion request made without a hold after the retention deadline, and
    the confirmation, again without a hold. *)
Definition lawful_request (e : LifecycleEventRow.t) : Prop :=
  LifecycleEventRow.action e = LifecycleRequestDeletion /\ LifecycleEventRow.previous_legal_hold e = Some false /\
  forall r, LifecycleEventRow.previous_retain_until e = Some r -> r <= LifecycleEventRow.occurred_at e.
Definition lawful_confirmation (e : LifecycleEventRow.t) : Prop :=
  LifecycleEventRow.action e = LifecycleConfirmDeletion /\ LifecycleEventRow.previous_legal_hold e = Some false.

Lemma history_version key events row : history key events row -> 0 < LifecycleRow.version row.
Proof. induction 1 as [ts|events row e row' _ IH (_ & Hv & _) _]; [done|lia]. Qed.

Lemma rule_inv now a st r h st' r' h' :
  rule now a (st, r, h) (st', r', h') ->
  (a = LifecycleRetain /\ st = LifecycleActive /\ st' = LifecycleActive) \/
  (a = LifecyclePlaceHold /\ st' = st /\ st <> LifecycleDeleted) \/
  (a = LifecycleReleaseHold /\ st' = st /\ st <> LifecycleDeleted) \/
  (a = LifecycleRequestDeletion /\ st' = LifecyclePendingDeletion /\ h = false /\ forall r0, r = Some r0 -> r0 <= now) \/
  (a = LifecycleConfirmDeletion /\ st = LifecyclePendingDeletion /\ st' = LifecycleDeleted /\ h = false).
Proof. inversion 1; subst; naive_solver. Qed.

Lemma history_requested key events row :
  history key events row -> LifecycleRow.state row = LifecyclePendingDeletion ->
  exists before request rest, events = before ++ request :: rest /\ lawful_request request.
Proof.
  induction 1 as [ts|events row e row' Hh IH Hd Hr]; [done|]. intros Hst.
  destruct Hd as (_ & _ & _ & Hprev & _ & _). injection Hprev as Hp1 Hp2 Hp3.
  assert (Hearlier : LifecycleRow.state row = LifecyclePendingDeletion ->
    exists before request rest, events ++ [e] = before ++ request :: rest /\ lawful_request request).
  { intros (before & request & rest & -> & Hl)%IH. exists before, request, (rest ++ [e]). by rewrite <- app_assoc. }
  unfold view_of in Hr.
  apply rule_inv in Hr as [(_ & _ & E)|[(_ & E & _)|[(_ & E & _)|[(Ha & _ & Hh' & Hr)|(_ & _ & E & _)]]]];
    try (rewrite Hst in E; first [discriminate E | by apply Hearlier]).
  exists events, e, []. split; [done|]. split; [done|]. rewrite Hp3, Hp2, Hh'. by split.
Qed.

Lemma history_deleted key events row :
  history key events row -> LifecycleRow.state row = LifecycleDeleted ->
  exists before request rest confirmation, events = before ++ request :: rest ++ [confirmation] /\
    lawful_request request /\ lawful_confirmation confirmation.
Proof.
  intros Hh Hst. destruct Hh as [ts|events row e row' Hh Hd Hr]; [done|].
  destruct Hd as (_ & _ & _ & Hprev & _ & _). injection Hprev as Hp1 Hp2 Hp3. unfold view_of in Hr.
  apply rule_inv in Hr as [(_ & _ & E)|[(_ & E & Hne)|[(_ & E & Hne)|[(_ & E & _)|(Ha & Hp & _ & Hhold)]]]];
    try (rewrite Hst in E; first [discriminate E | by destruct Hne]).
  destruct (history_requested key events row Hh Hp) as (before & request & rest & -> & Hl).
  exists before, request, rest, e. rewrite <- app_assoc. split; [done|]. split; [done|]. split; [done|]. congruence.
Qed.

(** ** The repository follows the rules *)
Definition lview (l : Lifecycle.t) : view := (State l, RetainUntil l, LegalHold l).
Definition aligned_deadline (r : option Z) : Prop := forall r0, r = Some r0 -> r0 mod Microsecond = 0.

Lemma Truncate_ge t d u : 0 < d -> u mod d = 0 -> u < t -> u <= Truncate t d.
Proof.
  intros Hd Hu Hlt. destruct (Z.le_gt_cases u (Truncate t d)) as [|Hgt]; [done|].
  apply (proj1 (Truncate_lt_aligned t u d Hd Hu)) in Hgt. lia.
Qed.

Lemma action_follows_rule current command now next :
  now mod Microsecond = 0 -> aligned_deadline (RetainUntil current) ->
  applyLifecycleAction current command now = Ok next ->
  rule now (LifecycleCommand.Action command) (lview current) (lview next) /\
  Version next = Version current /\ aligned_deadline (RetainUntil next).
Proof.
  intros Hnow Hal. unfold applyLifecycleAction. cbv zeta.
  destruct current as [tn id st r hold v u]. cbn [RetainUntil] in Hal.
  repeat (destruct (LifecycleCommand.Action command ==? _) eqn:Ha; [reflect_bools; rewrite Ha; clear Ha|clear Ha]); [..|done].
  - unfold applyRetention. destruct (LifecycleCommand.RetainUntil command) as [until|]; [|done]. cbn [State RetainUntil].
    case_match eqn:Hg; [done|]. intros [= <-]. reflect_bools. unfold After in *. reflect_bools. destruct Hg as [[-> Hlt] Hr].
    split; [|split; [done|]].
    + constructor; [by apply Truncate_ge|]. intros r0 Hr0. cbn in Hr0. subst r. apply Truncate_ge; [done|by apply Hal|]. reflect_bools. lia.
    + intros r0 [= <-]. by apply Truncate_mod.
  - unfold placeLegalHold. cbn [State LegalHold]. case_match eqn:Hg; [done|]. intros [= <-]. reflect_bools.
    destruct Hg as [Hst ->]. split; [by constructor|done].
  - unfold releaseLegalHold. cbn [State LegalHold]. case_match eqn:Hg; [done|]. intros [= <-]. reflect_bools.
    destruct Hg as [Hst ->]. split; [by constructor|done].
  - unfold applyDeletionRequest. cbn [State LegalHold RetainUntil]. case_match eqn:Hg; [done|]. intros [= <-]. reflect_bools.
    destruct Hg as [[-> ->] Hr]. split; [|done]. constructor. intros r0 Hr0. cbn in Hr0. subst r. unfold After in Hr. reflect_bools. lia.
  - unfold applyDeletionConfirmation. cbn [State LegalHold]. case_match eqn:Hg; [done|]. intros [= <-]. reflect_bools.
    destruct Hg as [-> ->]. split; [by constructor|done].
Qed.

(** ** Runs

    Artefacts are recorded and commands applied in any order, with anything
    else that leaves the lifecycle tables alone.  The database's clock has
    microsecond precision. *)
Section Runs.
Context `{JB : Jsonb}.

Inductive lop : Type :=
| LRecord (ts : Z) (m : Metadata.t)
| LApply (now : Z) (command : LifecycleCommand.t)
| LOther (f : DB.t -> DB.t).
Definition lstep (op : lop) (db : DB.t) : result (option Lifecycle.t) * DB.t :=
  match op with
  | LRecord ts m => let '(r, db) := PostgresRepository.Create ts m db in
                    (match r with Ok _ => Ok None | Err e => Err e end, db)
  | LApply now command => let '(r, db) := Apply (H := postgres_lifecycle now) command db in
                          (match r with Ok l => Ok (Some l) | Err e => Err e end, db)
  | LOther f => (Ok None, f db)
  end.
Definition lop_ok (op : lop) : Prop :=
  match op with
  | LRecord _ _ => True
  | LApply now _ => now mod Microsecond = 0
  | LOther f => forall db, DB.lifecycles (f db) = DB.lifecycles db /\ DB.lifecycle_events (f db) = DB.lifecycle_events db
  end.

Definition row_lawful (db : DB.t) (key : string * string) (row : LifecycleRow.t) : Prop :=
  LifecycleRow.primary_key row = key /\ history key (events_of key db) row /\
  LifecycleRow.version row <= max_int64 /\ aligned_deadline (LifecycleRow.retain_until row).
Definition Ledger (db : DB.t) : Prop :=
  map_Forall (row_lawful db) (DB.lifecycles db) /\
  forall key, DB.lifecycles db !! key = None -> events_of key db = [].

Lemma append_event_spec e db db' :
  PostgresRepository.append_event e db = Ok db' ->
  DB.lifecycles db' = DB.lifecycles db /\
  forall key, events_of key db' = events_of key db ++ (if event_key e ==? key then [e] else []).
Proof.
  unfold PostgresRepository.append_event. do 2 (case_match; [done|]). intros [= <-]. split; [done|]. intros key.
  unfold events_of.
  change (DB.lifecycle_events (db <| DB.lifecycle_events := DB.lifecycle_events db ++ [e] |>))
    with (DB.lifecycle_events db ++ [e]). rewrite List.filter_app. cbn [List.filter]. by destruct (_ ==? _).
Qed.

(** One row is written and the event of its step appended. *)
Lemma ledger_write db db1 db2 key row e :
  Ledger db -> DB.lifecycles db1 = <[key := row]> (DB.lifecycles db) ->
  (forall k, events_of k db1 = events_of k db) -> PostgresRepository.append_event e db1 = Ok db2 -> event_key e = key ->
  LifecycleRow.primary_key row = key -> LifecycleRow.version row <= max_int64 ->
  aligned_deadline (LifecycleRow.retain_until row) -> history key (events_of key db ++ [e]) row ->
  Ledger db2.
Proof.
  intros [Hrows Hnone] Hl Hev Happ Hkey Hpk Hv Hal Hh. destruct (append_event_spec e db1 db2 Happ) as [Hl2 He2].
  rewrite Hl in Hl2. split.
  - intros k r. rewrite Hl2. intros [[<- <-]|[Hne Hk]]%lookup_insert_Some; unfold row_lawful; rewrite He2, Hev, Hkey.
    + by rewrite bool_decide_eq_true_2.
    + rewrite bool_decide_eq_false_2, app_nil_r by done. by apply Hrows.
  - intros k. rewrite Hl2. intros [Hk Hne]%lookup_insert_None. rewrite He2, Hev, Hkey, bool_decide_eq_false_2, app_nil_r by done.
    by apply Hnone.
Qed.

Lemma record_ledger ts m db : Ledger db -> Ledger (PostgresRepository.Create ts m db).2.
Proof.
  intros HL. unfold PostgresRepository.Create. destruct (validateMetadata m); [done|].
  destruct (PostgresRepository.stored_manifest m) as [document|]; [|done].
  destruct (PostgresRepository.insert_artefact _ _ db) as [[[|] db1]|] eqn:Hi; [| |done].
  2: { destruct (PostgresRepository.Get _ _ db) as [existing|e]; [by destruct (metadataEqual _ _)|by destruct (errors_Is _ _)]. }
  assert (H1 : DB.lifecycles db1 = DB.lifecycles db /\ DB.lifecycle_events db1 = DB.lifecycle_events db).
  { unfold PostgresRepository.insert_artefact in Hi. repeat case_match; simplify_eq; done. }
  destruct H1 as [Hl1 He1]. destruct (PostgresRepository.insert_lifecycle _ db1) as [db2|] eqn:Hil; [|done].
  destruct (PostgresRepository.append_event _ db2) as [db3|] eqn:Ha; [|done]. cbn [snd].
  unfold PostgresRepository.insert_lifecycle in Hil. case_match eqn:Hnone; [done|]. injection Hil as <-.
  rewrite Hl1 in Hnone. set (key := (Metadata.TenantID m, Metadata.ArtefactID m)).
  eapply (ledger_write db _ db3 key (PostgresRepository.initial_lifecycle ts _ _)); [done| | |exact Ha|done..| |].
  - rewrite <- Hl1. reflexivity.
  - intros k. unfold events_of. rewrite <- He1. reflexivity.
  - done.
  - destruct HL as [_ HL]. rewrite (HL key Hnone). apply (history_created key).
Qed.

Lemma apply_ledger now command db :
  now mod Microsecond = 0 -> Ledger db -> Ledger (ApplyLifecycle now command db).2.
Proof.
  intros Hnow HL. unfold ApplyLifecycle, lockLifecycle, update_lifecycle. cbv zeta.
  destruct (negb (all_encodable _)); [done|]. set (key := (LifecycleCommand.TenantID command, LifecycleCommand.ArtefactID command)).
  destruct (DB.lifecycles db !! key) as [row|] eqn:Hrow; [|done].
  destruct (negb (_ =? _)) eqn:Hver; [done|]. reflect_bools.
  destruct (applyLifecycleAction (scanLifecycle row) command now) as [next|e] eqn:Hact; [|done].
  destruct (proj1 HL key row Hrow) as (Hpk & Hh & Hmax & Hal).
  destruct (action_follows_rule (scanLifecycle row) _ _ _ Hnow Hal Hact) as (Hrule & Hnv & Hal').
  cbn [scanLifecycle Version] in Hver, Hnv.
  match goal with |- context [LifecycleRow.check ?r] => set (row' := r) end.
  destruct (LifecycleRow.check row') eqn:Hck; [|done]. cbn [negb].
  destruct (negb (all_encodable _)); [done|].
  destruct (PostgresRepository.append_event _ _) as [db'|] eqn:Ha; [|done]. cbn [snd].
  assert (Hv' : LifecycleRow.version row' = LifecycleRow.version row + 1 /\ LifecycleRow.version row' <= max_int64).
  { unfold LifecycleRow.check in Hck. reflect_bools. destruct Hck as [[_ Hpos] _].
    change (LifecycleRow.version row') with (int64 (Version next + 1)) in *. rewrite Hnv in *.
    pose proof (history_version _ _ _ Hh). destruct (Z.le_gt_cases (LifecycleRow.version row + 1) max_int64) as [Hle|Hgt].
    - rewrite int64_small; unfold max_int64 in *; lia.
    - exfalso. replace (LifecycleRow.version row + 1) with (2 ^ 63) in Hpos by (unfold max_int64 in *; lia). done. }
  refine (ledger_write db _ db' key row' _ HL _ _ Ha _ _ _ _ _); [done|done|done|done|by apply Hv'|done|].
  eapply history_step; [exact Hh| |].
  - unfold describes_step. rewrite Hpk. split; [done|]. split; [by apply Hv'|]. done.
  - exact Hrule.
Qed.

Lemma lstep_ledger op db : lop_ok op -> Ledger db -> Ledger (lstep op db).2.
Proof.
  intros Hop HL. destruct op as [ts m|now command|f]; cbn [lstep].
  - pose proof (record_ledger ts m db HL) as H1. by destruct (PostgresRepository.Create ts m db).
  - unfold Apply. destruct (validateCommand command); [done|]. pose proof (apply_ledger now command db Hop HL) as H1.
    cbn [repo_ApplyLifecycle postgres_lifecycle]. by destruct (ApplyLifecycle now command db).
  - destruct (Hop db) as [Hl He]. destruct HL as [H1 H2]. cbn [snd]. unfold Ledger, row_lawful, events_of in *. by rewrite Hl, He.
Qed.

(** C37.  Deletion is lawful and the ledger complete: after any run of
    recordings and lifecycle commands, the events of every artefact tell its
    history step by step (versions without gaps, each event matching the rows
    before and after it, each action allowed by its rule at that time, retention
    deadlines never brought forward) up to its current row; and an artefact is
    deleted only after a deletion was requested with no legal hold and an expired
    retention deadline, and confirmed, as the last step, with no legal hold. *)
Theorem lifecycle_ledger ops (Hops : Forall lop_ok ops) :
  let db := (run lstep ops DB.empty).2 in
  forall key row, DB.lifecycles db !! key = Some row ->
  history key (events_of key db) row /\
  (LifecycleRow.state row = LifecycleDeleted ->
   exists before request rest confirmation, events_of key db = before ++ request :: rest ++ [confirmation] /\
     lawful_request request /\ lawful_confirmation confirmation).
Proof.
  cbv zeta. assert (HL : Ledger (run lstep ops DB.empty).2).
  { apply (run_invariant lstep lop_ok Ledger); [intros; by apply lstep_ledger|done|]. by split; [apply map_Forall_empty|]. }
  intros key row Hrow. destruct (proj1 HL key row Hrow) as (_ & Hh & _). split; [done|]. by apply (history_deleted key).
Qed.
End Runs.

(** ** Witness

    An artefact is retained, its deletion refused, requested after the deadline,
    held up by a legal hold, and finally confirmed. *)
Definition lifecycle_demo_metadata : Metadata.t :=
  DurableStore.captured_metadata "tenant" "output" "text/plain" "ssh" "attempt-1" "key-1" 5000.
Definition lifecycle_demo_command (version : Z) (action : string) (until : option Z) : LifecycleCommand.t :=
  LifecycleCommand.mk "tenant" (Metadata.ArtefactID lifecycle_demo_metadata) version action until "operator" "case 7".
Definition lifecycle_demo_ops : list lop :=
  [ LRecord 6000 lifecycle_demo_metadata;
    LApply 7000 (lifecycle_demo_command 1 LifecycleRetain (Some 20500));
    LApply 8000 (lifecycle_demo_command 2 LifecycleRequestDeletion None);
    LApply 9000 (lifecycle_demo_command 2 LifecycleRetain (Some 10000));
    LApply 20000 (lifecycle_demo_command 2 LifecycleRequestDeletion None);
    LApply 21000 (lifecycle_demo_command 3 LifecyclePlaceHold None);
    LApply 22000 (lifecycle_demo_command 4 LifecycleConfirmDeletion None);
    LApply 23000 (lifecycle_demo_command 4 LifecycleReleaseHold None);
    LApply 24000 (lifecycle_demo_command 4 LifecycleConfirmDeletion None);
    LApply 25000 (lifecycle_demo_command 5 LifecycleConfirmDeletion None);
    LApply 26000 (lifecycle_demo_command 6 LifecyclePlaceHold None) ].

Lemma lifecycle_demo_ok : Forall lop_ok lifecycle_demo_ops.
Proof. by repeat constructor. Qed.

Lemma lifecycle_ledger_witness :
  let '(log, db) := run lstep lifecycle_demo_ops DB.empty in
  map (fun e => is_ok e.2) log = [true; true; false; false; true; true; false; true; false; true; false] /\
  exists row key, DB.lifecycles db !! key = Some row /\
    exists before request rest confirmation, events_of key db = before ++ request :: rest ++ [confirmation] /\
      lawful_request request /\ lawful_confirmation confirmation.
Proof.
  pose proof (lifecycle_ledger lifecycle_demo_ops lifecycle_demo_ok) as Hw. cbv zeta in Hw.
  set (key := ("tenant", Metadata.ArtefactID lifecycle_demo_metadata)).
  assert (Hlog : map (fun e => is_ok e.2) (run lstep lifecycle_demo_ops DB.empty).1 =
    [true; true; false; false; true; true; false; true; false; true; false]) by (vm_compute; reflexivity).
  assert (Hst : option_map LifecycleRow.state (DB.lifecycles (run lstep lifecycle_demo_ops DB.empty).2 !! key) =
    Some LifecycleDeleted) by (vm_compute; reflexivity).
  destruct (run lstep lifecycle_demo_ops DB.empty) as [log db]. cbn [fst snd] in *. split; [exact Hlog|].
  destruct (DB.lifecycles db !! key) as [row|] eqn:Hrow; [|discriminate Hst]. exists row, key. split; [exact Hrow|].
  apply (Hw key row Hrow). injection Hst as Hst. exact Hst.
Defined.
