(* ===== verification/Parsing.v ===== *)
(** * Typed observations

    [internal/parsing/interface_state.go]: the parser that turns a sanitised
    payload into the operational state of an interface. *)
From S2P Require Import Prelude GoStrings GoEncoding GoDecoding Json JsonStruct Resolution Artefacts.
Local Open Scope Z_scope.

Module InterfaceOperationalState.
Record t := mk {
  SchemaVersion : string; InterfaceName : string; OperationalState : string; ObservedAt : Z;
  TaintedFields : option (list string) }.
#[global] Instance eta_t : Eta t := fun x =>
  mk (SchemaVersion x) (InterfaceName x) (OperationalState x) (ObservedAt x) (TaintedFields x).
#[global] Instance eq_dec : EqDecision t.
Proof. solve_decision. Defined.
End InterfaceOperationalState.

Module InterfaceStateParser.
Record t := mk { ID : string; Version : string }.
End InterfaceStateParser.

(** [unicode.IsLetter] and [unicode.IsDigit]: Latin-1 by its property table,
    the rest by the tables of the Unicode version. *)
Class UnicodeTables := { letter_table : Z -> bool; digit_table : Z -> bool }.
Definition MaxLatin1 : Z := 255.

Section Parser.
Context `{UnicodeTables}.

Definition IsLetter (r : Z) : bool :=
  if r <=? MaxLatin1 then
    in_range 65 r 90 || in_range 97 r 122 || (r =? 170) || (r =? 181) || (r =? 186) || in_range 192 r 214 ||
    in_range 216 r 246 || in_range 248 r 255
  else letter_table r.
Definition IsDigit (r : Z) : bool := if r <=? MaxLatin1 then in_range 48 r 57 else digit_table r.

(** The punctuation of interface names: - _ . : / [ ] *)
Definition name_char (r : Z) : bool := IsLetter r || IsDigit r || existsb (Z.eqb r) [45; 95; 46; 58; 47; 91; 93].
Definition validInterfaceName (value : string) : bool :=
  if (value ==? "") || (128 <? len value) then false else forallb name_char (runes value).

Definition validSHA256Digest (value : string) : bool :=
  if negb (len value =? 64) then false
  else match hex_DecodeString value with Some decoded => Z.of_nat (List.length decoded) =? 32 | None => false end.

(** The wire struct, decoded without unknown fields. *)
Definition wire_names : list string := ["schema_version"; "interface_name"; "operational_state"; "observed_at"].
Definition known_member (kv : list item * jtree) : bool := existsb (fun name => fkey kv ==? fold_name name) wire_names.
Definition dec_wire (t : jtree) : option (string * string * string * Z) :=
  match t with
  | TNull => Some ("", "", "", 0)
  | TObj fs =>
    if negb (forallb known_member fs) then None
    else match decode_field dec_string "schema_version" "" fs, decode_field dec_string "interface_name" "" fs,
               decode_field dec_string "operational_state" "" fs, decode_field dec_time "observed_at" 0 fs with
    | Some version, Some name, Some state, Some observed => Some (version, name, state, observed)
    | _, _, _, _ => None
    end
  | _ => None
  end.

(** A decoder reads one value; a second read must find the end of the input. *)
Definition parse_payload (p : InterfaceStateParser.t) (payload : string) : result InterfaceOperationalState.t :=
  if (InterfaceStateParser.ID p ==? "") || (InterfaceStateParser.Version p ==? "") || (payload ==? "") then
    Err (Text "parser identity and payload are required")
  else match Json.parse_value (2 * List.length (bytes payload) + 2) 0 (bytes payload) with
  | None => Err (Wrapf "parse interface operational state: " (Text "json: invalid value") "")
  | Some (value, rest) =>
    match dec_wire value with
    | None => Err (Wrapf "parse interface operational state: " (Text "json: cannot unmarshal value into Go value") "")
    | Some (version, name, state, observed) =>
      if skip_ws rest !=? [] then Err (Text "observation must contain exactly one JSON value")
      else if (version !=? "v1") || negb (validInterfaceName name) || IsZero observed then
        Err (Text "observation does not satisfy interface operational state v1 schema")
      else if negb (existsb (fun s => state ==? s) ["up"; "down"; "unknown"]) then
        Err (Text ("unsupported operational state " +:+ quote state))
      else Ok (InterfaceOperationalState.mk version name state observed (Some ["interface_name"]))
    end
  end.

Definition ParseWithManifest (p : InterfaceStateParser.t) (payload mediaType : string)
    (manifest : TransformationManifest.t) : result InterfaceOperationalState.t :=
  if mediaType !=? "application/json" then
    Err (Text ("interface state requires application/json, got " +:+ quote mediaType))
  else if TransformationManifest.Quarantined manifest then
    Err (Text "quarantined payload cannot be promoted to typed evidence")
  else if (TransformationManifest.ManifestVersion manifest !=? TransformationManifestVersionV1) ||
          (TransformationManifest.RulesVersion manifest ==? "") ||
          negb (validSHA256Digest (TransformationManifest.InputDigest manifest)) ||
          (TransformationManifest.OutputDigest manifest !=? sha256_hex payload) ||
          (TransformationManifest.OverallStatus manifest !=? "tainted") ||
          negb (existsb (fun f => f ==? "$/interface_name") (elems (TransformationManifest.TaintedFields manifest))) then
    Err (Text "sanitisation manifest does not classify interface_name as tainted")
  else parse_payload p payload.

(** ** What the parser lets through *)

(** The values of the v1 schema. *)
Definition typed (o : InterfaceOperationalState.t) : Prop :=
  InterfaceOperationalState.SchemaVersion o = "v1" /\
  1 <= len (InterfaceOperationalState.InterfaceName o) <= 128 /\
  Forall (fun r => IsLetter r = true \/ IsDigit r = true \/ r ∈ [45; 95; 46; 58; 47; 91; 93])
    (runes (InterfaceOperationalState.InterfaceName o)) /\
  InterfaceOperationalState.OperationalState o ∈ ["up"; "down"; "unknown"] /\
  InterfaceOperationalState.ObservedAt o <> 0 /\
  InterfaceOperationalState.TaintedFields o = Some ["interface_name"].
(** The sanitiser's account of these very bytes: released, not quarantined, with
    the interface name marked as device-controlled. *)
Definition vouches (manifest : TransformationManifest.t) (payload : string) : Prop :=
  TransformationManifest.Quarantined manifest = false /\ TransformationManifest.OverallStatus manifest = "tainted" /\
  TransformationManifest.OutputDigest manifest = sha256_hex payload /\
  "$/interface_name" ∈ elems (TransformationManifest.TaintedFields manifest).

(** An observation on the wire. *)
Definition wire_tree (o : InterfaceOperationalState.t) : jtree :=
  TObj [key "schema_version" (jstr (InterfaceOperationalState.SchemaVersion o));
        key "interface_name" (jstr (InterfaceOperationalState.InterfaceName o));
        key "operational_state" (jstr (InterfaceOperationalState.OperationalState o));
        key "observed_at" (jtime (InterfaceOperationalState.ObservedAt o))].

Lemma name_char_spec r :
  name_char r = true <-> IsLetter r = true \/ IsDigit r = true \/ r ∈ [45; 95; 46; 58; 47; 91; 93].
Proof.
  unfold name_char. rewrite !orb_true_iff, existsb_exists. setoid_rewrite Z.eqb_eq. setoid_rewrite <- list_elem_of_In.
  split; [|naive_solver]. intros [[?|?]|(x & Hx & ->)]; auto.
Qed.
Lemma len_pos s : s <> "" <-> 1 <= len s.
Proof. unfold len. destruct s; cbn [String.length]; split; intros; try done; lia. Qed.

Lemma validInterfaceName_spec name :
  validInterfaceName name = true <->
  1 <= len name <= 128 /\
  Forall (fun r => IsLetter r = true \/ IsDigit r = true \/ r ∈ [45; 95; 46; 58; 47; 91; 93]) (runes name).
Proof.
  unfold validInterfaceName. rewrite <- (list.Forall_iff _ _ _ name_char_spec). destruct (_ || _) eqn:E; reflect_bools.
  - split; [done|]. intros [[H1 H2] _]. apply len_pos in H1. destruct E; [done|lia].
  - rewrite forallb_forall, list.Forall_forall. setoid_rewrite list_elem_of_In. destruct E as [H1%len_pos H2]. split; [|tauto].
    intros Hr. split; [lia|done].
Qed.

Lemma parse_payload_typed p payload o :
  parse_payload p payload = Ok o ->
  typed o /\ exists fs, Json.parse (bytes payload) = Some (TObj fs) /\ forallb known_member fs = true /\
    dec_wire (TObj fs) = Some (InterfaceOperationalState.SchemaVersion o, InterfaceOperationalState.InterfaceName o,
      InterfaceOperationalState.OperationalState o, InterfaceOperationalState.ObservedAt o).
Proof.
  unfold parse_payload, Json.parse. destruct (_ || _ || _); [done|].
  destruct (Json.parse_value _ _ _) as [[value rest]|]; [|done]. destruct (dec_wire value) as [[[[v n] st] ob]|] eqn:Hw; [|done].
  destruct (skip_ws rest !=? []) eqn:Hr; [done|]. destruct (_ || _) eqn:Hc; [done|].
  destruct (negb (existsb _ _)) eqn:Hs; [done|]. intros [= <-]. unfold typed. cbn [InterfaceOperationalState.SchemaVersion
    InterfaceOperationalState.InterfaceName InterfaceOperationalState.OperationalState InterfaceOperationalState.ObservedAt
    InterfaceOperationalState.TaintedFields]. apply orb_false_iff in Hc as [Hc Hz]. apply orb_false_iff in Hc as [Hv Hn].
  apply negb_false_iff, validInterfaceName_spec in Hn. unfold IsZero in Hz. reflect_bools. rewrite Hr. split.
  - split_and!; try done; try apply Hn. apply existsb_exists in Hs as (x & Hx & Heq). reflect_bools. subst. by apply list_elem_of_In.
  - destruct value as [| | | | |fs]; try done; [by injection Hw as <- _ _ _|]. exists fs. split; [done|].
    pose proof Hw as Hk. cbn [dec_wire] in Hk. by destruct (forallb known_member fs).
Qed.

Lemma wire_reads p o :
  InterfaceStateParser.ID p <> "" -> InterfaceStateParser.Version p <> "" ->
  typed o -> ValidString (InterfaceOperationalState.InterfaceName o) = true ->
  jtime_ok (InterfaceOperationalState.ObservedAt o) = true ->
  parse_payload p (Marshal (wire_tree o)) = Ok o.
Proof.
  intros Hid Hver (Hv & Hlen & Hname & Hst & Hob & Ht) Hu Hj. destruct o as [v n st ob tf]. cbn [InterfaceOperationalState.SchemaVersion
    InterfaceOperationalState.InterfaceName InterfaceOperationalState.OperationalState InterfaceOperationalState.ObservedAt
    InterfaceOperationalState.TaintedFields] in *. subst v tf.
  assert (Hvst : ValidString st = true) by (apply list_elem_of_In in Hst; repeat destruct Hst as [<-|Hst]; done).
  assert (Hdec : dec_wire (wire_tree (InterfaceOperationalState.mk "v1" n st ob (Some ["interface_name"]))) = Some ("v1", n, st, ob)).
  { unfold wire_tree, dec_wire. cbn [InterfaceOperationalState.SchemaVersion InterfaceOperationalState.InterfaceName
      InterfaceOperationalState.OperationalState InterfaceOperationalState.ObservedAt].
    assert (Hk : forall a b c d, forallb known_member [key "schema_version" a; key "interface_name" b; key "operational_state" c;
      key "observed_at" d] = true) by (intros; vm_compute; reflexivity).
    rewrite Hk. cbn [negb]. assert (Hv1 : ValidString "v1" = true) by done. by decode_members. }
  set (t := wire_tree _) in *.
  assert (Hgood : tree_ok t /\ nesting t <= max_depth).
  { subst t. unfold wire_tree. split; [|unfold max_depth; cbn [nesting foldr snd key jstr jtime]; lia].
    cbn [tree_ok foldr]. repeat (split; [split; [apply str_items_ok|first [apply jstr_ok | by apply jtime_tree_ok]]|]). done. }
  pose proof (parse_Marshal t (proj1 Hgood) (proj2 Hgood)) as Hp. clearbody t. clear Hgood. revert Hp.
  generalize (Marshal t). intros payload Hp. unfold parse_payload, Json.parse in *.
  destruct (Json.parse_value _ _ _) as [[value rest]|] eqn:Hpv; [|done]. destruct (skip_ws rest); [|done]. injection Hp as ->.
  assert (Hne : payload <> "") by (intros ->; by vm_compute in Hpv).
  rewrite (bool_decide_eq_false_2 _ Hid), (bool_decide_eq_false_2 _ Hver), (bool_decide_eq_false_2 _ Hne). cbn [orb].
  rewrite Hdec, !bool_decide_eq_true_2 by reflexivity. cbn [negb].
  rewrite (proj2 (validInterfaceName_spec n)) by (by split). unfold IsZero. rewrite (proj2 (Z.eqb_neq ob 0)) by assumption. cbn [negb orb].
  rewrite (proj2 (existsb_exists _ _)); [done|]. exists st. split; [by apply list_elem_of_In|by apply bool_decide_eq_true_2].
Qed.

(** A typed observation that a manifest releases is read back. *)
Lemma release_parses p o manifest (payload := Marshal (wire_tree o)) :
  InterfaceStateParser.ID p <> "" -> InterfaceStateParser.Version p <> "" -> typed o ->
  ValidString (InterfaceOperationalState.InterfaceName o) = true -> jtime_ok (InterfaceOperationalState.ObservedAt o) = true ->
  vouches manifest payload -> TransformationManifest.ManifestVersion manifest = TransformationManifestVersionV1 ->
  TransformationManifest.RulesVersion manifest <> "" -> validSHA256Digest (TransformationManifest.InputDigest manifest) = true ->
  ParseWithManifest p payload "application/json" manifest = Ok o.
Proof.
  unfold ParseWithManifest, vouches. intros Hid Hver Ht Hu Hj (Hq & Hst & Hd & Hf) Hmv Hrv Hi. rewrite Hq, Hmv, Hst, Hd, Hi.
  rewrite (bool_decide_eq_false_2 _ Hrv), !bool_decide_eq_true_2 by reflexivity. cbn [negb orb].
  rewrite (proj2 (existsb_exists _ _)); [by apply wire_reads|]. exists "$/interface_name".
  split; [by apply list_elem_of_In|by apply bool_decide_eq_true_2].
Qed.

(** C40.  Only typed observations leave the parser, and all of them can: what
    [ParseWithManifest] returns has the v1 schema, a bounded interface name made
    of letters, digits and the allowed punctuation and marked as tainted, one of
    the three states and a time, and comes from one JSON object without unknown
    members whose bytes the manifest released under their digest; conversely
    every such observation, written as JSON and released by a manifest, is
    returned unchanged. *)
Theorem observations_typed p payload mediaType manifest :
  (forall o, ParseWithManifest p payload mediaType manifest = Ok o ->
     typed o /\ vouches manifest payload /\ mediaType = "application/json" /\
     exists fs, Json.parse (bytes payload) = Some (TObj fs) /\ Forall (fun kv => exists name, name ∈ wire_names /\
       fkey kv = fold_name name) fs) /\
  (forall o, InterfaceStateParser.ID p <> "" -> InterfaceStateParser.Version p <> "" -> typed o ->
     ValidString (InterfaceOperationalState.InterfaceName o) = true -> jtime_ok (InterfaceOperationalState.ObservedAt o) = true ->
     payload = Marshal (wire_tree o) -> mediaType = "application/json" -> vouches manifest payload ->
     TransformationManifest.ManifestVersion manifest = TransformationManifestVersionV1 ->
     TransformationManifest.RulesVersion manifest <> "" ->
     validSHA256Digest (TransformationManifest.InputDigest manifest) = true ->
     ParseWithManifest p payload mediaType manifest = Ok o).
Proof.
  split.
  - unfold ParseWithManifest, vouches. intros o. destruct (mediaType !=? _) eqn:Hm; [done|]. destruct (TransformationManifest.Quarantined manifest); [done|].
    destruct (_ || _) eqn:Hc; [done|]. intros (Ht & fs & Hp & Hk & _)%parse_payload_typed. reflect_bools.
    split; [done|]. split; [|split; [done|]].
    + split_and!; try tauto. destruct Hc as [_ Hc]. apply existsb_exists in Hc as (f & Hf & Heq). reflect_bools. subst f.
      by apply list_elem_of_In.
    + exists fs. split; [done|]. apply list.Forall_forall. intros kv Hkv%list_elem_of_In. rewrite forallb_forall in Hk.
      specialize (Hk kv Hkv). unfold known_member in Hk. apply existsb_exists in Hk as (name & Hn & He). reflect_bools.
      exists name. split; [by apply list_elem_of_In|done].
  - intros o Hid Hver Ht Hu Hj -> -> Hvouch Hmv Hrv Hi. by apply release_parses.
Qed.
End Parser.

(** ** Witness *)
#[local] Instance latin1_tables : UnicodeTables := {| letter_table _ := false; digit_table _ := false |}.
Definition demo_parser : InterfaceStateParser.t := InterfaceStateParser.mk "interface-state" "1".
Definition demo_observation : InterfaceOperationalState.t :=
  InterfaceOperationalState.mk "v1" "Gi0/0.1" "up" (63870000000 * Second + 120000000) (Some ["interface_name"]).
Definition demo_observed : string := Marshal (wire_tree demo_observation).
Definition demo_release : TransformationManifest.t :=
  TransformationManifest.mk TransformationManifestVersionV1 "pipeline" "1" "rules" (sha256_hex "raw") (sha256_hex demo_observed)
    "tainted" None (Some ["$/interface_name"]) None false false 3 (len demo_observed).

Lemma observations_typed_witness :
  demo_observed =
    of_bytes (bytes "{'schema_version':'v1','interface_name':'Gi0/0.1','operational_state':'up','observed_at':'2024-12-17T02:40:00.12Z'}"
      ≫= (fun b => [if b =? 39 then 34 else b])) /\
  ParseWithManifest demo_parser demo_observed "application/json" demo_release = Ok demo_observation.
Proof.
  split; [by vm_compute|]. apply (proj2 (observations_typed demo_parser demo_observed "application/json" demo_release)); try done.
  - assert (Hn : validInterfaceName "Gi0/0.1" = true) by by vm_compute. apply validInterfaceName_spec in Hn as [Hl Hf].
    split_and!; try done; by repeat constructor.
  - split_and!; try done. by repeat constructor.
Defined.
