(* ===== verification/Identity.v ===== *)
(** * Identities ([internal/workloadidentity], [internal/operatorauth],
    [internal/databaseauth])

    Who is calling and as whom the broker is connected.  A caller's tenant and
    role come from the one SPIFFE URI of a leaf certificate that the TLS layer
    verified; the parts of [net/url] this rests on are modelled here.  The
    control plane starts only under a database role whose effective privileges
    are exactly the expected ones; the server's catalogue is an argument. *)
From S2P Require Import Prelude GoStrings GoEncoding GoDecoding Json GoText Authctx Parsing Outbox DeadLetter.
Local Open Scope Z_scope.

(** ** Uniform resource locators ([net/url]) *)
Module URL.
(** [User] is the escaped text of the user information. *)
Record t := mk {
  Scheme : string; Opaque : string; User : option string; Host : string; Path : string; RawPath : string;
  ForceQuery : bool; RawQuery : string; Fragment : string }.
End URL.

Definition unreserved (c : Z) : bool :=
  in_range 97 c 122 || in_range 65 c 90 || in_range 48 c 57 || existsb (Z.eqb c) [45; 95; 46; 126].
(** [shouldEscape] for paths, and for hosts: the delimiters each mode keeps. *)
Definition escaped_in_path (c : Z) : bool :=
  negb (unreserved c || existsb (Z.eqb c) [36; 38; 43; 44; 47; 58; 59; 61; 64]).
Definition escaped_in_host (c : Z) : bool :=
  negb (unreserved c || existsb (Z.eqb c) [33; 36; 38; 39; 40; 41; 42; 43; 44; 59; 61; 58; 91; 93; 60; 62; 34]).
Definition upperhex (d : Z) : Z := if d <? 10 then 48 + d else 55 + d.
Definition url_escape (mode : Z -> bool) (s : string) : string :=
  of_bytes (concat (map (fun c => if mode c then [37; upperhex (c / 16); upperhex (c mod 16)] else [c]) (bytes s))).
(** [unescape]: a percent sign needs two hexadecimal digits. *)
Fixpoint unescape_bytes (bs : list Z) : option (list Z) :=
  match bs with
  | [] => Some []
  | c :: t =>
    if c =? 37 then
      match t with
      | a :: b :: rest =>
        match unhex a, unhex b, unescape_bytes rest with
        | Some x, Some y, Some l => Some (16 * x + y :: l)
        | _, _, _ => None
        end
      | _ => None
      end
    else option_map (cons c) (unescape_bytes t)
  end.
Definition PathUnescape (s : string) : option string := option_map of_bytes (unescape_bytes (bytes s)).
Definition validEncoded (s : string) : bool :=
  forallb (fun c => existsb (Z.eqb c) [33; 36; 38; 39; 40; 41; 42; 43; 44; 59; 61; 58; 64; 91; 93; 37] || negb (escaped_in_path c)) (bytes s).
Definition EscapedPath (u : URL.t) : string :=
  if (URL.RawPath u !=? "") && validEncoded (URL.RawPath u) && (PathUnescape (URL.RawPath u) ==? Some (URL.Path u)) then
    URL.RawPath u
  else if URL.Path u ==? "*" then "*" else url_escape escaped_in_path (URL.Path u).
(** [URL.String] of a locator with a scheme, a host and no fragment. *)
Definition url_String (u : URL.t) : string :=
  URL.Scheme u +:+ ":" +:+
  (if URL.Opaque u !=? "" then URL.Opaque u
   else "//" +:+ match URL.User u with Some user => user +:+ "@" | None => "" end +:+ url_escape escaped_in_host (URL.Host u) +:+
     (let path := EscapedPath u in
      if (path !=? "") && negb (HasPrefix path "/") then "/" +:+ path else path)) +:+
  (if URL.ForceQuery u || (URL.RawQuery u !=? "") then "?" +:+ URL.RawQuery u else "").

(** [strings.Split] by a slash and [strings.TrimPrefix] of one. *)
Fixpoint split_slash (cur : list Z) (bs : list Z) : list (list Z) :=
  match bs with
  | [] => [rev cur]
  | c :: t => if c =? 47 then rev cur :: split_slash [] t else split_slash (c :: cur) t
  end.
Definition Split_slash (s : string) : list string := map of_bytes (split_slash [] (bytes s)).
Definition TrimPrefix_slash (s : string) : string :=
  match s with String c t => if Z.eqb (byte_of c) 47 then t else s | EmptyString => s end.

(** ** Workload identities *)
Definition ErrUnauthenticated := New "workloadidentity.ErrUnauthenticated" "verified SPIFFE workload certificate is required".

Module Certificate.
Record t := mk { Raw : string; URIs : list URL.t }.
End Certificate.
Module ConnectionState.
Record t := mk { PeerCertificates : list Certificate.t; VerifiedChains : list (list Certificate.t) }.
End ConnectionState.
Module RoleBinding.
Record t := mk { Scopes : list string; DataClearances : list string; CredentialClass : string }.
End RoleBinding.
Module Authenticator.
Record t := mk { TrustDomain : string; Roles : gmap string RoleBinding.t; Now : option Z }.
End Authenticator.

Definition invalidSegment (value : string) : bool :=
  (value ==? "") || (128 <? len value) || ContainsAny value [47; 92] || ContainsFunc (fun r => IsSpace r || IsControl r) value.
Definition leafInVerifiedChain (leaf : Certificate.t) (chains : list (list Certificate.t)) : bool :=
  existsb (fun chain => match chain with c :: _ => Certificate.Raw c ==? Certificate.Raw leaf | [] => false end) chains.

Definition segment (name part : string) : result string :=
  match PathUnescape part with
  | Some value => if invalidSegment value then Err (Text ("SPIFFE " +:+ name +:+ " segment is invalid")) else Ok value
  | None => Err (Text ("SPIFFE " +:+ name +:+ " segment is invalid"))
  end.
Definition parseIdentity (certificate : Certificate.t) (trustDomain : string) : result (URL.t * string * string) :=
  match Certificate.URIs certificate with
  | [identity] =>
    if (URL.Scheme identity !=? "spiffe") || (URL.Host identity !=? trustDomain) || (URL.RawQuery identity !=? "") ||
       (URL.Fragment identity !=? "") then Err (Text "SPIFFE identity is outside the trust domain")
    else match Split_slash (TrimPrefix_slash (EscapedPath identity)) with
    | [p0; p1; p2; p3; p4; p5] =>
      if (p0 !=? "tenant") || (p2 !=? "role") || (p4 !=? "workload") then
        Err (Text "SPIFFE identity does not match the workload path convention")
      else match segment "tenant" p1, segment "role" p3, segment "workload" p5 with
      | Err e, _, _ | Ok _, Err e, _ | Ok _, Ok _, Err e => Err e
      | Ok tenant, Ok role, Ok _ => Ok (identity, tenant, role)
      end
    | _ => Err (Text "SPIFFE identity does not match the workload path convention")
    end
  | _ => Err (Text "exactly one URI SAN is required")
  end.

Definition Authenticate (a : Authenticator.t) (state : option ConnectionState.t) : result AuthContext.t :=
  match state, Authenticator.Now a with
  | Some state, Some now =>
    match ConnectionState.PeerCertificates state with
    | [] => Err ErrUnauthenticated
    | leaf :: _ =>
      if match ConnectionState.VerifiedChains state with [] => true | _ => false end || (Authenticator.TrustDomain a ==? "") ||
         Nat.eqb (size (Authenticator.Roles a)) 0 then Err ErrUnauthenticated
      else if negb (leafInVerifiedChain leaf (ConnectionState.VerifiedChains state)) then Err ErrUnauthenticated
      else match parseIdentity leaf (Authenticator.TrustDomain a) with
      | Err _ => Err ErrUnauthenticated
      | Ok (identity, tenant, role) =>
        match Authenticator.Roles a !! role with
        | None => Err ErrUnauthenticated
        | Some binding =>
          if RoleBinding.CredentialClass binding ==? "" then Err ErrUnauthenticated
          else
            let actor := AuthContext.mk (url_String identity) (url_String identity) tenant [role] (RoleBinding.Scopes binding)
              (RoleBinding.DataClearances binding) (RoleBinding.CredentialClass binding) now (sha256_hex (Certificate.Raw leaf)) in
            match AuthContext.Validate actor with Some _ => Err ErrUnauthenticated | None => Ok actor end
        end
      end
    end
  | _, _ => Err ErrUnauthenticated
  end.

(** Operators: one role with the dead-letter scopes. *)
Definition operator_Authenticate (trustDomain : string) (now : option Z) (request : option (option ConnectionState.t)) :
    result AuthContext.t :=
  match request with
  | None => Err ErrUnauthenticated
  | Some state =>
    Authenticate (Authenticator.mk trustDomain
      {[OperatorRole := RoleBinding.mk [ReadScope; ReplayScope] [] "mtls-spiffe"]} now) state
  end.

(** ** Percent encoding *)
Lemma unescape_app x : forall y lx ly, unescape_bytes x = Some lx -> unescape_bytes y = Some ly ->
  unescape_bytes (x ++ y) = Some (lx ++ ly).
Proof.
  assert (Hn : exists n, (List.length x <= n)%nat) by eauto. destruct Hn as [n Hn]. revert x Hn.
  induction n as [|n IH]; intros [|c t] Hn y lx ly; cbn [unescape_bytes app List.length] in *; try (intros [= <-] ->; done); try lia.
  destruct (c =? 37).
  - destruct t as [|a [|b rest]]; try done. cbn [app]. destruct (unhex a), (unhex b); try done.
    destruct (unescape_bytes rest) as [l|] eqn:E; [|done]. intros [= <-] Hy. cbn in Hn.
    by rewrite (IH rest ltac:(lia) y l ly E Hy).
  - destruct (unescape_bytes t) as [l|] eqn:E; [|done]. intros [= <-] Hy. by rewrite (IH t ltac:(lia) y l ly E Hy).
Qed.
Lemma unhex_upperhex d : 0 <= d < 16 -> unhex (upperhex d) = Some d.
Proof.
  intros Hd. unfold upperhex. assert (Hcases : d ∈ [0;1;2;3;4;5;6;7;8;9;10;11;12;13;14;15]).
  { rewrite !elem_of_cons. lia. }
  rewrite !elem_of_cons, elem_of_nil in Hcases. repeat destruct Hcases as [->|Hcases]; done.
Qed.
Lemma unescape_escape mode s : mode 37 = true -> PathUnescape (url_escape mode s) = Some s.
Proof.
  intros Hm. unfold PathUnescape, url_escape. assert (Hb : Forall is_byte (concat (map (fun c =>
    if mode c then [37; upperhex (c / 16); upperhex (c mod 16)] else [c]) (bytes s)))).
  { apply Forall_concat, Forall_map. eapply List.Forall_impl; [|apply bytes_range]. intros c Hc. cbn.
    destruct (mode c); [|by apply list.Forall_singleton]. unfold upperhex, is_byte.
    repeat constructor; repeat case_match; reflect_bools; Z.to_euclidean_division_equations; lia. }
  rewrite bytes_of_bytes by exact Hb. clear Hb.
  assert (Hu : forall bs, Forall is_byte bs -> unescape_bytes (concat (map (fun c =>
    if mode c then [37; upperhex (c / 16); upperhex (c mod 16)] else [c]) bs)) = Some bs).
  { induction 1 as [|c bs Hc _ IH]; [done|]. cbn [map concat]. apply (unescape_app _ _ [c] bs); [|exact IH].
    unfold is_byte in Hc. destruct (mode c) eqn:E; cbn [unescape_bytes].
    - rewrite Z.eqb_refl, !unhex_upperhex by (Z.to_euclidean_division_equations; lia).
      do 2 f_equal. symmetry. by apply Z.div_mod.
    - destruct (Z.eqb_spec c 37) as [->|]; [congruence|done]. }
  rewrite Hu by apply bytes_range. cbn. by rewrite of_bytes_bytes.
Qed.
(** The escaped path stands for the path. *)
Lemma EscapedPath_unescapes u : PathUnescape (EscapedPath u) = Some (URL.Path u).
Proof.
  unfold EscapedPath. destruct (_ && _) eqn:Hg; [reflect_bools; by destruct Hg as [_ ?]|].
  destruct (URL.Path u ==? "*") eqn:Hs; [reflect_bools; by rewrite Hs|]. by apply unescape_escape.
Qed.
Lemma PathUnescape_app a b x y : PathUnescape a = Some x -> PathUnescape b = Some y -> PathUnescape (a +:+ b) = Some (x +:+ y).
Proof.
  unfold PathUnescape. rewrite bytes_app. destruct (unescape_bytes (bytes a)) as [l|] eqn:Ea; [|done].
  destruct (unescape_bytes (bytes b)) as [l'|] eqn:Eb; [|done]. rewrite (unescape_app _ _ _ _ Ea Eb). intros [= <-] [= <-]. cbn.
  f_equal. unfold of_bytes. rewrite map_app. generalize (map of_byte l) (map of_byte l'). intros p q.
  induction p as [|c p IH]; [done|]. cbn. by rewrite IH.
Qed.

(** ** Splitting *)
Fixpoint joined (l : list string) : string := match l with [] => "" | [x] => x | x :: t => x +:+ "/" +:+ joined t end.
Lemma split_slash_joined bs : forall cur, Forall is_byte cur -> Forall is_byte bs ->
  joined (map of_bytes (split_slash cur bs)) = of_bytes (rev cur ++ bs).
Proof.
  assert (Hof : forall a b, of_bytes (a ++ b) = of_bytes a +:+ of_bytes b).
  { intros a b. unfold of_bytes. rewrite map_app. induction (map of_byte a) as [|c p IH]; [done|]. cbn. by rewrite IH. }
  induction bs as [|c t IH]; intros cur Hcur Hbs; cbn [split_slash]; [by rewrite app_nil_r|]. apply list.Forall_cons in Hbs as [Hc Hbs].
  destruct (Z.eqb_spec c 47) as [->|].
  - cbn [map]. specialize (IH [] ltac:(constructor) Hbs). cbn [rev app] in IH. rewrite Hof.
    assert (Hne : split_slash [] t <> []) by (clear; destruct t as [|c t]; cbn; [done|]; destruct (c =? 47); [done|];
      generalize [c]; induction t as [|d t IHt]; intros l; cbn; [done|]; destruct (d =? 47); [done|apply IHt]).
    destruct (split_slash [] t) as [|x l] eqn:E; [done|]. cbn [map joined] in *. rewrite IH. done.
  - rewrite IH; [|by constructor|done]. cbn [rev]. by rewrite <- app_assoc.
Qed.
Lemma Split_slash_joined s : joined (Split_slash s) = s.
Proof.
  unfold Split_slash. rewrite split_slash_joined; [cbn; apply of_bytes_bytes|constructor|apply bytes_range].
Qed.
Lemma TrimPrefix_slash_spec s : s = TrimPrefix_slash s \/ s = "/" +:+ TrimPrefix_slash s.
Proof.
  destruct s as [|c s]; [by left|]. cbn [TrimPrefix_slash]. destruct (Z.eqb_spec (byte_of c) 47) as [E|]; [right|by left].
  rewrite <- (of_byte_byte_of c), E. done.
Qed.

(** A segment of the path convention: bounded, and without separators, white
    space or control characters. *)
Definition plain_segment (value : string) : Prop :=
  1 <= len value <= 128 /\ Forall (fun b => b <> 47 /\ b <> 92) (bytes value) /\
  Forall (fun r => IsSpace r = false /\ IsControl r = false) (runes value).
Definition workload_path (tenant role workload : string) : string :=
  "tenant/" +:+ tenant +:+ "/role/" +:+ role +:+ "/workload/" +:+ workload.

Lemma segment_spec name part value : segment name part = Ok value -> PathUnescape part = Some value /\ plain_segment value.
Proof.
  unfold segment. destruct (PathUnescape part) as [v|]; [|done]. destruct (invalidSegment v) eqn:Hv; [done|]. intros [= <-].
  split; [done|]. unfold invalidSegment in Hv. rewrite !orb_false_iff in Hv. destruct Hv as (((H1 & H2) & H3) & H4). reflect_bools.
  split; [split; [by apply len_pos|lia]|]. split; apply list.Forall_forall; intros x Hx.
  - apply not_true_iff_false in H3. split; intros ->; apply H3, existsb_exists; [exists 47|exists 92];
      (split; [by apply list_elem_of_In|done]).
  - apply not_true_iff_false in H4. unfold ContainsFunc in H4. destruct (IsSpace x) eqn:E1, (IsControl x) eqn:E2; try done;
      exfalso; apply H4, existsb_exists; exists x; (split; [by apply list_elem_of_In|by rewrite E1, E2]).
Qed.
Lemma parseIdentity_spec certificate trustDomain identity tenant role :
  parseIdentity certificate trustDomain = Ok (identity, tenant, role) ->
  Certificate.URIs certificate = [identity] /\ URL.Scheme identity = "spiffe" /\ URL.Host identity = trustDomain /\
  URL.RawQuery identity = "" /\ URL.Fragment identity = "" /\
  exists workload, Forall plain_segment [tenant; role; workload] /\
    (URL.Path identity = "/" +:+ workload_path tenant role workload \/ URL.Path identity = workload_path tenant role workload).
Proof.
  unfold parseIdentity. destruct (Certificate.URIs certificate) as [|u [|? ?]]; try done. destruct (_ || _) eqn:Hg; [done|].
  destruct (Split_slash _) as [|p0 [|p1 [|p2 [|p3 [|p4 [|p5 [|? ?]]]]]]] eqn:Hsplit; try done.
  destruct ((p0 !=? "tenant") || (p2 !=? "role") || (p4 !=? "workload")) eqn:Hp; [done|]. destruct (segment "tenant" p1) as [t|] eqn:H1; [|done].
  destruct (segment "role" p3) as [r|] eqn:H2; [|done]. destruct (segment "workload" p5) as [w|] eqn:H3; [|done].
  intros [= <- <- <-]. reflect_bools. destruct Hg as [[[Hs Hh] Hq] Hf]. destruct Hp as [[-> ->] ->].
  do 5 (split; [done|]). apply segment_spec in H1 as [H1 Ht]. apply segment_spec in H2 as [H2 Hr]. apply segment_spec in H3 as [H3 Hw].
  exists w. split; [repeat (constructor; [done|]); constructor|].
  pose proof (Split_slash_joined (TrimPrefix_slash (EscapedPath u))) as Hj. rewrite Hsplit in Hj. cbn [joined] in Hj.
  assert (Hun : PathUnescape (TrimPrefix_slash (EscapedPath u)) = Some (workload_path t r w)).
  { rewrite <- Hj. change (workload_path t r w) with ("tenant" +:+ "/" +:+ t +:+ "/" +:+ "role" +:+ "/" +:+ r +:+ "/" +:+
      "workload" +:+ "/" +:+ w).
    repeat first [exact H1 | exact H2 | exact H3 | apply PathUnescape_app; [reflexivity|] | apply PathUnescape_app]. }
  pose proof (EscapedPath_unescapes u) as Hpath. destruct (TrimPrefix_slash_spec (EscapedPath u)) as [E|E].
  - right. rewrite E, Hun in Hpath. by injection Hpath.
  - left. rewrite E, (PathUnescape_app "/" _ "/" _ eq_refl Hun) in Hpath. by injection Hpath.
Qed.

(** The path of an identity names a tenant, a role and a workload. *)
Definition names_workload (u : URL.t) (tenant role workload : string) : Prop :=
  Forall plain_segment [tenant; role; workload] /\
  (URL.Path u = "/" +:+ workload_path tenant role workload \/ URL.Path u = workload_path tenant role workload).

Lemma segment_split a b x y : Forall (fun c => c <> 47) (bytes a) -> Forall (fun c => c <> 47) (bytes b) ->
  a +:+ String "/" x = b +:+ String "/" y -> a = b /\ x = y.
Proof.
  assert (Hs : byte_of "/" = 47) by done.
  revert b. induction a as [|c a IH]; intros [|d b] Ha Hb E; cbn in E.
  - by injection E.
  - injection E as <- _. by apply list.Forall_cons in Hb as [Hb _].
  - injection E as -> _. by apply list.Forall_cons in Ha as [Ha _].
  - injection E as -> E. apply list.Forall_cons in Ha as [_ Ha]. apply list.Forall_cons in Hb as [_ Hb].
    destruct (IH b Ha Hb E) as [-> ->]. done.
Qed.
Lemma workload_path_inj t r w t' r' w' : Forall plain_segment [t; r; w] -> Forall plain_segment [t'; r'; w'] ->
  workload_path t r w = workload_path t' r' w' -> t = t' /\ r = r' /\ w = w'.
Proof.
  assert (Hno : forall s, plain_segment s -> Forall (fun c => c <> 47) (bytes s)).
  { intros s (_ & Hs & _). eapply List.Forall_impl; [|exact Hs]. by intros c [? _]. }
  rewrite !list.Forall_cons. intros (Ht & Hr & _) (Ht' & Hr' & _). unfold workload_path. intros E. injection E as E.
  destruct (segment_split t t' _ _ (Hno _ Ht) (Hno _ Ht') E) as [-> E1]. injection E1 as E1.
  destruct (segment_split r r' _ _ (Hno _ Hr) (Hno _ Hr') E1) as [-> E2]. by injection E2 as ->.
Qed.
Lemma names_workload_inj u t r w t' r' w' : names_workload u t r w -> names_workload u t' r' w' -> t = t' /\ r = r' /\ w = w'.
Proof.
  intros [Hs H1] [Hs' H2]. apply workload_path_inj; [done|done|].
  destruct H1 as [H1|H1], H2 as [H2|H2]; rewrite H1 in H2.
  - exact (f_equal (fun s => match s with String _ x => x | EmptyString => s end) H2).
  - exfalso. unfold workload_path in H2. discriminate H2.
  - exfalso. unfold workload_path in H2. discriminate H2.
  - exact H2.
Qed.

Lemma Authenticate_role a state actor : Authenticate a state = Ok actor ->
  exists identity role workload binding, URL.Host identity = Authenticator.TrustDomain a /\
    names_workload identity (AuthContext.TenantID actor) role workload /\ AuthContext.Roles actor = [role] /\
    Authenticator.Roles a !! role = Some binding /\ AuthContext.AllowedScopes actor = RoleBinding.Scopes binding.
Proof.
  unfold Authenticate. destruct state as [conn|]; [|done]. destruct (Authenticator.Now a) as [now|]; [|done].
  destruct (ConnectionState.PeerCertificates conn) as [|leaf rest]; [done|]. destruct (_ || _); [done|]. destruct (negb _); [done|].
  destruct (parseIdentity _ _) as [[[identity tenant] role]|] eqn:Hid; [|done].
  destruct (Authenticator.Roles a !! role) as [binding|] eqn:Hrole; [|done]. destruct (_ ==? ""); [done|].
  destruct (AuthContext.Validate _); [done|]. intros [= <-].
  destruct (parseIdentity_spec _ _ _ _ _ Hid) as (_ & _ & Hh & _ & _ & workload & Hseg & Hpath).
  exists identity, role, workload, binding. by split_and!.
Qed.

(** C5.  A caller is who the verified certificate says: an authenticated
    context comes from the first peer certificate, which heads a verified chain
    and has exactly one URI, in the trust domain and without query or fragment;
    the path of that URI names the tenant, the role and a workload, and can be
    read as no other tenant or role whatever is escaped in it; the role, which is
    a configured one, alone gives the scopes, clearances and credential class;
    subject and SPIFFE identity are the URI, the revision is the fingerprint of
    the certificate, and the time is the authenticator's clock.  (User
    information in the URI is not refused: see [user_information_accepted].) *)
Theorem identity_from_certificate a state actor (Hauth : Authenticate a state = Ok actor) :
  exists conn leaf rest head tail identity role workload binding,
    state = Some conn /\ ConnectionState.PeerCertificates conn = leaf :: rest /\
    head :: tail ∈ ConnectionState.VerifiedChains conn /\ Certificate.Raw head = Certificate.Raw leaf /\
    Certificate.URIs leaf = [identity] /\ URL.Scheme identity = "spiffe" /\ URL.Host identity = Authenticator.TrustDomain a /\
    URL.RawQuery identity = "" /\ URL.Fragment identity = "" /\
    names_workload identity (AuthContext.TenantID actor) role workload /\
    (forall t r w, names_workload identity t r w -> t = AuthContext.TenantID actor /\ r = role) /\
    AuthContext.Roles actor = [role] /\ Authenticator.Roles a !! role = Some binding /\
    AuthContext.AllowedScopes actor = RoleBinding.Scopes binding /\
    AuthContext.DataClearances actor = RoleBinding.DataClearances binding /\
    AuthContext.CredentialClass actor = RoleBinding.CredentialClass binding /\ RoleBinding.CredentialClass binding <> "" /\
    AuthContext.SubjectID actor = url_String identity /\ AuthContext.SPIFFEID actor = url_String identity /\
    AuthContext.IdentityRevision actor = sha256_hex (Certificate.Raw leaf) /\
    Authenticator.Now a = Some (AuthContext.AuthenticatedAt actor).
Proof.
  revert Hauth. unfold Authenticate. destruct state as [conn|]; [|done]. destruct (Authenticator.Now a) as [now|] eqn:Hnow; [|done].
  destruct (ConnectionState.PeerCertificates conn) as [|leaf rest] eqn:Hpeer; [done|]. destruct (_ || _); [done|].
  destruct (leafInVerifiedChain _ _) eqn:Hchain; [|done]. cbn [negb].
  destruct (parseIdentity _ _) as [[[identity tenant] role]|] eqn:Hid; [|done].
  destruct (Authenticator.Roles a !! role) as [binding|] eqn:Hrole; [|done]. destruct (_ ==? "") eqn:Hclass; [done|].
  destruct (AuthContext.Validate _); [done|]. intros [= <-].
  unfold leafInVerifiedChain in Hchain. apply existsb_exists in Hchain as ([|head tail] & Hin & Hraw); [done|]. reflect_bools.
  destruct (parseIdentity_spec _ _ _ _ _ Hid) as (Hu & Hs & Hh & Hq & Hf & workload & Hseg & Hpath).
  assert (Hnames : names_workload identity tenant role workload) by by split.
  exists conn, leaf, rest, head, tail, identity, role, workload, binding.
  cbn [AuthContext.TenantID AuthContext.Roles AuthContext.AllowedScopes AuthContext.DataClearances AuthContext.CredentialClass
    AuthContext.SubjectID AuthContext.SPIFFEID AuthContext.IdentityRevision AuthContext.AuthenticatedAt].
  split_and!; try done; [by apply list_elem_of_In|]. intros t r w Hother.
  by destruct (names_workload_inj _ _ _ _ _ _ _ Hother Hnames) as (-> & -> & _).
Qed.

(** ** The database role *)
Definition maximumRoleNameBytes : Z := 63.

Module Role.
Record t := mk {
  CurrentUser : string; SessionUser : string; Superuser : bool; BypassRowSecurity : bool; CreateRole : bool;
  CreateDatabase : bool; Replication : bool; CanLogin : bool; CanUsePublic : bool; CanCreatePublic : bool }.
End Role.
Module objectGrant.
Record t := mk { Name : string; Privileges : gmap string bool }.
End objectGrant.

Definition controlPlaneTablePrivileges : gmap string (gset string) := {[
  "broker_resolutions" := {["SELECT"; "INSERT"; "UPDATE"]};
  "broker_resolution_idempotency" := {["SELECT"; "INSERT"]};
  "broker_outbox" := {["SELECT"; "INSERT"; "UPDATE"]};
  "broker_collector_tasks" := {["SELECT"; "INSERT"; "UPDATE"]};
  "broker_evidence_envelopes" := {["SELECT"]};
  "broker_dead_letter_actions" := {["SELECT"; "INSERT"]} ]}.
Definition controlPlaneSequencePrivileges : gmap string (gset string) := {[ "broker_outbox_sequence_seq" := {["USAGE"]} ]}.

(** The part of the server's catalogue that is asked for, as the connected role
    sees it and in the order the queries ask for (by name); each query can fail. *)
Module Relation.
Record t := mk { relname : string; nspname : string; relkind : string; has_privilege : string -> bool }.
End Relation.
Module Catalogue.
Record t := mk { role : result (option Role.t); relations : result (list Relation.t); sequences : result (list Relation.t) }.
End Catalogue.

Section Database.
Context `{UnicodeTables}.

Definition ValidateName (name : string) : option error :=
  if (name ==? "") || (maximumRoleNameBytes <? len name) || (TrimSpace name !=? name) ||
     ContainsFunc (fun r => negb (IsLetter r) && negb (IsDigit r) && negb (r =? 95) && negb (r =? 45)) name then
    Some (Text "expected PostgreSQL role must be a canonical deployment identifier")
  else None.
Definition validate (role : Role.t) (expected : string) : option error :=
  if (Role.CurrentUser role !=? expected) || (Role.SessionUser role !=? expected) then
    Some (Text "connected PostgreSQL identity does not match expected deployment role")
  else if negb (Role.CanLogin role) || negb (Role.CanUsePublic role) then
    Some (Text "connected PostgreSQL role must be a direct login role")
  else if Role.Superuser role || Role.BypassRowSecurity role || Role.CreateRole role || Role.CreateDatabase role ||
          Role.Replication role || Role.CanCreatePublic role then
    Some (Text "connected PostgreSQL role has prohibited administrative privileges")
  else None.
Definition Verify (db : option Catalogue.t) (expected : string) : result Role.t :=
  match db with
  | None => Err (Text "database is required for role verification")
  | Some db =>
    match ValidateName expected with
    | Some e => Err e
    | None =>
      match Catalogue.role db with
      | Err e => Err (Wrapf "inspect connected PostgreSQL role: " e "")
      | Ok None => Err (Text "connected PostgreSQL role was not found")
      | Ok (Some role) => match validate role expected with Some e => Err e | None => Ok role end
      end
    end
  end.

(** The broker's relations of the public schema with their privileges. *)
Definition granted (kinds privileges : list string) (r : Relation.t) : option objectGrant.t :=
  if (Relation.nspname r ==? "public") && existsb (fun k => Relation.relkind r ==? k) kinds &&
     (String.substring 0 7 (Relation.relname r) ==? "broker_") then
    Some (objectGrant.mk (Relation.relname r) (list_to_map (map (fun p => (p, Relation.has_privilege r p)) privileges)))
  else None.
Definition table_kinds : list string := ["r"; "p"; "v"; "m"; "f"].
Definition table_privileges : list string := ["SELECT"; "INSERT"; "UPDATE"; "DELETE"; "TRUNCATE"; "REFERENCES"; "TRIGGER"].
Definition sequence_privileges : list string := ["USAGE"; "SELECT"; "UPDATE"].
Definition inspectTableGrants (db : Catalogue.t) : result (list objectGrant.t) :=
  match Catalogue.relations db with
  | Err e => Err (Wrapf "inspect PostgreSQL table privileges: " e "")
  | Ok rows => Ok (omap (granted table_kinds table_privileges) rows)
  end.
Definition inspectSequenceGrants (db : Catalogue.t) : result (list objectGrant.t) :=
  match Catalogue.sequences db with
  | Err e => Err (Wrapf "inspect PostgreSQL sequence privileges: " e "")
  | Ok rows => Ok (omap (granted ["S"] sequence_privileges) rows)
  end.

(** Maps are walked in any order; the first offence found is reported. *)
Definition excess (expected : gmap string (gset string)) (g : objectGrant.t) : option string :=
  option_map fst (find (fun kv => kv.2 && negb (bool_decide (kv.1 ∈ default ∅ (expected !! objectGrant.Name g))))
    (map_to_list (objectGrant.Privileges g))).
Fixpoint first_excess (kind : string) (expected : gmap string (gset string)) (actual : list objectGrant.t) : option error :=
  match actual with
  | [] => None
  | g :: rest =>
    match excess expected g with
    | Some privilege =>
      Some (Text ("PostgreSQL " +:+ kind +:+ " " +:+ quote (objectGrant.Name g) +:+ " has prohibited " +:+ privilege +:+ " privilege"))
    | None => first_excess kind expected rest
    end
  end.
Definition by_name (actual : list objectGrant.t) : gmap string objectGrant.t :=
  fold_left (fun m g => <[objectGrant.Name g := g]> m) actual ∅.
Fixpoint first_missing (kind : string) (found : gmap string objectGrant.t) (expected : list (string * gset string)) : option error :=
  match expected with
  | [] => None
  | (name, privileges) :: rest =>
    match found !! name with
    | None => Some (Text ("required PostgreSQL " +:+ kind +:+ " " +:+ quote name +:+ " was not found"))
    | Some g =>
      match find (fun p => negb (default false (objectGrant.Privileges g !! p))) (elements privileges) with
      | Some privilege =>
        Some (Text ("PostgreSQL " +:+ kind +:+ " " +:+ quote name +:+ " lacks required " +:+ privilege +:+ " privilege"))
      | None => first_missing kind found rest
      end
    end
  end.
Definition validateObjectGrants (kind : string) (actual : list objectGrant.t) (expected : gmap string (gset string)) : option error :=
  match first_excess kind expected actual with
  | Some e => Some e
  | None => first_missing kind (by_name actual) (map_to_list expected)
  end.
Definition VerifyControlPlane (db : option Catalogue.t) (expected : string) : result Role.t :=
  match db, Verify db expected with
  | _, Err e => Err e
  | None, Ok role => Ok role
  | Some db, Ok role =>
    match inspectTableGrants db with
    | Err e => Err e
    | Ok tables =>
      match inspectSequenceGrants db with
      | Err e => Err e
      | Ok sequences =>
        match validateObjectGrants "table" tables controlPlaneTablePrivileges with
        | Some e => Err e
        | None =>
          match validateObjectGrants "sequence" sequences controlPlaneSequencePrivileges with Some e => Err e | None => Ok role end
        end
      end
    end
  end.
End Database.

(** ** Exact privileges *)

(** No privilege beyond the expected ones, and every expected one. *)
Definition exact (grants : list objectGrant.t) (expected : gmap string (gset string)) : Prop :=
  (forall g p, g ∈ grants -> objectGrant.Privileges g !! p = Some true -> p ∈ default ∅ (expected !! objectGrant.Name g)) /\
  (forall name privileges, expected !! name = Some privileges ->
     exists g, g ∈ grants /\ objectGrant.Name g = name /\ forall p, p ∈ privileges -> objectGrant.Privileges g !! p = Some true).

Lemma find_None {A} (f : A -> bool) l : find f l = None <-> Forall (fun x => f x = false) l.
Proof.
  induction l as [|x l IH]; cbn; [split; constructor|]. rewrite list.Forall_cons, <- IH. destruct (f x); naive_solver.
Qed.
Lemma excess_None expected g : excess expected g = None <->
  forall p, objectGrant.Privileges g !! p = Some true -> p ∈ default ∅ (expected !! objectGrant.Name g).
Proof.
  unfold excess. transitivity (find (fun kv => kv.2 && negb (bool_decide (kv.1 ∈ default ∅ (expected !! objectGrant.Name g))))
    (map_to_list (objectGrant.Privileges g)) = None); [by destruct (find _ _)|].
  rewrite find_None, list.Forall_forall. split.
  - intros Hall p Hp. specialize (Hall (p, true) (proj2 (elem_of_map_to_list _ _ _) Hp)). cbn in Hall.
    apply negb_false_iff in Hall. by apply bool_decide_eq_true in Hall.
  - intros Hall [p b] Hp%elem_of_map_to_list. cbn. destruct b; [|done]. cbn. apply negb_false_iff, bool_decide_eq_true. by apply Hall.
Qed.
Lemma first_excess_None kind expected actual : first_excess kind expected actual = None <->
  Forall (fun g => excess expected g = None) actual.
Proof.
  induction actual as [|g rest IH]; cbn [first_excess]; [split; constructor|]. rewrite list.Forall_cons, <- IH.
  destruct (excess expected g); naive_solver.
Qed.
Lemma by_name_lookup actual : NoDup (map objectGrant.Name actual) ->
  forall name g, by_name actual !! name = Some g <-> g ∈ actual /\ objectGrant.Name g = name.
Proof.
  intros Hd name g. unfold by_name.
  assert (Hgen : forall m : gmap string objectGrant.t, fold_left (fun m g => <[objectGrant.Name g := g]> m) actual m !! name = Some g <->
    g ∈ actual /\ objectGrant.Name g = name \/ (name ∉ map objectGrant.Name actual /\ m !! name = Some g)).
  { revert Hd. induction actual as [|x l IH]; intros Hd m; cbn [fold_left map]; [rewrite !elem_of_nil; naive_solver|].
    apply list.NoDup_cons in Hd as [Hx Hd]. rewrite (IH Hd), !elem_of_cons, lookup_insert_Some. split.
    - intros [[? ?]|[Hn [[? ->]|[? ?]]]]; [by auto|left; by auto|right]. split; [|done]. intros [->|?]; done.
    - intros [[[->|Hg] <-]|[Hn Hm]].
      + right. split; [done|]. by left.
      + left. by split.
      + right. split; [naive_solver|]. right. split; [|done]. intros <-. apply Hn. by left. }
  rewrite Hgen, lookup_empty. naive_solver.
Qed.
Lemma first_missing_None kind found l : first_missing kind found l = None <->
  Forall (fun np => exists g, found !! np.1 = Some g /\ forall p, p ∈ np.2 -> objectGrant.Privileges g !! p = Some true) l.
Proof.
  induction l as [|[name privileges] rest IH]; cbn [first_missing]; [split; constructor|]. rewrite list.Forall_cons, <- IH. cbn [fst snd].
  destruct (found !! name) as [g|]; [|split; [done|]; by intros [(? & ? & _) _]].
  destruct (find _ (elements privileges)) as [p|] eqn:Hf.
  - split; [done|]. intros [(g' & [= <-] & Hall) _]. apply find_some in Hf as [Hin Hp]. apply list_elem_of_In, elem_of_elements in Hin.
    by rewrite (Hall p Hin) in Hp.
  - apply find_None in Hf. rewrite list.Forall_forall in Hf. split; [|tauto]. intros Hr. split; [|done]. exists g. split; [done|].
    intros p Hp%elem_of_elements. specialize (Hf p Hp). apply negb_false_iff in Hf.
    destruct (objectGrant.Privileges g !! p) as [[|]|]; done.
Qed.
Lemma validateObjectGrants_exact kind actual expected : NoDup (map objectGrant.Name actual) ->
  validateObjectGrants kind actual expected = None <-> exact actual expected.
Proof.
  intros Hd. unfold validateObjectGrants, exact. destruct (first_excess kind expected actual) as [e|] eqn:He.
  - split; [done|]. intros [Hall _]. assert (Hn : first_excess kind expected actual = None); [|congruence].
    apply first_excess_None, list.Forall_forall. intros g Hg. apply excess_None. intros p. by apply Hall.
  - apply first_excess_None in He. rewrite list.Forall_forall in He. rewrite first_missing_None, list.Forall_forall. split.
    + intros Hall. split; [intros g p Hg; by apply excess_None, He|]. intros name privileges Hn.
      destruct (Hall (name, privileges) (proj2 (elem_of_map_to_list _ _ _) Hn)) as (g & Hg & Hp). exists g.
      apply (by_name_lookup actual Hd) in Hg as [? ?]. done.
    + intros [_ Hall] [name privileges] Hn%elem_of_map_to_list. destruct (Hall name privileges Hn) as (g & Hg & Hname & Hp).
      exists g. split; [|done]. by apply (by_name_lookup actual Hd).
Qed.

(** The control plane starts exactly when the connected role is the expected
    unprivileged login and its privileges on the broker's tables and sequences
    are the listed ones, no more and no fewer. *)
Theorem control_plane_privileges_exact `{UnicodeTables} db expected role tables sequences
    (Htables : inspectTableGrants db = Ok tables) (Hsequences : inspectSequenceGrants db = Ok sequences)
    (Hunique : NoDup (map objectGrant.Name tables) /\ NoDup (map objectGrant.Name sequences)) :
  VerifyControlPlane (Some db) expected = Ok role <->
  ValidateName expected = None /\ Catalogue.role db = Ok (Some role) /\
  role = Role.mk expected expected false false false false false true true false /\
  exact tables controlPlaneTablePrivileges /\ exact sequences controlPlaneSequencePrivileges.
Proof.
  rewrite <- (validateObjectGrants_exact "table") by apply Hunique.
  rewrite <- (validateObjectGrants_exact "sequence" sequences) by apply Hunique.
  unfold VerifyControlPlane, Verify. rewrite Htables, Hsequences. destruct (ValidateName expected); [naive_solver|].
  destruct (Catalogue.role db) as [[r|]|]; [|naive_solver..].
  assert (Hv : validate r expected = None <-> r = Role.mk expected expected false false false false false true true false).
  { unfold validate. destruct r as [u s b1 b2 b3 b4 b5 b6 b7 b8]. cbn [Role.CurrentUser Role.SessionUser Role.Superuser
      Role.BypassRowSecurity Role.CreateRole Role.CreateDatabase Role.Replication Role.CanLogin Role.CanUsePublic Role.CanCreatePublic].
    destruct ((u !=? expected) || (s !=? expected)) eqn:E; reflect_bools.
    - split; [done|]. intros [= -> ->]. naive_solver.
    - destruct E as [-> ->]. destruct b1, b2, b3, b4, b5, b6, b7, b8; cbn; split; congruence. }
  destruct (validate r expected) as [e|]; [naive_solver|].
  destruct (validateObjectGrants "table" _ _); [naive_solver|]. destruct (validateObjectGrants "sequence" _ _); naive_solver.
Qed.

(** ** Examples *)
Definition example_identity (user : option string) : URL.t :=
  URL.mk "spiffe" "" user "broker.example" "/tenant/acme/role/collector/workload/c:1" "/tenant/acm%65/role/collector/workload/c:1"
    false "" "".
Definition example_connection (user : option string) : ConnectionState.t :=
  let leaf := Certificate.mk "leaf-der" [example_identity user] in
  ConnectionState.mk [leaf] [[leaf; Certificate.mk "root-der" []]].
Definition example_authenticator : Authenticator.t :=
  Authenticator.mk "broker.example" {["collector" := RoleBinding.mk ["task:claim"] [] "mtls-spiffe"]} (Some 1).

(** The certificate's path, with an escaped letter in the tenant, names one
    tenant and role, and gives the scopes of the role. *)
Lemma identity_from_certificate_witness : exists actor,
  Authenticate example_authenticator (Some (example_connection None)) = Ok actor /\ AuthContext.TenantID actor = "acme" /\
  AuthContext.AllowedScopes actor = ["task:claim"] /\
  forall t r w, names_workload (example_identity None) t r w -> t = "acme" /\ r = "collector".
Proof.
  eexists. split; [vm_compute; reflexivity|]. split; [reflexivity|]. split; [reflexivity|].
  edestruct (identity_from_certificate example_authenticator (Some (example_connection None))) as
    (conn & leaf & rest & ? & ? & identity & role & ? & binding & Hconn & Hleaf & _ & _ & Huri & _ & _ & _ & _ & _ & Hone & Hroles & _);
    [vm_compute; reflexivity|].
  injection Hconn as <-. injection Hleaf as <- <-. injection Huri as <-. injection Hroles as <-. exact Hone.
Defined.

(** User information in the URI is neither refused nor dropped: the same
    tenant, role and workload under another subject. *)
Lemma user_information_accepted : exists plain other,
  Authenticate example_authenticator (Some (example_connection None)) = Ok plain /\
  Authenticate example_authenticator (Some (example_connection (Some "someone"))) = Ok other /\
  AuthContext.TenantID other = AuthContext.TenantID plain /\ AuthContext.Roles other = AuthContext.Roles plain /\
  AuthContext.SubjectID plain = "spiffe://broker.example/tenant/acm%65/role/collector/workload/c:1" /\
  AuthContext.SubjectID other = "spiffe://someone@broker.example/tenant/acm%65/role/collector/workload/c:1".
Proof. eexists _, _. split; [vm_compute; reflexivity|]. split; [vm_compute; reflexivity|]. repeat split. Qed.

(** A role with the expected privileges, and one that may also delete. *)
Definition example_catalogue (extra : string) : Catalogue.t :=
  Catalogue.mk (Ok (Some (Role.mk "broker_control" "broker_control" false false false false false true true false)))
    (Ok (map (fun np : string * gset string => Relation.mk np.1 "public" "r" (fun p => bool_decide (p ∈ np.2) || (p ==? extra)))
      (map_to_list controlPlaneTablePrivileges)))
    (Ok [Relation.mk "broker_outbox_sequence_seq" "public" "S" (fun p => p ==? "USAGE")]).
Lemma example_control_plane `{UnicodeTables} (Hname : ValidateName "broker_control" = None) :
  (exists role, VerifyControlPlane (Some (example_catalogue "")) "broker_control" = Ok role) /\
  exists e, VerifyControlPlane (Some (example_catalogue "DELETE")) "broker_control" = Err e.
Proof. unfold VerifyControlPlane, Verify. rewrite Hname. split; eexists; vm_compute; reflexivity. Qed.
