(* ===== verification/Http.v ===== *)
(** * HTTP requests and responses

    What the control plane's handlers use of Go's [net/http], [net/url],
    [mime], [strconv] and of the JSON decoder: headers, query parameters, media
    types, decimal numbers, request bodies of bounded size that hold exactly one
    JSON document without unknown members, and the semaphore in front of every
    handler. *)
From S2P Require Import Prelude GoStrings GoEncoding GoDecoding Json JsonStruct GoText Authctx Parsing Artefacts Identity.
Local Open Scope Z_scope.

(** ** Requests and responses *)
Module Request.
(** Headers are under their canonical names; [PathValues] are the wildcards of
    the route. *)
Record t := mk {
  TLS : option ConnectionState.t; PathValues : gmap string string; Header : gmap string (list string);
  RawQuery : string; Body : string }.
End Request.
Module Response.
Record t := mk { Status : Z; Header : gmap string string; Body : string }.
#[global] Instance eta_t : Eta t := fun x => mk (Status x) (Header x) (Body x).
End Response.

Definition StatusOK : Z := 200.
Definition StatusAccepted : Z := 202.
Definition StatusBadRequest : Z := 400.
Definition StatusUnauthorized : Z := 401.
Definition StatusForbidden : Z := 403.
Definition StatusNotFound : Z := 404.
Definition StatusConflict : Z := 409.
Definition StatusTooManyRequests : Z := 429.
Definition StatusInternalServerError : Z := 500.

Definition newline : string := String "010" EmptyString.
Definition header_Values (r : Request.t) (name : string) : list string := default [] (Request.Header r !! name).
Definition first_or_empty (l : list string) : string := match l with v :: _ => v | [] => "" end.
Definition header_Get (r : Request.t) (name : string) : string := first_or_empty (header_Values r name).
Definition path_value (r : Request.t) (name : string) : string := default "" (Request.PathValues r !! name).
(** [json.NewEncoder(w).Encode]: the document and a line feed. *)
Definition encode_json (t : jtree) : string := Marshal t +:+ newline.
(** [http.Error]. *)
Definition http_Error (text : string) (status : Z) (extra : gmap string string) : Response.t :=
  Response.mk status (<["Content-Type" := "text/plain; charset=utf-8"]> (<["X-Content-Type-Options" := "nosniff"]> extra))
    (text +:+ newline).

Definition mutual (response : Response.t) : Response.t :=
  response <| Response.Header := <["WWW-Authenticate" := "Mutual"]> (Response.Header response) |>.

(** ** Decimal numbers ([strconv.ParseInt] in base ten) *)
Definition parse_digits (bs : list Z) : option Z :=
  if forallb is_digit bs && negb (bs ==? []) then Some (atoi_digits bs 0) else None.
Definition ParseInt (bitSize : Z) (s : string) : option Z :=
  let cutoff := 2 ^ (bitSize - 1) in
  let nonnegative bs := match parse_digits bs with Some n => if n <? cutoff then Some n else None | None => None end in
  match bytes s with
  | [] => None
  | b :: ds =>
    if b =? 43 then nonnegative ds
    else if b =? 45 then match parse_digits ds with Some n => if n <=? cutoff then Some (- n) else None | None => None end
    else nonnegative (b :: ds)
  end.

(** ** Query parameters ([url.ParseQuery]) *)
Fixpoint cut_byte (sep : Z) (bs : list Z) : list Z * list Z :=
  match bs with
  | [] => ([], [])
  | b :: t => if b =? sep then ([], t) else let '(x, y) := cut_byte sep t in (b :: x, y)
  end.
Fixpoint split_byte (sep : Z) (cur bs : list Z) : list (list Z) :=
  match bs with
  | [] => [rev cur]
  | b :: t => if b =? sep then rev cur :: split_byte sep [] t else split_byte sep (b :: cur) t
  end.
Definition query_unescape (bs : list Z) : option string :=
  option_map of_bytes (unescape_bytes (map (fun b => if b =? 43 then 32 else b) bs)).
(** Pairs that cannot be read are left out. *)
Definition query_pair (piece : list Z) : option (string * string) :=
  if existsb (Z.eqb 59) piece || (piece ==? []) then None
  else let '(k, v) := cut_byte 61 piece in
       match query_unescape k, query_unescape v with Some k, Some v => Some (k, v) | _, _ => None end.
Definition add_value (m : gmap string (list string)) (kv : string * string) : gmap string (list string) :=
  <[kv.1 := default [] (m !! kv.1) ++ [kv.2]]> m.
Definition Query (r : Request.t) : gmap string (list string) :=
  fold_left add_value (omap query_pair (split_byte 38 [] (bytes (Request.RawQuery r)))) ∅.
Definition query_Get (q : gmap string (list string)) (name : string) : string := first_or_empty (default [] (q !! name)).
(** Every parameter is one of [names] and is given once. *)
Definition sole_parameters (names : list string) (q : gmap string (list string)) : bool :=
  forallb (fun kv => existsb (fun n => kv.1 ==? n) names && Nat.eqb (List.length kv.2) 1) (map_to_list q).

(** ** Media types ([mime.ParseMediaType]) *)
Definition isTSpecial (b : Z) : bool := existsb (Z.eqb b) [40; 41; 60; 62; 64; 44; 59; 58; 92; 34; 47; 91; 93; 63; 61].
Definition isTokenChar (b : Z) : bool := (32 <? b) && (b <? 127) && negb (isTSpecial b).
Fixpoint consumeToken (bs : list Z) : list Z * list Z :=
  match bs with
  | [] => ([], [])
  | b :: t => if isTokenChar b then let '(x, y) := consumeToken t in (b :: x, y) else ([], bs)
  end.
Definition checkMediaTypeDisposition (bs : list Z) : bool :=
  let '(typ, rest) := consumeToken bs in
  if typ ==? [] then false
  else match rest with
  | [] => true
  | 47 :: rest => let '(subtype, rest) := consumeToken rest in (subtype !=? []) && (rest ==? [])
  | _ => false
  end.
Definition trim_left (bs : list Z) : list Z :=
  concat (map snd (drop_while (fun c : Z * list Z => IsSpace c.1) (chunk_skip 0 bs))).
(** A quoted string after its opening quote; [None] when it does not end. *)
Fixpoint quoted (bs : list Z) : option (list Z * list Z) :=
  match bs with
  | [] => None
  | 34 :: t => Some ([], t)
  | b :: t =>
    if (b =? 13) || (b =? 10) then None
    else match b, t with
    | 92, c :: u =>
      if isTSpecial c then match quoted u with Some (x, y) => Some (c :: x, y) | None => None end
      else match quoted t with Some (x, y) => Some (b :: x, y) | None => None end
    | _, _ => match quoted t with Some (x, y) => Some (b :: x, y) | None => None end
    end
  end.
(** The value and what follows it; [None] when there is no value. *)
Definition consumeValue (bs : list Z) : option (list Z * list Z) :=
  match bs with
  | 34 :: t => quoted t
  | _ => let '(value, rest) := consumeToken bs in if value ==? [] then None else Some (value, rest)
  end.
Definition lower_token (bs : list Z) : list Z := map (fun b => if in_range 65 b 90 then b + 32 else b) bs.
Definition consumeMediaParam (v : list Z) : option (list Z * list Z * list Z) :=
  match trim_left v with
  | 59 :: rest =>
    let '(param, rest) := consumeToken (trim_left rest) in
    if param ==? [] then None
    else match trim_left rest with
    | 61 :: rest =>
      match consumeValue (trim_left rest) with Some (value, rest) => Some (lower_token param, value, rest) | None => None end
    | _ => None
    end
  | _ => None
  end.
(** The parameters in turn: one given twice must have the same value, and a last
    semicolon is ignored.  A parameter takes at least three bytes, so a round for
    every byte is enough. *)
Fixpoint media_parameters (fuel : nat) (seen : gmap (list Z) (list Z)) (v : list Z) : bool :=
  match fuel with
  | O => false
  | S fuel =>
    match trim_left v with
    | [] => true
    | v =>
      match consumeMediaParam v with
      | None => TrimSpace (of_bytes v) ==? ";"
      | Some (param, value, rest) =>
        match seen !! param with
        | Some old => (old ==? value) && media_parameters fuel seen rest
        | None => media_parameters fuel (<[param := value]> seen) rest
        end
      end
    end
  end.
Definition ParseMediaType `{LowerTable} (v : string) : option string :=
  let base := (cut_byte 59 (bytes v)).1 in
  let mediatype := TrimSpace (ToLower (of_bytes base)) in
  if negb (checkMediaTypeDisposition (bytes mediatype)) then None
  else if media_parameters (S (List.length (bytes v))) ∅ (skipn (List.length base) (bytes v)) then Some mediatype
  else None.

(** ** Request bodies *)

(** A decoder behind [http.MaxBytesReader] reads one document; a second read must
    find the end of the body. *)
Definition decode_body {A} (maximum : Z) (dec : jtree -> option A) (body : string) : option A :=
  if maximum <? len body then None
  else match Json.parse_value (2 * List.length (bytes body) + 2) 0 (bytes body) with
  | Some (value, rest) => if skip_ws rest ==? [] then dec value else None
  | None => None
  end.
(** The members of an object go into the fields of a struct one after the other;
    [field] fails at a name that is not a field.  A null leaves the struct as it
    is. *)
Definition dec_members {A} (field : A -> string -> jtree -> option A) (names : list string) (zero : A) (t : jtree) : option A :=
  match t with
  | TNull => Some zero
  | TObj fs =>
    fold_left (fun acc kv =>
      match acc, find (fun name => fkey kv ==? fold_name name) names with
      | Some a, Some name => field a name (snd kv)
      | _, _ => None
      end) fs (Some zero)
  | _ => None
  end.
(** A field that a null leaves alone. *)
Definition scalar {A B} (dec : jtree -> option B) (set : A -> B -> A) (a : A) (v : jtree) : option A :=
  match v with TNull => Some a | _ => option_map (set a) (dec v) end.

(** A slice field keeps its array: a member given again decodes into the elements
    that are there, also into those past the end that an earlier, longer value
    left behind. *)
Module Slice.
Record t (A : Type) := mk { used : list A; stale : list A }.
Arguments mk {A}. Arguments used {A}. Arguments stale {A}.
Definition nil {A} : t A := mk [] [].
End Slice.
Section SliceField.
Context {A : Type} (dec : A -> jtree -> option A) (zero : A).
Fixpoint dec_over (old : list A) (l : list jtree) : option (list A * list A) :=
  match l with
  | [] => Some ([], old)
  | v :: rest =>
    let '(x, old) := match old with x :: old => (x, old) | [] => (zero, []) end in
    match dec x v, dec_over old rest with
    | Some y, Some (ys, rest) => Some (y :: ys, rest)
    | _, _ => None
    end
  end.
Definition dec_slice_over (old : Slice.t A) (v : jtree) : option (Slice.t A) :=
  match v with
  | TNull | TArr [] => Some Slice.nil
  | TArr l => option_map (fun p => Slice.mk p.1 p.2) (dec_over (Slice.used old ++ Slice.stale old) l)
  | _ => None
  end.
End SliceField.
Definition dec_string_over (old : string) (v : jtree) : option string := match v with TNull => Some old | _ => dec_string v end.

(** ** Concurrency limits

    Every API has a channel of fixed capacity: a request that cannot send to it
    at once is refused, the others hold a place until the handler returns. *)
Inductive traffic := Arrive | Return.
Definition limit_step (capacity : nat) (o : traffic) (active : nat) : bool * nat :=
  match o with
  | Arrive => if (active <? capacity)%nat then (true, S active) else (false, active)
  | Return => (true, pred active)
  end.

(** A handler never runs more often at once than its channel has places, and a
    request is refused only when all of them are taken. *)
Lemma in_flight_bounded capacity ops :
  ((run (limit_step capacity) ops 0%nat).2 <= capacity)%nat /\
  forall active, (limit_step capacity Arrive active).1 = false <-> (capacity <= active)%nat.
Proof.
  split.
  - apply (run_invariant (limit_step capacity) (fun _ => True) (fun n => n <= capacity)%nat); [|by apply Forall_true|lia].
    intros [|] n _ Hn; unfold limit_step; [destruct (Nat.ltb_spec n capacity); cbn [snd]; lia|cbn [snd]; lia].
  - intros active. unfold limit_step. destruct (Nat.ltb_spec active capacity); cbn [fst]; split; intros; try done; lia.
Qed.
