(* ===== verification/ResolutionApi.v ===== *)
(** * The resolution API ([cmd/controlplane/resolution_*_handlers.go])

    What agents reach over HTTP: creating a resolution, reading its status and
    watching its events.  A creation is reduced to a canonical document before it
    gets to the service, so that a repeated request is recognised whatever its
    spelling; a watch is a stream of server-sent events that a client resumes
    from the last event it saw.  The handlers are functions of the request and
    the state of the service; what the connection and the clock do during a watch
    is an argument. *)
From Stdlib Require Import Sorting.Permutation Sorted.
From stdpp Require Import sorting.
From S2P Require Import Prelude GoStrings GoEncoding GoDecoding Json JsonStruct GoText Authctx Task Schema Outbox.
From S2P Require Import Resolution ResolutionPostgres Planning Parsing Artefacts Identity Http.
Local Open Scope Z_scope.

(** ** Limits and shapes *)
Definition resolutionStatusSchemaVersion : string := "v1".
Definition IdempotencyConflictCode : string := "IDEMPOTENCY_KEY_REUSED".
Definition resolutionReadScope : string := "resolutions:read".
Definition resolutionCreateScope : string := "resolutions:create".
Definition resolutionWatchScope : string := "resolutions:watch".
Definition maximumResolutionStatusReads : nat := 64.
Definition maximumResolutionCreateRequests : nat := 32.
Definition maximumResolutionWatchRequests : nat := 32.
Definition maximumResolutionIDLength : Z := 128.
Definition maximumResolutionCreateBodySize : Z := 64 * 1024.
Definition maximumClaimsPerResolution : Z := 32.
Definition maximumTargetsPerResolution : Z := 1000.
Definition maximumClaimTypeLength : Z := 128.
Definition maximumIdempotencyKeyLength : Z := 128.
Definition maximumRequestedFreshnessInSeconds : Z := 7 * 24 * 60 * 60.
Definition resolutionWatchBatchSize : Z := 100.
Definition defaultResolutionWatchDuration : Z := 15 * Second.
Definition maximumResolutionWatchDuration : Z := 30 * Second.

Module createResolutionBody.
Record t := mk { SchemaVersion : string; Claims : Slice.t string; TargetIDs : Slice.t string; MaximumAgeSeconds : Z }.
#[global] Instance eta_t : Eta t := fun x => mk (SchemaVersion x) (Claims x) (TargetIDs x) (MaximumAgeSeconds x).
Definition zero : t := mk "" Slice.nil Slice.nil 0.
Definition names : list string := ["schema_version"; "claims"; "target_ids"; "maximum_age_seconds"].
Definition field (b : t) (name : string) (v : jtree) : option t :=
  if name ==? "schema_version" then scalar dec_string (fun b s => b <| SchemaVersion := s |>) b v
  else if name ==? "claims" then option_map (fun s => b <| Claims := s |>) (dec_slice_over dec_string_over "" (Claims b) v)
  else if name ==? "target_ids" then option_map (fun s => b <| TargetIDs := s |>) (dec_slice_over dec_string_over "" (TargetIDs b) v)
  else scalar dec_int64 (fun b n => b <| MaximumAgeSeconds := n |>) b v.
Definition tree (version : string) (claims targets : list string) (age : Z) : jtree :=
  TObj [key "schema_version" (jstr version); key "claims" (TArr (map jstr claims)); key "target_ids" (TArr (map jstr targets));
        key "maximum_age_seconds" (jint age)].
End createResolutionBody.

Definition no_store_json : gmap string string := {["Cache-Control" := "no-store"; "Content-Type" := "application/json"]}.
Definition writeResolutionCreateError (status : Z) (code message : string) (retryable : bool) : Response.t :=
  Response.mk status no_store_json (encode_json (TObj [key "error" (TObj
    [key "code" (jstr code); key "message" (jstr message); key "retryable" (TBool retryable)])])).
Definition writeResolutionStatusError (status : Z) (code : string) : Response.t :=
  Response.mk status no_store_json (encode_json (TObj [key "code" (jstr code)])).
Definition writeResolutionWatchError (status : Z) (code : string) : Response.t :=
  Response.mk status no_store_json (encode_json (TObj [key "code" (jstr code)])).

(** ** Validation *)
Definition hidden (r : Z) : bool := IsSpace r || IsControl r.
Definition validResolutionID (identifier : string) : bool :=
  (identifier !=? "") && (len identifier <=? maximumResolutionIDLength) && negb (ContainsAny identifier [47; 92]) &&
  negb (ContainsFunc hidden identifier).
Definition validIdempotencyKey (value : string) : bool :=
  (value !=? "") && (len value <=? maximumIdempotencyKeyLength) && negb (ContainsFunc hidden value).
Definition claim_char (r : Z) : bool := in_range 97 r 122 || in_range 48 r 57 || existsb (Z.eqb r) [46; 95; 45].
Definition validClaimType (value : string) : bool :=
  match value with
  | EmptyString => false
  | String c rest => (len value <=? maximumClaimTypeLength) && in_range 97 (byte_of c) 122 && forallb claim_char (runes rest)
  end.
Fixpoint seen_before (seen : gset string) (values : list string) : bool :=
  match values with
  | [] => false
  | v :: rest => bool_decide (v ∈ seen) || seen_before ({[v]} ∪ seen) rest
  end.
Definition hasDuplicate (values : list string) : bool := seen_before ∅ values.
Definition count (l : list string) : Z := Z.of_nat (List.length l).
Definition validateResolutionRequestBody (b : createResolutionBody.t) : option error :=
  let claims := Slice.used (createResolutionBody.Claims b) in
  let targets := Slice.used (createResolutionBody.TargetIDs b) in
  if (createResolutionBody.SchemaVersion b !=? resolutionStatusSchemaVersion) || (count claims =? 0) ||
     (maximumClaimsPerResolution <? count claims) || (count targets =? 0) || (maximumTargetsPerResolution <? count targets) ||
     (createResolutionBody.MaximumAgeSeconds b <=? 0) ||
     (maximumRequestedFreshnessInSeconds <? createResolutionBody.MaximumAgeSeconds b) then
    Some (Text "resolution request bounds are invalid")
  else if hasDuplicate claims || hasDuplicate targets then Some (Text "claims and target ids must be unique")
  else if negb (forallb validClaimType claims) then Some (Text "claim type is invalid")
  else if negb (forallb validResolutionID targets) then Some (Text "target id is invalid")
  else None.

(** ** Creation *)
Definition decode_create (request : Request.t) : option createResolutionBody.t :=
  decode_body maximumResolutionCreateBodySize
    (dec_members createResolutionBody.field createResolutionBody.names createResolutionBody.zero) (Request.Body request).
Definition canonical (b : createResolutionBody.t) : string :=
  Marshal (createResolutionBody.tree resolutionStatusSchemaVersion (sort_Strings (Slice.used (createResolutionBody.Claims b)))
    (sort_Strings (Slice.used (createResolutionBody.TargetIDs b))) (createResolutionBody.MaximumAgeSeconds b)).
(** The errors of the decoder share one text here; the handler answers all of
    them alike and drops the text. *)
Definition decodeCanonicalResolutionRequest `{LowerTable} (request : Request.t) : result string :=
  if negb (ParseMediaType (header_Get request "Content-Type") ==? Some "application/json") then
    Err (Text "content type must be application/json")
  else match decode_create request with
  | None => Err (Text "request body must contain one JSON document")
  | Some body => match validateResolutionRequestBody body with Some e => Err e | None => Ok (canonical body) end
  end.

Definition accepted (r : Resolution.t) (created : bool) : Response.t :=
  Response.mk StatusAccepted (<["Location" := "/v1/resolutions/" +:+ Resolution.ID r]> no_store_json)
    (encode_json (TObj [key "schema_version" (jstr resolutionStatusSchemaVersion); key "resolution_id" (jstr (Resolution.ID r));
       key "state" (jstr (Resolution.State r)); key "version" (jint (Resolution.Version r)); key "created" (TBool created)])).
Definition idempotency_conflict : Response.t :=
  writeResolutionCreateError StatusConflict IdempotencyConflictCode
    "idempotency key was reused for different request content" false.

Section Api.
Context `{LowerTable} {St : Type}.
Variable authenticate : option ConnectionState.t -> result AuthContext.t.
Definition authenticated (request : Request.t) : option AuthContext.t :=
  match authenticate (Request.TLS request) with
  | Ok actor => if is_null (AuthContext.Validate actor) then Some actor else None
  | Err _ => None
  end.

Definition create (service : CreateRequest.t -> St -> result (Resolution.t * bool) * St) (request : Request.t) (st : St) :
    Response.t * St :=
  match authenticated request with
  | None => (mutual (writeResolutionCreateError StatusUnauthorized "AUTHENTICATION_REQUIRED"
               "a verified workload identity is required" false), st)
  | Some actor =>
    if negb (contains (AuthContext.AllowedScopes actor) resolutionCreateScope) then
      (writeResolutionCreateError StatusForbidden "RESOLUTION_CREATE_DENIED" "resolution creation is not permitted" false, st)
    else
      let idempotencyKey := header_Get request "Idempotency-Key" in
      if negb (validIdempotencyKey idempotencyKey) then
        (writeResolutionCreateError StatusBadRequest "INVALID_IDEMPOTENCY_KEY"
           "a valid Idempotency-Key header is required" false, st)
      else match decodeCanonicalResolutionRequest request with
      | Err _ => (writeResolutionCreateError StatusBadRequest "INVALID_REQUEST" "the resolution request is invalid" false, st)
      | Ok document =>
        match service (CreateRequest.mk (AuthContext.SubjectID actor) (AuthContext.TenantID actor) idempotencyKey
                 ("sha256:" +:+ sha256_hex document) document) st with
        | (Err e, st) =>
          if errors_Is e ErrIdempotencyConflict then (idempotency_conflict, st)
          else (writeResolutionCreateError StatusInternalServerError "RESOLUTION_CREATE_FAILED"
                  "resolution creation failed" true, st)
        | (Ok (r, created), st) =>
          (accepted r created, st)
        end
      end
  end.

(** ** Status *)
Definition status_tree (r : Resolution.t) : jtree :=
  TObj [key "schema_version" (jstr resolutionStatusSchemaVersion); key "resolution_id" (jstr (Resolution.ID r));
    key "state" (jstr (Resolution.State r)); key "target_count" (jint (Resolution.TargetCount r));
    key "completed" (TBool (Resolution.Completed r)); key "version" (jint (Resolution.Version r));
    key "created_at" (jtime (Resolution.CreatedAt r)); key "updated_at" (jtime (Resolution.UpdatedAt r))].
(** A time that has no JSON form leaves the body empty. *)
Definition status_body (r : Resolution.t) : string :=
  if jtime_ok (Resolution.CreatedAt r) && jtime_ok (Resolution.UpdatedAt r) then encode_json (status_tree r) else "".
Definition get (reader : string -> string -> St -> result Resolution.t) (request : Request.t) (st : St) : Response.t :=
  match authenticated request with
  | None => mutual (writeResolutionStatusError StatusUnauthorized "AUTHENTICATION_REQUIRED")
  | Some actor =>
    if negb (contains (AuthContext.AllowedScopes actor) resolutionReadScope) then
      writeResolutionStatusError StatusForbidden "RESOLUTION_READ_DENIED"
    else
      let resolutionID := path_value request "resolution_id" in
      if negb (validResolutionID resolutionID) then writeResolutionStatusError StatusBadRequest "INVALID_RESOLUTION_ID"
      else match reader (AuthContext.TenantID actor) resolutionID st with
      | Err e =>
        if errors_Is e ErrNotFound then writeResolutionStatusError StatusNotFound "RESOLUTION_NOT_FOUND"
        else writeResolutionStatusError StatusInternalServerError "RESOLUTION_STATUS_FAILED"
      | Ok status => Response.mk StatusOK no_store_json (status_body status)
      end
  end.
End Api.

(** ** Watching *)
Definition watch_cursor (raw : string) : option Z :=
  if raw ==? "" then Some 0
  else match ParseInt 64 raw with Some parsed => if parsed <? 0 then None else Some parsed | None => None end.
Definition watch_duration (raw : string) : option Z :=
  if raw ==? "" then Some defaultResolutionWatchDuration
  else match ParseInt 32 raw with
  | Some seconds =>
    if (seconds <=? 0) || (maximumResolutionWatchDuration <? seconds * Second) then None else Some (seconds * Second)
  | None => None
  end.
(** The cursor comes from the header or from the query, not from both. *)
Definition parseResolutionWatchParameters (request : Request.t) : option (Z * Z) :=
  let query := Query request in
  if negb (sole_parameters ["after"; "wait_seconds"] query) then None
  else if Nat.ltb 1 (List.length (header_Values request "Last-Event-ID")) then None
  else
    let headerCursor := header_Get request "Last-Event-ID" in
    let queryCursor := query_Get query "after" in
    if (headerCursor !=? "") && (queryCursor !=? "") then None
    else match watch_cursor (if headerCursor ==? "" then queryCursor else headerCursor),
               watch_duration (query_Get query "wait_seconds") with
    | Some cursor, Some duration => Some (cursor, duration)
    | _, _ => None
    end.

(** The connection: what has been written, and how many more writes succeed
    ([None] when it never breaks). *)
Module Writer.
Record t := mk { out : list string; room : option nat }.
Definition write (s : string) (w : t) : bool * t :=
  match room w with
  | Some O => (false, w)
  | Some (S n) => (true, mk (out w ++ [s]) (Some n))
  | None => (true, mk (out w ++ [s]) None)
  end.
End Writer.

Definition event_head (e : WatchEvent.t) : string :=
  "id: " +:+ itoa (WatchEvent.Cursor e) +:+ newline +:+ "event: " +:+ WatchEvent.Type_ e +:+ newline +:+ "data: ".
Definition event_data (e : WatchEvent.t) : string :=
  encode_json (TObj [key "cursor" (jint (WatchEvent.Cursor e)); key "type" (jstr (WatchEvent.Type_ e));
    key "state" (jstr (WatchEvent.State e)); key "occurred_at" (jtime (WatchEvent.OccurredAt e))]).
(** The cursor, whether a terminal event was written, and whether all is well. *)
Fixpoint writeResolutionWatchEvents (cursor : Z) (events : list WatchEvent.t) (w : Writer.t) : Z * bool * bool * Writer.t :=
  match events with
  | [] => (cursor, false, true, w)
  | event :: rest =>
    if WatchEvent.Cursor event <=? cursor then (cursor, false, false, w)
    else let '(ok, w) := Writer.write (event_head event) w in
      if negb ok || negb (jtime_ok (WatchEvent.OccurredAt event)) then (cursor, false, false, w)
      else let '(ok, w) := Writer.write (event_data event) w in
        if negb ok then (cursor, false, false, w)
        else let '(ok, w) := Writer.write newline w in
          if negb ok then (cursor, false, false, w)
          else if Terminal (WatchEvent.State event) then (WatchEvent.Cursor event, true, true, w)
          else writeResolutionWatchEvents (WatchEvent.Cursor event) rest w
  end.

(** What wakes the loop: the client or the server goes away, the time is up, or
    it is time to poll, in the state the poll then finds. *)
Inductive signal (St : Type) := Done | Expired | Tick (st : St).
Arguments Done {St}. Arguments Expired {St}. Arguments Tick {St}.

Section Watch.
Context {St : Type}.
Variable authenticate : option ConnectionState.t -> result AuthContext.t.
Variable ListEvents : string -> string -> Z -> Z -> St -> result (list WatchEvent.t).

(** The cursor reached and the connection as the loop leaves it, after the
    given signals. *)
Fixpoint continueWatch (tenantID resolutionID : string) (cursor : Z) (signals : list (signal St)) (w : Writer.t) : Z * Writer.t :=
  match signals with
  | [] | Done :: _ => (cursor, w)
  | Expired :: _ => (cursor, (Writer.write (": timeout" +:+ newline +:+ newline) w).2)
  | Tick st :: rest =>
    match ListEvents tenantID resolutionID cursor resolutionWatchBatchSize st with
    | Err _ => (cursor, w)
    | Ok events =>
      let '(next, terminal, ok, w) := writeResolutionWatchEvents cursor events w in
      if negb ok || terminal then (next, w) else continueWatch tenantID resolutionID next rest w
    end
  end.

Definition stream_headers : gmap string string :=
  {["Cache-Control" := "no-store"; "Content-Type" := "text/event-stream"; "X-Accel-Buffering" := "no"]}.
Definition retry_hint : string := "retry: 1000" +:+ newline +:+ newline.
Inductive watch_reply :=
| Refused (response : Response.t)
| Streamed (header : gmap string string) (w : Writer.t).
(** [st] is the state of the first read, [flushes] whether the connection can
    stream and [room] how long it lasts. *)
Definition watch (request : Request.t) (st : St) (flushes : bool) (room : option nat) (signals : list (signal St)) : watch_reply :=
  match authenticated authenticate request with
  | None => Refused (mutual (writeResolutionWatchError StatusUnauthorized "AUTHENTICATION_REQUIRED"))
  | Some actor =>
    if negb (contains (AuthContext.AllowedScopes actor) resolutionWatchScope) then
      Refused (writeResolutionWatchError StatusForbidden "RESOLUTION_WATCH_DENIED")
    else
      let resolutionID := path_value request "resolution_id" in
      if negb (validResolutionID resolutionID) then
        Refused (writeResolutionWatchError StatusBadRequest "INVALID_RESOLUTION_ID")
      else match parseResolutionWatchParameters request with
      | None => Refused (writeResolutionWatchError StatusBadRequest "INVALID_WATCH_CURSOR")
      | Some (cursor, _) =>
        match ListEvents (AuthContext.TenantID actor) resolutionID cursor resolutionWatchBatchSize st with
        | Err e =>
          Refused (if errors_Is e ErrNotFound then writeResolutionWatchError StatusNotFound "RESOLUTION_NOT_FOUND"
                   else writeResolutionWatchError StatusInternalServerError "RESOLUTION_WATCH_FAILED")
        | Ok events =>
          if negb flushes then Refused (writeResolutionWatchError StatusInternalServerError "WATCH_STREAM_UNAVAILABLE")
          else
            let '(ok, w) := Writer.write retry_hint (Writer.mk [] room) in
            if negb ok then Streamed stream_headers w
            else let '(next, terminal, ok, w) := writeResolutionWatchEvents cursor events w in
              if negb ok || terminal then Streamed stream_headers w
              else Streamed stream_headers
                (continueWatch (AuthContext.TenantID actor) resolutionID next signals w).2
        end
      end
  end.
End Watch.

(** ** The canonical document *)
Lemma seen_before_spec seen l : seen_before seen l = false <-> NoDup l /\ Forall (fun v => v ∉ seen) l.
Proof.
  revert seen. induction l as [|v l IH]; intros seen; cbn; [repeat split; constructor|].
  rewrite orb_false_iff, IH, bool_decide_eq_false, list.NoDup_cons, list.Forall_cons, !list.Forall_forall.
  split.
  - intros (Hv & Hn & Hall). split_and!; try done; [|set_solver]. intros Hin. specialize (Hall v Hin). set_solver.
  - intros ((Hv & Hn) & Hs & Hall). split_and!; try done. intros x Hx. specialize (Hall x Hx). set_solver.
Qed.
Lemma hasDuplicate_spec l : hasDuplicate l = false <-> NoDup l.
Proof. unfold hasDuplicate. rewrite seen_before_spec, list.Forall_forall. set_solver. Qed.

(** What the decoder puts into a string field is valid text. *)
Definition texts (s : Slice.t string) : Prop := Forall (fun x => ValidString x = true) (Slice.used s ++ Slice.stale s).
Lemma dec_string_text v s : dec_string v = Some s -> ValidString s = true.
Proof. destruct v; try done. cbn. intros [= <-]. apply ValidString_encoded. Qed.
Lemma dec_over_texts old l used rest :
  Forall (fun x => ValidString x = true) old -> dec_over dec_string_over "" old l = Some (used, rest) ->
  Forall (fun x => ValidString x = true) (used ++ rest).
Proof.
  revert old used rest. induction l as [|v l IH]; intros old used rest Hold; cbn [dec_over]; [by intros [= <- <-]|].
  assert (Hstep : forall x old', ValidString x = true -> Forall (fun x => ValidString x = true) old' ->
    match dec_string_over x v, dec_over dec_string_over "" old' l with
    | Some y, Some (ys, rest) => Some (y :: ys, rest) | _, _ => None end = Some (used, rest) ->
    Forall (fun x => ValidString x = true) (used ++ rest)).
  { intros x old' Hx Hold'. destruct (dec_string_over x v) as [y|] eqn:Ey; [|done].
    destruct (dec_over _ _ old' l) as [[ys r]|] eqn:Er; [|done]. intros [= <- <-]. constructor; [|by eapply IH].
    unfold dec_string_over in Ey. destruct v; try by apply dec_string_text in Ey. by injection Ey as <-. }
  destruct old as [|x old]; [by apply Hstep|]. apply list.Forall_cons in Hold as [Hx Hold]. by apply Hstep.
Qed.
Lemma dec_slice_texts old v s : texts old -> dec_slice_over dec_string_over "" old v = Some s -> texts s.
Proof.
  unfold texts. intros Hold. destruct v as [| | | |[|v l]|]; cbn [dec_slice_over]; try done; try (intros [= <-]; constructor).
  destruct (dec_over _ _ _ _) as [[used rest]|] eqn:E; [|done]. intros [= <-]. by apply dec_over_texts in E.
Qed.
Definition body_ok (b : createResolutionBody.t) : Prop :=
  texts (createResolutionBody.Claims b) /\ texts (createResolutionBody.TargetIDs b) /\
  int64_range (createResolutionBody.MaximumAgeSeconds b).
Lemma dec_int64_range v n : dec_int64 v = Some n -> int64_range n.
Proof.
  destruct v; try done. cbn. unfold parse_int. destruct (scan_opt _ _) as [s ds]. case_match; [|done].
  destruct (in_range _ _ _) eqn:E; [|done]. intros [= <-]. by apply in_range_spec in E.
Qed.
Lemma scalar_Some {A B} (dec : jtree -> option B) (set : A -> B -> A) a v a' :
  scalar dec set a v = Some a' -> a' = a \/ exists x, dec v = Some x /\ a' = set a x.
Proof.
  unfold scalar. assert (Hd : option_map (set a) (dec v) = Some a' -> exists x, dec v = Some x /\ a' = set a x).
  { destruct (dec v) as [x|]; [|done]. intros [= <-]. by exists x. }
  destruct v; first [by intros [= <-]; left | intros E; right; exact (Hd E)].
Qed.
Lemma field_ok b name v b' : body_ok b -> createResolutionBody.field b name v = Some b' -> body_ok b'.
Proof.
  intros (Hc & Ht & Ha). unfold createResolutionBody.field.
  destruct (name ==? "schema_version"); [intros [->|(s & _ & ->)]%scalar_Some; exact (conj Hc (conj Ht Ha))|].
  destruct (name ==? "claims").
  { destruct (dec_slice_over _ _ _ _) as [s|] eqn:E; [|done]. intros [= <-]. exact (conj (dec_slice_texts _ _ _ Hc E) (conj Ht Ha)). }
  destruct (name ==? "target_ids").
  { destruct (dec_slice_over _ _ _ _) as [s|] eqn:E; [|done]. intros [= <-]. exact (conj Hc (conj (dec_slice_texts _ _ _ Ht E) Ha)). }
  intros [->|(n & Hn & ->)]%scalar_Some; [done|]. exact (conj Hc (conj Ht (dec_int64_range _ _ Hn))).
Qed.
Lemma decode_create_ok request b : decode_create request = Some b -> body_ok b.
Proof.
  unfold decode_create, decode_body. case_match; [done|]. destruct (Json.parse_value _ _ _) as [[t rest]|]; [|done].
  case_match; [|done]. clear. unfold dec_members.
  assert (Hzero : body_ok createResolutionBody.zero) by (split_and!; [constructor..|done]).
  destruct t as [| | | | |fs]; try done; [by intros [= <-]|]. revert Hzero. generalize createResolutionBody.zero.
  induction fs as [|kv fs IH]; intros b0 H0; cbn [fold_left]; [by intros [= <-]|].
  assert (Hnone : fold_left (fun acc kv => match acc, find (fun name => fkey kv ==? fold_name name) createResolutionBody.names with
    | Some a, Some name => createResolutionBody.field a name (snd kv) | _, _ => None end) fs None = None)
    by (clear; by induction fs).
  destruct (find _ _) as [name|]; [|by rewrite Hnone].
  destruct (createResolutionBody.field b0 name kv.2) as [b1|] eqn:E; [|by rewrite Hnone]. apply IH. by eapply field_ok.
Qed.

Lemma sort_Strings_unique l1 l2 : sort_Strings l1 = sort_Strings l2 <-> Permutation l1 l2.
Proof.
  unfold sort_Strings. split; intros E.
  - rewrite <- (isort_perm str_leb l1), E. apply isort_perm.
  - apply (StronglySorted_unique_strong (fun a b => str_leb a b = true)).
    + intros a b _ _. apply str_leb_antisym.
    + apply isort_StronglySorted; [apply str_leb_total|apply str_leb_trans].
    + apply isort_StronglySorted; [apply str_leb_total|apply str_leb_trans].
    + by rewrite !isort_perm.
Qed.
Lemma nesting_strings l : nesting (TArr (map jstr l)) = 1.
Proof. cbn. enough (E : foldr (fun x n => Z.max (nesting x) n) 0 (map jstr l) = 0) by lia. induction l as [|x l IH]; [done|]. cbn in *. by rewrite IH. Qed.
Lemma body_tree_ok version claims targets age : int64_range age ->
  tree_ok (createResolutionBody.tree version claims targets age) /\ nesting (createResolutionBody.tree version claims targets age) = 2.
Proof.
  intros Ha. assert (Hl : forall l, tree_ok (TArr (map jstr l))).
  { intros l. cbn [tree_ok]. induction l as [|x l IH]; [done|]. cbn. split; [apply jstr_ok|exact IH]. }
  unfold createResolutionBody.tree. split.
  - cbn [tree_ok foldr]. split_and!; try done; first [apply key_ok | idtac].
    all: try apply jstr_ok; try apply Hl; try by apply jint_ok.
  - cbn [nesting foldr snd key]. change (nesting (TArr (map jstr claims))) with (nesting (TArr (map jstr claims))).
    pose proof (nesting_strings claims) as H1. pose proof (nesting_strings targets) as H2. cbn [nesting] in H1, H2. rewrite H1, H2. done.
Qed.
Lemma canonical_inj b1 b2 : body_ok b1 -> body_ok b2 -> canonical b1 = canonical b2 ->
  Permutation (Slice.used (createResolutionBody.Claims b1)) (Slice.used (createResolutionBody.Claims b2)) /\
  Permutation (Slice.used (createResolutionBody.TargetIDs b1)) (Slice.used (createResolutionBody.TargetIDs b2)) /\
  createResolutionBody.MaximumAgeSeconds b1 = createResolutionBody.MaximumAgeSeconds b2.
Proof.
  intros (Hc1 & Ht1 & Ha1) (Hc2 & Ht2 & Ha2) E. unfold canonical in E.
  assert (Hstrings : forall s1 s2, texts s1 -> texts s2 ->
    map jstr (sort_Strings (Slice.used s1)) = map jstr (sort_Strings (Slice.used s2)) -> Permutation (Slice.used s1) (Slice.used s2)).
  { unfold texts. intros s1 s2 [H1 _]%list.Forall_app [H2 _]%list.Forall_app Em. apply sort_Strings_unique.
    assert (Hs1 : Forall (fun x => ValidString x = true) (sort_Strings (Slice.used s1))) by (unfold sort_Strings; by rewrite isort_perm).
    assert (Hs2 : Forall (fun x => ValidString x = true) (sort_Strings (Slice.used s2))) by (unfold sort_Strings; by rewrite isort_perm).
    revert Hs1 Hs2 Em. generalize (sort_Strings (Slice.used s1)) (sort_Strings (Slice.used s2)).
    induction l as [|x l IH]; intros [|y l'] V1 V2 Em; try done. cbn [map] in Em.
    apply list.Forall_cons in V1 as [V1 V1']. apply list.Forall_cons in V2 as [V2 V2'].
    injection Em as Ex El. f_equal; [|by apply IH]. apply jstr_inj; [done..|]. unfold jstr. by rewrite Ex. }
  destruct (body_tree_ok resolutionStatusSchemaVersion (sort_Strings (Slice.used (createResolutionBody.Claims b1)))
    (sort_Strings (Slice.used (createResolutionBody.TargetIDs b1))) _ Ha1) as [O1 N1].
  destruct (body_tree_ok resolutionStatusSchemaVersion (sort_Strings (Slice.used (createResolutionBody.Claims b2)))
    (sort_Strings (Slice.used (createResolutionBody.TargetIDs b2))) _ Ha2) as [O2 N2].
  apply Marshal_inj in E; [|done|done|rewrite N1; done|rewrite N2; done].
  unfold createResolutionBody.tree in E. injection E as Ec Et Ea.
  split; [by apply Hstrings|]. split; [by apply Hstrings|]. apply jint_inj; [done..|]. unfold jint. by rewrite Ea.
Qed.

Lemma canonical_valid b : body_ok b -> Valid (canonical b) = true /\ embeddable (canonical b).
Proof.
  intros (_ & _ & Ha). destruct (body_tree_ok resolutionStatusSchemaVersion (sort_Strings (Slice.used (createResolutionBody.Claims b)))
    (sort_Strings (Slice.used (createResolutionBody.TargetIDs b))) _ Ha) as [Ho Hn].
  pose proof (parse_Marshal _ Ho ltac:(rewrite Hn; done)) as Hp. unfold Valid, embeddable, canonical. rewrite Hp.
  split; [done|]. intros t [= <-]. rewrite Hn. done.
Qed.
Lemma validate_unique b : validateResolutionRequestBody b = None ->
  NoDup (Slice.used (createResolutionBody.Claims b)) /\ NoDup (Slice.used (createResolutionBody.TargetIDs b)).
Proof.
  unfold validateResolutionRequestBody. case_match; [done|]. destruct (hasDuplicate _ || hasDuplicate _) eqn:E; [done|].
  apply orb_false_iff in E as [E1 E2]. intros _. split; by apply hasDuplicate_spec.
Qed.
Lemma accepted_document `{LowerTable} request document : decodeCanonicalResolutionRequest request = Ok document ->
  exists b, decode_create request = Some b /\ validateResolutionRequestBody b = None /\ document = canonical b.
Proof.
  unfold decodeCanonicalResolutionRequest. case_match; [done|]. destruct (decode_create request) as [b|]; [|done].
  destruct (validateResolutionRequestBody b) eqn:E; [done|]. intros [= <-]. by exists b.
Qed.

(** Two creation requests are the same document exactly when they ask for
    the same.  Whatever the spelling, the member order, the repeated members or
    the order of the lists, two accepted bodies are reduced to equal documents
    (and digests) iff they name the same claims and the same targets, each
    listed once, and the same maximum age. *)
Theorem create_document_canonical `{LowerTable} r1 r2 b1 b2 d1 d2
    (H1 : decodeCanonicalResolutionRequest r1 = Ok d1) (H2 : decodeCanonicalResolutionRequest r2 = Ok d2)
    (B1 : decode_create r1 = Some b1) (B2 : decode_create r2 = Some b2) :
  (NoDup (Slice.used (createResolutionBody.Claims b1)) /\ NoDup (Slice.used (createResolutionBody.TargetIDs b1)) /\
   embeddable d1 /\ Valid d1 = true) /\
  (d1 = d2 <->
   Permutation (Slice.used (createResolutionBody.Claims b1)) (Slice.used (createResolutionBody.Claims b2)) /\
   Permutation (Slice.used (createResolutionBody.TargetIDs b1)) (Slice.used (createResolutionBody.TargetIDs b2)) /\
   createResolutionBody.MaximumAgeSeconds b1 = createResolutionBody.MaximumAgeSeconds b2).
Proof.
  destruct (accepted_document _ _ H1) as (b1' & D1 & V1 & ->). rewrite D1 in B1. injection B1 as ->.
  destruct (accepted_document _ _ H2) as (b2' & D2 & V2 & ->). rewrite D2 in B2. injection B2 as ->.
  pose proof (decode_create_ok _ _ D1) as O1. pose proof (decode_create_ok _ _ D2) as O2.
  destruct (validate_unique _ V1). destruct (canonical_valid _ O1). split; [done|]. split; [by apply canonical_inj|].
  intros (Hc & Ht & Ha). unfold canonical. apply sort_Strings_unique in Hc, Ht. by rewrite Hc, Ht, Ha.
Qed.

(** ** Creation over the durable repository *)
Lemma ascii_encodable s : Forall (fun b => 0 < b < 128) (bytes s) -> encodable s = true.
Proof.
  intros Hs. unfold encodable. rewrite ValidString_ascii by (eapply List.Forall_impl; [|exact Hs]; cbn; lia). cbn [andb].
  apply negb_true_iff. induction s as [|c s IH]; [done|]. apply list.Forall_cons in Hs as [Hc Hs]. cbn [Contains].
  rewrite (IH Hs), orb_false_r. unfold NUL. cbn [String.prefix]. case_match; [|done]. subst c. vm_compute in Hc. by destruct Hc.
Qed.
Lemma digest_encodable d : encodable ("sha256:" +:+ sha256_hex d) = true.
Proof.
  apply ascii_encodable. rewrite bytes_app. apply list.Forall_app. split; [by repeat constructor|].
  unfold sha256_hex, hex_EncodeToString.
  pose proof (Sum256_bytes (bytes d)) as Hb. induction Hb as [|b bs Hb _ IH]; [constructor|]. cbn [fold_right]. rewrite bytes_app.
  apply list.Forall_app. split; [|done]. unfold is_byte in Hb.
  assert (Hd : forall x, 0 <= x < 16 -> 0 < byte_of (hexdigit x) < 128).
  { intros x Hx. unfold hexdigit. rewrite byte_of_of_byte by (case_match; lia). case_match; lia. }
  change (bytes (hex_byte b)) with [byte_of (hexdigit (b / 16)); byte_of (hexdigit (b mod 16))].
  constructor; [|constructor; [|constructor]]; apply Hd; Z.to_euclidean_division_equations; lia.
Qed.
(** What the handler passes to the service is valid for it, if it is not too
    long. *)
Lemma create_request_valid `{LowerTable} request actor document key :
  AuthContext.Validate actor = None -> validIdempotencyKey key = true ->
  decodeCanonicalResolutionRequest request = Ok document -> len document <= maximumRequestDocumentSize ->
  validateCreateRequest (CreateRequest.mk (AuthContext.SubjectID actor) (AuthContext.TenantID actor) key
    ("sha256:" +:+ sha256_hex document) document) = None.
Proof.
  intros Ha Hk Hd Hlen. destruct (accepted_document _ _ Hd) as (b & Hb & _ & Hdoc).
  destruct (canonical_valid _ (decode_create_ok _ _ Hb)) as [Hv _]. rewrite <- Hdoc in Hv.
  unfold AuthContext.Validate in Ha. destruct (AuthContext.SubjectID actor ==? "") eqn:E1; [done|].
  destruct (AuthContext.TenantID actor ==? "") eqn:E2; [done|]. clear Ha.
  unfold validIdempotencyKey in Hk. rewrite !andb_true_iff in Hk. destruct Hk as [[K1 K2] _]. apply Z.leb_le in K2.
  unfold validateCreateRequest. cbn [CreateRequest.ActorID CreateRequest.TenantID CreateRequest.IdempotencyKey
    CreateRequest.RequestDigest CreateRequest.RequestDocument]. apply negb_true_iff in K1. rewrite E1, E2, K1, Hv.
  assert (H71 : len ("sha256:" +:+ sha256_hex document) = 71) by (rewrite len_app, sha256_hex_len; done).
  assert (Hne : (len document =? 0) = false).
  { rewrite Hdoc. exact (Marshal_object_nonempty [("schema_version", _); ("claims", _); ("target_ids", _); ("maximum_age_seconds", _)]). }
  rewrite Hne, H71. unfold maximumIdempotencyKeyLength in K2. rewrite (proj2 (Z.ltb_ge 128 (len key))) by lia.
  rewrite (proj2 (Z.ltb_ge maximumRequestDocumentSize (len document))) by lia.
  rewrite (bool_decide_eq_false_2 (_ = "")) by done. cbn [orb negb]. by rewrite bool_decide_eq_true_2.
Qed.

Section Durable.
Context `{JL : JsonbLaws}.

Lemma created_row_ok request id now : validateCreateRequest request = None ->
  resolution_row_error (resolution_row (created_by request id now)) = None /\
  IdempotencyRow.check (idempotency_row (created_by request id now)) = true.
Proof.
  unfold validateCreateRequest. match goal with |- (if ?b then _ else _) = _ -> _ => destruct b; [done|] end.
  match goal with |- (if ?b then _ else _) = _ -> _ => destruct b eqn:E1; [done|] end.
  match goal with |- (if ?b then _ else _) = _ -> _ => destruct b eqn:E2; [done|] end. intros _. apply orb_false_iff in E1 as [E1 E1'], E2 as [E2 _]. apply Z.ltb_ge in E1, E1', E2.
  pose proof (RuneCount_le (CreateRequest.IdempotencyKey request)). pose proof (RuneCount_le (CreateRequest.RequestDigest request)).
  assert (Hk : (char_length (CreateRequest.IdempotencyKey request) <=? 128) = true) by (apply Z.leb_le; unfold char_length; lia).
  assert (Hd : (char_length (CreateRequest.RequestDigest request) <=? 128) = true) by (apply Z.leb_le; unfold char_length; lia).
  unfold resolution_row_error, ResolutionRow.in_range, ResolutionRow.check, IdempotencyRow.check. cbn [resolution_row idempotency_row
    created_by Resolution.IdempotencyKey Resolution.RequestDigest Resolution.RequestDocument Resolution.State Resolution.TargetCount
    Resolution.Version Resolution.CreatedAt Resolution.UpdatedAt ResolutionRow.idempotency_key ResolutionRow.request_digest
    ResolutionRow.request_document ResolutionRow.state ResolutionRow.target_count ResolutionRow.version ResolutionRow.created_at
    ResolutionRow.updated_at IdempotencyRow.idempotency_key IdempotencyRow.request_digest].
  change 65536 with maximumRequestDocumentSize. rewrite Hk, Hd, (Z.leb_refl (normaliseTime now)), (proj2 (Z.leb_le _ _) E2). split; reflexivity.
Qed.

(** A valid request under a key that is taken. *)
Lemma stored_create seen request id row now newID ev db :
  Durable db -> DB.resolutions db !! id = Some row -> validateCreateRequest request = None ->
  row_key row = (CreateRequest.TenantID request, CreateRequest.ActorID request, CreateRequest.IdempotencyKey request) ->
  now <> 0 -> newID <> "" -> ev <> "" -> DB.resolutions db !! newID = None ->
  all_encodable [newID; CreateRequest.ActorID request; CreateRequest.TenantID request; CreateRequest.IdempotencyKey request;
    CreateRequest.RequestDigest request] = true ->
  Resolution.Create (H := postgres_repository seen) request now (Ok newID) (Ok ev) db =
  (if CreateRequest.RequestDigest request ==? ResolutionRow.request_digest row then Ok (scanResolution row, false)
   else Err ErrIdempotencyConflict, db).
Proof.
  intros HD Hl Hreq Hkey Hnow Hid Hev Hfresh Henc.
  destruct (durable_recorded _ HD _ _ Hl) as [ws (_ & _ & (kr & Hkr & Hkid & Hkd) & _)]. rewrite Hkey in Hkr.
  destruct (Create_reaches (H := postgres_repository seen) request now newID ev db Hreq Hnow Hid Hev) as (event & -> & Hv).
  destruct (created_row_ok request newID now Hreq) as [Hrow Hidem].
  cbn [repo_Create postgres_repository]. unfold ResolutionPostgres.PostgresRepository.Create. rewrite Hv. unfold insert_resolution. rewrite Hrow.
  assert (Henc' : all_encodable [newID; CreateRequest.ActorID request; CreateRequest.TenantID request;
    CreateRequest.IdempotencyKey request; CreateRequest.RequestDigest request; ResolutionReceived] = true).
  { unfold all_encodable in *. cbn [forallb] in *. rewrite !andb_true_iff in *. by destruct_and!. }
  cbn [created_by Resolution.ID Resolution.ActorID Resolution.TenantID Resolution.IdempotencyKey Resolution.RequestDigest
    Resolution.State]. rewrite Henc', Hfresh. cbn [negb]. unfold insert_idempotency. rewrite Hidem. cbn [negb].
  change (IdempotencyRow.primary_key (idempotency_row (created_by request newID now))) with
    (CreateRequest.TenantID request, CreateRequest.ActorID request, CreateRequest.IdempotencyKey request).
  change (DB.resolution_idempotency (put_resolution (resolution_row (created_by request newID now)) db)) with
    (DB.resolution_idempotency db). rewrite Hkr. unfold ResolutionPostgres.PostgresRepository.getIdempotentResolution.
  change (DB.resolution_idempotency (put_resolution (resolution_row (created_by request newID now)) db)) with
    (DB.resolution_idempotency db). rewrite Hkr. unfold ResolutionPostgres.PostgresRepository.getResolutionTx.
  assert (Hlook : DB.resolutions (put_resolution (resolution_row (created_by request newID now)) db) !! id = Some row).
  { unfold put_resolution. cbn. rewrite lookup_insert_ne; [done|]. intros <-. congruence. }
  rewrite Hkid, Hlook. injection Hkey as Ht _ _. rewrite Ht, (bool_decide_eq_true_2 (_ = _)) by done. rewrite Hkd.
  destruct (decide (CreateRequest.RequestDigest request = ResolutionRow.request_digest row)) as [E|E].
  - rewrite E, !bool_decide_eq_true_2 by done. done.
  - rewrite !bool_decide_eq_false_2 by done. done.
Qed.

(** Asking again is safe over HTTP.  Once a resolution is stored under an
    agent's key, whatever has happened to it since, an authenticated agent that
    repeats a creation under that key is answered with that resolution as it now
    is, marked as not created, if the canonical document has the stored digest,
    and with the idempotency conflict otherwise; the database is unchanged. *)
Theorem create_repeats `{LowerTable} authenticate (ops : list wop) id row request actor document now newID ev
    (Hops : Forall wop_ok ops) (Hrow : DB.resolutions (run wstep ops DB.empty).2 !! id = Some row)
    (Hactor : authenticated authenticate request = Some actor)
    (Hscope : contains (AuthContext.AllowedScopes actor) resolutionCreateScope = true)
    (Hvalid : validIdempotencyKey (header_Get request "Idempotency-Key") = true)
    (Hkey : row_key row = (AuthContext.TenantID actor, AuthContext.SubjectID actor, header_Get request "Idempotency-Key"))
    (Hdoc : decodeCanonicalResolutionRequest request = Ok document) (Hlen : len document <= maximumRequestDocumentSize)
    (Hnow : now <> 0) (Hids : newID <> "" /\ ev <> "") (Hfresh : DB.resolutions (run wstep ops DB.empty).2 !! newID = None)
    (Henc : all_encodable [newID; AuthContext.SubjectID actor; header_Get request "Idempotency-Key"] = true) :
  let db := (run wstep ops DB.empty).2 in
  create authenticate (fun r db => Resolution.Create (H := postgres_repository db) r now (Ok newID) (Ok ev) db) request db =
  (if "sha256:" +:+ sha256_hex document ==? ResolutionRow.request_digest row then accepted (scanResolution row) false
   else idempotency_conflict, db).
Proof.
  intros db. pose proof (durable_run ops Hops) as HD. fold db in Hrow, Hfresh, HD. destruct Hids as [Hid Hev].
  unfold create. rewrite Hactor, Hscope, Hvalid, Hdoc. cbn [negb].
  assert (Ha : AuthContext.Validate actor = None).
  { unfold authenticated in Hactor. destruct (authenticate _) as [a|]; [|done].
    destruct (AuthContext.Validate a) eqn:E; [done|]. by injection Hactor as <-. }
  pose proof (create_request_valid request actor document _ Ha Hvalid Hdoc Hlen) as Hreq.
  destruct (durable_recorded _ HD _ _ Hrow) as [ws ((_ & _ & _ & Hte) & _)].
  rewrite (stored_create db _ id row now newID ev db HD Hrow Hreq Hkey Hnow Hid Hev Hfresh).
  - cbn [CreateRequest.RequestDigest]. destruct (_ ==? ResolutionRow.request_digest row); done.
  - injection Hkey as Ht _ _. rewrite Ht in Hte. unfold all_encodable in *. cbn [forallb CreateRequest.ActorID CreateRequest.TenantID
      CreateRequest.IdempotencyKey CreateRequest.RequestDigest] in *. rewrite digest_encodable.
    rewrite !andb_true_iff in *. by destruct_and!.
Qed.
End Durable.

(** ** Streams *)

(** The three writes that make up an event. *)
Definition frame (e : WatchEvent.t) : list string := [event_head e; event_data e; newline].
Definition frames (l : list WatchEvent.t) : list string := concat (map frame l).
(** The events carry the positions that follow [after]. *)
Definition numbered (after : Z) (l : list WatchEvent.t) : Prop :=
  forall i e, l !! i = Some e -> WatchEvent.Cursor e = after + Z.of_nat i + 1.
(** What a broken connection can leave behind of the next event. *)
Definition broken_off (next : option WatchEvent.t) (tail : list string) : Prop :=
  tail = [] \/ exists e, next = Some e /\ (tail = [event_head e] \/ tail = [event_head e; event_data e]).

Lemma numbered_cons after e l : numbered after (e :: l) -> WatchEvent.Cursor e = after + 1 /\ numbered (after + 1) l.
Proof. intros Hn. split; [specialize (Hn 0%nat e eq_refl); lia|]. intros i x Hx. specialize (Hn (S i) x Hx). lia. Qed.
Lemma numbered_segment c n ws : 0 <= c -> numbered 0 ws -> numbered c (firstn n (skipn (Z.to_nat c) ws)).
Proof.
  intros Hc Hn i e Hd. apply lookup_take_Some in Hd as [Hd _]. rewrite lookup_drop in Hd.
  specialize (Hn _ _ Hd). lia.
Qed.
Lemma write_out s w ok w' : Writer.write s w = (ok, w') ->
  Writer.out w' = Writer.out w ++ (if ok then [s] else []) /\ (Writer.room w = None -> ok = true /\ Writer.room w' = None).
Proof. unfold Writer.write. destruct (Writer.room w) as [[|n]|]; intros [= <- <-]; cbn; by rewrite ?app_nil_r. Qed.

Lemma write_events_spec events : forall cursor w, numbered cursor events ->
  let '(next, terminal, ok, w') := writeResolutionWatchEvents cursor events w in
  exists k tail, (k <= List.length events)%nat /\ next = cursor + Z.of_nat k /\
    Writer.out w' = Writer.out w ++ frames (firstn k events) ++ tail /\ broken_off (events !! k) tail /\
    (ok = true -> tail = [] /\ (terminal = false -> k = List.length events)).
Proof.
  induction events as [|e events IH]; intros cursor w Hn; cbn [writeResolutionWatchEvents].
  { exists 0%nat, []. cbn. rewrite app_nil_r. split_and!; try done; [lia|by left]. }
  apply numbered_cons in Hn as [He Hn]. rewrite (proj2 (Z.leb_gt _ _)) by lia.
  destruct (Writer.write (event_head e) w) as [ok1 w1] eqn:W1. apply write_out in W1 as [W1 _].
  assert (Hstop : forall w' tail, Writer.out w' = Writer.out w ++ tail -> broken_off (Some e) tail ->
    exists k tail, (k <= List.length (e :: events))%nat /\ cursor = cursor + Z.of_nat k /\
      Writer.out w' = Writer.out w ++ frames (firstn k (e :: events)) ++ tail /\ broken_off ((e :: events) !! k) tail /\
      (false = true -> tail = [] /\ (false = false -> k = List.length (e :: events)))).
  { intros w' tail Hw Hb. exists 0%nat, tail. cbn. split_and!; try done; lia. }
  destruct ok1; cbn [negb orb]; [|apply (Hstop w1 []); [by rewrite W1|by left]].
  destruct (jtime_ok _); cbn [negb]; [|apply (Hstop w1 [event_head e]); [done|right; eauto]].
  destruct (Writer.write (event_data e) w1) as [ok2 w2] eqn:W2. apply write_out in W2 as [W2 _].
  destruct ok2; cbn [negb]; [|apply (Hstop w2 [event_head e]); [by rewrite W2, W1, app_nil_r|right; eauto]].
  destruct (Writer.write newline w2) as [ok3 w3] eqn:W3. apply write_out in W3 as [W3 _].
  destruct ok3; cbn [negb];
    [|apply (Hstop w3 [event_head e; event_data e]); [by rewrite W3, W2, W1, app_nil_r, <- app_assoc|right; eauto]].
  assert (Hframe : Writer.out w3 = Writer.out w ++ frame e) by (by rewrite W3, W2, W1, <- !app_assoc).
  destruct (Terminal _).
  { exists 1%nat, []. unfold frames. cbn [firstn map concat]. rewrite !app_nil_r.
    split; [cbn; lia|]. split; [lia|]. split; [done|]. split; [by left|done]. }
  specialize (IH (WatchEvent.Cursor e) w3). rewrite He in IH |- *. specialize (IH Hn).
  destruct (writeResolutionWatchEvents _ _ _) as [[[next terminal] ok] w']. destruct IH as (k & tail & Hk & -> & Hout & Hb & Hok).
  exists (S k), tail. cbn [firstn List.length lookup]. unfold frames in *. cbn [map concat]. rewrite Hout, Hframe, <- !app_assoc.
  split_and!; try done; [lia|lia|]. intros Ht. destruct (Hok Ht) as [? Hlen]. split; [done|]. intros Hf. by rewrite (Hlen Hf).
Qed.

(** ** Histories grow *)
Lemma history_numbered ws s v t : history ws s v t -> Z.of_nat (List.length ws) = v /\ numbered 0 ws.
Proof.
  assert (Hsnoc : forall ws v w, Z.of_nat (List.length ws) = v /\ numbered 0 ws -> WatchEvent.Cursor w = v + 1 ->
    Z.of_nat (List.length (ws ++ [w])) = v + 1 /\ numbered 0 (ws ++ [w])).
  { intros l n w [Hl Hn] Hw. rewrite length_app. cbn [List.length]. split; [lia|]. intros i e Hi.
    apply lookup_app_Some in Hi as [Hi|[Hle Hi]]; [by apply Hn|]. apply list_lookup_singleton_Some in Hi as [Hi <-]. lia. }
  induction 1 as [t|ws s v t s' t' _ IH|ws v t at_ _ IH].
  - split; [done|]. intros i e Hi. by apply list_lookup_singleton_Some in Hi as [-> <-].
  - by apply Hsnoc.
  - by apply Hsnoc.
Qed.

Section Watching.
Context `{JL : JsonbLaws}.

(** The events of an aggregate, as the outbox holds them. *)
Definition event_of_id (id : string) (c : Z * Event.t) : bool :=
  (Event.AggregateType (snd c) ==? "resolution") && (Event.AggregateID (snd c) ==? id).
Definition log (db : DB.t) : list (Z * Event.t) := map content (rows db).

Lemma append_grows doc e db db1 : Durable db -> DB.outbox db1 = DB.outbox db -> DB.outbox_next db1 = DB.outbox_next db ->
  log db `prefix_of` log (append_event doc e db1).
Proof.
  intros HD Ho Hn. destruct (append_event_rows doc e db1) as (_ & _ & Hrows).
  { unfold outbox_ok. rewrite Ho. apply HD. }
  { unfold next_free. rewrite Ho, Hn. apply HD. }
  assert (Hr : rows db1 = rows db) by (unfold rows; by rewrite Ho).
  unfold log. rewrite Hrows, Hr, map_app. by apply prefix_app_r.
Qed.
Lemma step_grows o db : wop_ok o -> Durable db -> log db `prefix_of` log (wstep o db).2.
Proof.
  intros Hok HD. destruct o as [request now rid evt|seen current request now evt|ts actor request now evt|o|f]; cbn [wstep].
  - destruct (Resolution.Create _ _ _ _ _) as [out db'] eqn:E.
    apply Create_calls in E as [->|(i & ev & event & He & Hc)]; [done|].
    apply Create_commits in Hc as [->|(doc & _ & _ & _ & _ & _ & _ & ->)]; [done|]. by apply append_grows.
  - destruct (finishTransition _ _ _ _ _) as [out db'] eqn:E.
    apply finishTransition_calls in E as [[-> _]|(ev & event & Hv & _ & He & Hc)]; [done|].
    apply Transition_commits in Hc as [[-> _]|(row & doc & _ & _ & _ & _ & _ & _ & _ & _ & _ & ->)]; [done|]. by apply append_grows.
  - destruct (Queue _ _ _ _ _) as [out db'] eqn:E.
    apply (queue_effect _ _ _ _ _ _ _ _ HD) in E as [[-> _]|(tasks & row & H')]; [done|].
    destruct H' as (_ & _ & _ & _ & _ & _ & _ & _ & _ & _ & r & Hrows & _). cbn [snd]. unfold log. rewrite Hrows, map_app.
    by apply prefix_app_r.
  - pose proof (outbox_exec_ok o db (durable_outbox _ HD)) as Ho. pose proof (outbox_exec_content o db (durable_outbox _ HD)) as Hcn.
    destruct (outbox_exec o db) as [out db']. cbn [snd] in *. unfold log.
    pose proof (same_content db db' (durable_outbox _ HD) Ho Hcn) as Hsame.
    replace (map content (rows db')) with (map content (rows db)); [done|].
    induction Hsame as [|r r' l l' Hr _ IH]; [done|]. cbn. by rewrite Hr, IH.
  - destruct (Hok db) as [_ Ho]. cbn [snd]. unfold log, rows. by rewrite Ho.
Qed.

Definition evolves (db db' : DB.t) : Prop := exists ops, Forall wop_ok ops /\ db' = (run wstep ops db).2.
Lemma evolves_grows db db' : Durable db -> evolves db db' -> Durable db' /\ log db `prefix_of` log db'.
Proof.
  intros HD (ops & Hops & ->). apply (run_invariant wstep wop_ok (fun d => Durable d /\ log db `prefix_of` log d)); [|done|by split].
  intros o d Ho [Hd Hp]. split; [by apply durable_step|]. etransitivity; [exact Hp|by apply step_grows].
Qed.

(** What the tenant's watch of a resolution is meant to show. *)
Definition shows (db : DB.t) (tenant id : string) (ws : list WatchEvent.t) : Prop :=
  exists row, DB.resolutions db !! id = Some row /\ ResolutionRow.tenant_id row = tenant /\ row_recorded db id row ws.

Lemma projects_prefix tenant id l1 l2 ws1 ws2 :
  map content l1 `prefix_of` map content l2 -> Forall2 (row_projects tenant id) l1 ws1 -> Forall2 (row_projects tenant id) l2 ws2 ->
  ws1 `prefix_of` ws2.
Proof.
  revert l2 ws1 ws2. induction l1 as [|r l1 IH]; intros l2 ws1 ws2 Hp H1 H2; [inversion H1; apply prefix_nil|].
  inversion H1 as [|? w1 ? ws1' Hw1 H1']; subst. destruct l2 as [|r2 l2]; [by apply prefix_nil_inv in Hp|].
  inversion H2 as [|? w2 ? ws2' Hw2 H2']; subst. cbn [map] in Hp.
  pose proof (prefix_cons_inv_1 _ _ _ _ Hp) as Hc. apply prefix_cons_inv_2 in Hp.
  assert (Hw : w1 = w2).
  { destruct Hw1 as (_ & _ & Hw1), Hw2 as (_ & _ & Hw2). unfold content, ResolutionPostgres.PostgresRepository.watch_event in *. injection Hc as _ _ _ _ _ Hty Hpay Hocc.
    rewrite Hty, Hpay, Hocc in Hw1. congruence. }
  subst w2. apply prefix_cons. by eapply IH.
Qed.
Lemma shows_grows db db' tenant id ws ws' : log db `prefix_of` log db' -> shows db tenant id ws -> shows db' tenant id ws' ->
  ws `prefix_of` ws'.
Proof.
  intros Hp (row & _ & <- & _ & _ & _ & _ & H1) (row' & _ & Ht & _ & _ & _ & _ & H2). rewrite Ht in H2.
  eapply projects_prefix; [|exact H1|exact H2].
  assert (Hf : forall l, map content (List.filter (row_of_id id) l) = List.filter (event_of_id id) (map content l)).
  { induction l as [|r l IH]; [done|]. cbn [List.filter map].
    replace (event_of_id id (content r)) with (row_of_id id r) by done. destruct (row_of_id id r); cbn; by rewrite IH. }
  unfold log in Hp. rewrite !Hf. destruct Hp as [more ->]. rewrite filter_app. by apply prefix_app_r.
Qed.

Notation ListEvents := ResolutionPostgres.PostgresRepository.ListEvents.

(** A poll that succeeds reads the history. *)
Lemma poll_reads db tenant id c events : Durable db -> 0 <= c ->
  ListEvents tenant id c resolutionWatchBatchSize db = Ok events ->
  exists ws, shows db tenant id ws /\ events = firstn 100 (skipn (Z.to_nat c) ws).
Proof.
  intros HD Hc Hl.
  assert (Hrow : exists row, DB.resolutions db !! id = Some row /\ ResolutionRow.tenant_id row = tenant).
  { revert Hl. unfold ListEvents. destruct (validateWatchRequest _ _ _ _); [done|].
    unfold ResolutionPostgres.PostgresRepository.Get, ResolutionPostgres.PostgresRepository.getResolutionTx.
    destruct (negb _); [done|]. destruct (DB.resolutions db !! id) as [row|]; [|done].
    destruct (ResolutionRow.tenant_id row ==? tenant) eqn:E; [|done]. intros _. exists row. split; [done|]. by apply bool_decide_eq_true in E. }
  destruct Hrow as (row & Hrow & Ht). destruct (durable_recorded _ HD _ _ Hrow) as [ws Hws]. exists ws. split; [by exists row|].
  rewrite <- Ht in Hl. rewrite (recorded_watch db id row ws c resolutionWatchBatchSize Hrow Hws Hc ltac:(done)) in Hl.
  by injection Hl as <-.
Qed.

(** The states that the polls find follow one another. *)
Fixpoint follow (db : DB.t) (signals : list (signal DB.t)) : Prop :=
  match signals with
  | [] => True
  | Tick db' :: rest => evolves db db' /\ follow db' rest
  | _ :: rest => follow db rest
  end.
Definition timeout_comment : string := ": timeout" +:+ newline +:+ newline.
(** The last thing on the stream, after whole events. *)
Definition closing (next : option WatchEvent.t) (tail : list string) : Prop := broken_off next tail \/ tail = [timeout_comment].

Lemma segment_join k1 k2 c (ws1 ws2 : list WatchEvent.t) :
  ws1 `prefix_of` ws2 -> 0 <= c -> (k1 <= List.length (skipn (Z.to_nat c) ws1))%nat ->
  firstn k1 (skipn (Z.to_nat c) ws1) ++ firstn k2 (skipn (Z.to_nat (c + Z.of_nat k1)) ws2) =
  firstn (k1 + k2) (skipn (Z.to_nat c) ws2).
Proof.
  intros [more ->] Hc Hk. replace (Z.to_nat (c + Z.of_nat k1)) with (Z.to_nat c + k1)%nat by lia.
  rewrite <- drop_drop, <- take_take_drop. f_equal. rewrite length_drop in Hk.
  destruct (decide (Z.to_nat c <= List.length ws1)%nat).
  - rewrite drop_app_le by done. rewrite take_app_le; [done|]. rewrite length_drop. lia.
  - replace k1 with 0%nat by lia. done.
Qed.

Lemma frames_app a b : frames (a ++ b) = frames a ++ frames b.
Proof. unfold frames. by rewrite map_app, concat_app. Qed.
Lemma evolves_trans a b c : evolves a b -> evolves b c -> evolves a c.
Proof.
  intros (ops1 & H1 & ->) (ops2 & H2 & ->). exists (ops1 ++ ops2). split; [by apply list.Forall_app|]. by rewrite run_app.
Qed.

(** One batch, written to the stream. *)
Lemma batch_written db tenant id ws c w : shows db tenant id ws -> 0 <= c ->
  let '(next, terminal, ok, w') := writeResolutionWatchEvents c (firstn 100 (skipn (Z.to_nat c) ws)) w in
  exists k tail, (k <= List.length (skipn (Z.to_nat c) ws))%nat /\ next = c + Z.of_nat k /\
    Writer.out w' = Writer.out w ++ frames (firstn k (skipn (Z.to_nat c) ws)) ++ tail /\
    broken_off (skipn (Z.to_nat c) ws !! k) tail /\
    (ok = true -> tail = [] /\ (terminal = false -> k = List.length (firstn 100 (skipn (Z.to_nat c) ws)))).
Proof.
  intros (row & _ & _ & _ & _ & _ & Hh & _) Hc. apply history_numbered in Hh as [_ Hn].
  pose proof (write_events_spec (firstn 100 (skipn (Z.to_nat c) ws)) c w (numbered_segment c 100 ws Hc Hn)) as Hw.
  destruct (writeResolutionWatchEvents _ _ _) as [[[next terminal] ok] w']. destruct Hw as (k & tail & Hk & Hnext & Hout & Hb & Hok).
  rewrite length_take in Hk. exists k, tail. split; [lia|]. split; [done|].
  rewrite take_take in Hout. replace (k `min` 100)%nat with k in Hout by lia. split; [done|]. split; [|done].
  destruct Hb as [->|(e & He & Ht)]; [by left|right]. apply lookup_take_Some in He as [He _]. by exists e.
Qed.

Lemma continue_spec tenant id signals : forall db ws c w, Durable db -> shows db tenant id ws -> follow db signals -> 0 <= c ->
  exists db' ws' k tail, evolves db db' /\ shows db' tenant id ws' /\ ws `prefix_of` ws' /\
    Writer.out (continueWatch ListEvents tenant id c signals w).2 =
      Writer.out w ++ frames (firstn k (skipn (Z.to_nat c) ws')) ++ tail /\
    closing (skipn (Z.to_nat c) ws' !! k) tail /\ (k <= List.length (skipn (Z.to_nat c) ws'))%nat.
Proof.
  assert (Hstay : forall db ws c w tail, shows db tenant id ws -> closing (skipn (Z.to_nat c) ws !! 0%nat) tail ->
    exists db' ws' k tail', evolves db db' /\ shows db' tenant id ws' /\ ws `prefix_of` ws' /\
      Writer.out w ++ tail = Writer.out w ++ frames (firstn k (skipn (Z.to_nat c) ws')) ++ tail' /\
      closing (skipn (Z.to_nat c) ws' !! k) tail' /\ (k <= List.length (skipn (Z.to_nat c) ws'))%nat).
  { intros db ws c w tail Hs Hc. exists db, ws, 0%nat, tail. split_and!; try done; [by exists []|lia]. }
  assert (Hnil : forall next, closing next []) by (intros next; by left; left).
  induction signals as [|sig signals IH]; intros db ws c w HD Hs Hf Hc; cbn [continueWatch].
  { destruct (Hstay db ws c w [] Hs (Hnil _)) as (? & ? & ? & ? & Hx). rewrite app_nil_r in Hx. eauto 10. }
  destruct sig as [| |st].
  - destruct (Hstay db ws c w [] Hs (Hnil _)) as (? & ? & ? & ? & Hx). rewrite app_nil_r in Hx. eauto 10.
  - destruct (Writer.write _ w) as [ok w'] eqn:W. apply write_out in W as [W _]. cbn [snd]. rewrite W.
    apply Hstay; [done|]. destruct ok; [by right|apply Hnil].
  - destruct Hf as [He Hf]. destruct (evolves_grows db st HD He) as [HDst Hlog].
    destruct (ListEvents tenant id c resolutionWatchBatchSize st) as [events|] eqn:Hl.
    2: { destruct (Hstay db ws c w [] Hs (Hnil _)) as (? & ? & ? & ? & Hx). rewrite app_nil_r in Hx. eauto 10. }
    destruct (poll_reads _ _ _ _ _ HDst Hc Hl) as (ws1 & Hs1 & ->).
    pose proof (shows_grows _ _ _ _ _ _ Hlog Hs Hs1) as Hp. pose proof (batch_written st tenant id ws1 c w Hs1 Hc) as Hb.
    destruct (writeResolutionWatchEvents c _ w) as [[[next terminal] ok] w']. destruct Hb as (k & tail & Hk & -> & Hout & Hcl & Hok).
    destruct (negb ok || terminal) eqn:Hend; cbn [snd].
    { exists st, ws1, k, tail. split_and!; try done. by left. }
    apply orb_false_iff in Hend as [Hok1 Hterm]. apply negb_false_iff in Hok1. destruct (Hok Hok1) as [-> _].
    destruct (IH st ws1 (c + Z.of_nat k) w' HDst Hs1 Hf ltac:(lia)) as (db' & ws' & k' & tail & He' & Hs' & Hp' & Hout' & Hcl' & Hk').
    exists db', ws', (k + k')%nat, tail. replace (Z.to_nat (c + Z.of_nat k)) with (Z.to_nat c + k)%nat in * by lia.
    rewrite Hout', Hout, app_nil_r, <- (segment_join k k' c ws1 ws' Hp' Hc Hk), frames_app, <- !app_assoc.
    replace (Z.to_nat (c + Z.of_nat k)) with (Z.to_nat c + k)%nat by lia. rewrite <- drop_drop in Hcl', Hk' |- *.
    rewrite lookup_drop in Hcl'. rewrite length_drop in Hk'.
    split; [by apply (evolves_trans _ st)|]. split; [done|]. split; [by etransitivity|]. split; [done|]. split; [done|].
    apply prefix_length in Hp'. rewrite !length_drop in *. lia.
Qed.

(** ** A lasting connection *)
Lemma history_terminal ws s v t : history ws s v t ->
  (exists e, list.last ws = Some e /\ WatchEvent.State e = s) /\
  (forall i e, ws !! i = Some e -> Terminal (WatchEvent.State e) = true -> S i = List.length ws).
Proof.
  assert (Hsnoc : forall ws s w, (exists e, list.last ws = Some e /\ WatchEvent.State e = s) ->
    (forall i e, ws !! i = Some e -> Terminal (WatchEvent.State e) = true -> S i = List.length ws) -> Terminal s = false ->
    forall i e, (ws ++ [w]) !! i = Some e -> Terminal (WatchEvent.State e) = true -> S i = List.length (ws ++ [w])).
  { intros l s' w (e0 & Hlast & He0) Hall Hs i e Hi Ht. rewrite length_app. cbn [List.length].
    apply lookup_app_Some in Hi as [Hi|[Hle Hi]]; [|apply list_lookup_singleton_Some in Hi as [Hi _]; lia].
    pose proof (Hall _ _ Hi Ht) as Hlen. exfalso. rewrite last_lookup in Hlast. replace (pred (List.length l)) with i in Hlast by lia.
    rewrite Hi in Hlast. injection Hlast as ->. congruence. }
  induction 1 as [t|ws s v t s' t' _ [IH1 IH2] Hs|ws v t at_ _ [IH1 IH2]].
  - split; [by eexists|]. intros i e [-> <-]%list_lookup_singleton_Some. done.
  - split; [eexists; by rewrite last_snoc|]. apply (Hsnoc _ _ _ IH1 IH2). by apply Terminal_rank in Hs.
  - split; [eexists; by rewrite last_snoc|]. by apply (Hsnoc _ _ _ IH1 IH2).
Qed.
Lemma write_events_lasting events : forall cursor w, numbered cursor events -> Writer.room w = None ->
  Forall (fun e => jtime_ok (WatchEvent.OccurredAt e) = true) events ->
  (forall i e, events !! i = Some e -> Terminal (WatchEvent.State e) = true -> S i = List.length events) ->
  Writer.out (writeResolutionWatchEvents cursor events w).2 = Writer.out w ++ frames events.
Proof.
  induction events as [|e events IH]; intros cursor w Hn Hw Ht Hterm; cbn [writeResolutionWatchEvents]; [by rewrite app_nil_r|].
  apply numbered_cons in Hn as [He Hn]. apply list.Forall_cons in Ht as [Hte Ht]. rewrite (proj2 (Z.leb_gt _ _)) by lia.
  unfold Writer.write. rewrite Hw, Hte. cbn [negb orb Writer.room Writer.out]. change (e :: events) with ([e] ++ events). rewrite frames_app.
  destruct (Terminal (WatchEvent.State e)) eqn:E; cbn [snd Writer.out].
  - specialize (Hterm 0%nat e eq_refl E). destruct events; [|done]. unfold frames. cbn. by rewrite <- !app_assoc.
  - rewrite He, IH; [cbn [Writer.out]; by rewrite <- !app_assoc|done|done|done|].
    intros i x Hi Hx. specialize (Hterm (S i) x Hi Hx). cbn [List.length] in Hterm. lia.
Qed.
Lemma write_appends s w : Writer.out w `prefix_of` Writer.out (Writer.write s w).2.
Proof. unfold Writer.write. destruct (Writer.room w) as [[|n]|]; cbn; [done|by apply prefix_app_r|by apply prefix_app_r]. Qed.
Lemma write_events_append events : forall cursor w, Writer.out w `prefix_of` Writer.out (writeResolutionWatchEvents cursor events w).2.
Proof.
  induction events as [|e events IH]; intros cursor w; cbn [writeResolutionWatchEvents]; [done|]. destruct (_ <=? _); [done|].
  pose proof (write_appends (event_head e) w) as H1. destruct (Writer.write (event_head e) w) as [ok1 w1].
  destruct (negb ok1 || _); [done|]. pose proof (write_appends (event_data e) w1) as H2.
  destruct (Writer.write (event_data e) w1) as [ok2 w2]. cbn [snd] in *. destruct (negb ok2); [by etransitivity|].
  pose proof (write_appends newline w2) as H3. destruct (Writer.write newline w2) as [ok3 w3]. cbn [snd] in *.
  assert (H4 : Writer.out w `prefix_of` Writer.out w3) by (by repeat (etransitivity; [done|])).
  destruct (negb ok3); [done|]. destruct (Terminal _); [done|]. etransitivity; [exact H4|apply IH].
Qed.
Lemma continue_appends tenant id signals : forall c w,
  Writer.out w `prefix_of` Writer.out (continueWatch ListEvents tenant id c signals w).2.
Proof.
  induction signals as [|[| |st] signals IH]; intros c w; cbn [continueWatch]; [done|done|apply write_appends|].
  destruct (ListEvents _ _ _ _ st) as [events|]; [|done]. pose proof (write_events_append events c w) as Hw.
  destruct (writeResolutionWatchEvents c events w) as [[[next terminal] ok] w']. cbn [snd] in Hw.
  destruct (_ || _); [done|]. etransitivity; [exact Hw|apply IH].
Qed.
(** Every event that is there at the first poll. *)
Lemma first_poll db tenant id ws c signals w : Durable db -> shows db tenant id ws -> 0 <= c -> Writer.room w = None ->
  Forall (fun e => jtime_ok (WatchEvent.OccurredAt e) = true) ws ->
  is_ok (ListEvents tenant id c resolutionWatchBatchSize db) = true ->
  Writer.out w ++ frames (skipn (Z.to_nat c) ws) `prefix_of`
  Writer.out (continueWatch ListEvents tenant id c (Tick db :: signals) w).2.
Proof.
  intros HD Hs Hc Hw Ht Hl. cbn [continueWatch]. destruct (ListEvents tenant id c resolutionWatchBatchSize db) as [events|] eqn:E; [|done].
  destruct (poll_reads _ _ _ _ _ HD Hc E) as (ws' & Hs' & ->).
  assert (ws' = ws) as ->.
  { pose proof (shows_grows db db tenant id ws ws' ltac:(done) Hs Hs') as P1.
    pose proof (shows_grows db db tenant id ws' ws ltac:(done) Hs' Hs) as P2. by apply (anti_symm prefix). }
  destruct Hs as (row & _ & _ & _ & _ & _ & Hh & _). destruct (history_bounds _ _ _ _ Hh) as (Hb1 & Hb2 & Hlen).
  destruct (history_numbered _ _ _ _ Hh) as [_ Hn]. destruct (history_terminal _ _ _ _ Hh) as [_ Hterm].
  assert (Hall : firstn 100 (skipn (Z.to_nat c) ws) = skipn (Z.to_nat c) ws) by (apply take_ge; rewrite length_drop; lia).
  pose proof (numbered_segment c 100 ws Hc Hn) as Hseg. rewrite Hall in Hseg |- *.
  pose proof (write_events_lasting (skipn (Z.to_nat c) ws) c w Hseg Hw (Forall_drop _ _ _ Ht)) as Hout.
  destruct (writeResolutionWatchEvents c _ w) as [[[next terminal] ok] w']. cbn [snd] in Hout. rewrite <- Hout.
  - destruct (_ || _); [done|]. apply continue_appends.
  - intros i e Hi He. rewrite lookup_drop in Hi. specialize (Hterm _ _ Hi He). rewrite length_drop.
    assert (Z.to_nat c + i < List.length ws)%nat by (by apply lookup_lt_Some in Hi). lia.
Qed.

Lemma watch_parameters request c d : parseResolutionWatchParameters request = Some (c, d) ->
  0 <= c /\ 0 < d <= maximumResolutionWatchDuration.
Proof.
  unfold parseResolutionWatchParameters. destruct (negb _); [done|]. destruct (Nat.ltb _ _); [done|]. destruct (_ && _); [done|].
  destruct (watch_cursor _) as [c'|] eqn:Ec; [|done]. destruct (watch_duration _) as [d'|] eqn:Ed; [|done]. intros [= <- <-]. split.
  - revert Ec. generalize (if header_Get request "Last-Event-ID" ==? "" then query_Get (Query request) "after"
      else header_Get request "Last-Event-ID"). intros raw. unfold watch_cursor. destruct (raw ==? ""); [intros [= <-]; done|]. destruct (ParseInt _ _) as [n|]; [|done].
    destruct (Z.ltb_spec n 0); [done|]. intros [= <-]. done.
  - clear Ec. revert Ed. unfold watch_duration. generalize (query_Get (Query request) "wait_seconds"). intros raw.
    destruct (raw ==? ""); [intros [= <-]; done|]. destruct (ParseInt _ _) as [n|]; [|done].
    destruct (_ || _) eqn:E; [done|]. intros [= <-]. apply orb_false_iff in E as [E1%Z.leb_gt E2%Z.ltb_ge]. unfold Second in *. lia.
Qed.

(** A watch streams the history.  What an agent with the watch scope
    receives about a resolution, while the database goes on changing, is the
    retry hint followed by whole events and at most a timeout comment or a
    fragment of the next event; the events are those of its own tenant's
    resolution that follow its cursor, in order, without gap or repetition, and
    numbered so that resuming from the last identifier continues exactly there.
    On a connection that lasts every event that was there at the request is
    among them.  The stream is bounded by thirty seconds. *)
Theorem watch_streams_history authenticate (ops : list wop) request flushes room signals header w
    (Hops : Forall wop_ok ops) (Hsignals : follow (run wstep ops DB.empty).2 signals)
    (Hwatch : watch authenticate ListEvents request (run wstep ops DB.empty).2 flushes room signals = Streamed header w) :
  let id := path_value request "resolution_id" in
  exists actor cursor duration, authenticated authenticate request = Some actor /\
    contains (AuthContext.AllowedScopes actor) resolutionWatchScope = true /\
    parseResolutionWatchParameters request = Some (cursor, duration) /\ 0 < duration <= maximumResolutionWatchDuration /\
    exists db ws k tail, evolves (run wstep ops DB.empty).2 db /\ shows db (AuthContext.TenantID actor) id ws /\
      (Writer.out w = [] \/ Writer.out w = retry_hint :: frames (firstn k (skipn (Z.to_nat cursor) ws)) ++ tail) /\
      closing (skipn (Z.to_nat cursor) ws !! k) tail /\ numbered cursor (firstn k (skipn (Z.to_nat cursor) ws)) /\
      (room = None -> forall ws0, shows (run wstep ops DB.empty).2 (AuthContext.TenantID actor) id ws0 ->
         Forall (fun e => jtime_ok (WatchEvent.OccurredAt e) = true) ws0 ->
         retry_hint :: frames (skipn (Z.to_nat cursor) ws0) `prefix_of` Writer.out w).
Proof.
  intros id. set (db := (run wstep ops DB.empty).2) in *. pose proof (durable_run ops Hops) as HD. fold db in HD.
  revert Hwatch. unfold watch. fold id. destruct (authenticated authenticate request) as [actor|]; [|done].
  destruct (contains _ _) eqn:Hscope; [|done]. destruct (validResolutionID _); [|done]. cbn [negb].
  destruct (parseResolutionWatchParameters request) as [[c d]|] eqn:Hp; [|done]. apply watch_parameters in Hp as [Hc Hd].
  destruct (ListEvents _ id c resolutionWatchBatchSize db) as [events|e] eqn:Hl; [|done]. destruct flushes; [|done]. cbn [negb].
  destruct (poll_reads _ _ _ _ _ HD Hc Hl) as (ws0 & Hs0 & _). intros Hwatch. exists actor, c, d. do 4 (split; [done|]).
  destruct (Writer.write retry_hint (Writer.mk [] room)) as [ok1 w1] eqn:W1. apply write_out in W1 as [W1 Hroom]. cbn [Writer.out Writer.room app] in W1, Hroom.
  assert (Hf : follow db (Tick db :: signals)) by (split; [by exists []|done]).
  destruct ok1; cbn [negb] in Hwatch.
  2: { injection Hwatch as _ <-. exists db, ws0, 0%nat, []. split; [by exists []|]. split; [done|]. split; [by left|].
       split; [by left; left|]. split; [done|]. intros Hr. by destruct (Hroom Hr). }
  assert (Hw : w = (continueWatch ListEvents (AuthContext.TenantID actor) id c (Tick db :: signals) w1).2).
  { cbn [continueWatch]. rewrite Hl. destruct (writeResolutionWatchEvents c events w1) as [[[next terminal] ok] w2].
    destruct (negb ok || terminal); by injection Hwatch. }
  destruct (continue_spec (AuthContext.TenantID actor) id (Tick db :: signals) db ws0 c w1 HD Hs0 Hf Hc) as
    (db' & ws & k & tail & He & Hs & _ & Hout & Hcl & _). rewrite <- Hw, W1 in Hout.
  exists db', ws, k, tail. split; [done|]. split; [done|]. split; [by right|]. split; [done|]. split.
  - destruct Hs as (row & _ & _ & _ & _ & _ & Hh & _). apply history_numbered in Hh as [_ Hn]. by apply numbered_segment.
  - intros Hr ws1 Hs1 Ht. pose proof (first_poll db _ id ws1 c signals w1 HD Hs1 Hc (proj2 (Hroom Hr)) Ht) as Hfirst.
    rewrite Hl, <- Hw, W1 in Hfirst. by apply Hfirst.
Qed.
End Watching.

(** ** Status *)

(** Another tenant's resolution is answered like one that does not exist. *)
Lemma status_hides_tenants authenticate request actor row db :
  authenticated authenticate request = Some actor ->
  DB.resolutions db !! path_value request "resolution_id" = Some row -> ResolutionRow.tenant_id row <> AuthContext.TenantID actor ->
  get authenticate ResolutionPostgres.PostgresRepository.Get request db =
  get authenticate ResolutionPostgres.PostgresRepository.Get request
    (db <| DB.resolutions := delete (path_value request "resolution_id") (DB.resolutions db) |>).
Proof.
  intros Ha Hr Ht. unfold get. rewrite Ha. destruct (negb _); [done|]. destruct (negb _); [done|].
  unfold ResolutionPostgres.PostgresRepository.Get, ResolutionPostgres.PostgresRepository.getResolutionTx.
  destruct (negb _); [done|]. cbn [set_field DB.resolutions]. rewrite lookup_delete_eq, Hr, bool_decide_eq_false_2 by done. done.
Qed.

(** ** Witnesses *)
Definition json (s : string) : string := of_bytes (map (fun b => if b =? 39 then 34 else b) (bytes s)).
#[local] Instance ascii_lower : LowerTable := {| lower_table r := r |}.
Definition demo_agent : AuthContext.t :=
  AuthContext.mk "spiffe://d/agent" "spiffe://d/agent" "tenant" ["agent"] [resolutionCreateScope; resolutionWatchScope] [] "mtls-spiffe" 1 "rev".
Definition demo_auth (_ : option ConnectionState.t) : result AuthContext.t := Ok demo_agent.
Definition demo_post (body : string) : Request.t :=
  Request.mk None ∅ {["Content-Type" := ["application/json; charset=utf-8"]; "Idempotency-Key" := ["key-1"]]} "" (json body).
Definition demo_post_1 : Request.t :=
  demo_post "{'schema_version':'v1','claims':['b.state','a.state'],'target_ids':['r2','r1'],'maximum_age_seconds':60}".
(** The same, spelled differently. *)
Definition demo_post_2 : Request.t :=
  demo_post " {'maximum_age_seconds':60, 'TARGET_IDS':['r1','r2'], 'claims':['x','b.state'], 'claims':['a.state',null],
    'schema_version':'v1'} ".
Definition demo_document : string := json "{'schema_version':'v1','claims':['a.state','b.state'],'target_ids':['r1','r2'],'maximum_age_seconds':60}".

Lemma demo_decodes : decodeCanonicalResolutionRequest demo_post_1 = Ok demo_document /\
  decodeCanonicalResolutionRequest demo_post_2 = Ok demo_document.
Proof. split; vm_compute; reflexivity. Qed.

Lemma create_document_canonical_witness :
  exists b1 b2, decode_create demo_post_1 = Some b1 /\ decode_create demo_post_2 = Some b2 /\
    Permutation (Slice.used (createResolutionBody.Claims b1)) (Slice.used (createResolutionBody.Claims b2)).
Proof.
  eexists _, _. split; [vm_compute; reflexivity|]. split; [vm_compute; reflexivity|].
  eapply (proj1 (proj2 (create_document_canonical demo_post_1 demo_post_2 _ _ _ _ (proj1 demo_decodes) (proj2 demo_decodes)
    ltac:(vm_compute; reflexivity) ltac:(vm_compute; reflexivity)))). reflexivity.
Defined.

Definition demo_creation : CreateRequest.t :=
  CreateRequest.mk "spiffe://d/agent" "tenant" "key-1" ("sha256:" +:+ sha256_hex demo_document) demo_document.
Definition demo_move_on (version : Z) (next : ResolutionState) : TransitionRequest.t := TransitionRequest.mk "tenant" "res-1" version next.
Definition demo_now (version : Z) (state : ResolutionState) : Resolution.t :=
  (created_by demo_creation "res-1" 10000) <| Resolution.State := state |> <| Resolution.Version := version |>.
Definition demo_ops : list wop :=
  [ WCreate demo_creation 10000 (Ok "res-1") (Ok "evt-1");
    WTransition DB.empty (demo_now 1 ResolutionReceived) (demo_move_on 1 ResolutionResolvingTargets) 20000 (Ok "evt-2") ].
Lemma demo_ops_ok : Forall wop_ok demo_ops.
Proof. repeat constructor; try done. intros t Ht. vm_compute in Ht. injection Ht as <-. by vm_compute. Qed.

Definition demo_stored : ResolutionRow.t :=
  ResolutionRow.mk "res-1" "spiffe://d/agent" "tenant" "key-1" ("sha256:" +:+ sha256_hex demo_document) (Some demo_document)
    ResolutionResolvingTargets 0 false 2 10000 20000.
Lemma demo_stored_found : DB.resolutions (run wstep demo_ops DB.empty).2 !! "res-1" = Some demo_stored /\
  DB.resolutions (run wstep demo_ops DB.empty).2 !! "res-2" = None.
Proof. split; vm_compute; reflexivity. Qed.
Lemma demo_sendable : validIdempotencyKey (header_Get demo_post_2 "Idempotency-Key") = true /\
  row_key demo_stored = (AuthContext.TenantID demo_agent, AuthContext.SubjectID demo_agent, header_Get demo_post_2 "Idempotency-Key") /\
  (len demo_document <=? maximumRequestDocumentSize) = true /\
  all_encodable ["res-2"; AuthContext.SubjectID demo_agent; header_Get demo_post_2 "Idempotency-Key"] = true.
Proof. split_and!; vm_compute; reflexivity. Qed.

Lemma create_repeats_witness :
  create demo_auth (fun r db => Resolution.Create (H := postgres_repository db) r 90000 (Ok "res-2") (Ok "evt-9") db) demo_post_2
    (run wstep demo_ops DB.empty).2 =
  (if "sha256:" +:+ sha256_hex demo_document ==? ResolutionRow.request_digest demo_stored then accepted (scanResolution demo_stored) false
   else idempotency_conflict, (run wstep demo_ops DB.empty).2).
Proof.
  destruct demo_stored_found as [Hrow Hfresh]. destruct demo_sendable as (Hkey & Hown & Hlen & Henc). apply Z.leb_le in Hlen.
  exact (create_repeats demo_auth demo_ops "res-1" demo_stored demo_post_2 demo_agent demo_document 90000 "res-2" "evt-9" demo_ops_ok
    Hrow eq_refl eq_refl Hkey Hown (proj2 demo_decodes) Hlen ltac:(discriminate) ltac:(split; discriminate) Hfresh Henc).
Defined.

Definition demo_watch : Request.t :=
  Request.mk None {["resolution_id" := "res-1"]} {["Last-Event-ID" := ["1"]]} "wait_seconds=5" "".
Definition demo_later : list wop :=
  [WTransition DB.empty (demo_now 2 ResolutionResolvingTargets) (demo_move_on 2 ResolutionPlanning) 30000 (Ok "evt-3")].
Definition demo_signals : list (signal DB.t) := [Tick (run wstep demo_later (run wstep demo_ops DB.empty).2).2; Expired].
Definition demo_written : Writer.t :=
  Writer.mk (retry_hint :: frames [WatchEvent.mk 2 "resolution.state_changed" ResolutionResolvingTargets 20000;
    WatchEvent.mk 3 "resolution.state_changed" ResolutionPlanning 30000] ++ [timeout_comment]) None.
Lemma demo_signals_follow : follow (run wstep demo_ops DB.empty).2 demo_signals.
Proof. split; [|done]. exists demo_later. split; [|reflexivity]. repeat constructor. done. Qed.
Lemma demo_watched : watch demo_auth ResolutionPostgres.PostgresRepository.ListEvents demo_watch (run wstep demo_ops DB.empty).2 true None
  demo_signals = Streamed stream_headers demo_written /\ parseResolutionWatchParameters demo_watch = Some (1, 5 * Second).
Proof. split; vm_compute; reflexivity. Qed.

Lemma watch_streams_history_witness :
  watch demo_auth ResolutionPostgres.PostgresRepository.ListEvents demo_watch (run wstep demo_ops DB.empty).2 true None demo_signals =
    Streamed stream_headers demo_written /\
  exists db ws k tail, shows db "tenant" "res-1" ws /\ Writer.out demo_written = retry_hint :: frames (firstn k (skipn 1 ws)) ++ tail /\
    closing (skipn 1 ws !! k) tail.
Proof.
  destruct demo_watched as [Hw Hp]. split; [exact Hw|].
  destruct (watch_streams_history demo_auth demo_ops demo_watch true None demo_signals stream_headers demo_written demo_ops_ok
    demo_signals_follow Hw) as (actor & cursor & duration & Ha & _ & Hc & _ & db & ws & k & tail & _ & Hs & Hout & Hcl & _).
  rewrite Hp in Hc. injection Hc as <- _. injection Ha as <-. exists db, ws, k, tail. split; [exact Hs|].
  split; [|exact Hcl]. destruct Hout as [Hout|Hout]; [discriminate Hout|exact Hout].
Defined.

(** ** Too long once rewritten

    Some characters are written as six, so a body within the limit can have a
    canonical document beyond it: the service refuses it, and the handler reports
    a failure of its own that is worth retrying. *)
Lemma long_document_retryable `{Repository St} authenticate request actor document now rid evt (st : St) :
  authenticated authenticate request = Some actor -> contains (AuthContext.AllowedScopes actor) resolutionCreateScope = true ->
  validIdempotencyKey (header_Get request "Idempotency-Key") = true -> decodeCanonicalResolutionRequest request = Ok document ->
  maximumRequestDocumentSize < len document ->
  create authenticate (fun r st => Resolution.Create r now rid evt st) request st =
  (writeResolutionCreateError StatusInternalServerError "RESOLUTION_CREATE_FAILED" "resolution creation failed" true, st).
Proof.
  intros Ha Hs Hk Hd Hlen. unfold create. rewrite Ha, Hs, Hk, Hd. cbn [negb].
  assert (Hv : forall r, CreateRequest.RequestDocument r = document -> exists m, validateCreateRequest r = Some (Text m)).
  { intros r Hr. unfold validateCreateRequest. rewrite Hr, (proj2 (Z.ltb_lt _ _) Hlen). cbn [orb].
    repeat match goal with |- context [if ?b then _ else _] => destruct b end; eauto. }
  unfold Resolution.Create. edestruct Hv as [m Hm]; [|rewrite Hm]; done.
Qed.
Example angle_brackets_grow : len (Marshal (jstr "<<<<")) = 26.
Proof. by vm_compute. Qed.
