(* ===== verification/OperatorApi.v ===== *)
(** * The operator and planning APIs ([cmd/controlplane/operator_handlers.go],
    [cmd/controlplane/planning_handlers.go])

    Operators list, read and replay dead letters over HTTP; a listing comes in
    pages joined by opaque cursors.  Planners submit the tasks of a resolution.
    The services behind are those of [DeadLetter] and [Planning]. *)
From Stdlib Require Import Sorting.Permutation Sorted.
From stdpp Require Import sorting.
From S2P Require Import Prelude GoStrings GoEncoding GoDecoding Json JsonStruct GoText Authctx Task Schema Outbox.
From S2P Require Import Resolution ResolutionPostgres Planning DeadLetter Artefacts Identity Http.
Local Open Scope Z_scope.

(** ** Cursors *)
Definition defaultDeadLetterLimit : Z := 50.
Definition maximumOperatorBodySize : Z := 4096.
Definition maximumOperatorRequests : nat := 8.

Definition encodeCursor (sequence : Z) : string := base64_raw_url (itoa sequence).
(** An empty cursor is the beginning; any other must be the encoding of a
    positive number, and not just decode to one. *)
Definition parse_cursor (raw : string) : option Z :=
  if raw ==? "" then Some 0
  else if 64 <? len raw then None
  else match base64url_decode raw with
  | None => None
  | Some decoded =>
    match ParseInt 64 decoded with
    | Some cursor => if (cursor <=? 0) || (encodeCursor cursor !=? raw) then None else Some cursor
    | None => None
    end
  end.
Definition parse_limit (raw : string) : option Z :=
  if raw ==? "" then Some defaultDeadLetterLimit
  else match ParseInt 64 raw with
  | Some parsed => if (parsed <=? 0) || (100 <? parsed) then None else Some parsed
  | None => None
  end.
Definition parsePagination (request : Request.t) : option (Z * Z) :=
  let query := Query request in
  if negb (sole_parameters ["cursor"; "limit"] query) then None
  else match parse_limit (query_Get query "limit"), parse_cursor (query_Get query "cursor") with
  | Some limit, Some cursor => Some (cursor, limit)
  | _, _ => None
  end.

(** ** The dead-letter handlers *)
Module operatorMetrics.
Record t := mk { replayApplied : Z; replayIdempotent : Z; denied : Z }.
#[global] Instance eta_t : Eta t := fun x => mk (replayApplied x) (replayIdempotent x) (denied x).
End operatorMetrics.
(** [atomic.Uint64.Add]. *)
Definition bump (n : Z) : Z := (n + 1) mod 2 ^ 64.
Definition one_denied (m : operatorMetrics.t) : operatorMetrics.t := m <| operatorMetrics.denied := bump (operatorMetrics.denied m) |>.

Definition entry_tree (e : Entry.t) : jtree :=
  TObj [key "sequence" (jint (Entry.Sequence e)); key "event_id" (jstr (Entry.EventID e));
    key "aggregate_type" (jstr (Entry.AggregateType e)); key "aggregate_id" (jstr (Entry.AggregateID e));
    key "event_type" (jstr (Entry.EventType e)); key "occurred_at" (jtime (Entry.OccurredAt e));
    key "attempts" (jint (Entry.Attempts e)); key "dead_lettered_at" (jtime (Entry.DeadLetteredAt e))].
Definition entry_times (e : Entry.t) : bool := jtime_ok (Entry.OccurredAt e) && jtime_ok (Entry.DeadLetteredAt e).
Definition replay_tree (r : ReplayResult.t) : jtree :=
  TObj [key "action_id" (jstr (ReplayResult.ActionID r)); key "event_id" (jstr (ReplayResult.EventID r));
    key "requested_at" (jtime (ReplayResult.RequestedAt r)); key "available_at" (jtime (ReplayResult.AvailableAt r));
    key "replayed" (TBool (ReplayResult.Replayed r))].
(** A value with a time that has no JSON form leaves the body empty. *)
Definition writeJSON (status : Z) (encodable : bool) (t : jtree) : Response.t :=
  Response.mk status {["Content-Type" := "application/json"]} (if encodable then encode_json t else "").
Definition writeServiceError (e : error) (m : operatorMetrics.t) : Response.t * operatorMetrics.t :=
  if errors_Is e DeadLetter.ErrDenied then (http_Error "forbidden" StatusForbidden ∅, one_denied m)
  else if errors_Is e DeadLetter.ErrNotFound then (http_Error "not found" StatusNotFound ∅, m)
  else if errors_Is e ErrReplayConflict then (http_Error "idempotency conflict" StatusConflict ∅, m)
  else if errors_Is e ErrInvalidInput then (http_Error "invalid request" StatusBadRequest ∅, m)
  else (http_Error "operation failed" StatusInternalServerError ∅, m).

Definition next_cursor (limit : Z) (entries : list Entry.t) : string :=
  if Z.of_nat (List.length entries) =? limit then
    match list.last entries with Some e => encodeCursor (Entry.Sequence e) | None => "" end
  else "".
Definition page (actor : AuthContext.t) (before limit : Z) (db : DB.t) : result (list Entry.t * string) :=
  match DeadLetter.List_ actor before limit db with
  | Ok entries => Ok (entries, next_cursor limit entries)
  | Err e => Err e
  end.
Definition page_tree (entries : list Entry.t) (next : string) : jtree :=
  TObj (key "entries" (TArr (map entry_tree entries)) :: omitempty (next ==? "") "next_cursor" (jstr next)).

(** [{"reason": ...}] *)
Definition decodeReplayBody (request : Request.t) : option string :=
  decode_body maximumOperatorBodySize
    (dec_members (fun s _ v => scalar dec_string (fun _ s => s) s v) ["reason"] "") (Request.Body request).

Section DeadLetterAPI.
Variable authenticator : option (option ConnectionState.t) -> result AuthContext.t.

Definition authenticate (request : Request.t) (m : operatorMetrics.t) : AuthContext.t + (Response.t * operatorMetrics.t) :=
  match authenticator (Some (Request.TLS request)) with
  | Ok actor => inl actor
  | Err _ => inr (http_Error "authentication required" StatusUnauthorized {["WWW-Authenticate" := "Mutual"]}, one_denied m)
  end.
Definition list_ (request : Request.t) (db : DB.t) (m : operatorMetrics.t) : Response.t * operatorMetrics.t :=
  match authenticate request m with
  | inr refused => refused
  | inl actor =>
    match parsePagination request with
    | None => (http_Error "invalid pagination" StatusBadRequest ∅, m)
    | Some (before, limit) =>
      match page actor before limit db with
      | Err e => writeServiceError e m
      | Ok (entries, nextCursor) => (writeJSON StatusOK (forallb entry_times entries) (page_tree entries nextCursor), m)
      end
    end
  end.
Definition get (request : Request.t) (db : DB.t) (m : operatorMetrics.t) : Response.t * operatorMetrics.t :=
  match authenticate request m with
  | inr refused => refused
  | inl actor =>
    match DeadLetter.Get actor (path_value request "event_id") db with
    | Err e => writeServiceError e m
    | Ok entry => (writeJSON StatusOK (entry_times entry) (entry_tree entry), m)
    end
  end.
Definition replay (newID : result string) (current_timestamp : Z) (request : Request.t) (db : DB.t) (m : operatorMetrics.t) :
    Response.t * operatorMetrics.t * DB.t :=
  match authenticate request m with
  | inr refused => (refused, db)
  | inl actor =>
    match decodeReplayBody request with
    | None => ((http_Error "invalid replay request" StatusBadRequest ∅, m), db)
    | Some reason =>
      match DeadLetter.Replay newID current_timestamp actor (path_value request "event_id")
              (header_Get request "Idempotency-Key") reason db with
      | (Err e, db) => (writeServiceError e m, db)
      | (Ok result, db) =>
        ((writeJSON StatusAccepted (jtime_ok (ReplayResult.RequestedAt result) && jtime_ok (ReplayResult.AvailableAt result))
            (replay_tree result),
          if ReplayResult.Replayed result then m <| operatorMetrics.replayApplied := bump (operatorMetrics.replayApplied m) |>
          else m <| operatorMetrics.replayIdempotent := bump (operatorMetrics.replayIdempotent m) |>), db)
      end
    end
  end.
End DeadLetterAPI.

(** ** Planning *)
Definition planningAPISchemaVersion : string := "v1".
Definition maximumPlanningBodySize : Z := 512 * 1024.
Definition maximumPlanningRequests : nat := 16.

Module plannedTaskBody.
Record t := mk {
  TaskID : string; ClaimFingerprint : string; TargetSnapshotID : string; TargetSnapshotHash : string; TargetID : string;
  TargetEndpoint : string; RecipeID : string; RecipeVersion : string; TriggerDecisionID : string; PlanningDecisionID : string;
  ApprovalGrantID : string; CompatibilityHash : string }.
#[global] Instance eta_t : Eta t := fun x =>
  mk (TaskID x) (ClaimFingerprint x) (TargetSnapshotID x) (TargetSnapshotHash x) (TargetID x) (TargetEndpoint x) (RecipeID x)
    (RecipeVersion x) (TriggerDecisionID x) (PlanningDecisionID x) (ApprovalGrantID x) (CompatibilityHash x).
Definition zero : t := mk "" "" "" "" "" "" "" "" "" "" "" "".
Definition setters : list (string * (t -> string -> t)) :=
  [ ("task_id", fun b s => b <| TaskID := s |>); ("claim_fingerprint", fun b s => b <| ClaimFingerprint := s |>);
    ("target_snapshot_id", fun b s => b <| TargetSnapshotID := s |>); ("target_snapshot_hash", fun b s => b <| TargetSnapshotHash := s |>);
    ("target_id", fun b s => b <| TargetID := s |>); ("target_endpoint", fun b s => b <| TargetEndpoint := s |>);
    ("recipe_id", fun b s => b <| RecipeID := s |>); ("recipe_version", fun b s => b <| RecipeVersion := s |>);
    ("trigger_decision_id", fun b s => b <| TriggerDecisionID := s |>);
    ("planning_decision_id", fun b s => b <| PlanningDecisionID := s |>);
    ("approval_grant_id", fun b s => b <| ApprovalGrantID := s |>); ("compatibility_hash", fun b s => b <| CompatibilityHash := s |>) ].
Definition field (b : t) (name : string) (v : jtree) : option t :=
  match find (fun ns => ns.1 ==? name) setters with Some ns => scalar dec_string ns.2 b v | None => None end.
Definition dec (b : t) (v : jtree) : option t := dec_members field (map fst setters) b v.
Definition task (b : t) : Task.t :=
  Task.mk (TaskID b) "" "" (ClaimFingerprint b) (TargetSnapshotID b) (TargetSnapshotHash b) (TargetID b) (TargetEndpoint b)
    (RecipeID b) (RecipeVersion b) (TriggerDecisionID b) (PlanningDecisionID b) "" "" (ApprovalGrantID b) (CompatibilityHash b)
    (TaskOther "") 0 "" 0 0 "" "" "".
End plannedTaskBody.
Module queuePlanBody.
Record t := mk { SchemaVersion : string; ExpectedResolutionVersion : Z; Tasks : Slice.t plannedTaskBody.t }.
#[global] Instance eta_t : Eta t := fun x => mk (SchemaVersion x) (ExpectedResolutionVersion x) (Tasks x).
Definition zero : t := mk "" 0 Slice.nil.
Definition names : list string := ["schema_version"; "expected_resolution_version"; "tasks"].
Definition field (b : t) (name : string) (v : jtree) : option t :=
  if name ==? "schema_version" then scalar dec_string (fun b s => b <| SchemaVersion := s |>) b v
  else if name ==? "expected_resolution_version" then scalar dec_int64 (fun b n => b <| ExpectedResolutionVersion := n |>) b v
  else option_map (fun s => b <| Tasks := s |>) (dec_slice_over plannedTaskBody.dec plannedTaskBody.zero (Tasks b) v).
End queuePlanBody.
Definition decodeQueuePlanBody (request : Request.t) : option queuePlanBody.t :=
  match decode_body maximumPlanningBodySize (dec_members queuePlanBody.field queuePlanBody.names queuePlanBody.zero)
          (Request.Body request) with
  | Some body => if queuePlanBody.SchemaVersion body ==? planningAPISchemaVersion then Some body else None
  | None => None
  end.
Definition writePlanningError (status : Z) (code : string) : Response.t :=
  Response.mk status {["Content-Type" := "application/json"]} (encode_json (TObj [key "code" (jstr code)])).
Definition queue_request (request : Request.t) (body : queuePlanBody.t) : QueueRequest.t :=
  QueueRequest.mk (path_value request "resolution_id") (queuePlanBody.ExpectedResolutionVersion body)
    (map plannedTaskBody.task (Slice.used (queuePlanBody.Tasks body))).
Definition queue_reply (r : QueueResult.t) : Response.t :=
  Response.mk StatusAccepted {["Content-Type" := "application/json"]} (encode_json (TObj
    [key "resolution_id" (jstr (QueueResult.ResolutionID r)); key "version" (jint (QueueResult.Version r));
     key "task_count" (jint (QueueResult.TaskCount r))])).
Definition queue_failure (e : error) : Response.t :=
  if errors_Is e Planning.ErrDenied then writePlanningError StatusForbidden "PLANNING_DENIED"
  else if errors_Is e ErrInvalidRequest then writePlanningError StatusBadRequest "INVALID_REQUEST"
  else if errors_Is e ErrFanoutConflict then writePlanningError StatusConflict "RESOLUTION_AUTHORITY_CHANGED"
  else writePlanningError StatusInternalServerError "PLANNING_FAILED".
Definition queue `{FanoutRepository St} (authenticate : option ConnectionState.t -> result AuthContext.t) (now : Z)
    (eventID : result string) (request : Request.t) (st : St) : Response.t * St :=
  match authenticate (Request.TLS request) with
  | Err _ => (mutual (writePlanningError StatusUnauthorized "AUTHENTICATION_REQUIRED"), st)
  | Ok actor =>
    match decodeQueuePlanBody request with
    | None => (writePlanningError StatusBadRequest "INVALID_REQUEST", st)
    | Some body =>
      match Queue actor (queue_request request body) now eventID st with
      | (Err e, st) => (queue_failure e, st)
      | (Ok result, st) => (queue_reply result, st)
      end
    end
  end.

(** ** Cursors read back *)
Definition url_byte (b : Z) : Z := if b =? 43 then 45 else if b =? 47 then 95 else b.
Lemma base64url_value_char v : 0 <= v < 64 -> base64url_value (url_byte (base64_char v)) = Some v.
Proof.
  intros Hv. unfold base64_char, url_byte. destruct (Z.ltb_spec v 26), (Z.ltb_spec v 52), (Z.ltb_spec v 62), (Z.eqb_spec v 62); try lia;
    repeat match goal with |- context [?a =? 43] => destruct (Z.eqb_spec a 43) end; try lia;
    repeat match goal with |- context [?a =? 47] => destruct (Z.eqb_spec a 47) end; try lia; unfold base64url_value, in_range;
    repeat match goal with |- context [?a <=? ?b] => destruct (Z.leb_spec a b) end; try lia; cbn [andb]; cbn; f_equal; lia.
Qed.
Definition url_text (bs : list Z) : list Z := map url_byte (filter (fun b => b <> 61) (base64_encode bs)).
Lemma url_text_reads bs : Forall is_byte bs ->
  exists vs, mapM base64url_value (url_text bs) = Some vs /\ base64url_digits vs = Some bs /\
    (List.length vs <= 2 * List.length bs)%nat.
Proof.
  assert (Hkeep : forall v l vs, 0 <= v < 64 -> mapM base64url_value (map url_byte (filter (fun b => b <> 61) l)) = Some vs ->
    mapM base64url_value (map url_byte (filter (fun b => b <> 61) (base64_char v :: l))) = Some (v :: vs)).
  { intros v l vs Hv Hl. rewrite filter_cons_True by (by apply base64_char_plain). apply mapM_Some.
    constructor; [by apply base64url_value_char|by apply mapM_Some]. }
  unfold is_byte, url_text. induction bs as [|a|a b|a b c rest IH] using base64_encode_ind; intros Hb; [by exists []|..];
    repeat (apply list.Forall_cons in Hb as [? Hb]); cbn [base64_encode].
  - exists [a / 4; a mod 4 * 16]. split; [|split; [|cbn; lia]; cbn; repeat f_equal; Z.to_euclidean_division_equations; lia].
    do 2 (apply Hkeep; [Z.to_euclidean_division_equations; lia|]). done.
  - exists [a / 4; a mod 4 * 16 + b / 16; b mod 16 * 4]. split; [|split; [|cbn; lia]; cbn; repeat f_equal; Z.to_euclidean_division_equations; lia].
    do 3 (apply Hkeep; [Z.to_euclidean_division_equations; lia|]). done.
  - destruct (IH Hb) as (vs & Hvs & Hds & Hlen). exists (a / 4 :: a mod 4 * 16 + b / 16 :: b mod 16 * 4 + c / 64 :: c mod 64 :: vs). split.
    + do 4 (apply Hkeep; [Z.to_euclidean_division_equations; lia|]). done.
    + split; [|cbn [List.length]; lia]. cbn [base64url_digits]. rewrite Hds. cbn [option_map]. repeat f_equal; Z.to_euclidean_division_equations; lia.
Qed.
Lemma url_byte_range v : 0 <= v < 64 -> is_byte (url_byte (base64_char v)) /\ url_byte (base64_char v) <> 13 /\ url_byte (base64_char v) <> 10.
Proof. intros Hv. unfold url_byte, base64_char, is_byte. repeat case_match; reflect_bools; lia. Qed.
Lemma url_text_plain bs : Forall is_byte bs -> Forall (fun b => is_byte b /\ b <> 13 /\ b <> 10) (url_text bs).
Proof.
  assert (Hkeep : forall v l, 0 <= v < 64 -> Forall (fun b => is_byte b /\ b <> 13 /\ b <> 10) (map url_byte (filter (fun b => b <> 61) l)) ->
    Forall (fun b => is_byte b /\ b <> 13 /\ b <> 10) (map url_byte (filter (fun b => b <> 61) (base64_char v :: l)))).
  { intros v l Hv Hl. rewrite filter_cons_True by (by apply base64_char_plain). constructor; [by apply url_byte_range|done]. }
  unfold url_text. unfold is_byte at 1. induction bs as [|a|a b|a b c rest IH] using base64_encode_ind; intros Hb; [constructor|..];
    repeat (apply list.Forall_cons in Hb as [? Hb]); cbn [base64_encode];
    repeat (apply Hkeep; [Z.to_euclidean_division_equations; lia|]); [constructor|constructor|by apply IH].
Qed.
Lemma base64_raw_url_text s : base64_raw_url s = of_bytes (url_text (bytes s)).
Proof. reflexivity. Qed.
Lemma base64url_roundtrip s : base64url_decode (base64_raw_url s) = Some s.
Proof.
  pose proof (bytes_range s) as Hs. pose proof (url_text_plain _ Hs) as Hp. destruct (url_text_reads _ Hs) as (vs & Hvs & Hds & _).
  unfold base64url_decode. rewrite base64_raw_url_text.
  rewrite bytes_of_bytes by (eapply List.Forall_impl; [|exact Hp]; by intros b [? _]).
  replace (List.filter _ (url_text (bytes s))) with (url_text (bytes s)).
  - rewrite Hvs, Hds. cbn. by rewrite of_bytes_bytes.
  - clear -Hp. revert Hp. generalize (url_text (bytes s)). induction 1 as [|b l (_ & H13 & H10) _ IH]; [done|]. cbn [List.filter].
    rewrite (proj2 (Z.eqb_neq b 13) H13), (proj2 (Z.eqb_neq b 10) H10). cbn [negb andb]. by rewrite <- IH.
Qed.

Lemma ParseInt_itoa n : 0 <= n <= max_int64 -> ParseInt 64 (itoa n) = Some n.
Proof.
  unfold max_int64. intros Hn. destruct (itoa_fuel_shape 19 n "") as (d & ds & E & Hd & _); [lia|]. rewrite app_nil_r in E.
  pose proof (itoa_fuel_value 19 n "" ltac:(lia)) as Hv. unfold ParseInt, itoa. rewrite (proj2 (Z.ltb_ge n 0)) by lia.
  rewrite E in Hv |- *. change (atoi_digits (bytes "") n) with n in Hv.
  assert (Hdig : 48 <= d <= 57) by (cbn [forallb] in Hd; apply andb_true_iff in Hd as [Hd _]; unfold is_digit in Hd; by apply in_range_spec in Hd).
  assert (Hp : parse_digits (d :: ds) = Some n) by (unfold parse_digits; rewrite Hd, bool_decide_eq_false_2 by done; cbn [negb andb]; by rewrite Hv).
  assert (Hlt : (n <? 2 ^ (64 - 1)) = true) by (apply Z.ltb_lt; lia).
  rewrite (proj2 (Z.eqb_neq d 43)), (proj2 (Z.eqb_neq d 45)) by lia. by rewrite Hp, Hlt.
Qed.
Lemma itoa_fuel_length f : forall n s, len (itoa_fuel f n s) <= Z.of_nat f + len s.
Proof.
  assert (Hc : forall c s, len (String c s) = 1 + len s) by (intros c s; unfold len; cbn [String.length]; lia).
  induction f as [|f IH]; intros n s; cbn [itoa_fuel]; [lia|]. case_match; rewrite ?Hc; [lia|].
  specialize (IH (n / 10) (String (digit (n mod 10)) s)). rewrite Hc in IH. lia.
Qed.
Lemma parse_cursor_encode n : 0 < n <= max_int64 -> parse_cursor (encodeCursor n) = Some n.
Proof.
  intros Hn. unfold parse_cursor. pose proof (base64url_roundtrip (itoa n)) as Hr. fold (encodeCursor n) in Hr.
  pose proof (ParseInt_itoa n ltac:(lia)) as Hp.
  assert (Hne : encodeCursor n <> "").
  { intros E. rewrite E in Hr. injection Hr as Hr. rewrite <- Hr in Hp. discriminate Hp. }
  rewrite (bool_decide_eq_false_2 _ Hne), Hr, Hp. rewrite (proj2 (Z.leb_gt n 0)) by lia. rewrite (bool_decide_eq_true_2 (_ = _)) by done.
  replace (64 <? len (encodeCursor n)) with false; [done|]. symmetry. apply Z.ltb_ge. rewrite (base64_raw_url_text (itoa n) : encodeCursor n = _).
  destruct (url_text_reads (bytes (itoa n)) (bytes_range _)) as (vs & Hvs & _ & Hlen). apply mapM_Some, Forall2_length in Hvs.
  assert (Hl : forall x, String.length x = List.length (bytes x)).
  { intros x. unfold bytes. by rewrite length_map, length_list_ascii. }
  assert (H20 : len (itoa n) <= 20) by (unfold itoa; rewrite (proj2 (Z.ltb_ge n 0)) by lia; apply (itoa_fuel_length 20 n "")).
  unfold len in *. rewrite Hl in H20 |- *. rewrite bytes_of_bytes; [lia|].
  eapply List.Forall_impl; [|apply url_text_plain, bytes_range]. by intros b [? _].
Qed.

(** ** Paging *)

(** The dead letters of a tenant, newest first. *)
Definition dead_letters (tenant : string) (db : DB.t) : list Entry.t :=
  map scanEntry (rev (List.filter (dead_for tenant) (rows db))).
(** A client that follows the cursors, for at most [fuel] pages. *)
Fixpoint walk (fuel : nat) (actor : AuthContext.t) (limit : Z) (cursor : string) (db : DB.t) : option (list Entry.t) :=
  match fuel, parse_cursor cursor with
  | S fuel, Some before =>
    match page actor before limit db with
    | Ok (entries, next) => if next ==? "" then Some entries else option_map (app entries) (walk fuel actor limit next db)
    | Err _ => None
    end
  | _, _ => None
  end.

Definition below (before : Z) (e : Entry.t) : bool := (before =? 0) || (Entry.Sequence e <? before).
Lemma List_pages actor before limit db : authorize actor ReadScope = None -> encodable (AuthContext.TenantID actor) = true ->
  0 <= before -> 1 <= limit <= 100 ->
  DeadLetter.List_ actor before limit db =
  Ok (firstn (Z.to_nat limit) (List.filter (below before) (dead_letters (AuthContext.TenantID actor) db))).
Proof.
  intros Ha He Hb Hl. unfold DeadLetter.List_. rewrite Ha. rewrite (proj2 (Z.ltb_ge before 0)), (proj2 (Z.leb_gt limit 0)),
    (proj2 (Z.ltb_ge 100 limit)) by lia. cbn [orb]. unfold repo_List, dead_letters.
  assert (Ht : (AuthContext.TenantID actor ==? "") = false).
  { apply bool_decide_eq_false. intros E. unfold authorize, AuthContext.Validate in Ha. rewrite E in Ha.
    destruct (AuthContext.SubjectID actor ==? ""); discriminate Ha. }
  rewrite Ht, He. rewrite (proj2 (Z.ltb_ge before 0)), (proj2 (Z.leb_gt limit 0)), (proj2 (Z.ltb_ge 100 limit)) by lia. cbn [orb negb].
  f_equal. rewrite <- firstn_map. f_equal. generalize (rows db). intros l.
  assert (Hf : List.filter (fun r => dead_for (AuthContext.TenantID actor) r && ((before =? 0) || (OutboxRow.sequence r <? before))) l =
    List.filter (fun r => below before (scanEntry r)) (List.filter (dead_for (AuthContext.TenantID actor)) l)).
  { induction l as [|r l IH]; [done|]. cbn [List.filter]. destruct (dead_for _ r); cbn [andb List.filter]; [|done].
    change (below before (scanEntry r)) with ((before =? 0) || (OutboxRow.sequence r <? before)). destruct (_ || _); by rewrite IH. }
  rewrite Hf. generalize (List.filter (dead_for (AuthContext.TenantID actor)) l). clear. intros l.
  rewrite <- filter_rev. generalize (rev l). clear. induction l as [|r l IH]; [done|]. cbn [List.filter map].
  destruct (below before (scanEntry r)); cbn [map]; by rewrite IH.
Qed.

(** Where a page ends the next one begins. *)
Lemma below_last p e q : StronglySorted (fun a b => Entry.Sequence b < Entry.Sequence a) (p ++ e :: q) -> 0 < Entry.Sequence e ->
  List.filter (below (Entry.Sequence e)) (p ++ e :: q) = q.
Proof.
  intros Hs He. rewrite filter_app. apply StronglySorted_app in Hs as (Hpq & _ & Hq). inversion Hq as [|? ? _ Hall]; subst.
  assert (Hp : List.filter (below (Entry.Sequence e)) p = []).
  { assert (Hpe : forall x, x ∈ p -> Entry.Sequence e < Entry.Sequence x) by (intros x Hx; apply (Hpq x e Hx); by left).
    clear -Hpe He. induction p as [|x p IH]; [done|]. cbn [List.filter]. unfold below at 1.
    rewrite (proj2 (Z.eqb_neq _ 0)) by lia. rewrite (proj2 (Z.ltb_ge _ _)) by (specialize (Hpe x ltac:(left)); lia).
    cbn [orb]. apply IH. intros y Hy. apply Hpe. by right. }
  rewrite Hp. cbn [app List.filter]. unfold below at 1. rewrite (proj2 (Z.eqb_neq _ 0)), Z.ltb_irrefl by lia. cbn [orb].
  clear -Hall He. induction Hall as [|x q Hx _ IH]; [done|]. cbn [List.filter]. unfold below at 1. rewrite (proj2 (Z.ltb_lt _ _) Hx), orb_true_r.
  by rewrite IH.
Qed.
Lemma walk_from actor limit db : authorize actor ReadScope = None -> encodable (AuthContext.TenantID actor) = true -> 1 <= limit <= 100 ->
  let all := dead_letters (AuthContext.TenantID actor) db in
  StronglySorted (fun a b => Entry.Sequence b < Entry.Sequence a) all -> Forall (fun e => 0 < Entry.Sequence e <= max_int64) all ->
  forall fuel before cursor, parse_cursor cursor = Some before -> 0 <= before ->
    (List.length (List.filter (below before) all) < fuel)%nat ->
    (exists done, all = done ++ List.filter (below before) all) ->
    walk fuel actor limit cursor db = Some (List.filter (below before) all).
Proof.
  intros Ha He Hl all Hs Hr. induction fuel as [|fuel IH]; intros before cursor Hc Hb Hfuel [done Hdone]; [lia|]. cbn [walk].
  unfold page. rewrite Hc, (List_pages actor before limit db Ha He Hb Hl). fold all. set (rest := List.filter (below before) all) in *.
  unfold next_cursor. rewrite length_firstn. destruct (Z.eqb_spec (Z.of_nat (Nat.min (Z.to_nat limit) (List.length rest))) limit) as [Hfull|Hpart].
  2: { rewrite bool_decide_eq_true_2 by reflexivity. f_equal. apply firstn_all2. lia. }
  assert (Hlast : exists p e, firstn (Z.to_nat limit) rest = p ++ [e]).
  { destruct (firstn (Z.to_nat limit) rest) as [|x l] eqn:E using rev_ind; [|by exists l, x].
    apply (f_equal (@List.length _)) in E. rewrite length_firstn in E. cbn in E. lia. }
  destruct Hlast as (p & e & Hpage). rewrite Hpage, last_snoc.
  assert (Hall : all = (done ++ p) ++ e :: skipn (Z.to_nat limit) rest).
  { rewrite Hdone at 1. rewrite <- (firstn_skipn (Z.to_nat limit) rest) at 1. by rewrite Hpage, <- !app_assoc. }
  assert (Hpos : 0 < Entry.Sequence e <= max_int64).
  { apply (proj1 (list.Forall_forall _ _) Hr). rewrite Hall. apply elem_of_app. right. by left. }
  assert (Hnext : List.filter (below (Entry.Sequence e)) all = skipn (Z.to_nat limit) rest).
  { rewrite Hall at 1. apply below_last; [by rewrite <- Hall|lia]. }
  pose proof (parse_cursor_encode _ Hpos) as Hparse.
  rewrite bool_decide_eq_false_2. 2: { intros E. rewrite E in Hparse. injection Hparse as Hz. lia. }
  rewrite (IH _ _ Hparse); [|lia| |].
  - rewrite Hnext. cbn [option_map]. by rewrite <- Hpage, firstn_skipn.
  - rewrite Hnext, length_skipn. lia.
  - exists (done ++ p ++ [e]). rewrite Hnext. rewrite Hall at 1. by rewrite <- !app_assoc.
Qed.

Lemma dead_for_spec tenant r : dead_for tenant r = true <->
  OutboxRow.tenant_id r = tenant /\ OutboxRow.published_at r = None /\ OutboxRow.dead_lettered_at r <> None.
Proof.
  unfold dead_for. rewrite !andb_true_iff, negb_true_iff, bool_decide_eq_true.
  destruct (OutboxRow.published_at r), (OutboxRow.dead_lettered_at r); naive_solver.
Qed.

(** Paging through the dead letters misses none and repeats none.  A client
    that starts without a cursor and follows the cursor of every page, whatever
    the page size, gets after finitely many pages all dead-lettered events of its
    tenant, newest first and each once. *)
Theorem pages_complete actor limit db
    (Hok : outbox_ok db) (Hauth : authorize actor ReadScope = None) (Henc : encodable (AuthContext.TenantID actor) = true)
    (Hlimit : 1 <= limit <= 100) (Hseq : forall k r, DB.outbox db !! k = Some r -> 0 < k <= max_int64) :
  exists fuel entries, walk fuel actor limit "" db = Some entries /\
    StronglySorted (fun a b => Entry.Sequence b < Entry.Sequence a) entries /\
    forall e, e ∈ entries <-> exists r, DB.outbox db !! Entry.Sequence e = Some r /\ e = scanEntry r /\
      OutboxRow.tenant_id r = AuthContext.TenantID actor /\ OutboxRow.published_at r = None /\ OutboxRow.dead_lettered_at r <> None.
Proof.
  set (all := dead_letters (AuthContext.TenantID actor) db).
  assert (Hin : forall e, e ∈ all <-> exists r, DB.outbox db !! Entry.Sequence e = Some r /\ e = scanEntry r /\
    dead_for (AuthContext.TenantID actor) r = true).
  { intros e. unfold all, dead_letters. rewrite list_elem_of_fmap. split.
    - intros (r & -> & Hr). apply list_elem_of_In, in_rev, filter_In in Hr as [Hr Hd]. exists r. split; [|done].
      apply list_elem_of_In, (rows_elem _ _ Hok) in Hr. done.
    - intros (r & Hr & -> & Hd). exists r. split; [done|]. apply list_elem_of_In. apply -> in_rev. apply filter_In. split; [|done].
      by apply list_elem_of_In, (rows_elem _ _ Hok). }
  assert (Hsorted : StronglySorted (fun a b => Entry.Sequence b < Entry.Sequence a) all).
  { unfold all, dead_letters. pose proof (StronglySorted_rev _ _ (StronglySorted_filter _ (dead_for (AuthContext.TenantID actor)) _
      (rows_sorted db Hok))) as Hs. induction Hs as [|r l _ IH Hr]; cbn [map]; [constructor|]. constructor; [done|]. by apply Forall_map. }
  assert (Hrange : Forall (fun e => 0 < Entry.Sequence e <= max_int64) all).
  { apply list.Forall_forall. intros e (r & Hr & _)%Hin. by apply Hseq in Hr. }
  assert (Hbegin : List.filter (below 0) all = all) by (clear; induction all as [|e l IH]; [done|]; cbn; by rewrite IH).
  exists (S (List.length all)), all. split; [|split; [done|]].
  - rewrite (walk_from actor limit db Hauth Henc Hlimit Hsorted Hrange (S (List.length all)) 0 "" eq_refl ltac:(lia));
      fold all; rewrite Hbegin; [done|lia|by exists []].
  - intros e. rewrite Hin. setoid_rewrite dead_for_spec. done.
Qed.

(** A certificate of an operator is enough for every operation on its tenant's
    dead letters. *)
Lemma operator_authorized trustDomain now request actor : operator_Authenticate trustDomain now request = Ok actor ->
  authorize actor ReadScope = None /\ authorize actor ReplayScope = None.
Proof.
  unfold operator_Authenticate. destruct request as [state|]; [|done]. unfold Authenticate.
  destruct state as [conn|]; [|done]. cbn [Authenticator.Now Authenticator.TrustDomain Authenticator.Roles].
  destruct now as [now|]; [|done]. destruct (ConnectionState.PeerCertificates conn) as [|leaf rest]; [done|].
  match goal with |- context [if ?b then Err _ else _] => destruct b; [done|] end. destruct (negb _); [done|].
  destruct (parseIdentity _ _) as [[[identity tenant] role]|]; [|done].
  destruct ({[OperatorRole := _]} !! role) as [binding|] eqn:Hrole; [|done].
  apply lookup_singleton_Some in Hrole as [<- <-]. cbn [RoleBinding.CredentialClass RoleBinding.Scopes RoleBinding.DataClearances].
  rewrite (bool_decide_eq_false_2 (_ = "")) by done. destruct (AuthContext.Validate _) eqn:Hv; [done|]. intros [= <-].
  unfold authorize. rewrite Hv. cbn [AuthContext.SPIFFEID AuthContext.IdentityRevision AuthContext.Roles AuthContext.AllowedScopes].
  assert (Hrev : (sha256_hex (Certificate.Raw leaf) ==? "") = false).
  { apply bool_decide_eq_false. intros E. pose proof (sha256_hex_len (Certificate.Raw leaf)) as Hl. rewrite E in Hl. done. }
  assert (Hurl : (url_String identity ==? "") = false).
  { cbn [AuthContext.Validate] in Hv. unfold AuthContext.Validate in Hv. cbn [AuthContext.SubjectID] in Hv.
    by destruct (url_String identity ==? ""). }
  rewrite Hrev, Hurl. split; reflexivity.
Qed.

(** ** Planning over HTTP *)
Section Planning.
Context `{JL : JsonbLaws}.
(** A plan sent over HTTP is accepted as a whole or changes nothing: the answer
    is 202 exactly when all its tasks are stored, bound to the planner's tenant
    and to the resolution of the path, with the resolution queued. *)
Lemma plan_over_http ops ts authenticate now evt request : Forall wop_ok ops ->
  let db := (run wstep ops DB.empty).2 in let id := path_value request "resolution_id" in
  let '(response, db') := queue (H := postgres_fanout ts) authenticate now evt request db in
  (db' = db /\ Response.Status response <> StatusAccepted) \/
  exists actor body tasks row, authenticate (Request.TLS request) = Ok actor /\ decodeQueuePlanBody request = Some body /\
    response = queue_reply (QueueResult.mk id (ResolutionRow.version row + 1) (task_count tasks)) /\
    contains (AuthContext.AllowedScopes actor) queueScope = true /\
    Forall2 (bound (AuthContext.TenantID actor) id) (map plannedTaskBody.task (Slice.used (queuePlanBody.Tasks body))) tasks /\
    DB.resolutions db !! id = Some row /\ ResolutionRow.tenant_id row = AuthContext.TenantID actor /\
    ResolutionRow.state row = ResolutionPlanning /\ ResolutionRow.version row = queuePlanBody.ExpectedResolutionVersion body /\
    DB.resolutions db' = <[id := queue_row (task_count tasks) (normaliseTime now) row]> (DB.resolutions db) /\
    tasks_added ts tasks (DB.tasks db) (DB.tasks db').
Proof.
  intros Hops db id. pose proof (durable_run ops Hops) as HD. fold db in HD. unfold queue.
  destruct (authenticate (Request.TLS request)) as [actor|]; [|by left].
  destruct (decodeQueuePlanBody request) as [body|]; [|by left].
  destruct (Queue actor (queue_request request body) now evt db) as [out db'] eqn:E.
  apply (queue_effect _ _ _ _ _ _ _ _ HD) in E as [[-> [e ->]]|(tasks & row & -> & Hs & _ & Hb & Hr & Ht & Hst & Hv & Hres & Hadded & _)].
  - left. split; [done|]. unfold queue_failure. by repeat case_match.
  - right. exists actor, body, tasks, row. by split_and!.
Qed.
End Planning.

(** ** Witnesses *)
Definition operator_identity : URL.t :=
  URL.mk "spiffe" "" None "broker.example" "/tenant/tenant/role/outbox-operator/workload/console" "" false "" "".
Definition operator_connection : ConnectionState.t :=
  let leaf := Certificate.mk "operator-der" [operator_identity] in ConnectionState.mk [leaf] [[leaf]].

(** Both events of the outbox are dead. *)
Definition paging_db : DB.t :=
  (run outbox_exec [demo_claim "w1" 6000; ODead 1 "w1" 7000 "broken"; ODead 2 "w1" 7000 "broken"] outbox_demo_db).2.
Lemma paging_db_ok : outbox_ok paging_db.
Proof.
  apply (run_invariant outbox_exec (fun _ => True) outbox_ok); [|by apply Forall_true|apply outbox_demo_ok].
  intros op db _. apply outbox_exec_ok.
Qed.
Lemma paging_range k r : DB.outbox paging_db !! k = Some r -> 0 < k <= max_int64.
Proof.
  assert (H : map_Forall (fun k _ => 0 < k <= max_int64) (DB.outbox paging_db)) by (apply (bool_decide_eq_true_1 _); vm_compute; reflexivity).
  apply H.
Qed.
Example paging_example : map Entry.Sequence <$> walk 3 demo_operator 1 "" paging_db = Some [2; 1].
Proof. by vm_compute. Qed.

Lemma pages_complete_witness :
  exists fuel entries, walk fuel demo_operator 1 "" paging_db = Some entries /\
    StronglySorted (fun a b => Entry.Sequence b < Entry.Sequence a) entries.
Proof.
  destruct (pages_complete demo_operator 1 paging_db paging_db_ok) as (fuel & entries & Hw & Hs & _);
    [vm_compute; reflexivity|vm_compute; reflexivity|lia|exact paging_range|by exists fuel, entries].
Defined.

Example operator_example : exists actor, operator_Authenticate "broker.example" (Some 1) (Some (Some operator_connection)) = Ok actor /\
  (list_ (operator_Authenticate "broker.example" (Some 1))
     (Request.mk (Some operator_connection) ∅ ∅ "limit=1" "") paging_db (operatorMetrics.mk 0 0 0)).1 =
  writeJSON StatusOK true (page_tree (firstn 1 (dead_letters "tenant" paging_db)) (encodeCursor 2)).
Proof. eexists. split; [vm_compute; reflexivity|]. vm_compute. reflexivity. Qed.
