(* ===== verification/Migrations.v ===== *)
(** * Schema migrations ([migrations/migrate.go])

    The embedded SQL files are applied in the order of their names, each in one
    transaction together with its line in the ledger; a file that is already in
    the ledger must have the recorded checksum.  What a file does to the schema
    is an argument, as is the connection: it can be lost at any call, and a
    commit whose answer is lost may or may not have happened. *)
From S2P Require Import Prelude GoStrings GoEncoding Http.
Local Open Scope Z_scope.

(** The files under [migrations/], as embedded. *)
Definition migrationFiles : list string :=
  [ "000001_resolution_workflow.up.sql"; "000002_outbox_delivery.up.sql"; "000003_dead_letter_operations.up.sql";
    "000004_artefact_metadata.up.sql"; "000005_artefact_lifecycle.up.sql"; "000006_policy_approval.up.sql";
    "000007_collector_tasks.up.sql"; "000008_evidence_envelopes.up.sql"; "000009_disclosure_records.up.sql";
    "000010_execution_grant_consumptions.up.sql"; "000011_evidence_acceptance_reconciliation.up.sql";
    "000012_resolution_request_provenance.up.sql" ].

(** [strings.Cut(name, "_")]: the prefix must be there. *)
Definition migrationVersion (name : string) : result Z :=
  let prefix := of_bytes (cut_byte 95 (bytes name)).1 in
  if negb (existsb (Z.eqb 95) (bytes name)) || (prefix ==? "") then
    Err (Text ("migration " +:+ quote name +:+ " has no numeric version prefix"))
  else match ParseInt 64 prefix with
  | Some version =>
    if version <=? 0 then Err (Text ("migration " +:+ quote name +:+ " has an invalid version prefix")) else Ok version
  | None => Err (Text ("migration " +:+ quote name +:+ " has an invalid version prefix"))
  end.

Module LedgerRow.
Record t := mk { name : string; checksum : string }.
#[global] Instance eq_dec : EqDecision t.
Proof. solve_decision. Defined.
End LedgerRow.
Module Database.
Record t (Schema : Type) := mk { ledger : gmap Z LedgerRow.t; schema : Schema }.
Arguments mk {Schema}. Arguments ledger {Schema}. Arguments schema {Schema}.
End Database.
(** The database and the number of calls the connection still carries out
    ([None] when it is not lost). *)
Module World.
Record t (Schema : Type) := mk { db : Database.t Schema; calls : option nat }.
Arguments mk {Schema}. Arguments db {Schema}. Arguments calls {Schema}.
End World.

Section Runner.
Context {Schema : Type}.
Variable execute : string -> Schema -> result Schema.
Variable contents : string -> string.
(** Whether a commit whose answer is lost has happened. *)
Variable lost_commit : bool.
Implicit Type w : World.t Schema.

Definition connection_lost : error := Text "driver: bad connection".
Definition call w : bool * World.t Schema :=
  match World.calls w with
  | None => (true, w)
  | Some O => (false, w)
  | Some (S n) => (true, World.mk (World.db w) (Some n))
  end.
(** The deferred rollback of a transaction that has not ended. *)
Definition rollback (version : Z) (e : error) w : option error * World.t Schema :=
  let '(ok, w) := call w in
  (Some (if ok then e else Join e (Wrapf ("rollback migration " +:+ itoa version +:+ ": ") connection_lost "")), w).
Definition recorded (version : Z) (name : string) (s : Schema) (db : Database.t Schema) : Database.t Schema :=
  Database.mk (<[version := LedgerRow.mk name (sha256_hex (contents name))]> (Database.ledger db)) s.

Definition applyFile (name : string) w : option error * World.t Schema :=
  match migrationVersion name with
  | Err e => (Some e, w)
  | Ok version =>
    let failed what := Wrapf (what +:+ " migration " +:+ itoa version +:+ ": ") connection_lost "" in
    let '(ok, w) := call w in
    if negb ok then (Some (Wrapf ("read migration " +:+ itoa version +:+ " status: ") connection_lost ""), w)
    else match Database.ledger (World.db w) !! version with
    | Some row =>
      if LedgerRow.checksum row !=? sha256_hex (contents name) then
        (Some (Text ("migration " +:+ itoa version +:+ " checksum does not match applied schema")), w)
      else (None, w)
    | None =>
      let '(ok, w) := call w in
      if negb ok then (Some (failed "begin"), w)
      else let '(ok, w) := call w in
        if negb ok then rollback version (failed "apply") w
        else match execute (contents name) (Database.schema (World.db w)) with
        | Err e => rollback version (Wrapf ("apply migration " +:+ itoa version +:+ ": ") e "") w
        | Ok s =>
          let '(ok, w) := call w in
          if negb ok then rollback version (failed "record") w
          else let '(ok, w) := call w in
            if ok then (None, World.mk (recorded version name s (World.db w)) (World.calls w))
            else (Some (failed "commit"),
                  if lost_commit then World.mk (recorded version name s (World.db w)) (World.calls w) else w)
        end
    end
  end.
Fixpoint apply_files (names : list string) w : option error * World.t Schema :=
  match names with
  | [] => (None, w)
  | name :: rest => match applyFile name w with (None, w) => apply_files rest w | failed => failed end
  end.
(** The lock is released at the end, whatever happened. *)
Definition unlock (e : option error) w : option error * World.t Schema :=
  let '(ok, w) := call w in
  if ok then (e, w)
  else let u := Wrapf "release migration lock: " connection_lost "" in
       (Some match e with Some e => Join e u | None => u end, w).
Definition Apply (files : list string) (database : option (World.t Schema)) : option error * option (World.t Schema) :=
  match database with
  | None => (Some (Text "migration database is required"), None)
  | Some w =>
    let '(ok, w) := call w in
    if negb ok then (Some (Wrapf "acquire migration connection: " connection_lost ""), Some w)
    else let '(ok, w) := call w in
      if negb ok then (Some (Wrapf "acquire migration lock: " connection_lost ""), Some w)
      else let '(ok, w) := call w in
        let '(e, w) := if ok then apply_files (sort_Strings files) w
                       else (Some (Wrapf "create migration ledger: " connection_lost ""), w) in
        let '(e, w) := unlock e w in (e, Some w)
  end.

(** ** What a run does *)
Implicit Type db : Database.t Schema.
(** The file is in the ledger with its checksum. *)
Definition current (name : string) db : Prop :=
  exists version row, migrationVersion name = Ok version /\ Database.ledger db !! version = Some row /\
    LedgerRow.checksum row = sha256_hex (contents name).
(** One migration: the schema and the ledger move together. *)
Definition advances (name : string) db db' : Prop :=
  exists version s, migrationVersion name = Ok version /\ Database.ledger db !! version = None /\
    execute (contents name) (Database.schema db) = Ok s /\ db' = recorded version name s db.
Inductive applied : list string -> Database.t Schema -> Database.t Schema -> Prop :=
| applied_none db : applied [] db db
| applied_skip name rest db db' : current name db -> applied rest db db' -> applied (name :: rest) db db'
| applied_step name rest db db1 db' : advances name db db1 -> applied rest db1 db' -> applied (name :: rest) db db'.

Lemma call_db w ok w' : call w = (ok, w') -> World.db w' = World.db w /\ (World.calls w = None -> ok = true /\ w' = w).
Proof. unfold call. destruct (World.calls w) as [[|n]|]; intros [= <- <-]; done. Qed.
Lemma rollback_db version e w : exists e', (rollback version e w).1 = Some e' /\ World.db (rollback version e w).2 = World.db w.
Proof. unfold rollback. destruct (call w) as [ok w'] eqn:E. apply call_db in E as [E _]. by eexists. Qed.

Lemma applyFile_spec name w e w' : applyFile name w = (e, w') ->
  (e = None /\ (current name (World.db w) /\ World.db w' = World.db w \/ advances name (World.db w) (World.db w'))) \/
  (e <> None /\ (World.db w' = World.db w \/ advances name (World.db w) (World.db w'))).
Proof.
  unfold applyFile. destruct (migrationVersion name) as [version|] eqn:Hv; [|intros [= <- <-]; by right; split; [|left]].
  destruct (call w) as [ok1 w1] eqn:C1. apply call_db in C1 as [C1 _].
  destruct ok1; cbn [negb]; [|intros [= <- <-]; right; split; [done|by left]]. rewrite <- C1 in *.
  destruct (Database.ledger (World.db w1) !! version) as [row|] eqn:Hl.
  { destruct (LedgerRow.checksum row !=? _) eqn:Hc; intros [= <- <-]; [right; split; [done|by left]|].
    left. split; [done|]. left. split; [|done]. exists version, row. split_and!; try done. by apply negb_false_iff, bool_decide_eq_true in Hc. }
  destruct (call w1) as [ok2 w2] eqn:C2. apply call_db in C2 as [C2 _].
  destruct ok2; cbn [negb]; [|intros [= <- <-]; right; split; [done|by left]].
  destruct (call w2) as [ok3 w3] eqn:C3. apply call_db in C3 as [C3 _].
  assert (Hroll : forall err w0, World.db w0 = World.db w1 -> rollback version err w0 = (e, w') ->
    e <> None /\ (World.db w' = World.db w1 \/ advances name (World.db w1) (World.db w'))).
  { intros err w0 H0 Hr. destruct (rollback_db version err w0) as (e' & H1 & H2). rewrite Hr in H1, H2. cbn [fst snd] in H1, H2.
    split; [by rewrite H1|]. left. by rewrite H2. }
  destruct ok3; cbn [negb]; [|intros Hr; right; apply (Hroll _ _ ltac:(by rewrite C3) Hr)].
  destruct (execute (contents name) (Database.schema (World.db w3))) as [s|err] eqn:Hx;
    [|intros Hr; right; apply (Hroll _ _ ltac:(by rewrite C3) Hr)].
  destruct (call w3) as [ok4 w4] eqn:C4. apply call_db in C4 as [C4 _].
  destruct ok4; cbn [negb]; [|intros Hr; right; apply (Hroll _ _ ltac:(by rewrite C4, C3) Hr)].
  destruct (call w4) as [ok5 w5] eqn:C5. apply call_db in C5 as [C5 _].
  assert (Hadv : advances name (World.db w1) (recorded version name s (World.db w5))).
  { exists version, s. rewrite C5, C4, C3, C2 in *. by split_and!. }
  destruct ok5; intros [= <- <-]; [left; split; [done|by right]|]. right. split; [done|].
  destruct lost_commit; [by right|left; by rewrite C5, C4, C3].
Qed.
Lemma apply_files_spec names : forall w e w', apply_files names w = (e, w') ->
  exists done rest, names = done ++ rest /\ applied done (World.db w) (World.db w') /\ (e = None -> rest = []).
Proof.
  induction names as [|name names IH]; intros w e w'; cbn [apply_files].
  { intros [= <- <-]. exists [], []. split_and!; try done. constructor. }
  destruct (applyFile name w) as [e1 w1] eqn:E1. apply applyFile_spec in E1 as [[-> Hc]|[Hne Hc]].
  - intros Hr. apply IH in Hr as (done & rest & -> & Ha & Hn). exists (name :: done), rest. split_and!; try done.
    destruct Hc as [[Hcur Heq]|Hadv]; [rewrite Heq in Ha; by apply applied_skip|by eapply applied_step].
  - destruct e1 as [e1|]; [|done]. intros [= <- <-]. destruct Hc as [->|Hadv].
    + exists [], (name :: names). split_and!; try done. constructor.
    + exists [name], names. split_and!; try done. eapply applied_step; [exact Hadv|constructor].
Qed.

Lemma advances_keeps name db db' : advances name db db' ->
  current name db' /\ forall v row, Database.ledger db !! v = Some row -> Database.ledger db' !! v = Some row.
Proof.
  intros (version & s & Hv & Hl & _ & ->). cbn [recorded Database.ledger]. split.
  - exists version, (LedgerRow.mk name (sha256_hex (contents name))). split_and!; try done. apply lookup_insert_eq.
  - intros v row Hr. rewrite lookup_insert_ne; [done|]. intros ->. cbn in Hl. congruence.
Qed.
Lemma applied_keeps names db db' : applied names db db' ->
  Forall (fun name => current name db') names /\ forall v row, Database.ledger db !! v = Some row -> Database.ledger db' !! v = Some row.
Proof.
  induction 1 as [db|name rest db db' (v & row & Hv & Hl & Hc) _ [IH1 IH2]|name rest db db1 db' Hadv _ [IH1 IH2]].
  - by split.
  - split; [|done]. constructor; [|done]. exists v, row. split_and!; try done. by apply IH2.
  - destruct (advances_keeps _ _ _ Hadv) as [(v & row & Hv & Hl & Hc) Hkeep]. split; [|by intros v' row' Hr; apply IH2, Hkeep].
    constructor; [|done]. exists v, row. split_and!; try done. by apply IH2.
Qed.
Lemma call_lasting w : World.calls w = None -> call w = (true, w).
Proof. unfold call. by intros ->. Qed.
Lemma apply_files_current names w : World.calls w = None -> Forall (fun name => current name (World.db w)) names ->
  apply_files names w = (None, w).
Proof.
  intros Hw. induction 1 as [|name names (v & row & Hv & Hl & Hc) _ IH]; cbn [apply_files]; [done|].
  unfold applyFile. rewrite Hv, (call_lasting w Hw). cbn [negb]. rewrite Hl, Hc, bool_decide_eq_true_2 by done. exact IH.
Qed.

Lemma Apply_spec files w e w' : Apply files (Some w) = (e, Some w') ->
  exists done rest, sort_Strings files = done ++ rest /\ applied done (World.db w) (World.db w') /\ (e = None -> rest = []).
Proof.
  unfold Apply. destruct (call w) as [ok1 w1] eqn:C1. apply call_db in C1 as [C1 _].
  assert (Hstay : forall w0, World.db w0 = World.db w -> exists done rest, sort_Strings files = done ++ rest /\
    applied done (World.db w) (World.db w0)).
  { intros w0 H0. exists [], (sort_Strings files). split; [done|]. rewrite H0. constructor. }
  destruct ok1; cbn [negb].
  2: { intros [= <- <-]. destruct (Hstay w1 C1) as (d & r & H1 & H2). by exists d, r. }
  destruct (call w1) as [ok2 w2] eqn:C2. apply call_db in C2 as [C2 _]. destruct ok2; cbn [negb].
  2: { intros [= <- <-]. destruct (Hstay w2 ltac:(by rewrite C2)) as (d & r & H1 & H2). by exists d, r. }
  destruct (call w2) as [ok3 w3] eqn:C3. apply call_db in C3 as [C3 _].
  destruct (if ok3 then _ else _) as [e4 w4] eqn:E4. unfold unlock. destruct (call w4) as [ok5 w5] eqn:C5. apply call_db in C5 as [C5 _].
  assert (Hfiles : exists done rest, sort_Strings files = done ++ rest /\ applied done (World.db w) (World.db w5) /\ (e4 = None -> rest = [])).
  { destruct ok3.
    - apply apply_files_spec in E4 as (d & r & H1 & H2 & H3). exists d, r. rewrite C5. by rewrite C3, C2, C1 in H2.
    - injection E4 as <- <-. destruct (Hstay w5 ltac:(by rewrite C5, C3, C2)) as (d & r & H1 & H2). by exists d, r. }
  destruct Hfiles as (d & r & H1 & H2 & H3). destruct ok5; intros [= <- <-]; exists d, r; by split_and!.
Qed.
Lemma Apply_current files w w' : Apply files (Some w) = (None, Some w') -> Forall (fun name => current name (World.db w')) files.
Proof.
  intros Hrun. destruct (Apply_spec _ _ _ _ Hrun) as (d & r & Hs & Ha & Hn). destruct (applied_keeps _ _ _ Ha) as [Hcur _].
  rewrite (Hn eq_refl), app_nil_r in Hs. rewrite <- Hs in Hcur. unfold sort_Strings in Hcur. by rewrite isort_perm in Hcur.
Qed.

(** Migrations are applied in order, whole and once.  Whatever the
    connection does, the database ends as if a prefix of the files in name order
    had been run: those already in the ledger are skipped, each other one changes
    the schema together with its ledger line.  Success means that every file is
    recorded with its checksum; a file that differs from what was applied makes
    the run fail; and a further run changes nothing and succeeds. *)
Theorem migrations_in_order files w e w' (Hrun : Apply files (Some w) = (e, Some w')) :
  (exists done rest, sort_Strings files = done ++ rest /\ applied done (World.db w) (World.db w')) /\
  (e = None -> Forall (fun name => current name (World.db w')) files) /\
  (forall name version row, name ∈ files -> migrationVersion name = Ok version ->
     Database.ledger (World.db w) !! version = Some row -> LedgerRow.checksum row <> sha256_hex (contents name) -> e <> None) /\
  (e = None -> Apply files (Some (World.mk (World.db w') None)) = (None, Some (World.mk (World.db w') None))).
Proof.
  destruct (Apply_spec _ _ _ _ Hrun) as (d & r & Hs & Ha & Hn). destruct (applied_keeps _ _ _ Ha) as [Hcur Hkeep].
  assert (Hall : e = None -> Forall (fun name => current name (World.db w')) (sort_Strings files))
    by (intros He; rewrite Hs, (Hn He), app_nil_r; exact Hcur).
  split; [by exists d, r|]. split; [|split].
  - intros He. specialize (Hall He). unfold sort_Strings in Hall. by rewrite isort_perm in Hall.
  - intros name version row Hin Hv Hl Hne He. specialize (Hall He).
    pose proof (proj1 (list.Forall_forall _ _) Hall name (proj2 (elem_of_sorted name files) Hin)) as (v & row' & Hv' & Hl' & Hc).
    rewrite Hv in Hv'. injection Hv' as <-. rewrite (Hkeep _ _ Hl) in Hl'. by injection Hl' as <-.
  - intros He. unfold Apply. rewrite !(call_lasting (World.mk _ None)) by done. cbn [negb].
    rewrite (apply_files_current _ (World.mk (World.db w') None) eq_refl (Hall He)). unfold unlock. by rewrite call_lasting.
Qed.
End Runner.

(** ** Witness

    Names sort by version. *)
Example versions_in_order : map migrationVersion (sort_Strings migrationFiles) = map Ok [1; 2; 3; 4; 5; 6; 7; 8; 9; 10; 11; 12].
Proof. by vm_compute. Qed.

Definition log_sql (sql : string) (done : list string) : result (list string) := Ok (done ++ [sql]).
Definition fresh_world (calls : option nat) : World.t (list string) := World.mk (Database.mk ∅ []) calls.
(** The connection is lost in the second file. *)
Example interrupted : exists e w, Apply log_sql (fun name => name) false migrationFiles (Some (fresh_world (Some 10%nat))) = (Some e, Some w) /\
  Database.schema (World.db w) = ["000001_resolution_workflow.up.sql"].
Proof. eexists _, _. split; vm_compute; reflexivity. Qed.

Lemma migrations_in_order_witness :
  exists w', Apply log_sql (fun name => name) false migrationFiles (Some (fresh_world None)) = (None, Some w') /\
    Database.schema (World.db w') = migrationFiles /\
    Forall (fun name => current (fun name => name) name (World.db w')) migrationFiles.
Proof.
  assert (E : exists w', Apply log_sql (fun name => name) false migrationFiles (Some (fresh_world None)) = (None, Some w') /\
    Database.schema (World.db w') = migrationFiles) by (eexists; split; vm_compute; reflexivity).
  destruct E as (w' & E & Hs). exists w'. split; [exact E|]. split; [exact Hs|].
  exact (proj1 (proj2 (migrations_in_order log_sql (fun name => name) false migrationFiles (fresh_world None) None w' E)) eq_refl).
Defined.
