(* ===== verification/Evidence.v ===== *)
(** * Evidence envelopes

    [internal/evidence]: [evidence.go] assembles and signs envelopes,
    [repository.go] keeps them in memory and in PostgreSQL, [pipeline.go] takes
    captured bytes through artefact storage, sanitisation and parsing to a stored
    envelope.  The signing provider, the sanitiser and the attempt verifier are
    interfaces.  Of [Completeness], a float64, the integral values are
    represented; the pipeline sets it to 1. *)
From S2P Require Import Prelude GoStrings GoEncoding GoDecoding Json JsonStruct Keys Task Schema TaskPostgres Grants Outbox Resolution ResolutionPostgres.
From S2P Require Import Worker Artefacts Parsing.
Local Open Scope Z_scope.

(** ** Data *)
Module Attribution.
Record t := mk {
  CollectorIdentity : string; CollectorVersion : string; EvidenceAssemblerVersion : string; AuditReference : string;
  SignatureAlgorithm : string; SigningKeyRef : string; Signature : option string }.
#[global] Instance eta_t : Eta t := fun x =>
  mk (CollectorIdentity x) (CollectorVersion x) (EvidenceAssemblerVersion x) (AuditReference x) (SignatureAlgorithm x)
     (SigningKeyRef x) (Signature x).
End Attribution.

Module EvidenceEnvelope.
Record t := mk {
  EvidenceID : string; TenantID : string; ClaimFingerprint : string; TaskID : string; TargetSnapshotID : string;
  TargetID : string; RecipeID : string; RecipeVersion : string; TriggerDecisionID : string; PlanningDecisionID : string;
  ExecutionDecisionID : string; ExecutionGrantID : string; AcceptedAttemptID : string; FencingToken : Z;
  CompatibilityRecordHash : string; Captured : CapturedRef.t; Sanitised : SanitisedRef.t; ParserID : string;
  ParserVersion : string; NormaliserVersion : string; Completeness : Z; ObservedAt : Z; ValidUntil : Z;
  InterfaceState : InterfaceOperationalState.t; Attribution_ : Attribution.t }.
#[global] Instance eta_t : Eta t := fun x =>
  mk (EvidenceID x) (TenantID x) (ClaimFingerprint x) (TaskID x) (TargetSnapshotID x) (TargetID x) (RecipeID x)
     (RecipeVersion x) (TriggerDecisionID x) (PlanningDecisionID x) (ExecutionDecisionID x) (ExecutionGrantID x)
     (AcceptedAttemptID x) (FencingToken x) (CompatibilityRecordHash x) (Captured x) (Sanitised x) (ParserID x)
     (ParserVersion x) (NormaliserVersion x) (Completeness x) (ObservedAt x) (ValidUntil x) (InterfaceState x) (Attribution_ x).
End EvidenceEnvelope.
Import EvidenceEnvelope (EvidenceID, TenantID, ClaimFingerprint, TaskID, TargetSnapshotID, TargetID, RecipeID,
  RecipeVersion, TriggerDecisionID, PlanningDecisionID, ExecutionDecisionID, ExecutionGrantID, AcceptedAttemptID,
  FencingToken, CompatibilityRecordHash, Captured, Sanitised, ParserID, ParserVersion, NormaliserVersion, Completeness,
  ObservedAt, ValidUntil, InterfaceState, Attribution_).

Module AssemblyInput.
Record t := mk {
  TenantID : string; ClaimFingerprint : string; TaskID : string; TargetSnapshotID : string; TargetID : string;
  RecipeID : string; RecipeVersion : string; TriggerDecisionID : string; PlanningDecisionID : string;
  ExecutionDecisionID : string; ExecutionGrantID : string; AcceptedAttemptID : string; FencingToken : Z;
  CompatibilityRecordHash : string; Captured : CapturedRef.t; Sanitised : SanitisedRef.t; ParserID : string;
  ParserVersion : string; NormaliserVersion : string; Completeness : Z; ValidUntil : Z;
  Observation : InterfaceOperationalState.t; CollectorIdentity : string; CollectorVersion : string;
  AuditReference : string; AssembledAt : Z }.
End AssemblyInput.

(** ** The envelope's JSON: the struct's fields in order *)
Definition captured_tree (c : CapturedRef.t) : jtree :=
  TObj [key "URI" (jstr (CapturedRef.URI c)); key "SHA256Digest" (jstr (CapturedRef.SHA256Digest c));
        key "ByteCount" (jint (CapturedRef.ByteCount c)); key "MediaType" (jstr (CapturedRef.MediaType c));
        key "Transport" (jstr (CapturedRef.Transport c)); key "CapturedAt" (jtime (CapturedRef.CapturedAt c));
        key "AttemptID" (jstr (CapturedRef.AttemptID c)); key "EncryptionKeyRef" (jstr (CapturedRef.EncryptionKeyRef c))].
Definition sanitised_tree (s : SanitisedRef.t) : jtree :=
  TObj [key "URI" (jstr (SanitisedRef.URI s)); key "SHA256Digest" (jstr (SanitisedRef.SHA256Digest s));
        key "ByteCount" (jint (SanitisedRef.ByteCount s)); key "MediaType" (jstr (SanitisedRef.MediaType s));
        key "ParentCapturedDigest" (jstr (SanitisedRef.ParentCapturedDigest s));
        key "TransformationManifestDigest" (jstr (SanitisedRef.TransformationManifestDigest s));
        key "CreatedAt" (jtime (SanitisedRef.CreatedAt s))].
Definition state_tree (o : InterfaceOperationalState.t) : jtree :=
  TObj ([key "schema_version" (jstr (InterfaceOperationalState.SchemaVersion o));
         key "interface_name" (jstr (InterfaceOperationalState.InterfaceName o));
         key "operational_state" (jstr (InterfaceOperationalState.OperationalState o));
         key "observed_at" (jtime (InterfaceOperationalState.ObservedAt o))] ++
        omitempty (no_elems (InterfaceOperationalState.TaintedFields o)) "tainted_fields"
          (jslice jstr (InterfaceOperationalState.TaintedFields o))).
Definition attribution_tree (a : Attribution.t) : jtree :=
  TObj [key "CollectorIdentity" (jstr (Attribution.CollectorIdentity a));
        key "CollectorVersion" (jstr (Attribution.CollectorVersion a));
        key "EvidenceAssemblerVersion" (jstr (Attribution.EvidenceAssemblerVersion a));
        key "AuditReference" (jstr (Attribution.AuditReference a));
        key "SignatureAlgorithm" (jstr (Attribution.SignatureAlgorithm a));
        key "SigningKeyRef" (jstr (Attribution.SigningKeyRef a));
        key "Signature" (jbytes (option_map bytes (Attribution.Signature a)))].
Definition envelope_tree (e : EvidenceEnvelope.t) : jtree :=
  TObj [key "EvidenceID" (jstr (EvidenceID e)); key "TenantID" (jstr (TenantID e));
        key "ClaimFingerprint" (jstr (ClaimFingerprint e)); key "TaskID" (jstr (TaskID e));
        key "TargetSnapshotID" (jstr (TargetSnapshotID e)); key "TargetID" (jstr (TargetID e));
        key "RecipeID" (jstr (RecipeID e)); key "RecipeVersion" (jstr (RecipeVersion e));
        key "TriggerDecisionID" (jstr (TriggerDecisionID e)); key "PlanningDecisionID" (jstr (PlanningDecisionID e));
        key "ExecutionDecisionID" (jstr (ExecutionDecisionID e)); key "ExecutionGrantID" (jstr (ExecutionGrantID e));
        key "AcceptedAttemptID" (jstr (AcceptedAttemptID e)); key "FencingToken" (jint (FencingToken e));
        key "CompatibilityRecordHash" (jstr (CompatibilityRecordHash e)); key "Captured" (captured_tree (Captured e));
        key "Sanitised" (sanitised_tree (Sanitised e)); key "ParserID" (jstr (ParserID e));
        key "ParserVersion" (jstr (ParserVersion e)); key "NormaliserVersion" (jstr (NormaliserVersion e));
        key "Completeness" (jint (Completeness e)); key "ObservedAt" (jtime (ObservedAt e));
        key "ValidUntil" (jtime (ValidUntil e)); key "InterfaceState" (state_tree (InterfaceState e));
        key "Attribution" (attribution_tree (Attribution_ e))].
(** The times that have to be encoded. *)
Definition envelope_times (e : EvidenceEnvelope.t) : list Z :=
  [CapturedRef.CapturedAt (Captured e); SanitisedRef.CreatedAt (Sanitised e); ObservedAt e; ValidUntil e;
   InterfaceOperationalState.ObservedAt (InterfaceState e)].
Definition marshal_envelope (e : EvidenceEnvelope.t) : result string :=
  if forallb jtime_ok (envelope_times e) then Ok (Marshal (envelope_tree e)) else Err year_error.

(** Reading it back; nested structs are decoded into the value they have. *)
Definition dec_captured (c : CapturedRef.t) (fs : list (list item * jtree)) : option CapturedRef.t :=
  match decode_field dec_string "URI" (CapturedRef.URI c) fs, decode_field dec_string "SHA256Digest" (CapturedRef.SHA256Digest c) fs,
        decode_field dec_uint64 "ByteCount" (CapturedRef.ByteCount c) fs, decode_field dec_string "MediaType" (CapturedRef.MediaType c) fs,
        decode_field dec_string "Transport" (CapturedRef.Transport c) fs, decode_field dec_time "CapturedAt" (CapturedRef.CapturedAt c) fs,
        decode_field dec_string "AttemptID" (CapturedRef.AttemptID c) fs,
        decode_field dec_string "EncryptionKeyRef" (CapturedRef.EncryptionKeyRef c) fs with
  | Some u, Some d, Some n, Some m, Some t, Some at_, Some a, Some k => Some (CapturedRef.mk u d n m t at_ a k)
  | _, _, _, _, _, _, _, _ => None
  end.
Definition dec_sanitised (s : SanitisedRef.t) (fs : list (list item * jtree)) : option SanitisedRef.t :=
  match decode_field dec_string "URI" (SanitisedRef.URI s) fs, decode_field dec_string "SHA256Digest" (SanitisedRef.SHA256Digest s) fs,
        decode_field dec_uint64 "ByteCount" (SanitisedRef.ByteCount s) fs, decode_field dec_string "MediaType" (SanitisedRef.MediaType s) fs,
        decode_field dec_string "ParentCapturedDigest" (SanitisedRef.ParentCapturedDigest s) fs,
        decode_field dec_string "TransformationManifestDigest" (SanitisedRef.TransformationManifestDigest s) fs,
        decode_field dec_time "CreatedAt" (SanitisedRef.CreatedAt s) fs with
  | Some u, Some d, Some n, Some m, Some p, Some t, Some at_ => Some (SanitisedRef.mk u d n m p t at_)
  | _, _, _, _, _, _, _ => None
  end.
Definition dec_state (o : InterfaceOperationalState.t) (fs : list (list item * jtree)) : option InterfaceOperationalState.t :=
  match decode_field dec_string "schema_version" (InterfaceOperationalState.SchemaVersion o) fs,
        decode_field dec_string "interface_name" (InterfaceOperationalState.InterfaceName o) fs,
        decode_field dec_string "operational_state" (InterfaceOperationalState.OperationalState o) fs,
        decode_field dec_time "observed_at" (InterfaceOperationalState.ObservedAt o) fs,
        decode_field dec_strings "tainted_fields" (InterfaceOperationalState.TaintedFields o) fs with
  | Some v, Some n, Some s, Some at_, Some t => Some (InterfaceOperationalState.mk v n s at_ t)
  | _, _, _, _, _ => None
  end.
Definition dec_attribution (a : Attribution.t) (fs : list (list item * jtree)) : option Attribution.t :=
  match decode_field dec_string "CollectorIdentity" (Attribution.CollectorIdentity a) fs,
        decode_field dec_string "CollectorVersion" (Attribution.CollectorVersion a) fs,
        decode_field dec_string "EvidenceAssemblerVersion" (Attribution.EvidenceAssemblerVersion a) fs,
        decode_field dec_string "AuditReference" (Attribution.AuditReference a) fs,
        decode_field dec_string "SignatureAlgorithm" (Attribution.SignatureAlgorithm a) fs,
        decode_field dec_string "SigningKeyRef" (Attribution.SigningKeyRef a) fs,
        decode_field dec_bytes "Signature" (Attribution.Signature a) fs with
  | Some c, Some v, Some e, Some r, Some g, Some k, Some s => Some (Attribution.mk c v e r g k s)
  | _, _, _, _, _, _, _ => None
  end.

Definition zero_captured : CapturedRef.t := CapturedRef.mk "" "" 0 "" "" 0 "" "".
Definition zero_sanitised : SanitisedRef.t := SanitisedRef.mk "" "" 0 "" "" "" 0.
Definition zero_state : InterfaceOperationalState.t := InterfaceOperationalState.mk "" "" "" 0 None.
Definition zero_attribution : Attribution.t := Attribution.mk "" "" "" "" "" "" None.
Definition dec_envelope (fs : list (list item * jtree)) : option EvidenceEnvelope.t :=
  let str name := decode_field dec_string name "" fs in
  match str "EvidenceID", str "TenantID", str "ClaimFingerprint", str "TaskID", str "TargetSnapshotID", str "TargetID",
        str "RecipeID", str "RecipeVersion", str "TriggerDecisionID", str "PlanningDecisionID", str "ExecutionDecisionID",
        str "ExecutionGrantID", str "AcceptedAttemptID" with
  | Some id, Some tenant, Some claim, Some task, Some snapshot, Some target, Some recipe, Some version, Some trigger,
    Some planning, Some execution, Some grant, Some attempt =>
    match decode_field dec_int64 "FencingToken" 0 fs, str "CompatibilityRecordHash",
          decode_into (dec_struct dec_captured) "Captured" zero_captured fs,
          decode_into (dec_struct dec_sanitised) "Sanitised" zero_sanitised fs, str "ParserID", str "ParserVersion",
          str "NormaliserVersion", decode_field dec_int64 "Completeness" 0 fs, decode_field dec_time "ObservedAt" 0 fs,
          decode_field dec_time "ValidUntil" 0 fs, decode_into (dec_struct dec_state) "InterfaceState" zero_state fs,
          decode_into (dec_struct dec_attribution) "Attribution" zero_attribution fs with
    | Some token, Some hash, Some captured, Some sanitised, Some parser, Some parserVersion, Some normaliser,
      Some completeness, Some observed, Some valid, Some state, Some attribution =>
      Some (EvidenceEnvelope.mk id tenant claim task snapshot target recipe version trigger planning execution grant
              attempt token hash captured sanitised parser parserVersion normaliser completeness observed valid state
              attribution)
    | _, _, _, _, _, _, _, _, _, _, _, _ => None
    end
  | _, _, _, _, _, _, _, _, _, _, _, _, _ => None
  end.

(** ** Assembly *)
Definition set_signature (s : option string) (e : EvidenceEnvelope.t) : EvidenceEnvelope.t :=
  e <| Attribution_ := (Attribution_ e) <| Attribution.Signature := s |> |>.
(** Everything but the signature is signed. *)
Definition signingPayload (e : EvidenceEnvelope.t) : result string :=
  match marshal_envelope (set_signature None e) with
  | Ok payload => Ok payload
  | Err e => Err (Wrapf "encode evidence envelope: " e "")
  end.

Definition validateInput (i : AssemblyInput.t) : option error :=
  if existsb (fun value => value ==? "")
       [AssemblyInput.TenantID i; AssemblyInput.ClaimFingerprint i; AssemblyInput.TaskID i; AssemblyInput.TargetSnapshotID i;
        AssemblyInput.TargetID i; AssemblyInput.RecipeID i; AssemblyInput.RecipeVersion i; AssemblyInput.TriggerDecisionID i;
        AssemblyInput.PlanningDecisionID i; AssemblyInput.ExecutionDecisionID i; AssemblyInput.ExecutionGrantID i;
        AssemblyInput.AcceptedAttemptID i; AssemblyInput.CompatibilityRecordHash i; AssemblyInput.ParserID i;
        AssemblyInput.ParserVersion i; AssemblyInput.NormaliserVersion i; AssemblyInput.CollectorIdentity i;
        AssemblyInput.CollectorVersion i; AssemblyInput.AuditReference i] then
    Some (Text "evidence identity, lineage and attribution fields are required")
  else if (AssemblyInput.FencingToken i <=? 0) || (AssemblyInput.Completeness i <? 0) || (1 <? AssemblyInput.Completeness i) ||
          IsZero (AssemblyInput.AssembledAt i) || IsZero (AssemblyInput.ValidUntil i) ||
          negb (After (AssemblyInput.ValidUntil i) (InterfaceOperationalState.ObservedAt (AssemblyInput.Observation i))) then
    Some (Text "evidence fence, completeness and validity values are invalid")
  else if (CapturedRef.SHA256Digest (AssemblyInput.Captured i) ==? "") ||
          (SanitisedRef.SHA256Digest (AssemblyInput.Sanitised i) ==? "") ||
          (SanitisedRef.TransformationManifestDigest (AssemblyInput.Sanitised i) ==? "") ||
          (InterfaceOperationalState.SchemaVersion (AssemblyInput.Observation i) ==? "") then
    Some (Text "captured, sanitised and normalised evidence are required")
  else None.

(** [AttemptVerifier], implemented by the task repositories. *)
Class AttemptVerifier (St : Type) := {
  VerifyCurrentAttempt : string -> string -> Z -> Z -> St -> result unit }.

Module Assembler.
Record t (P : Type) := mk { version : string; signing : P }.
Arguments mk {P}.
Arguments version {P}.
Arguments signing {P}.
Definition NewAssemblerWithProvider {P} (version : string) (signing : option P) (verifier : bool) : result (t P) :=
  match signing with
  | Some signing =>
    if (version ==? "") || negb verifier then
      Err (Text "assembler version, signing provider and attempt verifier are required")
    else Ok (mk version signing)
  | None => Err (Text "assembler version, signing provider and attempt verifier are required")
  end.
(** With a private key: a keyring that holds this key. *)
Definition NewAssembler (ed_public : string -> string) (version private : string) (verifier : bool) : result (t Keyring.t) :=
  if negb (len private =? PrivateKeySize) then
    Err (Text "assembler version, signing key and attempt verifier are required")
  else match Keyring.NewEd25519Keyring ed_public "local-evidence-signing-key" private with
  | Err e => Err e
  | Ok keyring => NewAssemblerWithProvider version (Some keyring) verifier
  end.

Section Operations.
Context {P : Type} `{SigningProvider P} {St : Type} `{AttemptVerifier St} (a : t P).

Definition envelope_of (i : AssemblyInput.t) (k : SigningKey.t) : EvidenceEnvelope.t :=
  EvidenceEnvelope.mk "" (AssemblyInput.TenantID i) (AssemblyInput.ClaimFingerprint i) (AssemblyInput.TaskID i)
    (AssemblyInput.TargetSnapshotID i) (AssemblyInput.TargetID i) (AssemblyInput.RecipeID i) (AssemblyInput.RecipeVersion i)
    (AssemblyInput.TriggerDecisionID i) (AssemblyInput.PlanningDecisionID i) (AssemblyInput.ExecutionDecisionID i)
    (AssemblyInput.ExecutionGrantID i) (AssemblyInput.AcceptedAttemptID i) (AssemblyInput.FencingToken i)
    (AssemblyInput.CompatibilityRecordHash i) (AssemblyInput.Captured i) (AssemblyInput.Sanitised i)
    (AssemblyInput.ParserID i) (AssemblyInput.ParserVersion i) (AssemblyInput.NormaliserVersion i)
    (AssemblyInput.Completeness i) (InterfaceOperationalState.ObservedAt (AssemblyInput.Observation i))
    (AssemblyInput.ValidUntil i) (AssemblyInput.Observation i)
    (Attribution.mk (AssemblyInput.CollectorIdentity i) (AssemblyInput.CollectorVersion i) (version a)
      (AssemblyInput.AuditReference i) (SigningKey.Algorithm k) (SigningKey.Reference k) None).

Definition AssembleContext (i : AssemblyInput.t) (st : St) : result EvidenceEnvelope.t :=
  match validateInput i with
  | Some e => Err e
  | None =>
    match VerifyCurrentAttempt (AssemblyInput.TaskID i) (AssemblyInput.CollectorIdentity i) (AssemblyInput.FencingToken i)
            (AssemblyInput.AssembledAt i) st with
    | Err e => Err (Wrapf "verify current fenced attempt: " e "")
    | Ok _ =>
      if SanitisedRef.ParentCapturedDigest (AssemblyInput.Sanitised i) !=? CapturedRef.SHA256Digest (AssemblyInput.Captured i) then
        Err (Text "sanitised artefact does not descend from captured artefact")
      else match CurrentSigningKey (signing a) "evidence-envelope" with
      | Err e => Err (Wrapf "resolve evidence signing key: " e "")
      | Ok k =>
        let envelope := envelope_of i k in
        match signingPayload envelope with
        | Err e => Err e
        | Ok unsigned =>
          let envelope := envelope <| EvidenceID := "evidence-" +:+ hex_EncodeToString (firstn 16 (Sum256 (bytes unsigned))) |> in
          match signingPayload envelope with
          | Err e => Err e
          | Ok unsigned =>
            match Sign (signing a) (SigningKey.Reference k) unsigned with
            | Err e => Err (Wrapf "sign evidence envelope: " e "")
            | Ok s => Ok (set_signature (Some s) envelope)
            end
          end
        end
      end
    end
  end.
(** [Assemble] runs it with a background context. *)
Definition Assemble (i : AssemblyInput.t) (st : St) : result EvidenceEnvelope.t := AssembleContext i st.

Definition VerifyContext (e : EvidenceEnvelope.t) : option error :=
  match signingPayload e with
  | Err e => Some e
  | Ok payload =>
    match Keys.Verify (signing a) (Attribution.SigningKeyRef (Attribution_ e)) (Attribution.SignatureAlgorithm (Attribution_ e))
            payload (default "" (Attribution.Signature (Attribution_ e))) with
    | Some _ => Some (Text "evidence envelope signature is invalid")
    | None => None
    end
  end.
Definition Verify (e : EvidenceEnvelope.t) : option error := VerifyContext e.
End Operations.
End Assembler.

(** ** Repositories *)
Definition ErrEnvelopeNotFound := New "evidence.ErrEnvelopeNotFound" "evidence envelope was not found".
Definition ErrEnvelopeConflict :=
  New "evidence.ErrEnvelopeConflict" "immutable evidence envelope conflicts with an existing record".
Definition ErrEnvelopeIntegrity := New "evidence.ErrEnvelopeIntegrity" "evidence envelope integrity verification failed".
Definition maximumDocumentBytes : Z := 16777216.
Definition digestDocument (document : string) : string := sha256_hex document.

Definition persisted_fields (e : EvidenceEnvelope.t) : list string :=
  [EvidenceID e; TenantID e; TaskID e; TargetID e; RecipeID e; AcceptedAttemptID e; CapturedRef.URI (Captured e);
   CapturedRef.SHA256Digest (Captured e); SanitisedRef.URI (Sanitised e); SanitisedRef.SHA256Digest (Sanitised e);
   SanitisedRef.TransformationManifestDigest (Sanitised e); Attribution.CollectorIdentity (Attribution_ e);
   Attribution.SignatureAlgorithm (Attribution_ e); Attribution.SigningKeyRef (Attribution_ e)].
Definition validatePersistedEnvelope (e : EvidenceEnvelope.t) : option error :=
  if existsb (fun value => (value ==? "") || (2048 <? len value)) (persisted_fields e) then
    Some (Text "complete bounded evidence envelope identity and lineage are required")
  else if (FencingToken e <=? 0) || IsZero (ObservedAt e) || negb (After (ValidUntil e) (ObservedAt e)) ||
          (len (default "" (Attribution.Signature (Attribution_ e))) =? 0) then
    Some (Text "evidence envelope validity, fence and signature are required")
  else None.

Definition encodeEnvelope (e : EvidenceEnvelope.t) : result string :=
  match validatePersistedEnvelope e with
  | Some err => Err err
  | None =>
    match marshal_envelope e with
    | Err err => Err (Wrapf "encode evidence envelope document: " err "")
    | Ok document =>
      if (len document =? 0) || (maximumDocumentBytes <? len document) then
        Err (Text "evidence envelope document exceeds its bound")
      else Ok document
    end
  end.
Definition decodeEnvelope (document : string) : result EvidenceEnvelope.t :=
  let failed := Err (Wrapf "decode evidence envelope document: " (Text "json: cannot unmarshal value into Go value") "") in
  match members document with
  | None => failed
  | Some fs =>
    match dec_envelope fs with
    | None => failed
    | Some e =>
      match validatePersistedEnvelope e with
      | Some err => Err (Join ErrEnvelopeIntegrity err)
      | None => Ok e
      end
    end
  end.

Class EnvelopeRepository (St : Type) := {
  envelope_Create : EvidenceEnvelope.t -> St -> result unit * St;
  envelope_GetForTenant : string -> string -> St -> result EvidenceEnvelope.t;
  envelope_GetByID : string -> St -> result EvidenceEnvelope.t }.

(** In memory: documents by evidence identifier. *)
Module MemoryRepository.
Record t := mk { envelopes : gmap string string }.
#[global] Instance eta_t : Eta t := fun x => mk (envelopes x).
Definition NewMemoryRepository : t := mk ∅.
Definition Create (e : EvidenceEnvelope.t) (r : t) : result unit * t :=
  match encodeEnvelope e with
  | Err err => (Err err, r)
  | Ok document =>
    match envelopes r !! EvidenceID e with
    | Some existing => if existing ==? document then (Ok tt, r) else (Err ErrEnvelopeConflict, r)
    | None => (Ok tt, r <| envelopes := <[EvidenceID e := document]> (envelopes r) |>)
    end
  end.
Definition GetByID (evidenceID : string) (r : t) : result EvidenceEnvelope.t :=
  match envelopes r !! evidenceID with
  | None => Err ErrEnvelopeNotFound
  | Some document => decodeEnvelope document
  end.
Definition GetForTenant (tenantID evidenceID : string) (r : t) : result EvidenceEnvelope.t :=
  match GetByID evidenceID r with
  | Err _ => Err ErrEnvelopeNotFound
  | Ok e => if TenantID e !=? tenantID then Err ErrEnvelopeNotFound else Ok e
  end.
End MemoryRepository.
#[export] Instance memory_envelopes : EnvelopeRepository MemoryRepository.t := {|
  envelope_Create := MemoryRepository.Create; envelope_GetForTenant := MemoryRepository.GetForTenant;
  envelope_GetByID := MemoryRepository.GetByID |}.

Module PostgresRepository.
(** The driver sends microseconds. *)
Definition envelope_row (ts : Z) (e : EvidenceEnvelope.t) (document : string) : EnvelopeRow.t :=
  EnvelopeRow.mk (EvidenceID e) (TenantID e) (TaskID e) (AcceptedAttemptID e) (FencingToken e) (TargetID e) (RecipeID e)
    (normaliseTime (ObservedAt e)) (normaliseTime (ValidUntil e)) document (digestDocument document) ts (ExecutionGrantID e).
Definition envelope_params (e : EvidenceEnvelope.t) : list string :=
  [EvidenceID e; TenantID e; TaskID e; AcceptedAttemptID e; ExecutionGrantID e; TargetID e; RecipeID e].

(** [broker_evidence_envelopes_task] and the unique index on tenant, task and
    attempt. *)
Definition task_exists (db : DB.t) (row : EnvelopeRow.t) : bool :=
  match DB.tasks db !! EnvelopeRow.task_id row with
  | Some task => TaskRow.tenant_id task ==? EnvelopeRow.tenant_id row
  | None => false
  end.
Definition attempt_key (row : EnvelopeRow.t) : string * string * string :=
  (EnvelopeRow.tenant_id row, EnvelopeRow.task_id row, EnvelopeRow.accepted_attempt_id row).
Definition attempt_taken (db : DB.t) (row : EnvelopeRow.t) : bool :=
  existsb (fun r => attempt_key r ==? attempt_key row) (map snd (map_to_list (DB.envelopes db))).

(** [INSERT ... ON CONFLICT (evidence_id) DO NOTHING]: whether a row was
    inserted. *)
Definition insert_envelope (params : list string) (row : EnvelopeRow.t) (db : DB.t) : result (bool * DB.t) :=
  if negb (all_encodable params) then Err invalid_text
  else if negb (EnvelopeRow.check row) then Err check_violation
  else match DB.envelopes db !! EnvelopeRow.evidence_id row with
  | Some _ => Ok (false, db)
  | None =>
    if attempt_taken db row then Err unique_violation
    else if negb (task_exists db row) then Err foreign_key_violation
    else Ok (true, db <| DB.envelopes := <[EnvelopeRow.evidence_id row := row]> (DB.envelopes db) |>)
  end.

Definition scanStoredEnvelope (row : option EnvelopeRow.t) (evidenceID : string) : result EvidenceEnvelope.t :=
  match row with
  | None => Err ErrEnvelopeNotFound
  | Some row =>
    if digestDocument (EnvelopeRow.document row) !=? EnvelopeRow.document_digest row then Err ErrEnvelopeIntegrity
    else match decodeEnvelope (EnvelopeRow.document row) with
    | Err e => Err e
    | Ok e =>
      if (EvidenceID e !=? evidenceID) || (TenantID e !=? EnvelopeRow.tenant_id row) || (TaskID e !=? EnvelopeRow.task_id row) ||
         (AcceptedAttemptID e !=? EnvelopeRow.accepted_attempt_id row) || negb (FencingToken e =? EnvelopeRow.fencing_token row) ||
         (ExecutionGrantID e !=? EnvelopeRow.execution_grant_id row) || (TargetID e !=? EnvelopeRow.target_id row) ||
         (RecipeID e !=? EnvelopeRow.recipe_id row) ||
         negb (Truncate (ObservedAt e) Microsecond =? EnvelopeRow.observed_at row) ||
         negb (Truncate (ValidUntil e) Microsecond =? EnvelopeRow.valid_until row) then Err ErrEnvelopeIntegrity
      else Ok e
    end
  end.

Definition GetForTenant (tenantID evidenceID : string) (db : DB.t) : result EvidenceEnvelope.t :=
  if (tenantID ==? "") || (evidenceID ==? "") then Err (Text "evidence database and identity are required")
  else if negb (all_encodable [evidenceID; tenantID]) then Err (Wrapf "get evidence envelope: " invalid_text "")
  else scanStoredEnvelope
    (match DB.envelopes db !! evidenceID with
     | Some row => if EnvelopeRow.tenant_id row ==? tenantID then Some row else None
     | None => None
     end) evidenceID.
Definition GetByID (evidenceID : string) (db : DB.t) : result EvidenceEnvelope.t :=
  if evidenceID ==? "" then Err (Text "evidence database and identity are required")
  else if negb (encodable evidenceID) then Err (Wrapf "get evidence envelope: " invalid_text "")
  else scanStoredEnvelope (DB.envelopes db !! evidenceID) evidenceID.

Definition Create (ts : Z) (e : EvidenceEnvelope.t) (db : DB.t) : result unit * DB.t :=
  match encodeEnvelope e with
  | Err err => (Err err, db)
  | Ok document =>
    match insert_envelope (envelope_params e) (envelope_row ts e document) db with
    | Err err => (Err (Wrapf "insert evidence envelope: " err ""), db)
    | Ok (true, db) => (Ok tt, db)
    | Ok (false, db) =>
      match GetForTenant (TenantID e) (EvidenceID e) db with
      | Err err => (Err err, db)
      | Ok existing =>
        match encodeEnvelope existing with
        | Err err => (Err err, db)
        | Ok existingDocument =>
          if (EvidenceID existing !=? EvidenceID e) || (existingDocument !=? document) then (Err ErrEnvelopeConflict, db)
          else (Ok tt, db)
        end
      end
    end
  end.
End PostgresRepository.
Definition postgres_envelopes (ts : Z) : EnvelopeRepository DB.t := {|
  envelope_Create := PostgresRepository.Create ts; envelope_GetForTenant := PostgresRepository.GetForTenant;
  envelope_GetByID := PostgresRepository.GetByID |}.

(** ** The pipeline *)
Definition ErrQuarantined :=
  New "sanitise.ErrQuarantined" "captured payload was quarantined by sanitisation policy".

(** [sanitise.Transformer]; some transformers state a normaliser version. *)
Module Transformer.
Record t := mk {
  Transform : string -> result (string * TransformationManifest.t);
  NormaliserVersion : option string }.
End Transformer.

Module PipelineSink.
Record t (P : Type) := mk {
  Sanitiser : Transformer.t; Parser : InterfaceStateParser.t; Assembler_ : Assembler.t P; TransportName : string;
  CurrentEncryptionKey : string -> string -> result string; CollectorVersion : string; NormaliserVersion : string;
  Validity : Z }.
Arguments mk {P}.
Arguments Sanitiser {P}.
Arguments Parser {P}.
Arguments Assembler_ {P}.
Arguments TransportName {P}.
Arguments CurrentEncryptionKey {P}.
Arguments CollectorVersion {P}.
Arguments NormaliserVersion {P}.
Arguments Validity {P}.

(** The collaborators are there; [None] stands for a nil key provider. *)
Definition NewPipelineSinkWithRepositories {P} (sanitiser : Transformer.t) (parser : InterfaceStateParser.t)
    (assembler : Assembler.t P) (transportName : string) (encryptionKeys : option (string -> string -> result string))
    (collectorVersion normaliserVersion : string) (validity : Z) : result (t P) :=
  match encryptionKeys with
  | None => Err (Text "pipeline stores, identities, versions and positive validity are required")
  | Some encryptionKeys =>
    if (transportName ==? "") || (collectorVersion ==? "") || (normaliserVersion ==? "") || (validity <=? 0) then
      Err (Text "pipeline stores, identities, versions and positive validity are required")
    else
      let sink := mk sanitiser parser assembler transportName encryptionKeys collectorVersion normaliserVersion validity in
      match Transformer.NormaliserVersion sanitiser with
      | Some version =>
        if version !=? normaliserVersion then
          Err (Text "pipeline normaliser version does not match transformer identity")
        else Ok sink
      | None => Ok sink
      end
  end.
(** With one fixed encryption key. *)
Definition NewPipelineSink {P} (sanitiser : Transformer.t) (parser : InterfaceStateParser.t) (assembler : Assembler.t P)
    (transportName encryptionKeyRef collectorVersion normaliserVersion : string) (validity : Z) : result (t P) :=
  if encryptionKeyRef ==? "" then Err (Text "pipeline encryption key reference is required")
  else NewPipelineSinkWithRepositories sanitiser parser assembler transportName
    (Some (EncryptionKeyring.StaticCurrentEncryptionKey encryptionKeyRef)) collectorVersion normaliserVersion validity.

Section Operations.
Context `{UnicodeTables} {P : Type} `{SigningProvider P} {St : Type} `{PipelineStore St} `{AttemptVerifier St}
  `{EnvelopeRepository St} (s : t P).

Definition attempt_of (task : Task.t) (lease : Lease.t) : string :=
  "attempt-" +:+ Task.ID task +:+ "-" +:+ itoa (Lease.FencingToken lease).
Definition assembly_input (task : Task.t) (lease : Lease.t) (captured : CapturedBytes.t) (now : Z)
    (capturedRef : CapturedRef.t) (sanitisedRef : SanitisedRef.t) (observation : InterfaceOperationalState.t) : AssemblyInput.t :=
  AssemblyInput.mk (Task.TenantID task) (Task.ClaimFingerprint task) (Task.ID task) (Task.TargetSnapshotID task)
    (Task.TargetID task) (Task.RecipeID task) (Task.RecipeVersion task) (Task.TriggerDecisionID task)
    (Task.PlanningDecisionID task) (Task.ExecutionDecisionID task) (Task.ExecutionGrantID task) (attempt_of task lease)
    (Lease.FencingToken lease) (Task.CompatibilityHash task) capturedRef sanitisedRef
    (InterfaceStateParser.ID (Parser s)) (InterfaceStateParser.Version (Parser s)) (NormaliserVersion s) 1
    (now + Validity s) observation (Lease.Owner lease) (CollectorVersion s)
    ("audit-" +:+ Task.ID task +:+ "-" +:+ hex_EncodeToString (firstn 8 (CapturedBytes.Digest captured))) now.

(** [now] is the sink's clock reading. *)
Definition WriteCaptured (now : Z) (task : Task.t) (lease : Lease.t) (captured : CapturedBytes.t) (st : St) :
    result (string * string) * St :=
  if CapturedBytes.TargetID captured !=? Task.TargetID task then
    (Err (Text "captured target does not match task target"), st)
  else if Sum256 (bytes (CapturedBytes.Payload captured)) !=? CapturedBytes.Digest captured then
    (Err (Text "captured payload digest does not match transport metadata"), st)
  else if CapturedBytes.MediaType captured ==? "" then (Err (Text "captured payload media type is required"), st)
  else
    let attemptID := attempt_of task lease in
    match CurrentEncryptionKey s (Task.TenantID task) "captured-artefact" with
    | Err e => (Err (Wrapf "resolve captured artefact encryption key: " e ""), st)
    | Ok encryptionKeyRef =>
    match PutCapturedForTenant (Task.TenantID task) (CapturedBytes.Payload captured) (CapturedBytes.MediaType captured)
            (TransportName s) attemptID encryptionKeyRef (CapturedBytes.CapturedAt captured) st with
    | (Err e, st) => (Err e, st)
    | (Ok capturedRef, st) =>
    match Transformer.Transform (Sanitiser s) (CapturedBytes.Payload captured) with
    | Err e => (Err e, st)
    | Ok (sanitisedPayload, manifest) =>
    let mediaType := if TransformationManifest.Quarantined manifest then "application/json" else CapturedBytes.MediaType captured in
    match PutSanitisedForTenant (Task.TenantID task) sanitisedPayload mediaType capturedRef manifest now st with
    | (Err e, st) => (Err e, st)
    | (Ok sanitisedRef, st) =>
      if TransformationManifest.Quarantined manifest then
        (Err (Wrapf ("sanitised artefact " +:+ quote (SanitisedRef.URI sanitisedRef) +:+ ": ") ErrQuarantined ""), st)
      else match ParseWithManifest (Parser s) sanitisedPayload (SanitisedRef.MediaType sanitisedRef) manifest with
      | Err e => (Err e, st)
      | Ok observation =>
      match Assembler.AssembleContext (Assembler_ s)
              (assembly_input task lease captured now capturedRef sanitisedRef observation) st with
      | Err e => (Err e, st)
      | Ok envelope =>
      match envelope_Create envelope st with
      | (Err e, st) => (Err (Wrapf "persist evidence envelope: " e ""), st)
      | (Ok _, st) => (Ok (attemptID, EvidenceID envelope), st)
      end end end end end end end.

Definition Get (evidenceID : string) (st : St) : result EvidenceEnvelope.t := envelope_GetByID evidenceID st.
Definition GetForTenant (tenantID evidenceID : string) (st : St) : result EvidenceEnvelope.t :=
  envelope_GetForTenant tenantID evidenceID st.
End Operations.
End PipelineSink.

(** ** The envelope round trip *)

(** Text that JSON represents exactly, numbers of their Go types, and no empty
    slice, which the document leaves out. *)
Definition captured_fits (c : CapturedRef.t) : Prop :=
  Forall (fun s => ValidString s = true)
    [CapturedRef.URI c; CapturedRef.SHA256Digest c; CapturedRef.MediaType c; CapturedRef.Transport c; CapturedRef.AttemptID c;
     CapturedRef.EncryptionKeyRef c] /\ uint64_range (CapturedRef.ByteCount c).
Definition sanitised_fits (s : SanitisedRef.t) : Prop :=
  Forall (fun s => ValidString s = true)
    [SanitisedRef.URI s; SanitisedRef.SHA256Digest s; SanitisedRef.MediaType s; SanitisedRef.ParentCapturedDigest s;
     SanitisedRef.TransformationManifestDigest s] /\ uint64_range (SanitisedRef.ByteCount s).
Definition state_fits (o : InterfaceOperationalState.t) : Prop :=
  Forall (fun s => ValidString s = true)
    ([InterfaceOperationalState.SchemaVersion o; InterfaceOperationalState.InterfaceName o;
      InterfaceOperationalState.OperationalState o] ++ elems (InterfaceOperationalState.TaintedFields o)) /\
  copy_slice (InterfaceOperationalState.TaintedFields o) = InterfaceOperationalState.TaintedFields o.
Definition attribution_fits (a : Attribution.t) : Prop :=
  Forall (fun s => ValidString s = true)
    [Attribution.CollectorIdentity a; Attribution.CollectorVersion a; Attribution.EvidenceAssemblerVersion a;
     Attribution.AuditReference a; Attribution.SignatureAlgorithm a; Attribution.SigningKeyRef a].
Definition lineage_fields (e : EvidenceEnvelope.t) : list string :=
  [EvidenceID e; TenantID e; ClaimFingerprint e; TaskID e; TargetSnapshotID e; TargetID e; RecipeID e; RecipeVersion e;
   TriggerDecisionID e; PlanningDecisionID e; ExecutionDecisionID e; ExecutionGrantID e; AcceptedAttemptID e;
   CompatibilityRecordHash e; ParserID e; ParserVersion e; NormaliserVersion e].
Definition envelope_fits (e : EvidenceEnvelope.t) : Prop :=
  Forall (fun s => ValidString s = true) (lineage_fields e) /\ int64_range (FencingToken e) /\ int64_range (Completeness e) /\
  captured_fits (Captured e) /\ sanitised_fits (Sanitised e) /\ state_fits (InterfaceState e) /\
  attribution_fits (Attribution_ e).

Ltac split_fits := repeat match goal with
  | H : _ /\ _ |- _ => destruct H
  | H : Forall _ (_ :: _) |- _ => apply list.Forall_cons in H
  | H : Forall _ (_ ++ _) |- _ => apply list.Forall_app in H
  end.

(** Projections only: the trees and decoders are not to be unfolded. *)
Ltac project := cbn [CapturedRef.URI CapturedRef.SHA256Digest CapturedRef.ByteCount CapturedRef.MediaType CapturedRef.Transport
  CapturedRef.CapturedAt CapturedRef.AttemptID CapturedRef.EncryptionKeyRef SanitisedRef.URI SanitisedRef.SHA256Digest
  SanitisedRef.ByteCount SanitisedRef.MediaType SanitisedRef.ParentCapturedDigest SanitisedRef.TransformationManifestDigest
  SanitisedRef.CreatedAt InterfaceOperationalState.SchemaVersion InterfaceOperationalState.InterfaceName
  InterfaceOperationalState.OperationalState InterfaceOperationalState.ObservedAt InterfaceOperationalState.TaintedFields
  Attribution.CollectorIdentity Attribution.CollectorVersion Attribution.EvidenceAssemblerVersion Attribution.AuditReference
  Attribution.SignatureAlgorithm Attribution.SigningKeyRef Attribution.Signature EvidenceID TenantID ClaimFingerprint TaskID
  TargetSnapshotID TargetID RecipeID RecipeVersion TriggerDecisionID PlanningDecisionID ExecutionDecisionID ExecutionGrantID
  AcceptedAttemptID FencingToken CompatibilityRecordHash Captured Sanitised ParserID ParserVersion NormaliserVersion
  Completeness ObservedAt ValidUntil InterfaceState Attribution_ option_map default] in *.

Lemma captured_roundtrip c : captured_fits c -> jtime_ok (CapturedRef.CapturedAt c) = true ->
  dec_struct dec_captured zero_captured (captured_tree c) = Some c.
Proof.
  destruct c as [u d n m t at_ a k]. unfold captured_fits. intros Hf Ht. project. split_fits.
  unfold captured_tree, dec_struct, dec_captured, zero_captured. project. by decode_members.
Qed.
Lemma sanitised_roundtrip s : sanitised_fits s -> jtime_ok (SanitisedRef.CreatedAt s) = true ->
  dec_struct dec_sanitised zero_sanitised (sanitised_tree s) = Some s.
Proof.
  destruct s as [u d n m p t at_]. unfold sanitised_fits. intros Hf Ht. project. split_fits.
  unfold sanitised_tree, dec_struct, dec_sanitised, zero_sanitised. project. by decode_members.
Qed.
Lemma state_roundtrip o : state_fits o -> jtime_ok (InterfaceOperationalState.ObservedAt o) = true ->
  dec_struct dec_state zero_state (state_tree o) = Some o.
Proof.
  destruct o as [v n s at_ tf]. unfold state_fits. intros [Hf Hc] Ht. project. split_fits.
  assert (Htf : Forall (elem_reads jstr dec_string) (elems tf)).
  { eapply List.Forall_impl; [|eassumption]. intros x Hx. by split; [|apply dec_string_jstr]. }
  unfold state_tree, dec_struct, dec_state, zero_state, dec_strings. project. decode_members. by rewrite Hc.
Qed.
Lemma attribution_roundtrip a s : attribution_fits a -> Attribution.Signature a = Some s ->
  dec_struct dec_attribution zero_attribution (attribution_tree a) = Some a.
Proof.
  destruct a as [c v e r g k sig]. unfold attribution_fits. intros Hf Hs. project. subst sig. split_fits.
  unfold attribution_tree, dec_struct, dec_attribution, zero_attribution. project. by decode_members.
Qed.

Lemma envelope_roundtrip e s :
  envelope_fits e -> forallb jtime_ok (envelope_times e) = true -> Attribution.Signature (Attribution_ e) = Some s ->
  dec_envelope (fields_of (envelope_tree e)) = Some e.
Proof.
  destruct e as [id tn cf tk sn tg rc rv td pd ed eg at_ tok ch cap san pi pv nv cm ob vu st att].
  unfold envelope_fits, lineage_fields, envelope_times. intros (Hs & Htok & Hcm & Hcap & Hsan & Hst & Hatt) Ht Hsig. project.
  cbn [forallb] in Ht. rewrite !andb_true_iff in Ht. destruct Ht as (Ht1 & Ht2 & Ht3 & Ht4 & Ht5 & _).
  apply captured_roundtrip in Hcap; [|done]. apply sanitised_roundtrip in Hsan; [|done].
  apply state_roundtrip in Hst; [|done]. apply (attribution_roundtrip _ s) in Hatt; [|done].
  unfold envelope_tree, dec_envelope. cbn [fields_of]. project. split_fits.
  generalize dependent (captured_tree cap). generalize dependent (sanitised_tree san).
  generalize dependent (state_tree st). generalize dependent (attribution_tree att). intros tatt Hatt tst Hst tsan Hsan tcap Hcap.
  assert (tatt <> TNull /\ tst <> TNull /\ tsan <> TNull /\ tcap <> TNull) as (? & ? & ? & ?) by (split_and!; by intros ->).
  by decode_members.
Qed.

(** The tree prints and parses. *)
Lemma uint_tree_ok n : uint64_range n -> tree_ok (jint n).
Proof. intros Hn. by apply (good_uint 0). Qed.
Lemma slice_tree_ok k s : tree_ok (TObj (omitempty (no_elems s) k (jslice jstr s))).
Proof.
  unfold omitempty. destruct (no_elems s); [done|]. cbn [tree_ok foldr]. split; [|done]. apply key_ok.
  apply (good_slice 1 jstr s); [done|]. apply list.Forall_forall. intros x _. by apply good_str.
Qed.
Lemma tree_ok_app a b : tree_ok (TObj a) -> tree_ok (TObj b) -> tree_ok (TObj (a ++ b)).
Proof. induction a as [|kv a IH]; [done|]. cbn [tree_ok foldr app]. intros [H1 H2] Hb. by split; [|apply IH]. Qed.

Ltac member_ok := first [apply jstr_ok | by apply jint_ok | by apply uint_tree_ok | by apply jtime_tree_ok | apply jbytes_ok | assumption].
Ltac members_ok := cbn [tree_ok foldr]; repeat (split; [apply key_ok; member_ok|]); try done.

Lemma envelope_tree_ok e :
  envelope_fits e -> forallb jtime_ok (envelope_times e) = true -> tree_ok (envelope_tree e) /\ nesting (envelope_tree e) <= max_depth.
Proof.
  intros (_ & Htok & Hcm & [_ Hcap] & [_ Hsan] & _ & _) Ht. unfold envelope_times in Ht. cbn [forallb] in Ht.
  rewrite !andb_true_iff in Ht. destruct Ht as (Ht1 & Ht2 & Ht3 & Ht4 & Ht5 & _). split.
  - assert (H1 : tree_ok (captured_tree (Captured e))) by (unfold captured_tree; members_ok).
    assert (H2 : tree_ok (sanitised_tree (Sanitised e))) by (unfold sanitised_tree; members_ok).
    assert (H3 : tree_ok (attribution_tree (Attribution_ e))) by (unfold attribution_tree; members_ok).
    assert (H4 : tree_ok (state_tree (InterfaceState e))).
    { unfold state_tree. apply tree_ok_app; [members_ok|apply slice_tree_ok]. }
    unfold envelope_tree. members_ok.
  - assert (Hn : nesting (state_tree (InterfaceState e)) <= 2).
    { unfold state_tree, omitempty, no_elems, jslice, elems. destruct (InterfaceOperationalState.TaintedFields (InterfaceState e)) as [[|x l]|];
        cbn [nesting foldr app map snd key jstr jtime]; try lia.
      assert (Hl : foldr (fun x n => Z.max (nesting x) n) 0 (map jstr l) <= 0); [|unfold jstr in *; lia].
      induction l as [|y l IH]; cbn [map foldr nesting jstr]; lia. }
    unfold envelope_tree, max_depth. cbn [nesting foldr snd key jstr jint jtime].
    assert (Hb : nesting (attribution_tree (Attribution_ e)) <= 1).
    { unfold attribution_tree. cbn [nesting foldr snd key jstr]. destruct (Attribution.Signature (Attribution_ e)); cbn; lia. }
    assert (Hc : nesting (captured_tree (Captured e)) <= 1 /\ nesting (sanitised_tree (Sanitised e)) <= 1).
    { unfold captured_tree, sanitised_tree. cbn [nesting foldr snd key jstr jint jtime]. lia. }
    lia.
Qed.

Lemma encode_facts e document :
  encodeEnvelope e = Ok document ->
  validatePersistedEnvelope e = None /\ forallb jtime_ok (envelope_times e) = true /\ document = Marshal (envelope_tree e) /\
  1 <= len document <= maximumDocumentBytes.
Proof.
  unfold encodeEnvelope, marshal_envelope. destruct (validatePersistedEnvelope e); [done|]. destruct (forallb jtime_ok _); [|done].
  destruct (_ || _) eqn:Hl; [done|]. intros Hd. injection Hd as <-. reflect_bools. unfold len in *. split_and!; try done; lia.
Qed.

(** What was encoded is decoded unchanged. *)
Lemma decode_encode e document : envelope_fits e -> encodeEnvelope e = Ok document -> decodeEnvelope document = Ok e.
Proof.
  intros Hf He. apply encode_facts in He as (Hv & Ht & -> & _). destruct (envelope_tree_ok e Hf Ht) as [Hok Hn].
  unfold decodeEnvelope, members. rewrite parse_Marshal by done.
  assert (Hs : exists s, Attribution.Signature (Attribution_ e) = Some s).
  { unfold validatePersistedEnvelope in Hv. case_match; [done|]. destruct (Attribution.Signature _) as [s|]; [by exists s|].
    by rewrite orb_true_r in Hv. }
  destruct Hs as [s Hs]. pose proof (envelope_roundtrip e s Hf Ht Hs) as Hr.
  unfold envelope_tree in Hr |- *. cbn [fields_of] in Hr. by rewrite Hr, Hv.
Qed.
