(* ===== verification/EvidenceStore.v ===== *)
(** * Stored evidence

    The envelope repository over PostgreSQL, used by any tenants in any order,
    and the evidence pipeline over the durable artefact store, the task
    repository and that repository: from captured bytes to evidence that can be
    traced back to them. *)
From S2P Require Import Prelude GoStrings GoEncoding GoDecoding Json JsonStruct Keys Task Schema TaskPostgres Grants Outbox Resolution ResolutionPostgres.
From S2P Require Import Planning Worker Artefacts ArtefactStore Parsing Evidence.
Local Open Scope Z_scope.
Import EvidenceEnvelope (EvidenceID, TenantID, TaskID, AcceptedAttemptID).

(** ** The repository *)

(** Every row was written for an envelope that JSON represents exactly, under
    its identifier, and an attempt has at most one. *)
Definition written (row : EnvelopeRow.t) (e : EvidenceEnvelope.t) : Prop :=
  envelope_fits e /\ exists ts document, encodeEnvelope e = Ok document /\
    all_encodable (PostgresRepository.envelope_params e) = true /\ row = PostgresRepository.envelope_row ts e document.
Definition envelopes_ok (db : DB.t) : Prop :=
  map_Forall (fun id row => EnvelopeRow.evidence_id row = id /\ exists e, written row e) (DB.envelopes db) /\
  forall id id' row row', DB.envelopes db !! id = Some row -> DB.envelopes db !! id' = Some row' ->
    PostgresRepository.attempt_key row = PostgresRepository.attempt_key row' -> id = id'.
Definition stored_envelope (db : DB.t) (e : EvidenceEnvelope.t) : Prop :=
  exists row, DB.envelopes db !! EvidenceID e = Some row /\ written row e.

Lemma persisted_nonempty e document :
  encodeEnvelope e = Ok document -> Forall (fun s => s <> "") (persisted_fields e).
Proof.
  intros (Hv & _)%encode_facts. unfold validatePersistedEnvelope in Hv. destruct (existsb _ _) eqn:Hx; [done|].
  apply list.Forall_forall. intros s Hs ->. apply not_true_iff_false in Hx. apply Hx, existsb_exists. exists "".
  split; [by apply list_elem_of_In|done].
Qed.

Lemma written_scan row e :
  written row e -> PostgresRepository.scanStoredEnvelope (Some row) (EvidenceID e) = Ok e.
Proof.
  intros (Hf & ts & document & He & _ & ->). unfold PostgresRepository.scanStoredEnvelope, PostgresRepository.envelope_row.
  cbn [EnvelopeRow.document EnvelopeRow.document_digest EnvelopeRow.tenant_id EnvelopeRow.task_id EnvelopeRow.accepted_attempt_id
    EnvelopeRow.fencing_token EnvelopeRow.execution_grant_id EnvelopeRow.target_id EnvelopeRow.recipe_id EnvelopeRow.observed_at
    EnvelopeRow.valid_until]. rewrite (decode_encode e document Hf He).
  rewrite !bool_decide_eq_true_2 by reflexivity. unfold normaliseTime. by rewrite !Z.eqb_refl.
Qed.

Lemma written_unique row e e' : written row e -> written row e' -> e = e'.
Proof.
  intros Hw Hw'. pose proof (written_scan row e Hw) as H1. pose proof (written_scan row e' Hw') as H2.
  destruct Hw as (_ & ts & d & _ & _ & ->). destruct Hw' as (_ & ts' & d' & _ & _ & Heq).
  assert (Hid : EvidenceID e = EvidenceID e') by (by apply (f_equal EnvelopeRow.evidence_id) in Heq). congruence.
Qed.

Lemma stored_reads db e :
  envelopes_ok db -> stored_envelope db e ->
  PostgresRepository.GetForTenant (TenantID e) (EvidenceID e) db = Ok e /\
  PostgresRepository.GetByID (EvidenceID e) db = Ok e /\
  forall tenant, tenant <> TenantID e -> is_ok (PostgresRepository.GetForTenant tenant (EvidenceID e) db) = false.
Proof.
  intros Hok (row & Hrow & Hw). pose proof (written_scan row e Hw) as Hscan.
  destruct Hw as (Hf & ts & document & He & Hp & Hr). pose proof (persisted_nonempty e document He) as Hne.
  unfold persisted_fields in Hne. rewrite !list.Forall_cons in Hne. destruct Hne as (Hid & Htn & _).
  unfold all_encodable, PostgresRepository.envelope_params in Hp. cbn [forallb] in Hp. rewrite !andb_true_iff in Hp.
  destruct Hp as (Hpid & Hptn & _).
  assert (Htr : EnvelopeRow.tenant_id row = TenantID e) by by rewrite Hr.
  unfold PostgresRepository.GetForTenant, PostgresRepository.GetByID, all_encodable. cbn [forallb].
  rewrite Hpid, Hrow, Htr, (bool_decide_eq_false_2 _ Hid). split_and!.
  - by rewrite Hptn, (bool_decide_eq_false_2 _ Htn), bool_decide_eq_true_2.
  - done.
  - intros tenant Ht. destruct (_ || _); [done|]. destruct (negb _); [done|]. by rewrite bool_decide_eq_false_2 by congruence.
Qed.

Lemma attempt_taken_spec db row :
  PostgresRepository.attempt_taken db row = false ->
  forall id row', DB.envelopes db !! id = Some row' -> PostgresRepository.attempt_key row' <> PostgresRepository.attempt_key row.
Proof.
  unfold PostgresRepository.attempt_taken. intros Ht id row' Hl Heq. apply not_true_iff_false in Ht.
  apply Ht, existsb_exists. exists row'. split; [|by apply bool_decide_eq_true_2].
  apply in_map_iff. exists (id, row'). split; [done|]. by apply list_elem_of_In, elem_of_map_to_list.
Qed.

(** Creating an envelope loses nothing, changes only this table, and leaves the
    envelope stored when it reports success. *)
Lemma envelope_Create_spec ts e db :
  envelopes_ok db -> (all_encodable (PostgresRepository.envelope_params e) = true -> envelope_fits e) ->
  let '(r, db') := PostgresRepository.Create ts e db in
  envelopes_ok db' /\ DB.envelopes db ⊆ DB.envelopes db' /\ DB.tasks db' = DB.tasks db /\ DB.artefacts db' = DB.artefacts db /\
  (is_ok r = true -> stored_envelope db' e).
Proof.
  intros Hok Hfits. unfold PostgresRepository.Create. destruct (encodeEnvelope e) as [document|err] eqn:He; [|done].
  unfold PostgresRepository.insert_envelope. destruct (all_encodable _) eqn:Hp; [|done]. cbn [negb].
  specialize (Hfits eq_refl) as Hf. set (row := PostgresRepository.envelope_row ts e document).
  assert (Hw : written row e) by (split; [done|]; by exists ts, document).
  destruct (EnvelopeRow.check row); [|done]. cbn [negb]. change (EnvelopeRow.evidence_id row) with (EvidenceID e).
  destruct (DB.envelopes db !! EvidenceID e) as [old|] eqn:Hold.
  - destruct (PostgresRepository.GetForTenant (TenantID e) (EvidenceID e) db) as [existing|] eqn:Hget; [|done].
    destruct (encodeEnvelope existing) as [d'|] eqn:He'; [|done]. destruct (_ || _) eqn:Hc; [done|]. reflect_bools.
    split_and!; try done. intros _. destruct (proj1 Hok _ _ Hold) as [Hid [e0 Hw0]].
    assert (Hid0 : EvidenceID e0 = EvidenceID e) by (rewrite <- Hid; by destruct Hw0 as (_ & ? & ? & _ & _ & ->)).
    destruct (stored_reads db e0 Hok) as (_ & Hby & _); [exists old; by rewrite Hid0|].
    assert (existing = e0) as ->.
    { unfold PostgresRepository.GetForTenant in Hget. destruct (_ || _); [done|]. destruct (negb _); [done|].
      rewrite Hold in Hget. destruct (_ ==? _); [|done]. rewrite <- Hid0, (written_scan old e0 Hw0) in Hget. by injection Hget. }
    assert (e0 = e) as -> by (destruct Hw0 as [Hf0 _]; destruct Hc as [_ ->];
      pose proof (decode_encode e0 _ Hf0 He'); pose proof (decode_encode e _ Hf He); congruence).
    by exists old.
  - destruct (PostgresRepository.attempt_taken db row) eqn:Ht; [done|]. destruct (negb _); [done|].
    pose proof (attempt_taken_spec db row Ht) as Hnew. split_and!; [split| |done|done|].
    + intros id r Hl. change (<[EvidenceID e := row]> (DB.envelopes db) !! id = Some r) in Hl.
      apply lookup_insert_Some in Hl as [[<- <-]|[_ Hl]]; [split; [done|by exists e]|by apply Hok in Hl].
    + intros id id' r r' Hl Hl' Hkey. change (<[EvidenceID e := row]> (DB.envelopes db) !! id = Some r) in Hl.
      change (<[EvidenceID e := row]> (DB.envelopes db) !! id' = Some r') in Hl'.
      apply lookup_insert_Some in Hl as [[<- <-]|[_ Hl]]; apply lookup_insert_Some in Hl' as [[<- <-]|[_ Hl']]; try done.
      * by apply Hnew in Hl'.
      * by apply Hnew in Hl.
      * by eapply (proj2 Hok).
    + by apply insert_subseteq.
    + intros _. exists row. split; [apply lookup_insert_eq|done].
Qed.

(** Envelopes created by anyone, and anything that leaves the table alone. *)
Inductive eop : Type :=
| ECreate (ts : Z) (e : EvidenceEnvelope.t)
| EOther (f : DB.t -> DB.t).
Definition estep (op : eop) (db : DB.t) : result unit * DB.t :=
  match op with
  | ECreate ts e => PostgresRepository.Create ts e db
  | EOther f => (Err (Text "not an envelope operation"), f db)
  end.
Definition eop_ok (op : eop) : Prop :=
  match op with
  | ECreate _ e => envelope_fits e
  | EOther f => forall db, DB.envelopes (f db) = DB.envelopes db
  end.

Lemma stored_grows db db' e : DB.envelopes db ⊆ DB.envelopes db' -> stored_envelope db e -> stored_envelope db' e.
Proof. intros Hs (row & Hrow & Hw). exists row. by split; [eapply lookup_weaken|]. Qed.

Lemma estep_spec log op db :
  eop_ok op -> envelopes_ok db /\ (forall ts e, (ECreate ts e, Ok tt) ∈ log -> stored_envelope db e) ->
  envelopes_ok (estep op db).2 /\
  (forall ts e, (ECreate ts e, Ok tt) ∈ log ++ [(op, (estep op db).1)] -> stored_envelope (estep op db).2 e).
Proof.
  intros Hop [Hok Hlog]. destruct op as [ts e|f].
  - pose proof (envelope_Create_spec ts e db Hok (fun _ => Hop)) as Hc. cbn [estep]. destruct (PostgresRepository.Create ts e db) as [r db'].
    destruct Hc as (Hok' & Hsub & _ & _ & Hst). split; [done|]. intros ts' e' [Hin|Hin]%elem_of_app.
    + eapply stored_grows; [done|]. by eapply Hlog.
    + apply list_elem_of_singleton in Hin. injection Hin as -> -> Hr. apply Hst. cbn [fst] in Hr. by rewrite <- Hr.
  - cbn [estep fst snd]. unfold envelopes_ok, stored_envelope in *. rewrite (Hop db). split; [done|].
    intros ts e [Hin|Hin]%elem_of_app; [by eapply Hlog|]. by apply list_elem_of_singleton in Hin.
Qed.

(** C39.  Evidence is immutable and unique per attempt: whatever envelopes
    anyone creates in whatever order, every envelope whose creation was reported
    as successful is read back at the end exactly as it was, by its identifier
    and by its tenant, by no other tenant, and it is the only envelope accepted
    for its tenant, task and attempt. *)
Theorem envelopes_immutable ops db0 (Hops : Forall eop_ok ops) (Hok : envelopes_ok db0) :
  let '(log, db) := run estep ops db0 in
  forall ts e, (ECreate ts e, Ok tt) ∈ log ->
  PostgresRepository.GetForTenant (TenantID e) (EvidenceID e) db = Ok e /\
  PostgresRepository.GetByID (EvidenceID e) db = Ok e /\
  (forall tenant, tenant <> TenantID e -> is_ok (PostgresRepository.GetForTenant tenant (EvidenceID e) db) = false) /\
  (forall ts' e', (ECreate ts' e', Ok tt) ∈ log ->
     TenantID e' = TenantID e -> TaskID e' = TaskID e -> AcceptedAttemptID e' = AcceptedAttemptID e -> e' = e).
Proof.
  pose proof (run_log_invariant estep eop_ok (fun log db => envelopes_ok db /\
    forall ts e, (ECreate ts e, Ok tt) ∈ log -> stored_envelope db e) estep_spec ops db0 Hops) as Hinv.
  destruct (run estep ops db0) as [log db]. cbn [fst snd] in Hinv.
  destruct Hinv as [Hok' Hlog]; [split; [done|]; by intros ? ? ?%elem_of_nil|].
  intros ts e Hin. pose proof (Hlog ts e Hin) as Hst. destruct (stored_reads db e Hok' Hst) as (H1 & H2 & H3).
  split_and!; [done..|]. intros ts' e' Hin' Ht Hk Ha. destruct (Hlog ts' e' Hin') as (row' & Hrow' & Hw').
  destruct Hst as (row & Hrow & Hw).
  assert (Hid : EvidenceID e' = EvidenceID e).
  { apply (proj2 Hok' _ _ row' row); [done..|]. destruct Hw as (_ & ? & ? & _ & _ & ->), Hw' as (_ & ? & ? & _ & _ & ->).
    unfold PostgresRepository.attempt_key, PostgresRepository.envelope_row. cbn. by rewrite Ht, Hk, Ha. }
  rewrite Hid, Hrow in Hrow'. injection Hrow' as <-. by eapply written_unique.
Qed.

(** ** The pipeline *)

(** Before each of its writes other clients may have acted. *)
Inductive stage : Type := Capturing | Sanitising | Persisting.

Section Pipeline.
Context `{UT : UnicodeTables} `{JD : JsonbDocuments} {B : Type} `{BL : BlobLaws B} {P : Type} `{SL : SigningLaws P}.
Context (ts : Z) (others : stage -> @Sys B -> @Sys B).
Abbreviation Sys := (@Sys B).

Definition pipeline_store : PipelineStore Sys := {|
  PutCapturedForTenant tenantID payload mediaType transport attemptID encryptionKeyRef capturedAt st :=
    @DurableStore.PutCaptured Sys sys_blobs (sys_metadata ts) tenantID payload mediaType transport attemptID encryptionKeyRef
      capturedAt (others Capturing st);
  PutSanitisedForTenant tenantID payload mediaType parent manifest createdAt st :=
    @DurableStore.PutSanitised Sys sys_blobs (sys_metadata ts) tenantID payload mediaType parent manifest createdAt
      (others Sanitising st) |}.
Definition pipeline_verifier : AttemptVerifier Sys := {|
  VerifyCurrentAttempt taskID collectorID fencingToken at_ st :=
    TaskPostgres.VerifyCurrentAttempt taskID collectorID fencingToken at_ st.1 |}.
Definition pipeline_envelopes : EnvelopeRepository Sys := {|
  envelope_Create e st :=
    let st := others Persisting st in
    let '(r, db) := PostgresRepository.Create ts e st.1 in (r, (db, st.2));
  envelope_GetForTenant tenantID evidenceID st := PostgresRepository.GetForTenant tenantID evidenceID st.1;
  envelope_GetByID evidenceID st := PostgresRepository.GetByID evidenceID st.1 |}.

Definition Write (s : PipelineSink.t P) : Z -> Task.t -> Lease.t -> CapturedBytes.t -> Sys -> result (string * string) * Sys :=
  @PipelineSink.WriteCaptured UT P _ Sys pipeline_store pipeline_verifier pipeline_envelopes s.

(** The state is in order, and nothing stored is lost. *)
Definition stores_ok (st : Sys) : Prop := sys_ok st /\ envelopes_ok st.1.
Definition keeps (st st' : Sys) : Prop := grows st st' /\ DB.envelopes st.1 ⊆ DB.envelopes st'.1.
Definition others_ok : Prop := forall at_ st, stores_ok st -> stores_ok (others at_ st) /\ keeps st (others at_ st).

#[local] Instance keeps_preorder : PreOrder keeps.
Proof.
  split; [intros st; by repeat split|]. intros a b c [[Hab Hab'] Hab''] [[Hbc Hbc'] Hbc''].
  split; [split|]; [by etrans|auto|by etrans].
Qed.

(** Text in what the task, the lease and the configuration supply. *)
Definition attempt_fits (task : Task.t) (lease : Lease.t) : Prop :=
  Forall (fun s => ValidString s = true)
    [Task.TenantID task; Task.ClaimFingerprint task; Task.ID task; Task.TargetSnapshotID task; Task.TargetID task;
     Task.RecipeID task; Task.RecipeVersion task; Task.TriggerDecisionID task; Task.PlanningDecisionID task;
     Task.ExecutionDecisionID task; Task.ExecutionGrantID task; Task.CompatibilityHash task; Lease.Owner lease] /\
  int64_range (Lease.FencingToken lease).
Definition sink_fits (s : PipelineSink.t P) : Prop :=
  Forall (fun s => ValidString s = true)
    [InterfaceStateParser.ID (PipelineSink.Parser s); InterfaceStateParser.Version (PipelineSink.Parser s);
     PipelineSink.NormaliserVersion s; PipelineSink.CollectorVersion s; Assembler.version (PipelineSink.Assembler_ s)] /\
  (forall k, CurrentSigningKey (Assembler.signing (PipelineSink.Assembler_ s)) "evidence-envelope" = Ok k ->
     ValidString (SigningKey.Algorithm k) = true /\ ValidString (SigningKey.Reference k) = true) /\
  (forall payload out manifest, Transformer.Transform (PipelineSink.Sanitiser s) payload = Ok (out, manifest) ->
     manifest_fits manifest).

(** What the stores return. *)
Lemma Create_encodable m db :
  is_ok (Artefacts.PostgresRepository.Create ts m db).1 = true ->
  all_encodable (Artefacts.PostgresRepository.artefact_params m) = true.
Proof.
  unfold Artefacts.PostgresRepository.Create, Artefacts.PostgresRepository.insert_artefact.
  destruct (validateMetadata m); [done|]. destruct (Artefacts.PostgresRepository.stored_manifest m); [|done].
  by destruct (all_encodable _).
Qed.
Lemma persist_encodable m payload (st : Sys) :
  is_ok (@DurableStore.persist Sys sys_blobs (sys_metadata ts) m payload st).1 = true ->
  Forall (fun s => ValidString s = true) (Artefacts.PostgresRepository.artefact_params m).
Proof.
  unfold DurableStore.persist. cbn [PutIfAbsent metadata_Create sys_blobs sys_metadata].
  destruct (PutIfAbsent _ _ _ _ st.2) as [[u|e] b]; [|done]. cbn [fst snd].
  pose proof (Create_encodable m st.1) as Hc. destruct (Artefacts.PostgresRepository.Create ts m st.1) as [[u'|e] db]; [|done].
  intros _. specialize (Hc eq_refl). unfold all_encodable in Hc. rewrite forallb_forall in Hc.
  apply list.Forall_forall. intros s Hs%list_elem_of_In. specialize (Hc s Hs). unfold encodable in Hc. by apply andb_true_iff in Hc as [Hc _].
Qed.
(** Storing artefacts leaves the envelopes alone. *)
Lemma persist_frame m payload (st : Sys) :
  DB.envelopes (@DurableStore.persist Sys sys_blobs (sys_metadata ts) m payload st).2.1 = DB.envelopes st.1.
Proof.
  unfold DurableStore.persist. cbn [PutIfAbsent metadata_Create sys_blobs sys_metadata].
  destruct (PutIfAbsent _ _ _ _ st.2) as [[u|e] b]; [|done]. cbn [fst snd].
  assert (Hc : DB.envelopes (Artefacts.PostgresRepository.Create ts m st.1).2 = DB.envelopes st.1).
  { unfold Artefacts.PostgresRepository.Create, Artefacts.PostgresRepository.insert_artefact, Artefacts.PostgresRepository.insert_lifecycle,
      Artefacts.PostgresRepository.append_event. by repeat (case_match || simplify_eq). }
  destruct (Artefacts.PostgresRepository.Create ts m st.1) as [[u'|e] db]; done.
Qed.

(** What is stored under a reference. *)
Definition holds_digest (st : Sys) (tenant uri payload : string) : Prop :=
  exists stored m, holds_artefact st tenant uri stored m /\ digestBytes stored = digestBytes payload /\ len stored = len payload.

Lemma holds_digest_keeps st st' tenant uri payload : keeps st st' -> holds_digest st tenant uri payload -> holds_digest st' tenant uri payload.
Proof. intros [Hg _] (stored & m & Hh & Hd). exists stored, m. by split; [eapply holds_grows|]. Qed.

Lemma stored_ref_fits m payload (st : Sys) :
  is_ok (@DurableStore.persist Sys sys_blobs (sys_metadata ts) m payload st).1 = true -> uint64_range (Metadata.ByteCount m) ->
  captured_fits (capturedRef m) /\ sanitised_fits (sanitisedRef m).
Proof.
  intros Hp%persist_encodable Hn. unfold Artefacts.PostgresRepository.artefact_params in Hp. rewrite !list.Forall_cons in Hp.
  unfold captured_fits, sanitised_fits, capturedRef, sanitisedRef. project. rewrite !list.Forall_cons. tauto.
Qed.

Lemma bounded_count tenant payload media at_ : validateCommon tenant payload media at_ = None -> uint64_range (len payload).
Proof.
  unfold validateCommon. case_match; [done|]. reflect_bools. unfold uint64_range, max_uint64, MaximumArtefactBytes, len in *. lia.
Qed.
Lemma stores_frame st st1 st' :
  envelopes_ok st1.1 -> keeps st st1 -> DB.envelopes st'.1 = DB.envelopes st1.1 -> sys_ok st' -> grows st1 st' ->
  stores_ok st' /\ keeps st st'.
Proof.
  intros Henv Hk Hfr Hso Hg. split; [split; [done|]|]; [unfold envelopes_ok in *; by rewrite Hfr|].
  etrans; [exact Hk|]. split; [done|]. by rewrite Hfr.
Qed.

Lemma put_captured_spec tenant payload media transport attempt keyref at_ st :
  stores_ok st -> others_ok ->
  let '(r, st') := @PutCapturedForTenant Sys pipeline_store tenant payload media transport attempt keyref at_ st in
  stores_ok st' /\ keeps st st' /\
  forall ref, r = Ok ref -> ref = capturedRef (DurableStore.captured_metadata tenant payload media transport attempt keyref at_) /\
    captured_fits ref /\ holds_digest st' tenant (CapturedRef.URI ref) payload.
Proof.
  intros Hok Ho. destruct (Ho Capturing st Hok) as [[Hok1 Henv] Hk]. cbn [PutCapturedForTenant pipeline_store].
  set (st1 := others Capturing st) in *. clearbody st1.
  pose proof (sstep_spec (SCaptured ts tenant payload media transport attempt keyref at_) st1 I Hok1) as Hs.
  revert Hs. cbn [sstep]. unfold uri_of, DurableStore.PutCaptured. destruct (validateCommon _ _ _ _) eqn:Hv; [done|].
  destruct (_ || _ || _); [done|]. cbv zeta. set (m := DurableStore.captured_metadata _ _ _ _ _ _ _).
  pose proof (persist_frame m payload st1) as Hfr. pose proof (stored_ref_fits m payload st1) as Hfit.
  destruct (DurableStore.persist m payload st1) as [r st']. cbn [fst snd] in *.
  assert (Hn : uint64_range (Metadata.ByteCount m)) by exact (bounded_count _ _ _ _ Hv).
  assert (Hst : sys_ok st' -> grows st1 st' -> stores_ok st' /\ keeps st st') by (intros; by eapply stores_frame).
  destruct r as [u|e]; cbn [fst snd] in *; intros (Hso & Hg & Hsto); (destruct (Hst Hso Hg) as [Hs1 Hs2]; split; [done|]; split; [done|]).
  - intros ref [= <-]. split; [done|]. split; [by apply Hfit|]. destruct (Hsto _ eq_refl) as (stored & m' & Hh & _ & Hd).
    by exists stored, m'.
  - done.
Qed.
Lemma put_sanitised_spec tenant payload media parent manifest at_ st :
  stores_ok st -> others_ok -> manifest_fits manifest ->
  let '(r, st') := @PutSanitisedForTenant Sys pipeline_store tenant payload media parent manifest at_ st in
  stores_ok st' /\ keeps st st' /\
  forall ref, r = Ok ref -> SanitisedRef.SHA256Digest ref = digestBytes payload /\ SanitisedRef.MediaType ref = media /\
    SanitisedRef.ParentCapturedDigest ref = CapturedRef.SHA256Digest parent /\
    SanitisedRef.TransformationManifestDigest ref = transformationDigest manifest /\
    sanitised_fits ref /\ holds_digest st' tenant (SanitisedRef.URI ref) payload.
Proof.
  intros Hok Ho Hm. destruct (Ho Sanitising st Hok) as [[Hok1 Henv] Hk]. cbn [PutSanitisedForTenant pipeline_store].
  set (st1 := others Sanitising st) in *. clearbody st1.
  pose proof (sstep_spec (SSanitised ts tenant payload media parent manifest at_) st1 Hm Hok1) as Hs.
  revert Hs. cbn [sstep]. unfold uri_of, DurableStore.PutSanitised. destruct (validateCommon _ _ _ _) eqn:Hv; [done|].
  destruct (_ || _); [done|]. destruct (validateTransformationManifest _); [done|]. destruct (_ && _); [done|].
  destruct (metadata_Get _ _ st1) as [parentM|]; [|done]. destruct (_ || _); [done|]. cbv zeta.
  set (m := DurableStore.sanitised_metadata _ _ _ _ _ _ _).
  pose proof (persist_frame m payload st1) as Hfr. pose proof (stored_ref_fits m payload st1) as Hfit.
  destruct (DurableStore.persist m payload st1) as [r st']. cbn [fst snd] in *.
  assert (Hn : uint64_range (Metadata.ByteCount m)) by exact (bounded_count _ _ _ _ Hv).
  assert (Hst : sys_ok st' -> grows st1 st' -> stores_ok st' /\ keeps st st') by (intros; by eapply stores_frame).
  destruct r as [u|e]; cbn [fst snd] in *; intros (Hso & Hg & Hsto); (destruct (Hst Hso Hg) as [Hs1 Hs2]; split; [done|]; split; [done|]).
  - intros ref [= <-]. split_and!; try done; [by apply Hfit|]. destruct (Hsto _ eq_refl) as (stored & m' & Hh & _ & Hd).
    by exists stored, m'.
  - done.
Qed.
Lemma create_envelope_spec e st :
  stores_ok st -> others_ok -> (all_encodable (PostgresRepository.envelope_params e) = true -> envelope_fits e) ->
  let '(r, st') := @envelope_Create Sys pipeline_envelopes e st in
  stores_ok st' /\ keeps st st' /\
  (is_ok r = true -> PostgresRepository.GetForTenant (TenantID e) (EvidenceID e) st'.1 = Ok e).
Proof.
  intros Hok Ho Hfit. destruct (Ho Persisting st Hok) as [[[Ha Hb] Henv] Hk]. cbn [envelope_Create pipeline_envelopes].
  pose proof (envelope_Create_spec ts e _ Henv Hfit) as Hc. destruct (PostgresRepository.Create ts e _) as [r db'].
  destruct Hc as (Henv' & Hsub & _ & Hart & Hstored). split_and!.
  - split; [split; [|done]|done]. unfold artefacts_ok in *. cbn [fst]. by rewrite Hart.
  - etrans; [exact Hk|]. split; [split; [cbn [fst]; by rewrite Hart|done]|done].
  - intros Hr. by apply (stored_reads db' e Henv' (Hstored Hr)).
Qed.

(** An assembled envelope carries its input, a verified attempt and a signature
    that verifies. *)
Lemma assemble_spec (a : Assembler.t P) i st e :
  provider_ok (Assembler.signing a) ->
  @Assembler.AssembleContext P _ Sys pipeline_verifier a i st = Ok e ->
  exists k id s, CurrentSigningKey (Assembler.signing a) "evidence-envelope" = Ok k /\
    e = set_signature (Some s) ((Assembler.envelope_of a i k) <| EvidenceID := id |>) /\ Assembler.VerifyContext a e = None /\
    TaskPostgres.VerifyCurrentAttempt (AssemblyInput.TaskID i) (AssemblyInput.CollectorIdentity i) (AssemblyInput.FencingToken i)
      (AssemblyInput.AssembledAt i) st.1 = Ok tt.
Proof.
  intros Hp. unfold Assembler.AssembleContext. cbn [VerifyCurrentAttempt pipeline_verifier].
  destruct (validateInput i); [done|]. destruct (TaskPostgres.VerifyCurrentAttempt _ _ _ _ _) as [[]|]; [|done].
  destruct (_ !=? _); [done|]. destruct (CurrentSigningKey _ _) as [k|] eqn:Hkey; [|done]. cbv zeta.
  destruct (signingPayload (Assembler.envelope_of a i k)) as [u|]; [|done].
  set (e0 := _ <| EvidenceID := _ |>). destruct (signingPayload e0) as [unsigned|] eqn:Hu; [|done].
  destruct (Sign _ _ unsigned) as [sig|] eqn:Hs; [|done]. intros He. injection He as <-.
  eexists k, _, sig. split; [done|]. split; [reflexivity|]. split; [|done].
  unfold Assembler.VerifyContext. change (signingPayload (set_signature (Some sig) e0)) with (signingPayload e0). rewrite Hu.
  change (Attribution.SigningKeyRef (EvidenceEnvelope.Attribution_ (set_signature (Some sig) e0))) with (SigningKey.Reference k).
  change (Attribution.SignatureAlgorithm (EvidenceEnvelope.Attribution_ (set_signature (Some sig) e0))) with (SigningKey.Algorithm k).
  change (default "" (Attribution.Signature (EvidenceEnvelope.Attribution_ (set_signature (Some sig) e0)))) with sig.
  by rewrite (sign_verifies _ "evidence-envelope" k unsigned sig Hp Hkey Hs).
Qed.

Lemma fold_absorb_none {A} (dec : A -> jtree -> option A) name fs : fold_left (absorb dec name) fs None = None.
Proof. induction fs as [|kv fs IH]; [done|]. cbn [fold_left]. unfold absorb at 2. destruct (_ ==? _); [by destruct (snd kv)|done]. Qed.
Lemma decode_string_valid name fs v : decode_field dec_string name "" fs = Some v -> ValidString v = true.
Proof.
  rewrite decode_field_absorb. assert (Hz : ValidString "" = true) by done. revert Hz. generalize "". induction fs as [|kv fs IH]; intros z Hz.
  { cbn. by intros [= <-]. }
  cbn [fold_left]. unfold absorb at 2. destruct (_ ==? _); [|by apply IH].
  destruct (snd kv) as [| | |items| |]; cbn [dec_string]; rewrite ?fold_absorb_none; [by apply IH|done|done| |done|done].
  apply IH, ValidString_encoded.
Qed.
Lemma observation_fits p payload media manifest o : ParseWithManifest p payload media manifest = Ok o -> state_fits o.
Proof.
  unfold ParseWithManifest. destruct (_ !=? _); [done|]. destruct (TransformationManifest.Quarantined _); [done|].
  destruct (_ || _); [done|]. intros ((Hv & _ & _ & Hst & _ & Ht) & fs & _ & Hk & Hw)%parse_payload_typed.
  unfold dec_wire in Hw. rewrite Hk in Hw. cbn [negb] in Hw.
  destruct (decode_field dec_string "schema_version" "" fs); [|done].
  destruct (decode_field dec_string "interface_name" "" fs) as [n|] eqn:Hn; [|done].
  destruct (decode_field dec_string "operational_state" "" fs) as [stt|] eqn:Hs; [|done].
  destruct (decode_field dec_time _ _ fs); [|done]. injection Hw as _ Hn' Hs' _.
  unfold state_fits. rewrite Ht, Hv, <- Hn', <- Hs'. cbn [elems app]. rewrite !list.Forall_cons.
  split_and!; try done; by eapply decode_string_valid.
Qed.
Lemma assembled_fits s task lease captured now cref sref o k sig id :
  sink_fits s -> attempt_fits task lease -> captured_fits cref -> CapturedRef.AttemptID cref = PipelineSink.attempt_of task lease ->
  sanitised_fits sref -> state_fits o -> Forall is_byte (CapturedBytes.Digest captured) ->
  CurrentSigningKey (Assembler.signing (PipelineSink.Assembler_ s)) "evidence-envelope" = Ok k -> ValidString id = true ->
  envelope_fits (set_signature sig ((Assembler.envelope_of (PipelineSink.Assembler_ s)
    (PipelineSink.assembly_input s task lease captured now cref sref o) k) <| EvidenceID := id |>)).
Proof.
  intros (Hs & Hkey & _) [Ht Htok] Hc Hatt Hsan Ho Hd Hk Hid. destruct (Hkey k Hk) as [Halg Href].
  assert (Ha : ValidString (PipelineSink.attempt_of task lease) = true).
  { rewrite <- Hatt. destruct Hc as [Hc _]. rewrite !list.Forall_cons in Hc. tauto. }
  rewrite !list.Forall_cons in Hs. rewrite !list.Forall_cons in Ht. destruct Hs as (Hs1 & Hs2 & Hs3 & Hs4 & Hs5 & _).
  destruct Ht as (Ht1 & Ht2 & Ht3 & Ht4 & Ht5 & Ht6 & Ht7 & Ht8 & Ht9 & Ht10 & Ht11 & Ht12 & Ht13 & _).
  assert (Haud : ValidString ("audit-" +:+ Task.ID task +:+ "-" +:+ hex_EncodeToString (firstn 8 (CapturedBytes.Digest captured))) = true).
  { repeat apply ValidString_app; try done. by apply ValidString_hex, Forall_take. }
  unfold envelope_fits, lineage_fields, attribution_fits. split_and!; try done; try (by repeat constructor).
Qed.

(** The lineage of an envelope: the task, the lease and the attempt it is for. *)
Definition lineage (task : Task.t) (lease : Lease.t) (e : EvidenceEnvelope.t) : Prop :=
  TenantID e = Task.TenantID task /\ TaskID e = Task.ID task /\
  EvidenceEnvelope.ClaimFingerprint e = Task.ClaimFingerprint task /\
  EvidenceEnvelope.TargetSnapshotID e = Task.TargetSnapshotID task /\ EvidenceEnvelope.TargetID e = Task.TargetID task /\
  EvidenceEnvelope.RecipeID e = Task.RecipeID task /\ EvidenceEnvelope.RecipeVersion e = Task.RecipeVersion task /\
  EvidenceEnvelope.TriggerDecisionID e = Task.TriggerDecisionID task /\
  EvidenceEnvelope.PlanningDecisionID e = Task.PlanningDecisionID task /\
  EvidenceEnvelope.ExecutionDecisionID e = Task.ExecutionDecisionID task /\
  EvidenceEnvelope.ExecutionGrantID e = Task.ExecutionGrantID task /\
  EvidenceEnvelope.CompatibilityRecordHash e = Task.CompatibilityHash task /\
  EvidenceEnvelope.FencingToken e = Lease.FencingToken lease /\
  Attribution.CollectorIdentity (EvidenceEnvelope.Attribution_ e) = Lease.Owner lease /\
  AcceptedAttemptID e = PipelineSink.attempt_of task lease.

(** C38.  Evidence can be traced to what the device said: whatever other clients
    do between its steps, the pipeline loses nothing that is stored, and when it
    reports an evidence identifier, the task's tenant reads an envelope under it
    that is signed, names the task, the decisions, the grant and the fenced
    attempt, which was current when it was assembled, and refers to two stored
    artefacts: one with the digest of the captured bytes, and one with the digest
    of what the sanitiser made of them and released; its typed observation is
    what the parser reads in that. *)
Theorem evidence_traceable s now task lease captured st
    (Hprovider : provider_ok (Assembler.signing (PipelineSink.Assembler_ s))) (Hothers : others_ok)
    (Hsink : sink_fits s) (Hattempt : attempt_fits task lease) (Hst : stores_ok st) :
  let '(r, st') := Write s now task lease captured st in
  stores_ok st' /\ keeps st st' /\
  forall attemptID evidenceID, r = Ok (attemptID, evidenceID) ->
  exists e sanitised manifest, EvidenceID e = evidenceID /\ AcceptedAttemptID e = attemptID /\ lineage task lease e /\
    PostgresRepository.GetForTenant (Task.TenantID task) evidenceID st'.1 = Ok e /\
    Assembler.VerifyContext (PipelineSink.Assembler_ s) e = None /\
    (exists st2, keeps st st2 /\ keeps st2 st' /\
       TaskPostgres.VerifyCurrentAttempt (Task.ID task) (Lease.Owner lease) (Lease.FencingToken lease) now st2.1 = Ok tt) /\
    (exists stored m, sys_Get (Task.TenantID task) (CapturedRef.URI (EvidenceEnvelope.Captured e)) st' = Ok (stored, m) /\
       digestBytes stored = digestBytes (CapturedBytes.Payload captured) /\
       CapturedRef.SHA256Digest (EvidenceEnvelope.Captured e) = digestBytes (CapturedBytes.Payload captured)) /\
    Transformer.Transform (PipelineSink.Sanitiser s) (CapturedBytes.Payload captured) = Ok (sanitised, manifest) /\
    TransformationManifest.Quarantined manifest = false /\
    (exists stored m, sys_Get (Task.TenantID task) (SanitisedRef.URI (EvidenceEnvelope.Sanitised e)) st' = Ok (stored, m) /\
       digestBytes stored = digestBytes sanitised /\
       SanitisedRef.ParentCapturedDigest (EvidenceEnvelope.Sanitised e) = digestBytes (CapturedBytes.Payload captured) /\
       SanitisedRef.TransformationManifestDigest (EvidenceEnvelope.Sanitised e) = transformationDigest manifest) /\
    ParseWithManifest (PipelineSink.Parser s) sanitised (CapturedBytes.MediaType captured) manifest =
      Ok (EvidenceEnvelope.InterfaceState e).
Proof.
  unfold Write, PipelineSink.WriteCaptured. destruct (_ !=? _); [done|]. destruct (Sum256 _ !=? _) eqn:Hdig; [done|].
  destruct (_ ==? ""); [done|]. cbv zeta. destruct (PipelineSink.CurrentEncryptionKey _ _ _) as [keyref|]; [|done].
  pose proof (put_captured_spec (Task.TenantID task) (CapturedBytes.Payload captured) (CapturedBytes.MediaType captured)
    (PipelineSink.TransportName s) (PipelineSink.attempt_of task lease) keyref (CapturedBytes.CapturedAt captured) st Hst Hothers) as Hput.
  destruct (PutCapturedForTenant _ _ _ _ _ _ _ st) as [r1 st1]. destruct Hput as (Hok1 & Hk1 & Hput).
  destruct r1 as [cref|]; [|done]. destruct (Hput cref eq_refl) as (Hcref & Hcfit & Hchold). clear Hput.
  destruct (Transformer.Transform _ _) as [[sanitised manifest]|] eqn:Htr; [|done].
  pose proof (proj2 (proj2 Hsink) _ _ _ Htr) as Hmfit. set (media := if TransformationManifest.Quarantined manifest then _ else _).
  pose proof (put_sanitised_spec (Task.TenantID task) sanitised media cref manifest now st1 Hok1 Hothers Hmfit) as Hput.
  destruct (PutSanitisedForTenant _ _ _ _ _ _ st1) as [r2 st2]. destruct Hput as (Hok2 & Hk2 & Hput).
  assert (Hk02 : keeps st st2) by by etrans. destruct r2 as [sref|]; [|done].
  destruct (Hput sref eq_refl) as (_ & Hmedia & Hparent & Hmd & Hsfit & Hshold). clear Hput.
  destruct (TransformationManifest.Quarantined manifest) eqn:Hq; [done|]. rewrite Hmedia. subst media.
  destruct (ParseWithManifest _ _ _ _) as [o|] eqn:Hparse; [|done].
  destruct (Assembler.AssembleContext _ _ st2) as [e|] eqn:Hasm; [|done].
  destruct (assemble_spec _ _ _ _ Hprovider Hasm) as (k & id & sig & Hkey & He & Hver & Hcur).
  assert (Hfit : all_encodable (PostgresRepository.envelope_params e) = true -> envelope_fits e).
  { intros Hp. rewrite He. apply assembled_fits; try done; [by rewrite Hcref|by eapply observation_fits|..].
    - reflect_bools. rewrite <- Hdig. apply Sum256_bytes.
    - unfold all_encodable, PostgresRepository.envelope_params, encodable in Hp. cbn [forallb] in Hp. rewrite !andb_true_iff in Hp.
      rewrite He in Hp. exact (proj1 (proj1 Hp)). }
  pose proof (create_envelope_spec e st2 Hok2 Hothers Hfit) as Hc.
  destruct (envelope_Create e st2) as [r3 st']. destruct Hc as (Hok' & Hk' & Hread).
  destruct r3 as [[]|]; (split; [done|]; split; [by etrans|]); [|done]. intros attemptID evidenceID [= <- <-]. specialize (Hread eq_refl).
  assert (Hl : lineage task lease e) by (rewrite He; by repeat split).
  exists e, sanitised, manifest. split_and!; try done.
  - by rewrite He.
  - by replace (Task.TenantID task) with (TenantID e) by by rewrite He.
  - by exists st2.
  - replace (EvidenceEnvelope.Captured e) with cref by by rewrite He.
    destruct (holds_digest_keeps st1 st' _ _ _ ltac:(by etrans) Hchold) as (stored & m & Hh & Hd & _).
    exists stored, m. split; [apply holds_Get; [apply Hok'|done]|]. split; [done|by rewrite Hcref].
  - replace (EvidenceEnvelope.Sanitised e) with sref by by rewrite He.
    destruct (holds_digest_keeps st2 st' _ _ _ Hk' Hshold) as (stored & m & Hh & Hd & _).
    exists stored, m. split; [apply holds_Get; [apply Hok'|done]|]. split; [done|]. split; [by rewrite Hparent, Hcref|done].
  - by rewrite He, Hparse.
Qed.
End Pipeline.

(** ** Witnesses

    A pipeline over the S3 service and the JSONB of [ArtefactStore], for a task
    whose second holder has its result ready; its sanitiser passes bounded
    payloads on and marks the interface name. *)
#[local] Instance evidence_tables : UnicodeTables := {| letter_table _ := false; digit_table _ := false |}.
#[local] Instance evidence_provider : SigningProvider Keyring.t := Keyring.provider demo_sign demo_verify.
#[local] Instance evidence_signing : SigningLaws Keyring.t := keyring_laws demo_public demo_sign demo_verify demo_correct.
#[local] Instance evidence_blobs : BlobStore Bucket := s3_blobs demo_bucket.
#[local] Instance evidence_blob_laws : BlobLaws Bucket := s3_blob_laws demo_bucket.

Definition passing_manifest (payload : string) : TransformationManifest.t :=
  TransformationManifest.mk TransformationManifestVersionV1 "pipeline" "1" "rules-1" (digestBytes payload) (digestBytes payload)
    "tainted" None (Some ["$/interface_name"]) (Some [TransformationOutcome.mk "tainted" "device_text" "$/interface_name" 0 1])
    false false (len payload) (len payload).
Definition passing_sanitiser : Transformer.t :=
  Transformer.mk (fun payload => if MaximumArtefactBytes <? len payload then Err (Text "payload exceeds its bound")
                                 else Ok (payload, passing_manifest payload)) (Some "n1").
Definition demo_sink : PipelineSink.t Keyring.t :=
  PipelineSink.mk passing_sanitiser demo_parser (Assembler.mk "a1" (demo_keyring "k1" "a")) "ssh"
    (EncryptionKeyring.StaticCurrentEncryptionKey "tenant-key") "c1" "n1" (3600 * Second).
Definition seen_observation : InterfaceOperationalState.t :=
  InterfaceOperationalState.mk "v1" "Gi0/0.1" "up" 10500 (Some ["interface_name"]).
Definition seen_payload : string := Marshal (wire_tree seen_observation).
Definition seen_bytes : CapturedBytes.t :=
  CapturedBytes.mk "r1" seen_payload (Sum256 (bytes seen_payload)) "application/json" 22500.
Definition seen_task : Task.t :=
  demo_task <| Task.ExecutionDecisionID := "d3" |> <| Task.ExecutionGrantID := "g1" |>.
Definition seen_lease : Lease.t := Lease.mk "t1" "w2" 2 29000.
Definition evidence_start : @Sys Bucket := ((run pg_step pg_demo_ops DB.empty).2, ∅).

Lemma demo_sink_made :
  PipelineSink.NewPipelineSink passing_sanitiser demo_parser (Assembler.mk "a1" (demo_keyring "k1" "a")) "ssh" "tenant-key" "c1"
    "n1" (3600 * Second) = Ok demo_sink.
Proof. reflexivity. Qed.
Lemma passing_fits payload : len payload <= MaximumArtefactBytes -> manifest_fits (passing_manifest payload).
Proof.
  intros Hl. assert (Hd : ValidString (digestBytes payload) = true) by apply ValidString_hex, Sum256_bytes.
  assert (Hn : uint64_range (len payload)) by (unfold uint64_range, max_uint64, MaximumArtefactBytes, len in *; lia).
  split; [by repeat constructor|]. split; [by repeat constructor|]. split; [|done].
  repeat constructor; unfold max_uint64; cbn; lia.
Qed.
Lemma demo_sink_fits : sink_fits demo_sink.
Proof.
  split; [by repeat constructor|]. split; [by intros k [= <-]|]. intros payload out manifest. cbn.
  destruct (Z.ltb_spec MaximumArtefactBytes (len payload)); [done|]. intros [= <- <-]. by apply passing_fits.
Qed.
Lemma evidence_start_ok : stores_ok evidence_start.
Proof.
  assert (Ha : DB.artefacts evidence_start.1 = ∅) by (vm_compute; reflexivity).
  assert (He : DB.envelopes evidence_start.1 = ∅) by (vm_compute; reflexivity).
  split; [split|].
  - unfold artefacts_ok. rewrite Ha. apply map_Forall_empty.
  - intros k p d. cbn. by rewrite lookup_empty.
  - unfold envelopes_ok. rewrite He. split; [apply map_Forall_empty|]. intros id id' row row'. by rewrite lookup_empty.
Qed.

Lemma demo_provider_ok : provider_ok (Assembler.signing (PipelineSink.Assembler_ demo_sink)).
Proof. by vm_compute. Qed.
Lemma seen_attempt_fits : attempt_fits seen_task seen_lease.
Proof. split; [by repeat constructor|unfold int64_range, max_int64; cbn; lia]. Qed.
Lemma alone_ok : others_ok (B := Bucket) (fun _ st => st).
Proof. intros at_ st Hok. split; [done|by repeat split]. Qed.

Lemma evidence_traceable_witness :
  let '(r, st') := Write 5000 (fun _ st => st) demo_sink 23000 seen_task seen_lease seen_bytes evidence_start in
  exists evidenceID e, r = Ok ("attempt-t1-2", evidenceID) /\
    PostgresRepository.GetForTenant "tenant" evidenceID st'.1 = Ok e /\
    Assembler.VerifyContext (PipelineSink.Assembler_ demo_sink) e = None /\ lineage seen_task seen_lease e.
Proof.
  pose proof (evidence_traceable 5000 (fun _ st => st) demo_sink 23000 seen_task seen_lease seen_bytes evidence_start
    demo_provider_ok alone_ok demo_sink_fits seen_attempt_fits evidence_start_ok) as Hw.
  assert (Hr : match (Write 5000 (fun _ st => st) demo_sink 23000 seen_task seen_lease seen_bytes evidence_start).1 with
               | Ok (attemptID, _) => attemptID = "attempt-t1-2" | Err _ => False end) by (vm_compute; reflexivity).
  destruct (Write _ _ _ _ _ _ _ _) as [r st']. cbn [fst] in Hr. destruct r as [[attemptID evidenceID]|]; [|destruct Hr].
  destruct Hw as (_ & _ & Hw). destruct (Hw _ _ eq_refl) as (e & out & manifest & _ & _ & Hl & Hg & Hv & _). rewrite Hr.
  exists evidenceID, e. split; [reflexivity|]. split; [exact Hg|]. split; [exact Hv|exact Hl].
Defined.

(** An envelope stored twice, another one for the same attempt, and a change
    elsewhere. *)
Definition demo_evidence (id : string) : EvidenceEnvelope.t :=
  set_signature (Some "signature") ((Assembler.envelope_of (PipelineSink.Assembler_ demo_sink)
    (PipelineSink.assembly_input demo_sink seen_task seen_lease seen_bytes 23000
      (CapturedRef.mk "artefact://1" "c" 1 "application/json" "ssh" 22500 "attempt-t1-2" "tenant-key")
      (SanitisedRef.mk "artefact://2" "s" 1 "application/json" "c" "m" 23000) seen_observation)
    (SigningKey.mk "k1" Ed25519Algorithm)) <| EvidenceID := id |>).
Definition evidence_demo_ops : list eop :=
  [ECreate 5000 (demo_evidence "e1"); ECreate 6000 (demo_evidence "e1"); ECreate 6000 (demo_evidence "e2");
   EOther (fun db => db <| DB.tasks := ∅ |>); ECreate 7000 (demo_evidence "e1")].
Lemma demo_evidence_fits id : ValidString id = true -> envelope_fits (demo_evidence id).
Proof.
  intros Hid. unfold demo_evidence. apply assembled_fits.
  - apply demo_sink_fits.
  - apply seen_attempt_fits.
  - split; [by repeat constructor|unfold uint64_range, max_uint64; cbn; lia].
  - vm_compute. reflexivity.
  - split; [by repeat constructor|unfold uint64_range, max_uint64; cbn; lia].
  - split; [by repeat constructor|reflexivity].
  - apply Sum256_bytes.
  - reflexivity.
  - exact Hid.
Qed.
Lemma evidence_demo_ok : Forall eop_ok evidence_demo_ops.
Proof.
  unfold evidence_demo_ops. do 3 (constructor; [by apply demo_evidence_fits|]). constructor; [done|].
  constructor; [by apply demo_evidence_fits|constructor].
Qed.

Lemma envelopes_immutable_witness :
  let '(log, db) := run estep evidence_demo_ops evidence_start.1 in
  map (fun x => is_ok x.2) log = [true; true; false; false; true] /\
  PostgresRepository.GetForTenant "tenant" "e1" db = Ok (demo_evidence "e1") /\
  is_ok (PostgresRepository.GetForTenant "tenant-b" "e1" db) = false.
Proof.
  pose proof (envelopes_immutable evidence_demo_ops evidence_start.1 evidence_demo_ok (proj2 evidence_start_ok)) as Hw.
  assert (Hlog : map (fun x => is_ok x.2) (run estep evidence_demo_ops evidence_start.1).1 = [true; true; false; false; true] /\
    (run estep evidence_demo_ops evidence_start.1).1 !! 0%nat = Some (ECreate 5000 (demo_evidence "e1"), Ok tt))
    by (split; vm_compute; reflexivity).
  destruct (run estep evidence_demo_ops evidence_start.1) as [log db]. cbn [fst] in Hlog. destruct Hlog as [Hlog Hin].
  destruct (Hw 5000 (demo_evidence "e1") (list_elem_of_lookup_2 _ _ _ Hin)) as (Hg & _ & Hother & _).
  split; [exact Hlog|]. split; [exact Hg|]. apply Hother. discriminate.
Defined.
