(* ===== verification/Normalise.v ===== *)
(** * Normalisation of gNMI responses ([internal/normalise])

    A gNMI [GetResponse] is sanitised as a JSON document, decoded, checked
    against the one shape of an interface's operational state, and written in
    the schema the evidence parser reads.  Decoding protobuf JSON is the work of
    a third-party library: a class with the law that its text is valid UTF-8 and
    its time stamps are of their type.

    [normalised_observation] composes the sanitiser, the normaliser and the
    parser; [normaliser_sink_fits] discharges what the evidence pipeline asks of
    its transformer. *)
From S2P Require Import Prelude GoStrings GoEncoding GoDecoding Json JsonStruct GoText Keys Task Artefacts Parsing Sanitise.
From S2P Require Import Evidence EvidenceStore.
Local Open Scope Z_scope.

Definition gnmiInterfaceStateSchema : string := "v1".
Definition maximumGNMIUpdates : Z := 256.

(** ** Messages of the gNMI protocol *)
Module PathElem.
Record t := mk { Name : string; Key : gmap string string }.
End PathElem.
Module Path.
(** [Element] is the deprecated unstructured form. *)
Record t := mk { Origin : string; Target : string; Elem : list (option PathElem.t); Element : list string }.
End Path.
Inductive TypedValue :=
  | StringVal (s : string) | AsciiVal (s : string) | JsonIetfVal (payload : string) | JsonVal (payload : string) | OtherVal.
Module Update.
Record t := mk { Path : option Path.t; Val : option TypedValue }.
End Update.
Module Notification.
Record t := mk { Timestamp : Z; Prefix : option Path.t; Update : list Update.t; Delete : list Path.t }.
End Notification.
Module GetResponse.
Record t := mk { Notification : list (option Notification.t); Error : bool }.
End GetResponse.

Class ProtoJSON := { protojson_Unmarshal : string -> result GetResponse.t }.

(** The text of a path's keys. *)
Definition path_keys (p : option Path.t) : list string :=
  match p with
  | Some p => concat (map (fun e => match e with Some e => map snd (map_to_list (PathElem.Key e)) | None => [] end) (Path.Elem p))
  | None => []
  end.
Class ProtoJSONLaws `{ProtoJSON} : Prop := {
  unmarshal_text doc response n : protojson_Unmarshal doc = Ok response ->
    Some n ∈ GetResponse.Notification response ->
    int64_range (Notification.Timestamp n) /\
    Forall (fun s => ValidString s = true)
      (path_keys (Notification.Prefix n) ++ concat (map (fun u => path_keys (Update.Path u)) (Notification.Update n))) }.

Module GNMIInterfaceState.
Record t := mk { id : string; version : string; sanitiser : Pipeline.t; maxUpdates : Z }.
End GNMIInterfaceState.
Import GNMIInterfaceState.

Definition effective_rules (rules : Rules.t) : Rules.t := if Rules.Version rules ==? "" then DefaultRules else rules.
Definition NewGNMIInterfaceState (id version : string) (pipeline : Pipeline.t) (maxUpdates : Z) : result GNMIInterfaceState.t :=
  if (id ==? "") || (version ==? "") || (Pipeline.ID pipeline ==? "") || (Pipeline.Version pipeline ==? "") ||
     (maxUpdates <=? 0) || (maximumGNMIUpdates <? maxUpdates) then
    Err (Text "normaliser, sanitiser and bounded update identities are required")
  else
    let rules := effective_rules (Pipeline.Rules pipeline) in
    if negb (existsb (fun f => f ==? "name") (Rules.FreeTextJSONFields rules)) then
      Err (Text "gNMI sanitisation rules must classify name fields as device-controlled text")
    else Ok (GNMIInterfaceState.mk id version
           (Pipeline.mk (Pipeline.ID pipeline) (Pipeline.Version pipeline) (Pipeline.Redactions pipeline)
              (Pipeline.MaximumBytes pipeline) rules) maxUpdates).
Definition NormaliserVersion (n : option GNMIInterfaceState.t) : string :=
  match n with Some n => version n | None => "" end.

(** ** Paths *)
Definition validatePathAuthority (path : option Path.t) : option error :=
  match path with
  | None => None
  | Some p =>
    if ((Path.Origin p !=? "") && (Path.Origin p !=? "openconfig")) || (Path.Target p !=? "") then
      Some (Text "gNMI path origin or target is outside the interface-state profile")
    else None
  end.
Definition populatedPathElement (path : option Path.t) : bool :=
  match path with Some p => Path.Element p !=? [] | None => false end.
Definition GetElem (path : option Path.t) : list (option PathElem.t) := match path with Some p => Path.Elem p | None => [] end.
(** The loop over the elements: the interface name so far. *)
Fixpoint interface_key (interfaceName : string) (elements : list (option PathElem.t)) : result string :=
  match elements with
  | [] => Ok interfaceName
  | None :: _ => Err (Text "gNMI interface-state path contains an empty element")
  | Some element :: rest =>
    if PathElem.Name element ==? "interface" then
      if (interfaceName !=? "") || negb (Nat.eqb (size (PathElem.Key element)) 1) ||
         (default "" (PathElem.Key element !! "name") ==? "") then
        Err (Text "gNMI interface path requires one canonical name key")
      else interface_key (default "" (PathElem.Key element !! "name")) rest
    else if negb (Nat.eqb (size (PathElem.Key element)) 0) then
      Err (Text "gNMI interface-state path contains unsupported keys")
    else interface_key interfaceName rest
  end.
Definition interfaceUpdatePath (prefix path : option Path.t) : result (string * string) :=
  if match path with None => true | Some _ => false end || populatedPathElement path || populatedPathElement prefix then
    Err (Text "gNMI interface-state path must use structured path elements")
  else match validatePathAuthority prefix with
  | Some e => Err e
  | None =>
    match validatePathAuthority path with
    | Some e => Err e
    | None =>
      let elements := GetElem prefix ++ GetElem path in
      match list.last elements with
      | None | Some None => Err (Text "gNMI interface-state path is empty")
      | Some (Some leaf) =>
        match interface_key "" elements with
        | Err e => Err e
        | Ok interfaceName =>
          if interfaceName ==? "" then Err (Text "gNMI interface-state path lacks an interface name key")
          else Ok (interfaceName, PathElem.Name leaf)
        end
      end
    end
  end.

(** ** Values *)

(** Decoding into an empty string: [null] leaves it as it is. *)
Definition decodeJSONString (payload : string) : result string :=
  match parse_value (2 * List.length (bytes payload) + 2) 0 (bytes payload) with
  | None => Err (Wrapf "gNMI JSON value must contain one string: " (Text "json: invalid value") "")
  | Some (value, rest) =>
    match (match value with TNull => Some "" | _ => dec_string value end) with
    | None => Err (Wrapf "gNMI JSON value must contain one string: " (Text "json: cannot unmarshal value into Go value") "")
    | Some destination =>
      if skip_ws rest !=? [] then Err (Text "gNMI JSON value must contain exactly one string") else Ok destination
    end
  end.
Definition scalarString (value : option TypedValue) : result string :=
  let canonical result :=
    if (result ==? "") || (result !=? TrimSpace result) then
      Err (Text "gNMI interface-state value must be a canonical non-empty string")
    else Ok result in
  match value with
  | None => Err (Text "gNMI interface-state value is required")
  | Some (StringVal s) | Some (AsciiVal s) => canonical s
  | Some (JsonIetfVal payload) | Some (JsonVal payload) =>
    match decodeJSONString payload with Ok s => canonical s | Err e => Err e end
  | Some OtherVal => Err (Text "gNMI interface-state value must be a scalar string")
  end.
Definition mapOperationalState (value : string) : result string :=
  if existsb (fun s => value ==? s) ["UP"; "up"] then Ok "up"
  else if existsb (fun s => value ==? s) ["DOWN"; "down"; "DORMANT"; "NOT_PRESENT"; "LOWER_LAYER_DOWN"] then Ok "down"
  else if existsb (fun s => value ==? s) ["UNKNOWN"; "unknown"; "TESTING"] then Ok "unknown"
  else Err (Text ("unsupported OpenConfig operational state " +:+ quote value)).

(** ** The response *)

(** The loop over the updates: the name and the state so far. *)
Fixpoint extract_updates (prefix : option Path.t) (interfaceName operationalState : string) (updates : list Update.t) :
    result (string * string) :=
  match updates with
  | [] => Ok (interfaceName, operationalState)
  | update :: rest =>
    match interfaceUpdatePath prefix (Update.Path update) with
    | Err e => Err e
    | Ok (name, leaf) =>
      if (interfaceName !=? "") && (interfaceName !=? name) then Err (Text "gNMI response contains more than one interface")
      else
        let interfaceName := if interfaceName ==? "" then name else interfaceName in
        if leaf ==? "name" then
          match scalarString (Update.Val update) with
          | Ok value =>
            if value !=? interfaceName then Err (Text "gNMI interface name leaf does not match its path key")
            else extract_updates prefix interfaceName operationalState rest
          | Err _ => Err (Text "gNMI interface name leaf does not match its path key")
          end
        else if leaf ==? "oper-status" then
          if operationalState !=? "" then Err (Text "gNMI response contains duplicate operational state")
          else match scalarString (Update.Val update) with
          | Err e => Err e
          | Ok value =>
            match mapOperationalState value with
            | Err e => Err e
            | Ok state => extract_updates prefix interfaceName state rest
            end
          end
        else Err (Text ("gNMI interface-state response contains unsupported leaf " +:+ quote leaf))
    end
  end.
Module interfaceStateWire.
Record t := mk { SchemaVersion : string; InterfaceName : string; OperationalState : string; ObservedAt : Z }.
End interfaceStateWire.
(** [time.Unix(0, ns)]: seconds from the first year to 1970. *)
Definition unix_epoch : Z := 62135596800 * Second.
Definition extract (n : GNMIInterfaceState.t) (response : GetResponse.t) : result interfaceStateWire.t :=
  match GetResponse.Error response, GetResponse.Notification response with
  | false, [Some notification] =>
    if (Notification.Timestamp notification <=? 0) || negb (no_elems (Some (Notification.Delete notification))) ||
       no_elems (Some (Notification.Update notification)) ||
       (maxUpdates n <? Z.of_nat (List.length (Notification.Update notification))) then
      Err (Text "gNMI notification timestamp, updates and deletion bounds are invalid")
    else
      let observedAt := unix_epoch + Notification.Timestamp notification in
      if (year observedAt <? 1970) || (9999 <? year observedAt) then
        Err (Text "gNMI notification timestamp is outside the supported range")
      else match extract_updates (Notification.Prefix notification) "" "" (Notification.Update notification) with
      | Err e => Err e
      | Ok (interfaceName, operationalState) =>
        if (interfaceName ==? "") || (operationalState ==? "") then
          Err (Text "gNMI response lacks one interface operational state")
        else Ok (interfaceStateWire.mk gnmiInterfaceStateSchema interfaceName operationalState observedAt)
      end
  | false, [None] => Err (Text "gNMI notification timestamp, updates and deletion bounds are invalid")
  | _, _ => Err (Text "gNMI interface-state response requires exactly one successful notification")
  end.

Definition wire_json (o : interfaceStateWire.t) : result string :=
  if jtime_ok (interfaceStateWire.ObservedAt o) then
    Ok (Marshal (TObj [key "schema_version" (jstr (interfaceStateWire.SchemaVersion o));
                       key "interface_name" (jstr (interfaceStateWire.InterfaceName o));
                       key "operational_state" (jstr (interfaceStateWire.OperationalState o));
                       key "observed_at" (jtime (interfaceStateWire.ObservedAt o))]))
  else Err (Wrapf "json: error calling MarshalJSON for type time.Time: "
              (Text "Time.MarshalJSON: year outside of range [0,9999]") "").

Section Running.
Context `{LowerTable} `{Normalisation} `{SortSlice} `{ProtoJSON}.

Definition Transform (n : option GNMIInterfaceState.t) (captured : string) : result (string * TransformationManifest.t) :=
  match n with
  | None => Err (Text "gNMI interface-state normaliser is required")
  | Some n =>
    match Sanitise.Transform (sanitiser n) captured with
    | Err e => Err e
    | Ok (safePayload, sourceManifest) =>
      if TransformationManifest.Quarantined sourceManifest then Ok (safePayload, sourceManifest)
      else match protojson_Unmarshal safePayload with
      | Err e => Err (Wrapf "decode sanitised gNMI response: " e "")
      | Ok response =>
        match extract n response with
        | Err e => Err e
        | Ok observation =>
          match wire_json observation with
          | Err e => Err (Wrapf "encode normalised interface state: " e "")
          | Ok normalised =>
            if 510 <? slice_len (TransformationManifest.Outcomes sourceManifest) then
              Err (Text "gNMI transformation outcome limit exceeded")
            else Ok (normalised,
              sourceManifest
                <| TransformationManifest.PipelineID := id n |>
                <| TransformationManifest.PipelineVersion := version n |>
                <| TransformationManifest.OutputDigest := sha256_hex normalised |>
                <| TransformationManifest.OverallStatus := "tainted" |>
                <| TransformationManifest.TaintedFields := Some ["$/interface_name"] |>
                <| TransformationManifest.OutputByteCount := len normalised |>
                <| TransformationManifest.Truncated := false |>
                <| TransformationManifest.Outcomes := Some (elems (TransformationManifest.Outcomes sourceManifest) ++
                     [outcome ActionTainted "gnmi_interface_name_mapped" "$/interface_name" 1;
                      outcome ActionRetained "gnmi_interface_state_normalised" "$" 1]) |>)
          end
        end
      end
    end
  end.
End Running.

(** ** What an accepted response says *)

(** The elements of the path name one interface, by one key; the path ends in
    [leaf] and stays within the profile. *)
Definition profile_path (p : Path.t) : Prop := Path.Element p = [] /\ Path.Origin p ∈ [""; "openconfig"] /\ Path.Target p = "".
Definition interface_path (prefix path : option Path.t) (name leaf : string) : Prop :=
  (forall p, prefix = Some p \/ path = Some p -> profile_path p) /\
  exists pre e post, GetElem prefix ++ GetElem path = map Some (pre ++ e :: post) /\
    PathElem.Name e = "interface" /\ PathElem.Key e = {["name" := name]} /\ name <> "" /\
    Forall (fun x => PathElem.Name x <> "interface" /\ PathElem.Key x = ∅) (pre ++ post) /\
    (exists l, list.last (pre ++ e :: post) = Some l /\ PathElem.Name l = leaf).
(** An update of an interface: its name again, or its state. *)
Definition names (prefix : option Path.t) (name : string) (u : Update.t) : Prop :=
  interface_path prefix (Update.Path u) name "name" /\ scalarString (Update.Val u) = Ok name.
Definition states (prefix : option Path.t) (name state : string) (u : Update.t) : Prop :=
  interface_path prefix (Update.Path u) name "oper-status" /\
  exists value, scalarString (Update.Val u) = Ok value /\ mapOperationalState value = Ok state.
(** One update has the state; the others repeat the name. *)
Definition observes (n : Notification.t) (name state : string) : Prop :=
  exists pre u post, Notification.Update n = pre ++ u :: post /\ states (Notification.Prefix n) name state u /\
    Forall (names (Notification.Prefix n) name) (pre ++ post).

Lemma single_key (m : gmap string string) k v : size m = 1%nat -> m !! k = Some v -> m = {[k := v]}.
Proof.
  intros Hs Hk. rewrite <- (insert_delete_id m k v Hk) in Hs |- *. rewrite map_size_insert_None in Hs by apply lookup_delete_eq.
  injection Hs as Hs%map_size_empty_inv. by rewrite Hs.
Qed.
Lemma interface_key_named l : forall name name', name <> "" -> interface_key name l = Ok name' ->
  name' = name /\ exists es, l = map Some es /\ Forall (fun x => PathElem.Name x <> "interface" /\ PathElem.Key x = ∅) es.
Proof.
  induction l as [|[e|] l IH]; intros name name' Hn; cbn [interface_key]; [intros [= <-]; split; [done|by exists []]| |done].
  destruct (PathElem.Name e ==? "interface") eqn:Hi.
  - rewrite bool_decide_eq_false_2 by done. done.
  - destruct (Nat.eqb _ 0) eqn:Hk; cbn [negb]; [|done]. intros Hl. destruct (IH _ _ Hn Hl) as (-> & es & -> & Hes).
    split; [done|]. exists (e :: es). split; [done|]. constructor; [|done]. reflect_bools. split; [done|].
    by apply map_size_empty_inv, Nat.eqb_eq.
Qed.
Lemma interface_key_spec l : forall name, interface_key "" l = Ok name -> name <> "" ->
  exists pre e post, l = map Some (pre ++ e :: post) /\ PathElem.Name e = "interface" /\ PathElem.Key e = {["name" := name]} /\
    Forall (fun x => PathElem.Name x <> "interface" /\ PathElem.Key x = ∅) (pre ++ post).
Proof.
  induction l as [|[e|] l IH]; intros name; cbn [interface_key]; [by intros [= <-]| |done].
  destruct (PathElem.Name e ==? "interface") eqn:Hi.
  - rewrite bool_decide_eq_true_2 by done. cbn [negb orb]. destruct (_ || _) eqn:Hg; [done|]. intros Hl Hn. reflect_bools.
    destruct Hg as [Hs Hv]. destruct (PathElem.Key e !! "name") as [v|] eqn:Hk; [|done]. cbn in Hv, Hl.
    destruct (interface_key_named _ _ _ Hv Hl) as (-> & es & -> & Hes). exists [], e, es.
    split; [done|]. split; [done|]. split; [|done]. apply single_key; [by apply Nat.eqb_eq|done].
  - destruct (Nat.eqb _ 0) eqn:Hk; cbn [negb]; [|done]. intros Hl Hn. destruct (IH _ Hl Hn) as (pre & e' & post & -> & H1 & H2 & H3).
    exists (e :: pre), e', post. do 3 (split; [done|]). constructor; [|done]. reflect_bools. split; [done|].
    by apply map_size_empty_inv, Nat.eqb_eq.
Qed.
Lemma validatePathAuthority_spec path p : validatePathAuthority path = None -> populatedPathElement path = false -> path = Some p ->
  profile_path p.
Proof.
  intros Ha Hp ->. cbn in *. destruct (_ || _) eqn:Hg; [done|]. reflect_bools. unfold profile_path. rewrite !elem_of_cons.
  destruct Hg as [Hg ?]. destruct (decide (Path.Origin p = "")); tauto.
Qed.
Lemma interfaceUpdatePath_spec prefix path name leaf :
  interfaceUpdatePath prefix path = Ok (name, leaf) -> interface_path prefix path name leaf.
Proof.
  unfold interfaceUpdatePath. destruct (_ || _) eqn:Hg; [done|]. apply orb_false_iff in Hg as [Hg Hpre]. apply orb_false_iff in Hg as [_ Hpath].
  destruct (validatePathAuthority prefix) eqn:Ha; [done|]. destruct (validatePathAuthority path) eqn:Hb; [done|].
  destruct (list.last _) as [[l|]|] eqn:Hlast; try done. destruct (interface_key _ _) as [k|] eqn:Hk; [|done].
  destruct (k ==? "") eqn:He; [done|]. intros [= <- <-]. reflect_bools.
  split; [intros p [Hp|Hp]; [exact (validatePathAuthority_spec _ _ Ha Hpre Hp)|exact (validatePathAuthority_spec _ _ Hb Hpath Hp)]|].
  destruct (interface_key_spec _ _ Hk He) as (pre & e & post & Hl & H1 & H2 & H3). exists pre, e, post.
  do 5 (split; [done|]). exists l. split; [|done]. rewrite Hl, fmap_last in Hlast. destruct (list.last _); [|done]. by injection Hlast as ->.
Qed.

Lemma mapOperationalState_range v state : mapOperationalState v = Ok state -> state ∈ ["up"; "down"; "unknown"].
Proof. unfold mapOperationalState. repeat case_match; intros [= <-]; set_solver. Qed.

(** One update repeats the name or brings the state. *)
Lemma extract_step prefix n0 s0 u rest r : extract_updates prefix n0 s0 (u :: rest) = Ok r ->
  exists n, (n0 = "" \/ n0 = n) /\ n <> "" /\
    (names prefix n u /\ extract_updates prefix n s0 rest = Ok r \/
     exists s, s0 = "" /\ s <> "" /\ states prefix n s u /\ extract_updates prefix n s rest = Ok r).
Proof.
  cbn [extract_updates]. destruct (interfaceUpdatePath _ _) as [[n leaf]|] eqn:Hp; [|done]. apply interfaceUpdatePath_spec in Hp.
  assert (Hn : n <> "") by (destruct Hp as (_ & ? & ? & ? & _ & _ & _ & Hn & _); done).
  destruct ((n0 !=? "") && (n0 !=? n)) eqn:Hg; [done|]. set (n1 := if n0 ==? "" then n else n0).
  assert (n1 = n /\ (n0 = "" \/ n0 = n)) as [-> Hn0].
  { subst n1. destruct (n0 ==? "") eqn:E; reflect_bools; [by auto|]. destruct Hg; [done|by auto]. }
  intros Hx. exists n. split; [done|]. split; [done|]. revert Hx. destruct (leaf ==? "name") eqn:Hl; reflect_bools.
  - subst leaf. destruct (scalarString _) as [v|] eqn:Hv; [|done]. destruct (v !=? n) eqn:Hvn; [done|]. reflect_bools. subst v.
    intros Hrest. left. by split.
  - destruct (leaf ==? "oper-status") eqn:Hs; [|done]. destruct (s0 !=? "") eqn:Hs0; [done|]. reflect_bools. subst.
    destruct (scalarString _) as [v|] eqn:Hv; [|done]. destruct (mapOperationalState v) as [s|] eqn:Hm; [|done]. intros Hrest.
    right. exists s. split; [done|]. split; [apply mapOperationalState_range in Hm; by intros ->; set_solver|].
    split; [|done]. split; [done|]. by exists v.
Qed.
(** The updates, given the name and the state so far. *)
Lemma extract_updates_spec prefix updates : forall n0 s0 name state, n0 <> "" ->
  extract_updates prefix n0 s0 updates = Ok (name, state) -> name = n0 /\
  (s0 <> "" -> state = s0 /\ Forall (names prefix name) updates) /\
  (s0 = "" -> state <> "" ->
   exists pre u post, updates = pre ++ u :: post /\ states prefix name state u /\ Forall (names prefix name) (pre ++ post)).
Proof.
  induction updates as [|u rest IH]; intros n0 s0 name state Hn0.
  { intros [= <- <-]. split; [done|]. split; [by split|]. intros -> ?. done. }
  intros (n & [?| ->] & Hn & Hx)%extract_step; [done|]. destruct Hx as [[Hu Hx]|(s & -> & Hs & Hu & Hx)];
    destruct (IH _ _ _ _ Hn Hx) as (-> & IH1 & IH2); (split; [done|]).
  - split.
    + intros Hs. destruct (IH1 Hs) as [-> Hr]. split; [done|]. by constructor.
    + intros Hs Hst. destruct (IH2 Hs Hst) as (pre & u' & post & -> & Hu' & Hf). exists (u :: pre), u', post.
      split; [done|]. split; [done|]. by constructor.
  - split; [done|]. intros _ Hst. destruct (IH1 Hs) as [-> Hr]. by exists [], u, rest.
Qed.
Lemma extract_spec n response o : extract n response = Ok o ->
  exists notification, GetResponse.Notification response = [Some notification] /\ GetResponse.Error response = false /\
    0 < Notification.Timestamp notification /\
    interfaceStateWire.ObservedAt o = unix_epoch + Notification.Timestamp notification /\
    1970 <= year (interfaceStateWire.ObservedAt o) <= 9999 /\
    interfaceStateWire.SchemaVersion o = "v1" /\
    observes notification (interfaceStateWire.InterfaceName o) (interfaceStateWire.OperationalState o).
Proof.
  unfold extract. destruct (GetResponse.Error response); [done|].
  destruct (GetResponse.Notification response) as [|[notification|] [|? ?]]; try done.
  destruct (_ || _) eqn:Hg; [done|]. destruct ((year _ <? 1970) || _) eqn:Hy; [done|].
  destruct (extract_updates _ _ _ _) as [[name state]|] eqn:Hx; [|done]. destruct ((name ==? "") || _) eqn:He; [done|].
  intros [= <-]. exists notification. cbn [interfaceStateWire.ObservedAt interfaceStateWire.SchemaVersion
    interfaceStateWire.InterfaceName interfaceStateWire.OperationalState]. reflect_bools. split; [done|]. split; [done|].
  split; [lia|]. split; [done|]. split; [lia|]. split; [done|]. unfold observes.
  destruct (Notification.Update notification) as [|u rest]; [by injection Hx as <- <-; destruct He|].
  destruct He as [Hn Hs]. apply extract_step in Hx as (n' & _ & Hn' & [[Hu Hx]|(s & _ & Hs' & Hu & Hx)]);
    destruct (extract_updates_spec _ _ _ _ _ _ Hn' Hx) as (-> & IH1 & IH2).
  - destruct (IH2 eq_refl Hs) as (pre & u' & post & -> & Hu' & Hf). exists (u :: pre), u', post.
    split; [done|]. split; [done|]. by constructor.
  - destruct (IH1 Hs') as [-> Hf]. by exists [], u, rest.
Qed.

(** ** From the capture to the observation *)
Section Composition.
Context `{LowerTable} `{Normalisation} `{SortLaws} `{ProtoJSONLaws} `{UnicodeTables}.

Lemma sha256_digest_valid s : validSHA256Digest (sha256_hex s) = true.
Proof.
  unfold validSHA256Digest. rewrite sha256_hex_len. unfold sha256_hex. rewrite hex_roundtrip by apply Sum256_bytes.
  by rewrite Sum256_length.
Qed.

(** The name of an observed interface is text the response contains. *)
Lemma observed_name_valid doc response notification name state : protojson_Unmarshal doc = Ok response ->
  GetResponse.Notification response = [Some notification] -> observes notification name state -> ValidString name = true.
Proof.
  intros Hdoc Hn (pre & u & post & Hu & [Hpath _] & _). destruct Hpath as (_ & epre & e & epost & He & _ & Hk & _).
  destruct (unmarshal_text doc response notification Hdoc) as [_ Hall]; [rewrite Hn; left|].
  rewrite list.Forall_forall in Hall. apply Hall. clear Hall.
  assert (Hin : Some e ∈ GetElem (Notification.Prefix notification) ++ GetElem (Update.Path u)).
  { rewrite He. apply list_elem_of_fmap. exists e. split; [done|]. apply elem_of_app. right. left. }
  assert (Hkeys : forall p, Some e ∈ GetElem p -> name ∈ path_keys p).
  { intros [p|] Hp; [|by apply elem_of_nil in Hp]. cbn in Hp |- *. apply list_elem_of_In, in_concat.
    exists (map snd (map_to_list (PathElem.Key e))). split; [|rewrite Hk, map_to_list_singleton; by left].
    apply in_map_iff. exists (Some e). split; [done|]. by apply list_elem_of_In. }
  apply elem_of_app. apply elem_of_app in Hin as [Hin|Hin]; [left|right]; apply Hkeys in Hin; [done|].
  apply list_elem_of_In, in_concat. exists (path_keys (Update.Path u)). split; [|by apply list_elem_of_In].
  apply in_map_iff. exists u. split; [done|]. rewrite Hu. apply in_app_iff. right. by left.
Qed.

Definition observation_of (o : interfaceStateWire.t) : InterfaceOperationalState.t :=
  InterfaceOperationalState.mk (interfaceStateWire.SchemaVersion o) (interfaceStateWire.InterfaceName o)
    (interfaceStateWire.OperationalState o) (interfaceStateWire.ObservedAt o) (Some ["interface_name"]).

Lemma wire_json_tree o out : wire_json o = Ok out ->
  out = Marshal (wire_tree (observation_of o)) /\ jtime_ok (interfaceStateWire.ObservedAt o) = true.
Proof. unfold wire_json. destruct (jtime_ok _); [|done]. by intros [= <-]. Qed.

(** C26.  The normaliser and the parser agree on what a device reported: when a
    captured gNMI response is normalised and not quarantined, the sanitiser
    released it, its one notification has exactly one operational state, all of
    its updates are within the profile and name one and the same interface, the
    manifest has the digests of the capture and of the result and marks the
    interface name as tainted, and the parser reads from the result exactly that
    interface, the mapped state and the notification's time, whenever the name is
    one it permits. *)
Theorem normalised_observation n parser captured out manifest
    (Hparser : InterfaceStateParser.ID parser <> "" /\ InterfaceStateParser.Version parser <> "")
    (Htransform : Transform (Some n) captured = Ok (out, manifest))
    (Hreleased : TransformationManifest.Quarantined manifest = false) :
  exists safe source response notification name state,
    Sanitise.Transform (sanitiser n) captured = Ok (safe, source) /\ TransformationManifest.Quarantined source = false /\
    protojson_Unmarshal safe = Ok response /\ GetResponse.Notification response = [Some notification] /\
    observes notification name state /\ state ∈ ["up"; "down"; "unknown"] /\
    TransformationManifest.InputDigest manifest = digest captured /\ vouches manifest out /\
    TransformationManifest.PipelineID manifest = id n /\ TransformationManifest.PipelineVersion manifest = version n /\
    (validInterfaceName name = true ->
     ParseWithManifest parser out "application/json" manifest =
       Ok (InterfaceOperationalState.mk "v1" name state (unix_epoch + Notification.Timestamp notification) (Some ["interface_name"]))).
Proof.
  revert Htransform. cbn [Transform]. destruct (Sanitise.Transform _ _) as [[safe source]|] eqn:Hs; [|done].
  destruct (Transform_identity _ _ _ _ Hs) as (Hmv & Hrv & Hin & _).
  destruct (TransformationManifest.Quarantined source) eqn:Hq; [intros [= <- <-]; congruence|].
  destruct (protojson_Unmarshal safe) as [response|] eqn:Hdoc; [|done]. destruct (extract n response) as [o|] eqn:Hx; [|done].
  destruct (wire_json o) as [normalised|] eqn:Hw; [|done]. destruct (510 <? _); [done|]. intros [= <- Hm].
  destruct (extract_spec _ _ _ Hx) as (notification & Hn & _ & Hts & Hob & Hy & Hv & Hobs).
  pose proof Hobs as (_ & _ & _ & _ & (_ & value & _ & Hmap) & _). apply mapOperationalState_range in Hmap.
  destruct (wire_json_tree _ _ Hw) as [Htree Hj].
  exists safe, source, response, notification, (interfaceStateWire.InterfaceName o), (interfaceStateWire.OperationalState o).
  do 6 (split; [assumption || reflexivity|]). rewrite <- Hm in Hreleased |- *. split; [exact Hin|].
  assert (Hvouch : vouches manifest normalised).
  { rewrite <- Hm. split; [exact Hq|]. split; [reflexivity|]. split; [reflexivity|by left]. }
  split; [by rewrite Hm|]. do 2 (split; [reflexivity|]). rewrite Hm. intros Hname. rewrite Htree in Hvouch |- *.
  destruct Hparser as [Hid Hver]. rewrite <- Hob, <- Hv. fold (observation_of o).
  apply release_parses; try assumption; try (rewrite <- Hm; assumption).
  - apply validInterfaceName_spec in Hname as [Hl Hr]. split; [exact Hv|]. split; [exact Hl|]. split; [exact Hr|]. split; [exact Hmap|].
    split; [|reflexivity]. change (interfaceStateWire.ObservedAt o <> 0). rewrite Hob. unfold unix_epoch, Second. lia.
  - by eapply observed_name_valid.
  - rewrite <- Hm. change (TransformationManifest.InputDigest _) with (TransformationManifest.InputDigest source).
    rewrite Hin. apply sha256_digest_valid.
Qed.
End Composition.

(** ** The normaliser in the evidence pipeline *)
Definition as_transformer `{LowerTable} `{Normalisation} `{SortSlice} `{ProtoJSON} (n : GNMIInterfaceState.t) : Transformer.t :=
  Transformer.mk (Transform (Some n)) (Some (NormaliserVersion (Some n))).

(** The pipeline asks of its transformer that its manifests can be stored;
    configured with text and redactions that do not lengthen, the normaliser's
    can, since Go's lengths are of type [int]. *)
Lemma normaliser_fits `{LowerTable} `{Normalisation} `{SortLaws} `{ProtoJSON} n :
  pipeline_fits (sanitiser n) -> ValidString (id n) = true -> ValidString (version n) = true ->
  (forall payload out manifest, Transform (Some n) payload = Ok (out, manifest) -> len out <= max_int64) ->
  forall payload out manifest, Transformer.Transform (as_transformer n) payload = Ok (out, manifest) -> manifest_fits manifest.
Proof.
  intros Hp Hid Hver Hint payload out manifest Ht. specialize (Hint payload out manifest Ht). revert Ht.
  cbn [as_transformer Transformer.Transform Transform]. destruct (Sanitise.Transform _ _) as [[safe source]|] eqn:Hs; [|done].
  pose proof (Transform_fits _ _ _ _ Hp Hs) as Hfit. destruct (TransformationManifest.Quarantined source); [by intros [= <- <-]|].
  destruct (protojson_Unmarshal safe) as [response|]; [|done]. destruct (extract n response) as [o|]; [|done].
  destruct (wire_json o) as [normalised|]; [|done]. destruct (510 <? _); [done|]. intros [= <- <-].
  destruct Hfit as (Hnames & Hfields & Ho & Hn & _). rewrite !list.Forall_cons in Hnames. destruct Hnames as (Hmv & _ & _ & Hrv & Hin & _).
  apply list.Forall_app in Hfields as [Hred _]. assert (Hd : ValidString (sha256_hex normalised) = true) by apply ValidString_hex, Sum256_bytes.
  split; [|split; [|split; [|split; [exact Hn|]]]].
  - repeat (apply list.Forall_cons; split; [assumption || reflexivity|]). constructor.
  - apply list.Forall_app. split; [exact Hred|]. by apply list.Forall_singleton.
  - cbn. apply list.Forall_app. split; [exact Ho|].
    repeat (apply list.Forall_cons; split; [apply outcome_ok; [reflexivity..|apply one_ok]|]). constructor.
  - cbn. unfold uint64_range, max_uint64, max_int64, len in *. lia.
Qed.

(** ** Runs *)
#[local] Existing Instances ascii_lower ascii_nfkc insertion_sort.
#[local] Instance latin1_names : UnicodeTables := {| letter_table _ := false; digit_table _ := false |}.

Definition gnmi_rules : Rules.t :=
  Rules.mk "gnmi/v1" ("name" :: Rules.FreeTextJSONFields DefaultRules) (Rules.InstructionPatterns DefaultRules) 4096 64 10000 128 64.
Definition jobj (fs : list (string * jtree)) : jtree := TObj (map (fun kv => key kv.1 kv.2) fs).
Definition elem_tree (name : string) : jtree := jobj [("name", jstr name)].
Definition gnmi_document : string :=
  Marshal (jobj [("notification", TArr [jobj [("timestamp", jstr "1700000000000000000");
    ("update", TArr [jobj [("path", jobj [("elem", TArr [elem_tree "interfaces";
        jobj [("name", jstr "interface"); ("key", elem_tree "Gi0/0")]; elem_tree "state"; elem_tree "oper-status"])]);
      ("val", jobj [("stringVal", jstr "UP")])]])]])]).
Definition gnmi_path : Path.t :=
  Path.mk "" "" (map (fun e => Some (PathElem.mk e.1 e.2))
    [("interfaces", ∅); ("interface", {["name" := "Gi0/0"]}); ("state", ∅); ("oper-status", ∅)]) [].
Definition gnmi_response : GetResponse.t :=
  GetResponse.mk [Some (Notification.mk 1700000000000000000 None [Update.mk (Some gnmi_path) (Some (StringVal "UP"))] [])] false.
(** A decoder of this document alone. *)
#[local] Instance one_document : ProtoJSON :=
  {| protojson_Unmarshal doc := if doc ==? gnmi_document then Ok gnmi_response else Err (Text "proto: syntax error") |}.
#[local] Instance one_document_laws : ProtoJSONLaws.
Proof.
  constructor. intros doc response n. cbn [protojson_Unmarshal one_document]. destruct (doc ==? gnmi_document); [|done].
  intros [= <-] Hn%list_elem_of_singleton. injection Hn as ->. split; [by vm_compute|].
  match goal with |- Forall _ ?l => replace l with ["Gi0/0"] by (vm_compute; reflexivity) end.
  apply list.Forall_singleton. reflexivity.
Qed.
Definition gnmi_pipeline : Pipeline.t := Pipeline.mk "safe-json" "v1" ∅ 65536 gnmi_rules.
Definition demo_normaliser : GNMIInterfaceState.t := GNMIInterfaceState.mk "gnmi-interface-state" "n1" gnmi_pipeline 16.
Lemma demo_normaliser_made : NewGNMIInterfaceState "gnmi-interface-state" "n1" gnmi_pipeline 16 = Ok demo_normaliser /\
  is_ok (NewGNMIInterfaceState "gnmi-interface-state" "n1" demo_pipeline 16) = false.
Proof. by vm_compute. Qed.

Lemma demo_observes n name state : GetResponse.Notification gnmi_response = [Some n] -> observes n name state ->
  name = "Gi0/0" /\ state = "up".
Proof.
  intros [= <-] (pre & u & post & Hu & [Hpath (value & Hv & Hm)] & _). cbn [Notification.Update Notification.Prefix] in *.
  destruct pre as [|? [|? ?]]; try discriminate Hu. injection Hu as <- _. cbn [Update.Path Update.Val] in *. split.
  - destruct Hpath as (_ & epre & e & epost & He & Hname & Hk & _).
    assert (Hin : In (Some e) (GetElem (Some gnmi_path))).
    { change (GetElem (Some gnmi_path)) with (GetElem None ++ GetElem (Some gnmi_path)). rewrite He.
      apply in_map, in_app_iff. right. by left. }
    destruct Hin as [[= <-]|[[= <-]|[[= <-]|[[= <-]|[]]]]]; try discriminate Hname.
    assert (Hlook : ({["name" := name]} : gmap string string) !! "name" = Some "Gi0/0") by (rewrite <- Hk; reflexivity).
    rewrite lookup_singleton_eq in Hlook. by injection Hlook.
  - vm_compute in Hv. injection Hv as <-. vm_compute in Hm. by injection Hm.
Qed.
Lemma normalised_observation_witness :
  exists out manifest, Transform (Some demo_normaliser) gnmi_document = Ok (out, manifest) /\
    ParseWithManifest demo_parser out "application/json" manifest =
      Ok (InterfaceOperationalState.mk "v1" "Gi0/0" "up" (unix_epoch + 1700000000000000000) (Some ["interface_name"])).
Proof.
  assert (Hrun : match Transform (Some demo_normaliser) gnmi_document with
    | Ok (out, manifest) => TransformationManifest.Quarantined manifest = false | Err _ => False end) by (vm_compute; reflexivity).
  destruct (Transform (Some demo_normaliser) gnmi_document) as [[out manifest]|] eqn:E; [|destruct Hrun].
  exists out, manifest. split; [reflexivity|].
  destruct (normalised_observation demo_normaliser demo_parser gnmi_document out manifest ltac:(split; discriminate) E Hrun)
    as (safe & source & response & n & name & state & _ & _ & Hdoc & Hn & Hobs & _ & _ & _ & _ & _ & Hparse).
  cbn [protojson_Unmarshal one_document] in Hdoc. destruct (safe ==? gnmi_document); [|discriminate Hdoc].
  injection Hdoc as <-. destruct (demo_observes _ _ _ Hn Hobs) as [-> ->].
  injection Hn as <-.
  apply Hparse. vm_compute. reflexivity.
Defined.

(** The free-text check matches field names exactly, the parser ignores case: a
    name in another case escapes the check for repetition and still becomes the
    observed name. *)
Definition state_document (fields : list (string * jtree)) : string :=
  Marshal (jobj (("schema_version", jstr "v1") :: fields ++
    [("operational_state", jstr "up"); ("observed_at", jtime (unix_epoch + 1700000000000000000))])).
Definition repetitive : string := of_bytes (List.repeat 97 100).
Definition observed_through (payload : string) : option string :=
  match Sanitise.Transform demo_pipeline payload with
  | Ok (out, manifest) =>
    match ParseWithManifest demo_parser out "application/json" manifest with
    | Ok o => Some (InterfaceOperationalState.InterfaceName o)
    | Err _ => None
    end
  | Err _ => None
  end.
Example field_case_unchecked :
  observed_through (state_document [("interface_name", jstr repetitive)]) = None /\
  observed_through (state_document [("interface_name", jstr "Gi0/0"); ("Interface_Name", jstr repetitive)]) = Some repetitive.
Proof. by vm_compute. Qed.
