(* ===== verification/DisclosureStore.v ===== *)
(** * Stored disclosures

    The disclosure service over PostgreSQL: decisions and deliveries by any
    actors in any order, each delivery with whatever the others do between its
    idempotency check and its insert. *)
From S2P Require Import Prelude GoStrings GoEncoding GoDecoding Json JsonStruct Keys Task Schema TaskPostgres Grants Outbox Resolution Disclosure.
Local Open Scope Z_scope.
Import Receipt (SchemaVersion, ReceiptID, TenantID, EvidenceID, ActorID, DisclosureDecisionID, PolicyBundleDigest,
  PolicyInputDigest, Representation, FieldsDelivered, TaintedFields, TaintWarning, SanitisationSummary,
  RedactionsApplied, DeliveredPayloadDigest, RequestID, DeliveredAt, SignatureSet_).
Import PostgresRepository.

(** ** Names *)
Lemma elem_of_stringSet s l : s ∈ stringSet l <-> s <> "" /\ s ∈ l.
Proof. unfold stringSet. by rewrite elem_of_list_to_set, list_elem_of_filter. Qed.
Lemma elem_of_uniqueSorted s l : s ∈ elems (uniqueSorted l) <-> s <> "" /\ s ∈ l.
Proof. unfold uniqueSorted. cbn [elems default]. by rewrite elem_of_sorted, elem_of_elements, elem_of_stringSet. Qed.
Lemma uniqueSorted_valid l :
  Forall (fun s => ValidString s = true) l -> Forall (fun s => ValidString s = true) (elems (uniqueSorted l)).
Proof. rewrite !list.Forall_forall. intros Hl s [_ Hs]%elem_of_uniqueSorted. by apply Hl. Qed.
Lemma find_negb_None {A} (p : A -> bool) l : find (fun x => negb (p x)) l = None -> Forall (fun x => p x = true) l.
Proof.
  intros Hf. apply list.Forall_forall. intros x Hx. pose proof (find_none _ _ Hf x (proj1 (list_elem_of_In _ _) Hx)) as Hp.
  by apply negb_false_iff.
Qed.

(** What [validateDelivery] and [validateTaintedFields] let through. *)
Definition permits (d : Decision.t) (now : Z) (actorID tenantID evidenceID representation : string)
    (fields : gmap string string) (redactions : list string) : Prop :=
  now < Decision.ExpiresAt d /\ Decision.ActorID d = actorID /\ Decision.TenantID d = tenantID /\
  Decision.EvidenceID d = evidenceID /\ Decision.PermittedRepresentation d = representation /\
  (forall name, name ∈ dom fields -> name ∈ elems (Decision.PermittedFields d)) /\
  (forall required, required ∈ elems (Decision.RequiredRedactions d) -> required ∈ redactions).
Lemma validateDelivery_spec d now actorID tenantID evidenceID representation fields redactions delivered names :
  validateDelivery d now actorID tenantID evidenceID representation fields redactions = Ok (delivered, names) ->
  permits d now actorID tenantID evidenceID representation fields redactions /\ delivered = fields /\
  names = sort_Strings (map fst (map_to_list fields)).
Proof.
  unfold validateDelivery. destruct (negb (Before _ _)) eqn:Ht; [done|]. destruct (_ || _) eqn:Hid; [done|].
  destruct (representation !=? _) eqn:Hr; [done|]. destruct (find _ (map_to_list fields)) as [|] eqn:Hf; [done|].
  destruct (find _ (elems _)) as [|] eqn:Hq; [done|]. intros [= <- <-]. split; [|done].
  apply find_negb_None in Hf. apply find_negb_None in Hq. rewrite list.Forall_forall in Hf. rewrite list.Forall_forall in Hq.
  reflect_bools. destruct Hid as [[-> ->] ->]. split_and!; try done.
  - intros name [v Hv]%elem_of_dom. specialize (Hf (name, v) (proj2 (elem_of_map_to_list _ _ _) Hv)).
    apply bool_decide_eq_true, elem_of_stringSet in Hf. by destruct Hf.
  - intros required Hin. specialize (Hq required Hin). apply bool_decide_eq_true, elem_of_stringSet in Hq. by destruct Hq.
Qed.
Lemma validateTaintedFields_spec delivered tainted t :
  validateTaintedFields delivered tainted = Ok t -> t = uniqueSorted tainted /\ forall s, s ∈ elems t -> s ∈ delivered.
Proof.
  unfold validateTaintedFields. destruct (find _ _) eqn:Hf; [done|]. intros [= <-]. split; [done|].
  apply find_negb_None in Hf. rewrite list.Forall_forall in Hf. intros s Hs. specialize (Hf s Hs).
  by apply bool_decide_eq_true, elem_of_stringSet in Hf as [_ ?].
Qed.

Lemma elem_of_names name (m : gmap string string) : name ∈ sort_Strings (map fst (map_to_list m)) <-> name ∈ dom m.
Proof.
  rewrite elem_of_sorted, elem_of_dom. split.
  - intros ([k v] & -> & Hin)%list_elem_of_fmap. by exists v; apply elem_of_map_to_list.
  - intros [v Hv]. apply list_elem_of_fmap. exists (name, v). split; [done|]. by apply elem_of_map_to_list.
Qed.

(** What a delivery asks for, and what it is held to. *)
Module Delivery.
Record t := mk {
  now : Z; random : result (list Z); decisionID : string; actorID : string; tenantID : string; evidenceID : string;
  requestID : string; representation : string; fields : gmap string string; redactions : list string; tainted : list string }.
End Delivery.
Import Delivery (now, random, decisionID, actorID, tenantID, evidenceID, requestID, representation, fields, redactions, tainted).

Definition permitted (q : Delivery.t) (d : Decision.t) : Prop :=
  permits d (now q) (actorID q) (tenantID q) (evidenceID q) (representation q) (fields q) (redactions q) /\
  forall name, name ∈ tainted q -> name <> "" -> Decision.AllowTaintedFields d = true /\ name ∈ dom (fields q).
Definition describes (q : Delivery.t) (d : Decision.t) (r : Receipt.t) : Prop :=
  DisclosureDecisionID r = decisionID q /\ ActorID r = actorID q /\ TenantID r = tenantID q /\ EvidenceID r = evidenceID q /\
  RequestID r = requestID q /\ Representation r = representation q /\ PolicyBundleDigest r = Decision.PolicyBundleDigest d /\
  PolicyInputDigest r = Decision.PolicyInputDigest d /\ DeliveredPayloadDigest r = sha256_hex (Marshal (map_tree (fields q))) /\
  (forall name, name ∈ elems (FieldsDelivered r) <-> name ∈ dom (fields q)) /\
  (forall name, name ∈ elems (TaintedFields r) <-> name <> "" /\ name ∈ tainted q) /\
  (forall name, name ∈ elems (RedactionsApplied r) <-> name <> "" /\ name ∈ redactions q).

(** ** Stored decisions *)
Definition decision_written (row : DisclosureDecisionRow.t) (d : Decision.t) : Prop :=
  decision_fits d /\ exists ts document, encodeDecision d = Ok document /\
    all_encodable [Decision.DecisionID d; Decision.TenantID d; Decision.ActorID d; Decision.EvidenceID d] = true /\
    row = decision_row ts d document.
Definition decisions_ok (db : DB.t) : Prop :=
  map_Forall (fun id row => exists d, decision_written row d /\ Decision.DecisionID d = id) (DB.disclosure_decisions db).
Definition stored_decision (db : DB.t) (d : Decision.t) : Prop :=
  exists row, DB.disclosure_decisions db !! Decision.DecisionID d = Some row /\ decision_written row d.

Lemma encodable_pair a b : encodable a = true -> encodable b = true -> all_encodable [a; b] = true.
Proof. intros Ha Hb. unfold all_encodable. cbn [forallb]. by rewrite Ha, Hb. Qed.

Lemma stored_decision_reads db d document :
  stored_decision db d -> encodeDecision d = Ok document ->
  getDecision (Decision.TenantID d) (Decision.DecisionID d) db = Ok (d, document).
Proof.
  intros (row & Hrow & Hf & ts & document' & He & Hp & ->) He'. assert (document' = document) as -> by congruence.
  destruct (encodeDecision_facts d document He) as (Hv & _). unfold validatePersistedDecision in Hv.
  destruct (_ || _) eqn:Hne in Hv; [done|]. rewrite !orb_false_iff in Hne.
  destruct Hne as (((((((((Hid & _) & Htn) & _) & _) & _) & _) & _) & _) & _).
  unfold all_encodable in Hp. cbn [forallb] in Hp. rewrite !andb_true_iff in Hp. destruct Hp as (Hp1 & Hp2 & _).
  unfold getDecision. rewrite Hid, Htn, encodable_pair, Hrow by done. cbn [orb negb].
  unfold decision_row. cbn [DisclosureDecisionRow.tenant_id DisclosureDecisionRow.document DisclosureDecisionRow.document_digest
    DisclosureDecisionRow.actor_id DisclosureDecisionRow.evidence_id DisclosureDecisionRow.evaluated_at DisclosureDecisionRow.expires_at].
  rewrite (decode_encode_decision d document Hf He), !bool_decide_eq_true_2 by reflexivity.
  unfold normaliseTime. by rewrite !Z.eqb_refl.
Qed.

(** Whatever is read is what was written. *)
Lemma getDecision_stored db tenantID decisionID d document :
  decisions_ok db -> getDecision tenantID decisionID db = Ok (d, document) ->
  stored_decision db d /\ encodeDecision d = Ok document /\ Decision.TenantID d = tenantID /\ Decision.DecisionID d = decisionID.
Proof.
  intros Hok Hget. unfold getDecision in Hget. destruct (_ || _); [done|]. destruct (negb _); [done|].
  destruct (DB.disclosure_decisions db !! decisionID) as [row|] eqn:Hrow; [|done].
  destruct (DisclosureDecisionRow.tenant_id row !=? tenantID) eqn:Ht; [done|].
  destruct (Hok _ _ Hrow) as (d0 & Hw & Hid). pose proof Hw as (Hf & ts & doc & He & Hp & Hr).
  destruct (_ !=? DisclosureDecisionRow.document_digest row); [done|].
  replace (DisclosureDecisionRow.document row) with doc in Hget by by rewrite Hr.
  rewrite (decode_encode_decision d0 doc Hf He) in Hget. destruct (_ || _); [done|]. injection Hget as <- <-.
  apply negb_false_iff, bool_decide_eq_true in Ht. subst decisionID. split; [by exists row|]. split; [done|]. by rewrite <- Ht, Hr.
Qed.

Definition grows (db db' : DB.t) : Prop :=
  DB.disclosure_decisions db ⊆ DB.disclosure_decisions db' /\ DB.disclosure_receipts db ⊆ DB.disclosure_receipts db'.
#[local] Instance grows_preorder : PreOrder grows.
Proof. split; [by split|]. intros a b c [H1 H2] [H3 H4]. split; by etrans. Qed.

Lemma CreateDecision_spec ts d db :
  decisions_ok db ->
  (all_encodable [Decision.DecisionID d; Decision.TenantID d; Decision.ActorID d; Decision.EvidenceID d] = true -> decision_fits d) ->
  let '(r, db') := CreateDecision ts d db in
  decisions_ok db' /\ grows db db' /\ DB.disclosure_receipts db' = DB.disclosure_receipts db /\
  (is_ok r = true -> stored_decision db' d).
Proof.
  intros Hok Hfits. unfold CreateDecision. destruct (encodeDecision d) as [document|] eqn:He; [|done].
  unfold insert_decision. destruct (all_encodable _) eqn:Hp; [|done]. cbn [negb]. specialize (Hfits eq_refl).
  set (row := decision_row ts d document). assert (Hw : decision_written row d) by (split; [done|]; by exists ts, document).
  destruct (DisclosureDecisionRow.check row); [|done]. cbn [negb]. change (DisclosureDecisionRow.decision_id row) with (Decision.DecisionID d).
  destruct (DB.disclosure_decisions db !! Decision.DecisionID d) as [old|] eqn:Hold.
  - destruct (getDecision _ _ db) as [[existing document']|] eqn:Hget; [|done]. destruct (_ || _) eqn:Hc; [done|]. reflect_bools.
    split_and!; try done. intros _. destruct (getDecision_stored _ _ _ _ _ Hok Hget) as (Hst & He' & _).
    destruct Hc as [_ ->]. destruct Hst as (row' & Hrow' & Hf' & Hw').
    assert (existing = d) as -> by (pose proof (decode_encode_decision _ _ Hf' He'); pose proof (decode_encode_decision _ _ Hfits He); congruence).
    by exists row'.
  - destruct (negb (evidence_exists db row)); [done|]. split_and!; [|split; [by apply insert_subseteq|done]|done|].
    + intros id r Hl. change (<[Decision.DecisionID d := row]> (DB.disclosure_decisions db) !! id = Some r) in Hl.
      apply lookup_insert_Some in Hl as [[<- <-]|[_ Hl]]; [by exists d|by apply Hok in Hl].
    + intros _. exists row. split; [apply lookup_insert_eq|done].
Qed.

Lemma stored_decision_grows db db' d : grows db db' -> stored_decision db d -> stored_decision db' d.
Proof. intros [Hs _] (row & Hrow & Hw). exists row. by split; [eapply lookup_weaken|]. Qed.

(** ** Stored receipts *)
Definition receipt_params (r : Receipt.t) : list string :=
  [ReceiptID r; TenantID r; EvidenceID r; ActorID r; DisclosureDecisionID r; RequestID r; DeliveredPayloadDigest r; SchemaVersion r].
Definition receipt_written (row : ReceiptRow.t) (r : Receipt.t) : Prop :=
  receipt_fits r /\ exists ts document, encodeReceipt r = Ok document /\ all_encodable (receipt_params r) = true /\
    row = receipt_row ts r document.

Lemma cloneReceipt_idemp r : cloneReceipt (cloneReceipt r) = cloneReceipt r.
Proof. destruct r. unfold cloneReceipt. cbn. by rewrite !copy_slice_idemp. Qed.
Lemma sameDelivery_clone r : sameDelivery (cloneReceipt r) r = true.
Proof. unfold sameDelivery. cbn. rewrite !elems_copy_slice. by rewrite !bool_decide_eq_true_2. Qed.
Lemma canonicalReceipt_clone r : canonicalReceipt (cloneReceipt r) = canonicalReceipt r.
Proof.
  unfold canonicalReceipt. replace (validateReceipt (cloneReceipt r)) with (validateReceipt r).
  - unfold canonicalReceiptV1, canonicalReceiptV2, canonicalReceiptV3, receipt_head, receipt_tail, sorted_copy.
    destruct r. cbn -[Marshal]. by rewrite !copy_slice_idemp.
  - unfold validateReceipt. destruct r as [? ? ? ? ? ? ? ? ? fd]. cbn. by destruct fd as [[|]|].
Qed.

Lemma getReceipt_written arguments row r :
  receipt_written row r -> all_encodable arguments = true -> getReceipt arguments (Some row) = Ok (cloneReceipt r).
Proof.
  intros (Hf & ts & document & He & _ & ->) Ha. unfold getReceipt. rewrite Ha. cbn [negb]. unfold receipt_row.
  cbn [ReceiptRow.document ReceiptRow.document_digest ReceiptRow.receipt_id ReceiptRow.tenant_id ReceiptRow.evidence_id
    ReceiptRow.actor_id ReceiptRow.disclosure_decision_id ReceiptRow.request_id ReceiptRow.delivered_payload_digest
    ReceiptRow.schema_version ReceiptRow.delivered_at]. rewrite (decode_encode_receipt r document Hf He).
  rewrite !bool_decide_eq_true_2 by reflexivity. unfold normaliseTime.
  change (DeliveredAt (cloneReceipt r)) with (DeliveredAt r). by rewrite Z.eqb_refl.
Qed.
Lemma written_request row r :
  receipt_written row r -> ReceiptRow.request_key row = (TenantID r, ActorID r, RequestID r) /\
  all_encodable [TenantID r; ActorID r; RequestID r] = true /\ all_encodable [TenantID r; ReceiptID r] = true /\
  ReceiptRow.tenant_id row = TenantID r.
Proof.
  intros (_ & ts & document & _ & Hp & ->). split; [done|]. unfold all_encodable, receipt_params in *. cbn [forallb] in *.
  rewrite !andb_true_iff in Hp. destruct Hp as (H1 & H2 & _ & H3 & _ & H4 & _). by rewrite H1, H2, H3, H4.
Qed.

Section Store.
Context {P : Type} `{SL : SigningLaws P} (signing : Manager (P := P)).

(** Every receipt was written under its identifier and verifies; a request has
    at most one. *)
Definition receipts_ok (db : DB.t) : Prop :=
  map_Forall (fun id row => exists r, receipt_written row r /\ ReceiptID r = id /\ VerifyReceipt signing r = None)
    (DB.disclosure_receipts db) /\
  forall id id' row row', DB.disclosure_receipts db !! id = Some row -> DB.disclosure_receipts db !! id' = Some row' ->
    ReceiptRow.request_key row = ReceiptRow.request_key row' -> id = id'.
Definition stored_receipt (db : DB.t) (r : Receipt.t) : Prop :=
  exists row, DB.disclosure_receipts db !! ReceiptID r = Some row /\ receipt_written row r /\ VerifyReceipt signing r = None.

Lemma VerifyReceipt_clone r : VerifyReceipt signing (cloneReceipt r) = VerifyReceipt signing r.
Proof. unfold VerifyReceipt. by rewrite canonicalReceipt_clone. Qed.

Lemma by_request_Some k db row :
  by_request k db = Some row -> exists id, DB.disclosure_receipts db !! id = Some row /\ ReceiptRow.request_key row = k.
Proof.
  unfold by_request. intros [Hin Hk]%find_some. apply bool_decide_eq_true in Hk.
  apply in_map_iff in Hin as ([id row'] & Heq & Hin). cbn in Heq. subst row'. exists id. split; [|done].
  by apply elem_of_map_to_list, list_elem_of_In.
Qed.
Lemma by_request_None k db id row :
  by_request k db = None -> DB.disclosure_receipts db !! id = Some row -> ReceiptRow.request_key row <> k.
Proof.
  unfold by_request. intros Hnone Hl Hk. assert (Hin : In row (map snd (map_to_list (DB.disclosure_receipts db)))).
  { apply in_map_iff. exists (id, row). split; [done|]. by apply list_elem_of_In, elem_of_map_to_list. }
  pose proof (find_none _ _ Hnone row Hin) as Hf. by apply bool_decide_eq_false in Hf.
Qed.
Lemma by_request_lookup db id row :
  receipts_ok db -> DB.disclosure_receipts db !! id = Some row -> by_request (ReceiptRow.request_key row) db = Some row.
Proof.
  intros [_ Hu] Hl. destruct (by_request _ db) as [row'|] eqn:Hb; [|by eapply by_request_None in Hb].
  apply by_request_Some in Hb as (id' & Hl' & Hk). assert (id' = id) as -> by by eapply Hu. congruence.
Qed.

Lemma stored_receipt_reads db r :
  receipts_ok db -> stored_receipt db r ->
  GetReceipt (TenantID r) (ReceiptID r) db = Ok (cloneReceipt r) /\
  GetReceiptByRequest (TenantID r) (ActorID r) (RequestID r) db = Ok (cloneReceipt r).
Proof.
  intros Hok (row & Hrow & Hw & _). destruct (written_request row r Hw) as (Hk & H1 & H2 & Ht).
  unfold GetReceipt, GetReceiptByRequest. rewrite <- Hk, (by_request_lookup db _ row Hok Hrow), Hrow, Ht.
  rewrite bool_decide_eq_true_2 by done. by split; apply getReceipt_written.
Qed.
Lemma GetReceiptByRequest_stored db tenantID actorID requestID x :
  receipts_ok db -> GetReceiptByRequest tenantID actorID requestID db = Ok x -> exists r, stored_receipt db r /\ x = cloneReceipt r.
Proof.
  intros Hok. unfold GetReceiptByRequest. destruct (by_request _ db) as [row|] eqn:Hb.
  - apply by_request_Some in Hb as (id & Hl & _). destruct (proj1 Hok _ _ Hl) as (r & Hw & Hid & Hv).
    destruct (all_encodable [tenantID; actorID; requestID]) eqn:Ha.
    + rewrite (getReceipt_written _ row r Hw Ha). intros [= <-]. exists r. split; [|done]. exists row. by rewrite Hid.
    + unfold getReceipt. by rewrite Ha.
  - unfold getReceipt. by destruct (negb _).
Qed.
Lemma stored_receipt_grows db db' r : grows db db' -> stored_receipt db r -> stored_receipt db' r.
Proof. intros [_ Hs] (row & Hrow & Hw). exists row. by split; [eapply lookup_weaken|]. Qed.

(** A receipt that a request already has. *)
Lemma existing_receipt r db :
  receipts_ok db ->
  let '(res, db') := match GetReceiptByRequest (TenantID r) (ActorID r) (RequestID r) db with
      | Ok existing => if sameDelivery existing r then (Ok existing, db) else (Err ErrReceiptConflict, db)
      | Err e => (Err (if errors_Is e ErrReceiptNotFound then ErrReceiptConflict else e), db)
      end in
  db' = db /\ forall stored, res = Ok stored -> exists r0, stored_receipt db r0 /\ stored = cloneReceipt r0 /\ sameDelivery stored r = true.
Proof.
  intros Hok. destruct (GetReceiptByRequest _ _ _ db) as [existing|] eqn:Hg; [|done].
  destruct (sameDelivery existing r) eqn:Hs; [|done]. split; [done|]. intros stored [= <-].
  destruct (GetReceiptByRequest_stored _ _ _ _ _ Hok Hg) as (r0 & Hst & ->). by exists r0.
Qed.
Lemma receipts_ok_insert r row db :
  receipts_ok db -> receipt_written row r -> VerifyReceipt signing r = None -> by_request (ReceiptRow.request_key row) db = None ->
  receipts_ok (db <| DB.disclosure_receipts := <[ReceiptID r := row]> (DB.disclosure_receipts db) |>).
Proof.
  intros Hok Hw Hv Hreq. pose proof (fun i y => by_request_None _ db i y Hreq) as Hnew. split.
  - intros id r' Hl. change (<[ReceiptID r := row]> (DB.disclosure_receipts db) !! id = Some r') in Hl.
    apply lookup_insert_Some in Hl as [[<- <-]|[_ Hl]]; [by exists r|by apply (proj1 Hok) in Hl].
  - intros id id' x x' Hl Hl' Hk. change (<[ReceiptID r := row]> (DB.disclosure_receipts db) !! id = Some x) in Hl.
    change (<[ReceiptID r := row]> (DB.disclosure_receipts db) !! id' = Some x') in Hl'.
    apply lookup_insert_Some in Hl as [[<- <-]|[_ Hl]]; apply lookup_insert_Some in Hl' as [[<- <-]|[_ Hl']]; try done.
    + by apply Hnew in Hl'.
    + by apply Hnew in Hl.
    + by eapply (proj2 Hok).
Qed.

Lemma CreateReceipt_spec ts r db :
  receipts_ok db -> (all_encodable (receipt_params r) = true -> receipt_fits r) -> VerifyReceipt signing r = None ->
  let '(res, db') := CreateReceipt ts r db in
  receipts_ok db' /\ grows db db' /\ DB.disclosure_decisions db' = DB.disclosure_decisions db /\
  forall stored, res = Ok stored -> exists r0, stored_receipt db' r0 /\ stored = cloneReceipt r0 /\ sameDelivery stored r = true.
Proof.
  intros Hok Hfits Hv. unfold CreateReceipt. destruct (encodeReceipt r) as [document|] eqn:He; [|done].
  unfold insert_receipt. fold (receipt_params r). destruct (all_encodable (receipt_params r)) eqn:Hp; [|done]. cbn [negb].
  set (row := receipt_row ts r document).
  assert (Hw : receipt_written row r) by (split; [by apply Hfits|]; by exists ts, document).
  destruct (ReceiptRow.check row); [|done]. cbn [negb]. change (ReceiptRow.receipt_id row) with (ReceiptID r).
  pose proof (existing_receipt r db Hok) as Hex.
  destruct (DB.disclosure_receipts db !! ReceiptID r) as [old|] eqn:Hold.
  { destruct (GetReceiptByRequest _ _ _ db) as [existing|]; [destruct (sameDelivery existing r)|]; by split_and!; try apply Hex. }
  destruct (by_request _ db) as [old|] eqn:Hreq.
  { destruct (GetReceiptByRequest _ _ _ db) as [existing|]; [destruct (sameDelivery existing r)|]; by split_and!; try apply Hex. }
  destruct (negb (decision_exists db row)); [done|]. split_and!.
  - by apply receipts_ok_insert.
  - split; [done|by apply insert_subseteq].
  - done.
  - intros stored [= <-]. exists r. split; [|split; [done|apply sameDelivery_clone]].
    exists row. split; [apply lookup_insert_eq|done].
Qed.

(** ** The service *)
Definition shared (ts : Z) (between : DB.t -> DB.t) : DisclosureRepository DB.t := {|
  Disclosure.CreateDecision := CreateDecision ts; Disclosure.GetDecision := GetDecision;
  Disclosure.CreateReceipt r db := CreateReceipt ts r (between db);
  Disclosure.GetReceipt := GetReceipt; Disclosure.GetReceiptByRequest := GetReceiptByRequest |}.

Definition store_ok (db : DB.t) : Prop := decisions_ok db /\ receipts_ok db.
Definition others_ok (f : DB.t -> DB.t) : Prop := forall db, store_ok db -> store_ok (f db) /\ grows db (f db).
Definition valid_texts : list string -> Prop := Forall (fun s => ValidString s = true).
(** Keys are named in text that JSON represents. *)
Definition keys_text : Prop :=
  Forall (fun p => forall purpose k, CurrentSigningKey p purpose = Ok k ->
    ValidString (SigningKey.Algorithm k) = true /\ ValidString (SigningKey.Reference k) = true) (providers signing).
Hypothesis Hproviders : Forall provider_ok (providers signing).
Hypothesis Hcount : 0 < Z.of_nat (List.length (providers signing)) <= maximumSignatures.
Hypothesis Htext : keys_text.

Lemma signed_set_fits purpose domain canonical set :
  ValidString domain = true -> manager_Sign signing purpose domain canonical = Ok set -> set_fits set.
Proof.
  intros Hd. unfold manager_Sign. destruct (Keys.signingPayload _ _); [|done]. destruct (sign_all _ _ _ _) as [l|] eqn:Hl; [|done].
  destruct (policySatisfied _ _); [done|]. intros [= <-]. split; [by repeat constructor|]. cbn [SignatureSet.Signatures].
  rewrite isort_perm. eapply List.Forall_impl; [|exact (sign_all_keys _ _ _ _ _ Hl)]. intros e (p & k & Hp & Hk & Ha & Hr).
  unfold keys_text in Htext. rewrite list.Forall_forall in Htext. unfold entry_fits. rewrite Ha, Hr. by eapply Htext.
Qed.

(** Signing a receipt makes it verify. *)
Lemma signed_receipt_verifies r canonical set :
  SchemaVersion r = receiptSchemaVersion -> canonicalReceipt r = Ok canonical ->
  manager_Sign signing "disclosure-receipt" "disclosure-receipt/v3" canonical = Ok set ->
  VerifyReceipt signing (r <| SignatureSet_ := set |>) = None.
Proof.
  intros Hs Hc Hsign. unfold VerifyReceipt. change (canonicalReceipt (r <| SignatureSet_ := set |>)) with (canonicalReceipt r).
  change (SchemaVersion (r <| SignatureSet_ := set |>)) with (SchemaVersion r). rewrite Hc, Hs.
  change (receiptDomain receiptSchemaVersion) with (@Ok string "disclosure-receipt/v3").
  change (SignatureSet_ (r <| SignatureSet_ := set |>)) with set.
  cbv beta iota. by rewrite (manager_sign_verifies _ _ _ _ _ Hproviders Hcount Hsign).
Qed.

(** What a receipt is checked to say when its identifiers are text. *)
Definition receipt_text (r : Receipt.t) : Prop :=
  valid_texts [PolicyBundleDigest r; PolicyInputDigest r; Representation r; TaintWarning r; SanitisationSummary r] /\
  valid_texts (elems (FieldsDelivered r)) /\ valid_texts (elems (TaintedFields r)) /\ valid_texts (elems (RedactionsApplied r)).
Lemma params_fit r :
  receipt_text r -> set_fits (SignatureSet_ r) -> all_encodable (receipt_params r) = true -> receipt_fits r.
Proof.
  intros (Hs & Hf & Ht & Hr) Hset Hp. unfold all_encodable, receipt_params, encodable in Hp. cbn [forallb] in Hp.
  rewrite !andb_true_iff in Hp. destruct Hp as ([? _] & [? _] & [? _] & [? _] & [? _] & [? _] & [? _] & [? _] & _).
  unfold valid_texts in Hs. split_valid. split; [|done]. repeat (constructor; [assumption|]). constructor.
Qed.

Lemma persistReceipt_spec ts between r db :
  store_ok db -> others_ok between -> receipt_text r -> SchemaVersion r = receiptSchemaVersion ->
  let '(res, db') := persistReceipt (H0 := shared ts between) signing r db in
  store_ok db' /\ grows db db' /\
  forall stored, res = Ok stored -> exists r0, stored_receipt db' r0 /\ stored = cloneReceipt r0 /\ sameDelivery stored r = true.
Proof.
  intros Hok Hothers Htexts Hschema. unfold persistReceipt. cbn [Disclosure.GetReceiptByRequest Disclosure.CreateReceipt shared].
  destruct (GetReceiptByRequest _ _ _ db) as [existing|e] eqn:Hg.
  - destruct (sameDelivery existing r) eqn:Hs; [|done]. cbn [negb]. destruct (VerifyReceipt signing existing); [done|].
    split; [done|]. split; [done|]. intros stored [= <-].
    destruct (GetReceiptByRequest_stored _ _ _ _ _ (proj2 Hok) Hg) as (r0 & Hst & ->). by exists r0.
  - destruct (negb _); [done|]. destruct (canonicalReceipt r) as [canonical|] eqn:Hc; [|done].
    destruct (manager_Sign signing _ _ canonical) as [set|] eqn:Hsign; [|done].
    destruct (Hothers db Hok) as [Hokb Hgb].
    pose proof (signed_receipt_verifies r canonical set Hschema Hc Hsign) as Hver.
    pose proof (signed_set_fits _ "disclosure-receipt/v3" _ _ eq_refl Hsign) as Hset.
    set (r' := r <| SignatureSet_ := set |>) in *. change set with (SignatureSet_ r') in Hset. change (receipt_text r') in Htexts.
    pose proof (CreateReceipt_spec ts r' (between db) (proj2 Hokb) (params_fit r' Htexts Hset) Hver) as Hcreate.
    destruct (CreateReceipt ts _ (between db)) as [res db']. destruct Hcreate as (Hr' & Hg' & Hd' & Hres).
    assert (store_ok db') by (split; [unfold decisions_ok; rewrite Hd'; apply Hokb|done]).
    destruct res as [stored|]; (split; [done|]; split; [by etrans|]); [|done]. intros x [= <-]. by apply Hres.
Qed.

Definition accounted (q : Delivery.t) (delivered : gmap string string) (receipt : Receipt.t) (db : DB.t) : Prop :=
  delivered = fields q /\
  exists d r, stored_decision db d /\ Decision.DecisionID d = decisionID q /\ permitted q d /\
    stored_receipt db r /\ receipt = cloneReceipt r /\ describes q d receipt.

Definition asked (q : Delivery.t) (d : Decision.t) (receiptID : string) : Receipt.t :=
  receipt_of d receiptID (representation q) (requestID q) (fields q) (sort_Strings (map fst (map_to_list (fields q))))
    (uniqueSorted (tainted q)) (redactions q) (now q).
Lemma sameDelivery_describes q d receiptID r :
  permitted q d -> Decision.DecisionID d = decisionID q -> sameDelivery r (asked q d receiptID) = true -> describes q d r.
Proof.
  intros [(_ & Hac & Htn & Hev & _) _] Hid. unfold sameDelivery, describes. rewrite !andb_true_iff, !bool_decide_eq_true.
  unfold asked, receipt_of. cbn [TenantID EvidenceID ActorID DisclosureDecisionID PolicyBundleDigest PolicyInputDigest Representation
    DeliveredPayloadDigest RequestID TaintWarning SanitisationSummary FieldsDelivered TaintedFields RedactionsApplied].
  intros (((((((((((((-> & ->) & ->) & ->) & ->) & ->) & ->) & ->) & ->) & _) & _) & Hfd) & Htf) & Hra).
  rewrite Hfd, Htf, Hra. split_and!; try done.
  - intros name. apply elem_of_names.
  - intros name. apply elem_of_uniqueSorted.
  - intros name. apply elem_of_uniqueSorted.
Qed.
Lemma asked_text q d receiptID :
  decision_fits d -> permitted q d -> valid_texts (redactions q) -> receipt_text (asked q d receiptID).
Proof.
  intros (Hs & Hpf & _) [(_ & _ & _ & _ & Hrep & Hnames & _) Ht] Hr. split_valid.
  assert (Hdom : forall name, name ∈ dom (fields q) -> ValidString name = true).
  { intros name Hn. rewrite list.Forall_forall in Hpf. by apply Hpf, Hnames. }
  unfold receipt_text, asked, receipt_of. cbn [PolicyBundleDigest PolicyInputDigest Representation TaintWarning SanitisationSummary
    FieldsDelivered TaintedFields RedactionsApplied]. split_and!.
  - repeat (constructor; [try assumption|]); [by rewrite <- Hrep|by destruct (no_elems _)| |constructor].
    unfold sanitisationSummary. destruct (elems (uniqueSorted _)); [done|]. apply ValidString_app; [done|]. apply ValidString_app; [apply ValidString_itoa|done].
  - apply list.Forall_forall. intros name Hn%elem_of_names. by apply Hdom.
  - apply list.Forall_forall. intros name [Hne Hn]%elem_of_uniqueSorted. by apply Hdom, Ht.
  - by apply uniqueSorted_valid.
Qed.

Definition deliver (ts : Z) (between : DB.t -> DB.t) (q : Delivery.t) (db : DB.t) : result (gmap string string * Receipt.t) * DB.t :=
  DeliverContextWithTaint (H0 := shared ts between) signing (now q) (random q) (decisionID q) (actorID q) (tenantID q) (evidenceID q)
    (requestID q) (representation q) (fields q) (redactions q) (tainted q) db.

Lemma deliver_spec ts between q db :
  store_ok db -> others_ok between -> valid_texts (redactions q) ->
  let '(res, db') := deliver ts between q db in
  store_ok db' /\ grows db db' /\ forall delivered receipt, res = Ok (delivered, receipt) -> accounted q delivered receipt db'.
Proof.
  intros Hok Hothers Hr. unfold deliver, DeliverContextWithTaint. destruct (_ || _); [done|].
  cbn [Disclosure.GetDecision shared]. unfold GetDecision.
  destruct (getDecision (tenantID q) (decisionID q) db) as [[d document]|] eqn:Hget; [|done].
  destruct (validateDelivery _ _ _ _ _ _ _ _) as [[delivered names]|] eqn:Hval; [|done].
  destruct (validateTaintedFields names (tainted q)) as [t|] eqn:Htaint; [|done].
  destruct (negb (no_elems t) && _) eqn:Hallow; [done|]. destruct (randomRecordID _ _) as [receiptID|]; [|done].
  destruct (validateDelivery_spec _ _ _ _ _ _ _ _ _ _ Hval) as (Hperm & -> & ->).
  destruct (validateTaintedFields_spec _ _ _ Htaint) as (-> & Hin).
  destruct (getDecision_stored _ _ _ _ _ (proj1 Hok) Hget) as (Hst & _ & _ & Hid).
  assert (Hpq : permitted q d).
  { split; [done|]. intros name Hn Hne. assert (Hu : name ∈ elems (uniqueSorted (tainted q))) by by apply elem_of_uniqueSorted.
    split; [|by apply elem_of_names, Hin]. destruct (Decision.AllowTaintedFields d); [done|].
    destruct (no_elems (uniqueSorted (tainted q))) eqn:Hz; [|done]. unfold no_elems in Hz. destruct (elems _); [by inversion Hu|done]. }
  pose proof Hst as (row & _ & Hfits & _).
  pose proof (persistReceipt_spec ts between (asked q d receiptID) db Hok Hothers (asked_text q d receiptID Hfits Hpq Hr) eq_refl) as Hps.
  unfold asked in Hps. destruct (persistReceipt _ _ db) as [res db']. destruct Hps as (Hok' & Hg' & Hres).
  destruct res as [stored|]; (split; [done|]; split; [done|]); [|done]. intros delivered receipt [= <- <-].
  destruct (Hres stored eq_refl) as (r0 & Hst0 & -> & Hsame). split; [done|]. exists d, r0. rewrite cloneReceipt_idemp.
  split_and!; try done; [by eapply stored_decision_grows|]. by eapply sameDelivery_describes.
Qed.

Definition request_text (request : DecisionRequest.t) : Prop :=
  valid_texts [DecisionRequest.Representation request; DecisionRequest.PolicyBundleDigest request; DecisionRequest.InputDigest request] /\
  valid_texts (DecisionRequest.PermittedFields request) /\ valid_texts (DecisionRequest.RequiredRedactions request).
(** The decision as its maker gets it: the slices are copies. *)
Definition copied (d : Decision.t) : Decision.t :=
  d <| Decision.PermittedFields := copy_slice (Decision.PermittedFields d) |>
    <| Decision.RequiredRedactions := copy_slice (Decision.RequiredRedactions d) |>.
Definition evaluate (ts now : Z) (random : result (list Z)) (request : DecisionRequest.t) (db : DB.t) : result Decision.t * DB.t :=
  EvaluateContext (H0 := shared ts (fun db => db)) now random request db.

Lemma evaluate_spec ts now random request db :
  store_ok db -> request_text request ->
  let '(res, db') := evaluate ts now random request db in
  store_ok db' /\ grows db db' /\ forall d, res = Ok d -> exists d0, stored_decision db' d0 /\ d = copied d0.
Proof.
  intros Hok (Hs & Hpf & Hrr). unfold evaluate, EvaluateContext. destruct (_ || _); [done|]. destruct (_ ==? []); [done|].
  destruct (randomRecordID _ _) as [id|]; [|done]. cbn [Disclosure.CreateDecision shared].
  match goal with |- context [CreateDecision ts ?x db] => set (d := x) end.
  assert (Hfits : all_encodable [Decision.DecisionID d; Decision.TenantID d; Decision.ActorID d; Decision.EvidenceID d] = true ->
    decision_fits d).
  { intros Hp. unfold all_encodable, encodable in Hp. cbn [forallb] in Hp. rewrite !andb_true_iff in Hp.
    destruct Hp as ([? _] & [? _] & [? _] & [? _] & _). unfold valid_texts in Hs. split_valid.
    split; [repeat (constructor; [assumption|]); constructor|]. split; by apply uniqueSorted_valid. }
  pose proof (CreateDecision_spec ts d db (proj1 Hok) Hfits) as Hc. destruct (CreateDecision ts d db) as [res db'].
  destruct Hc as (Hd' & Hg & Hr & Hst). assert (store_ok db') by (split; [done|unfold receipts_ok; rewrite Hr; apply Hok]).
  destruct res as [[]|]; (split; [done|]; split; [done|]); [|done]. intros d1 [= <-]. exists d. by split; [apply Hst|].
Qed.

(** Decisions and deliveries by anyone, and anything else that keeps the
    disclosure records. *)
Inductive dop : Type :=
| DEvaluate (ts now : Z) (random : result (list Z)) (request : DecisionRequest.t)
| DDeliver (ts : Z) (between : DB.t -> DB.t) (q : Delivery.t)
| DOther (f : DB.t -> DB.t).
Inductive dout : Type :=
| OEvaluated (r : result Decision.t)
| ODelivered (r : result (gmap string string * Receipt.t))
| ODone.
Definition dstep (op : dop) (db : DB.t) : dout * DB.t :=
  match op with
  | DEvaluate ts now random request => let '(r, db) := evaluate ts now random request db in (OEvaluated r, db)
  | DDeliver ts between q => let '(r, db) := deliver ts between q db in (ODelivered r, db)
  | DOther f => (ODone, f db)
  end.
Definition dop_ok (op : dop) : Prop :=
  match op with
  | DEvaluate _ _ _ request => request_text request
  | DDeliver _ between q => others_ok between /\ valid_texts (redactions q)
  | DOther f => others_ok f
  end.
(** What the results so far promise of the database. *)
Definition promised (log : list (dop * dout)) (db : DB.t) : Prop :=
  (forall ts now random request d, (DEvaluate ts now random request, OEvaluated (Ok d)) ∈ log ->
     exists d0, stored_decision db d0 /\ d = copied d0) /\
  forall ts between q delivered receipt, (DDeliver ts between q, ODelivered (Ok (delivered, receipt))) ∈ log ->
    accounted q delivered receipt db.

Lemma promised_grows log db db' : grows db db' -> promised log db -> promised log db'.
Proof.
  intros Hg [He Hd]. split.
  - intros ts now random request d Hin. destruct (He _ _ _ _ _ Hin) as (d0 & Hst & ->). exists d0.
    by split; [eapply stored_decision_grows|].
  - intros ts between q delivered receipt Hin. destruct (Hd _ _ _ _ _ Hin) as (-> & d & r & Hsd & Hid & Hp & Hsr & Hrest).
    split; [done|]. exists d, r. split_and!; try done; [by eapply stored_decision_grows|by eapply stored_receipt_grows|apply Hrest..].
Qed.
Lemma dstep_spec log op db :
  dop_ok op -> store_ok db /\ promised log db ->
  store_ok (dstep op db).2 /\ promised (log ++ [(op, (dstep op db).1)]) (dstep op db).2.
Proof.
  intros Hop [Hok Hlog].
  assert (Hstep : store_ok (dstep op db).2 /\ grows db (dstep op db).2 /\ promised [(op, (dstep op db).1)] (dstep op db).2).
  { destruct op as [ts now random request|ts between q|f]; cbn [dstep].
    - pose proof (evaluate_spec ts now random request db Hok Hop) as Hs. destruct (evaluate _ _ _ _ _) as [r db'].
      destruct Hs as (H1 & H2 & H3). split_and!; [done|done|split].
      + intros ? ? ? ? d Hin%list_elem_of_singleton. injection Hin as -> -> -> -> Hr. by apply H3.
      + by intros ? ? ? ? ? Hin%list_elem_of_singleton.
    - destruct Hop as [Hb Hr]. pose proof (deliver_spec ts between q db Hok Hb Hr) as Hs. destruct (deliver _ _ _ _) as [r db'].
      destruct Hs as (H1 & H2 & H3). split_and!; [done|done|split].
      + by intros ? ? ? ? ? Hin%list_elem_of_singleton.
      + intros ? ? ? ? ? Hin%list_elem_of_singleton. injection Hin as -> -> -> Hres. by apply H3.
    - destruct (Hop db Hok) as [H1 H2]. split_and!; [done|done|split]; by intros ? ? ? ? ? Hin%list_elem_of_singleton. }
  destruct Hstep as (Hok' & Hg & [He' Hd']). split; [done|]. destruct (promised_grows _ _ _ Hg Hlog) as [He Hd]. split.
  - intros ts now random request d [Hin|Hin]%elem_of_app; [by eapply He|by eapply He'].
  - intros ts between q delivered receipt [Hin|Hin]%elem_of_app; [by eapply Hd|by eapply Hd'].
Qed.

(** C15.  Every disclosure is permitted and accounted for.  Whatever decisions
    and deliveries are made by any actors in any order, with whatever the others
    do between the idempotency check and the insert of a delivery: the fields
    that a delivery hands out were permitted by a stored decision for the actor,
    tenant, evidence and representation, not expired at the time, with every
    redaction it requires applied and tainted fields only where it allows them;
    and at the end the receipt that was returned is found under its identifier
    and under the request of its actor, verifies, and records the decision, the
    names of the fields, the taint, the redactions and the digest of what was
    handed out.  A request has one receipt, whoever repeats it. *)
Theorem disclosures_accounted ops db0 (Hops : Forall dop_ok ops) (Hdb0 : store_ok db0) :
  let '(log, db) := run dstep ops db0 in
  forall ts between q delivered receipt, (DDeliver ts between q, ODelivered (Ok (delivered, receipt))) ∈ log ->
  delivered = fields q /\
  (exists d, GetDecision (tenantID q) (decisionID q) db = Ok d /\ permitted q d /\ describes q d receipt) /\
  GetReceipt (tenantID q) (ReceiptID receipt) db = Ok receipt /\
  GetReceiptByRequest (tenantID q) (actorID q) (requestID q) db = Ok receipt /\
  VerifyReceipt signing receipt = None.
Proof.
  pose proof (run_log_invariant dstep dop_ok (fun log db => store_ok db /\ promised log db) dstep_spec ops db0 Hops) as Hrun.
  destruct (run dstep ops db0) as [log db]. destruct Hrun as [Hok [_ Hlog]].
  { split; [done|]. split; intros ? ? ? ? ? Hin; by apply elem_of_nil in Hin. }
  cbn [fst snd] in Hok, Hlog. intros ts between q delivered receipt Hin.
  destruct (Hlog _ _ _ _ _ Hin) as (-> & d & r & Hsd & Hid & Hp & Hsr & -> & Hdesc).
  pose proof Hsd as (row & _ & _ & _ & document & He & _). pose proof (stored_decision_reads db d document Hsd He) as Hget.
  destruct (stored_receipt_reads db r (proj2 Hok) Hsr) as [Hr1 Hr2]. pose proof Hsr as (_ & _ & _ & Hv).
  pose proof Hp as [(_ & _ & Htn & _) _]. pose proof Hdesc as (_ & Ha & Ht & _ & Hq & _).
  change (ActorID (cloneReceipt r)) with (ActorID r) in Ha. change (TenantID (cloneReceipt r)) with (TenantID r) in Ht.
  change (RequestID (cloneReceipt r)) with (RequestID r) in Hq. rewrite <- Ha, <- Hq, <- Ht.
  split; [done|]. split; [|by rewrite VerifyReceipt_clone]. exists d.
  unfold GetDecision. by rewrite Ht, <- Htn, <- Hid, Hget.
Qed.
End Store.

(** ** Witness

    A decision, and a delivery whose retry under the same request gets between
    its idempotency check and its insert. *)
#[local] Instance disclosure_provider : SigningProvider Keyring.t := Keyring.provider size_sign size_verify.
#[local] Instance disclosure_signing : SigningLaws Keyring.t := keyring_laws demo_public size_sign size_verify size_correct.
Definition disclosure_manager : Manager := mkManager [demo_keyring "k1" "a"] (Policy.mk 1 [Ed25519Algorithm]).

Definition disclosed_evidence : EnvelopeRow.t :=
  EnvelopeRow.mk "e1" "tenant" "t1" "attempt-t1-1" 1 "r1" "recipe" demo_now (demo_now + Second) "{}" "" demo_now "g1".
Definition disclosure_db : DB.t := DB.empty <| DB.envelopes := {["e1" := disclosed_evidence]} |>.
Definition wanted : DecisionRequest.t :=
  DecisionRequest.mk "alice" "tenant" "e1" "summary" "b1" "i1" ["name"; "state"] ["serial"] true (900 * Second).
Definition summary_request (n : Z) : Delivery.t :=
  Delivery.mk (demo_now + Second) (Ok [n]) "disclosure-07" "alice" "tenant" "e1" "q1" "summary" {["name" := "Gi0"; "state" := "up"]}
    ["serial"] ["name"].
Definition retry (db : DB.t) : DB.t := (deliver disclosure_manager demo_now (fun db => db) (summary_request 2) db).2.
Definition disclosure_demo_ops : list dop :=
  [DEvaluate demo_now demo_now (Ok [7]) wanted; DDeliver demo_now retry (summary_request 1)].

Lemma disclosure_providers_ok : Forall provider_ok (providers disclosure_manager).
Proof. constructor; [by vm_compute|constructor]. Qed.
Lemma disclosure_keys_text : keys_text disclosure_manager.
Proof. constructor; [|constructor]. intros purpose k. cbn. unfold Keyring.current_key. destruct (purpose ==? ""); [done|]. by intros [= <-]. Qed.
Lemma disclosure_start_ok : store_ok disclosure_manager disclosure_db.
Proof. split; [apply map_Forall_empty|]. split; [apply map_Forall_empty|]. intros id id' row row' Hl. exfalso. exact (lookup_empty_Some _ _ Hl). Qed.
Lemma disclosure_retry_ok : others_ok disclosure_manager retry.
Proof.
  intros db Hok. unfold retry.
  pose proof (deliver_spec disclosure_manager disclosure_providers_ok ltac:(by vm_compute) disclosure_keys_text demo_now (fun db => db)
    (summary_request 2) db Hok) as Hd. destruct (deliver _ _ _ _ db) as [res db']. destruct Hd as (H1 & H2 & _); [|by repeat constructor|done].
  intros db0 H0. by split.
Qed.
Lemma disclosure_demo_ok : Forall (dop_ok disclosure_manager) disclosure_demo_ops.
Proof.
  constructor; [by split_and!; repeat constructor|]. constructor; [|constructor]. split; [apply disclosure_retry_ok|by repeat constructor].
Qed.

Lemma disclosures_accounted_witness :
  let '(log, db) := run (dstep disclosure_manager) disclosure_demo_ops disclosure_db in
  exists receipt, log !! 1%nat = Some (DDeliver demo_now retry (summary_request 1),
      ODelivered (Ok ({["name" := "Gi0"; "state" := "up"]}, receipt))) /\
    ReceiptID receipt = "receipt-02" /\ GetReceiptByRequest "tenant" "alice" "q1" db = Ok receipt /\
    VerifyReceipt disclosure_manager receipt = None /\
    DeliveredPayloadDigest receipt = sha256_hex (Marshal (map_tree {["name" := "Gi0"; "state" := "up"]})).
Proof.
  pose proof (disclosures_accounted disclosure_manager disclosure_providers_ok ltac:(by vm_compute) disclosure_keys_text
    disclosure_demo_ops disclosure_db disclosure_demo_ok disclosure_start_ok) as Hw.
  assert (Hlog : match (run (dstep disclosure_manager) disclosure_demo_ops disclosure_db).1 with
    | [_; (_, ODelivered (Ok (_, receipt)))] => ReceiptID receipt = "receipt-02" | _ => False end) by (vm_compute; reflexivity).
  pose proof (run_ops (dstep disclosure_manager) disclosure_demo_ops disclosure_db) as Hops.
  destruct (run _ disclosure_demo_ops disclosure_db) as [log db]. cbn [fst] in Hlog, Hops.
  destruct log as [|o1 [|[op [| [[delivered receipt]|]|]] [|]]]; try contradiction. injection Hops as _ ->.
  destruct (Hw demo_now retry (summary_request 1) delivered receipt ltac:(right; left)) as (-> & (d & _ & _ & Hdesc) & _ & Hr & Hv).
  exists receipt. split; [reflexivity|]. split; [exact Hlog|]. split; [exact Hr|]. split; [exact Hv|].
  destruct Hdesc as (_ & _ & _ & _ & _ & _ & _ & _ & Hd & _). exact Hd.
Defined.
