(* ===== verification/Retrieval.v ===== *)
(** * Retrieval ([internal/retrieval])

    The read side: fields of a stored observation leave the broker under a
    disclosure decision, with a receipt.  The service composes the evidence
    repository and the disclosure service; the theorem is proved over both
    PostgreSQL repositories, with other clients between the steps of a delivery. *)
From S2P Require Import Prelude GoStrings GoEncoding GoDecoding Json JsonStruct Keys Task Schema TaskPostgres Grants Outbox Resolution.
From S2P Require Import Artefacts Parsing Evidence EvidenceStore Disclosure DisclosureStore.
Local Open Scope Z_scope.

Module Request.
Record t := mk {
  ActorID : string; TenantID : string; EvidenceID : string; DecisionID : string; RequestID : string; Fields : list string;
  Redactions : list string }.
End Request.
Module Result.
Record t := mk { EvidenceID : string; Fields : gmap string string; TaintedFields : list string; Receipt : Receipt.t }.
End Result.

(** The normalised fields of an observation. *)
Definition available (o : InterfaceOperationalState.t) : gmap string string :=
  <["schema_version" := InterfaceOperationalState.SchemaVersion o]>
  (<["interface_name" := InterfaceOperationalState.InterfaceName o]>
  (<["operational_state" := InterfaceOperationalState.OperationalState o]>
  {["observed_at" := of_bytes (RFC3339Nano (InterfaceOperationalState.ObservedAt o))]})).
(** The loop over the requested fields: what is selected and which of it is
    device-controlled. *)
Fixpoint select_fields (o : InterfaceOperationalState.t) (requested : list string) (selected : gmap string string)
    (tainted : list string) : result (gmap string string * list string) :=
  match requested with
  | [] => Ok (selected, tainted)
  | field :: rest =>
    match available o !! field with
    | None => Err (Text ("normalised field " +:+ quote field +:+ " does not exist"))
    | Some value =>
      select_fields o rest (<[field := value]> selected)
        (if existsb (fun f => f ==? field) (elems (InterfaceOperationalState.TaintedFields o)) then tainted ++ [field] else tainted)
    end
  end.

Section Service.
Context {P : Type} `{SigningProvider P} {St : Type} `{EnvelopeRepository St} `{DisclosureRepository St} (signing : Manager (P := P)).

Definition RetrieveNormalised (now : Z) (random : result (list Z)) (request : Request.t) (st : St) : result Result.t * St :=
  if (Request.ActorID request ==? "") || (Request.TenantID request ==? "") || (Request.EvidenceID request ==? "") ||
     (Request.DecisionID request ==? "") || (Request.RequestID request ==? "") || (Request.Fields request ==? []) then
    (Err (Text "retrieval dependencies, identity, evidence, decision, request and fields are required"), st)
  else match envelope_GetForTenant (Request.TenantID request) (Request.EvidenceID request) st with
  | Err e => (Err e, st)
  | Ok envelope =>
    if EvidenceEnvelope.TenantID envelope !=? Request.TenantID request then
      (Err (Text "evidence tenant does not match caller scope"), st)
    else match select_fields (EvidenceEnvelope.InterfaceState envelope) (Request.Fields request) ∅ [] with
    | Err e => (Err e, st)
    | Ok (selected, tainted) =>
      match DeliverContextWithTaint signing now random (Request.DecisionID request) (Request.ActorID request)
              (Request.TenantID request) (Request.EvidenceID request) (Request.RequestID request) "normalised" selected
              (Request.Redactions request) tainted st with
      | (Err e, st) => (Err e, st)
      | (Ok (delivered, receipt), st) => (Ok (Result.mk (Request.EvidenceID request) delivered tainted receipt), st)
      end
    end
  end.
End Service.

(** ** Selection *)
Lemma select_fields_spec o requested : forall selected tainted fields t,
  select_fields o requested selected tainted = Ok (fields, t) ->
  (forall name value, fields !! name = Some value <->
     (name ∈ requested /\ available o !! name = Some value \/ name ∉ requested /\ selected !! name = Some value)) /\
  (forall name, name ∈ t <-> name ∈ tainted \/ name ∈ requested /\ name ∈ elems (InterfaceOperationalState.TaintedFields o)) /\
  (forall name, name ∈ requested -> is_Some (available o !! name)).
Proof.
  induction requested as [|f rest IH]; intros selected tainted fields t; cbn [select_fields].
  { intros [= <- <-]. setoid_rewrite elem_of_nil. split_and!; intros; tauto. }
  destruct (available o !! f) as [v|] eqn:Hv; [|done]. intros Hs. destruct (IH _ _ _ _ Hs) as (H1 & H2 & H3). split_and!.
  - intros name value. rewrite H1, elem_of_cons. destruct (decide (name = f)) as [->|Hne].
    + rewrite lookup_insert_eq, Hv. destruct (decide (f ∈ rest)); tauto.
    + rewrite lookup_insert_ne by done. tauto.
  - intros name. rewrite H2. rewrite (elem_of_cons rest).
    assert (Hex : existsb (fun g => g ==? f) (elems (InterfaceOperationalState.TaintedFields o)) = true <->
      f ∈ elems (InterfaceOperationalState.TaintedFields o)).
    { rewrite existsb_exists, list_elem_of_In. split; [intros (g & Hg & E); reflect_bools; by subst|].
      intros Hf. exists f. split; [done|by apply bool_decide_eq_true_2]. }
    destruct (existsb _ _); [rewrite elem_of_app, list_elem_of_singleton|]; split; intros; try tauto; naive_solver.
  - intros name [->|Hn]%elem_of_cons; [by eexists|by apply H3].
Qed.

(** ** Over PostgreSQL *)
Section Store.
Context {P : Type} `{SL : SigningLaws P} (signing : Manager (P := P)).
Hypothesis Hproviders : Forall provider_ok (providers signing).
Hypothesis Hcount : 0 < Z.of_nat (List.length (providers signing)) <= maximumSignatures.
Hypothesis Htext : keys_text signing.

Definition retrieve (ts : Z) (between : DB.t -> DB.t) (now : Z) (random : result (list Z)) (request : Request.t) (db : DB.t) :
    result Result.t * DB.t :=
  RetrieveNormalised (H0 := postgres_envelopes ts) (H1 := shared ts between) signing now random request db.

Lemma GetForTenant_stored db tenantID evidenceID e : envelopes_ok db ->
  Evidence.PostgresRepository.GetForTenant tenantID evidenceID db = Ok e ->
  stored_envelope db e /\ EvidenceEnvelope.TenantID e = tenantID /\ EvidenceEnvelope.EvidenceID e = evidenceID.
Proof.
  intros Hok. unfold Evidence.PostgresRepository.GetForTenant. destruct (_ || _); [done|]. destruct (negb _); [done|].
  destruct (DB.envelopes db !! evidenceID) as [row|] eqn:Hrow; [|done]. destruct (proj1 Hok _ _ Hrow) as [Hid [e0 Hw]].
  assert (Hid0 : EvidenceEnvelope.EvidenceID e0 = evidenceID) by (rewrite <- Hid; by destruct Hw as (_ & ? & ? & _ & _ & ->)).
  destruct (EnvelopeRow.tenant_id row ==? tenantID) eqn:Ht; [|done]. rewrite <- Hid0, (written_scan row e0 Hw). intros [= <-].
  split; [exists row; by rewrite Hid0|]. split; [|done]. reflect_bools. rewrite <- Ht. by destruct Hw as (_ & ? & ? & _ & _ & ->).
Qed.

(** C32.  Nothing leaves without permission and a receipt: when a caller
    retrieves fields, they are exactly the requested ones, with the values of the
    observation in the envelope stored for the caller's tenant under that
    identifier; a stored decision for this actor, tenant and evidence that has
    not expired permits each of them in normalised form and its redactions were
    applied; a field the observation marks as device-controlled is returned only
    if the decision allows tainted fields, and is named as tainted in the result
    and in the receipt; and the receipt, which the database keeps, verifies and
    has the digest of just these fields. *)
Theorem retrieval_authorised ts between now random request db
    (Hdisclosures : store_ok signing db) (Hevidence : envelopes_ok db)
    (Hothers : DisclosureStore.others_ok signing between) (Hredactions : valid_texts (Request.Redactions request)) :
  let '(r, db') := retrieve ts between now random request db in
  store_ok signing db' /\
  forall result, r = Ok result ->
  exists e d receipt,
    stored_envelope db e /\ EvidenceEnvelope.TenantID e = Request.TenantID request /\
    EvidenceEnvelope.EvidenceID e = Request.EvidenceID request /\
    (forall name value, Result.Fields result !! name = Some value <->
       name ∈ Request.Fields request /\ available (EvidenceEnvelope.InterfaceState e) !! name = Some value) /\
    (forall name, name ∈ Request.Fields request -> name ∈ dom (Result.Fields result)) /\
    stored_decision db' d /\ Decision.DecisionID d = Request.DecisionID request /\
    permits d now (Request.ActorID request) (Request.TenantID request) (Request.EvidenceID request) "normalised"
      (Result.Fields result) (Request.Redactions request) /\
    (forall name, name ∈ dom (Result.Fields result) ->
       name ∈ elems (InterfaceOperationalState.TaintedFields (EvidenceEnvelope.InterfaceState e)) ->
       Decision.AllowTaintedFields d = true /\ name ∈ Result.TaintedFields result /\
       name ∈ elems (Receipt.TaintedFields (Result.Receipt result))) /\
    stored_receipt signing db' receipt /\ Result.Receipt result = cloneReceipt receipt /\
    VerifyReceipt signing (Result.Receipt result) = None /\
    Receipt.ActorID (Result.Receipt result) = Request.ActorID request /\
    Receipt.DeliveredPayloadDigest (Result.Receipt result) = sha256_hex (Marshal (map_tree (Result.Fields result))).
Proof.
  unfold retrieve, RetrieveNormalised. destruct (_ || _); [done|]. cbn [envelope_GetForTenant postgres_envelopes].
  destruct (Evidence.PostgresRepository.GetForTenant _ _ db) as [e|] eqn:Hget; [|done].
  destruct (GetForTenant_stored _ _ _ _ Hevidence Hget) as (Hst & Htn & Hid).
  destruct (_ !=? _); [done|]. destruct (select_fields _ _ _ _) as [[selected tainted]|] eqn:Hsel; [|done].
  destruct (select_fields_spec _ _ _ _ _ _ Hsel) as (Hfields & Htaint & Havail).
  pose proof (deliver_spec signing Hproviders Hcount Htext ts between
    (Delivery.mk now random (Request.DecisionID request) (Request.ActorID request) (Request.TenantID request)
      (Request.EvidenceID request) (Request.RequestID request) "normalised" selected (Request.Redactions request) tainted)
    db Hdisclosures Hothers Hredactions) as Hd.
  unfold deliver in Hd. cbn [Delivery.now Delivery.random Delivery.decisionID Delivery.actorID Delivery.tenantID Delivery.evidenceID
    Delivery.requestID Delivery.representation Delivery.fields Delivery.redactions Delivery.tainted] in Hd.
  destruct (DeliverContextWithTaint _ _ _ _ _ _ _ _ _ _ _ _ db) as [r db']. destruct Hd as (Hok & _ & Hacc).
  destruct r as [[delivered receipt]|]; (split; [done|]); [|done]. intros result [= <-].
  destruct (Hacc _ _ eq_refl) as (-> & d & r0 & Hdst & Hdid & [Hperm Hallow] & Hrst & Hclone & Hdesc).
  cbn [Delivery.fields Delivery.tainted Delivery.decisionID] in *. exists e, d, r0. cbn [Result.Fields Result.TaintedFields Result.Receipt].
  assert (Hselected : forall name value, selected !! name = Some value <->
    name ∈ Request.Fields request /\ available (EvidenceEnvelope.InterfaceState e) !! name = Some value).
  { intros name value. rewrite Hfields, lookup_empty. naive_solver. }
  do 4 (split; [assumption|]). split.
  { intros name Hn. destruct (Havail name Hn) as [value Hv]. apply elem_of_dom. exists value. by apply Hselected. }
  do 3 (split; [assumption|]). split; [|do 2 (split; [assumption|])].
  - intros name [value [Hn Hv]%Hselected]%elem_of_dom Hmarked. assert (Hin : name ∈ tainted) by (apply Htaint; auto).
    assert (Hne : name <> "") by (by intros ->). destruct (Hallow name Hin Hne) as [Hyes _]. split; [done|]. split; [done|].
    destruct Hdesc as (_ & _ & _ & _ & _ & _ & _ & _ & _ & _ & Ht & _). by apply Ht.
  - destruct Hdesc as (_ & Hactor & _ & _ & _ & _ & _ & _ & Hdigest & _). split; [|by split].
    rewrite Hclone, VerifyReceipt_clone. by destruct Hrst as (? & _ & _ & ?).
Qed.
End Store.

(** ** Witness

    Evidence, a decision on two of its fields, and a retrieval. *)
#[local] Instance retrieval_provider : SigningProvider Keyring.t := Keyring.provider size_sign size_verify.
#[local] Instance retrieval_signing : SigningLaws Keyring.t := keyring_laws demo_public size_sign size_verify size_correct.

Definition evidence_db : DB.t := (Evidence.PostgresRepository.Create 5000 (demo_evidence "e1") evidence_start.1).2.
Definition interface_decision : DecisionRequest.t :=
  DecisionRequest.mk "alice" "tenant" "e1" "normalised" "b1" "i1" ["interface_name"; "operational_state"] [] true (900 * Second).
Definition retrieval_db : DB.t := (evaluate demo_now demo_now (Ok [7]) interface_decision evidence_db).2.
Definition interface_request : Request.t :=
  Request.mk "alice" "tenant" "e1" "disclosure-07" "q1" ["operational_state"; "interface_name"] [].

Lemma evidence_db_ok : envelopes_ok evidence_db.
Proof.
  pose proof (envelope_Create_spec 5000 (demo_evidence "e1") evidence_start.1 (proj2 evidence_start_ok)
    (fun _ => demo_evidence_fits "e1" eq_refl)) as Hc. unfold evidence_db.
  destruct (Evidence.PostgresRepository.Create _ _ _) as [r db]. destruct Hc as [Hc _]. exact Hc.
Qed.
Lemma retrieval_evidence_ok : envelopes_ok retrieval_db.
Proof.
  unfold envelopes_ok. assert (Hsame : DB.envelopes retrieval_db = DB.envelopes evidence_db) by (vm_compute; reflexivity).
  rewrite Hsame. exact evidence_db_ok.
Qed.
Lemma retrieval_store_ok : store_ok disclosure_manager retrieval_db.
Proof.
  assert (Hstart : store_ok disclosure_manager evidence_db).
  { assert (Hd : DB.disclosure_decisions evidence_db = ∅) by (vm_compute; reflexivity).
    assert (Hr : DB.disclosure_receipts evidence_db = ∅) by (vm_compute; reflexivity).
    unfold store_ok, decisions_ok, receipts_ok. rewrite Hd, Hr. split; [apply map_Forall_empty|]. split; [apply map_Forall_empty|].
    intros id id' row row' Hl. exfalso. exact (lookup_empty_Some _ _ Hl). }
  pose proof (evaluate_spec disclosure_manager demo_now demo_now (Ok [7]) interface_decision evidence_db Hstart) as He.
  unfold retrieval_db. destruct (evaluate _ _ _ _ evidence_db) as [r db].
  destruct He as [He _]; [split; [|split]; repeat constructor|exact He].
Qed.

Lemma retrieval_authorised_witness :
  exists result receipt,
    (retrieve disclosure_manager demo_now (fun db => db) (demo_now + Second) (Ok [9]) interface_request retrieval_db).1 = Ok result /\
    Result.Fields result !! "interface_name" = Some "Gi0/0.1" /\ Result.Fields result !! "operational_state" = Some "up" /\
    Result.TaintedFields result = ["interface_name"] /\ Result.Receipt result = cloneReceipt receipt /\
    VerifyReceipt disclosure_manager (Result.Receipt result) = None.
Proof.
  pose proof (retrieval_authorised disclosure_manager disclosure_providers_ok ltac:(by vm_compute) disclosure_keys_text demo_now
    (fun db => db) (demo_now + Second) (Ok [9]) interface_request retrieval_db retrieval_store_ok retrieval_evidence_ok
    ltac:(intros db Hdb; by split) ltac:(constructor)) as Hw.
  assert (Hrun : match (retrieve disclosure_manager demo_now (fun db => db) (demo_now + Second) (Ok [9]) interface_request retrieval_db).1 with
    | Ok result => Result.Fields result !! "interface_name" = Some "Gi0/0.1" /\ Result.Fields result !! "operational_state" = Some "up" /\
        Result.TaintedFields result = ["interface_name"]
    | Err _ => False end) by (vm_compute; split; [|split]; reflexivity).
  destruct (retrieve _ _ _ _ _ _ _) as [r db']. cbn [fst] in *. destruct Hw as [_ Hw]. destruct r as [result|]; [|destruct Hrun].
  destruct (Hw result eq_refl) as (e & d & receipt & _ & _ & _ & _ & _ & _ & _ & _ & _ & _ & Hc & Hv & _).
  exists result, receipt. destruct Hrun as (H1 & H2 & H3). auto 10.
Defined.
