(* ===== verification/Policy.v ===== *)
(** * Policy

    [internal/policy]: rules in signed bundles, their storage and activation in
    PostgreSQL, and the engine that decides requests by the active bundle.
    JSONB is PostgreSQL's own ([ResolutionPostgres.Jsonb]); random identifiers
    and the clocks are arguments. *)
From S2P Require Import Prelude GoStrings GoEncoding GoDecoding Json JsonStruct Keys Task Schema TaskPostgres Grants Outbox Resolution.
From S2P Require Import ResolutionPostgres Planning Artefacts.
Local Open Scope Z_scope.

Definition ErrNoActiveBundle := New "policy.ErrNoActiveBundle" "no active policy bundle".
Definition ErrNoMatchingRule := New "policy.ErrNoMatchingRule" "policy bundle has no matching rule".

Abbreviation smap := (gmap string string).

(** ** The built-in evaluator *)
Module Decision.
Record t := mk { Allow : bool; RequiresApproval : bool; DecisionID : string; Denials : option (list string); Obligations : smap }.
End Decision.
Definition Evaluate (recipeID targetClass : string) : result Decision.t :=
  if recipeID ==? "" then Err (Text "recipe id is required")
  else
    let decision allow approval denials :=
      Ok (Decision.mk allow approval ("decision-" +:+ recipeID) denials
            {["max_duration_ms" := "10000"; "max_response_bytes" := "1048576"]}) in
    if recipeID ==? "cached_openconfig_interfaces" then decision true false None
    else if recipeID ==? "gnmi_interface_get" then
      if targetClass ==? "production_core" then decision false true (Some ["production_core targets require approval"])
      else decision true false None
    else if recipeID ==? "vendor_cli_show_interface" then
      if targetClass ==? "production_core" then decision true true None
      else decision false false (Some ["cli recipe only permitted for production_core targets"])
    else Err (Text ("unsupported recipe id " +:+ quote recipeID)).

(** ** Bundles *)
Module Rule.
Record t := mk {
  RecipeID : string; TargetClass : string; Allow : bool; RequiresApproval : bool; Denials : option (list string);
  Obligations : option smap }.
#[global] Instance eta_t : Eta t := fun x =>
  mk (RecipeID x) (TargetClass x) (Allow x) (RequiresApproval x) (Denials x) (Obligations x).
Definition zero : t := mk "" "" false false None None.
End Rule.
Module Bundle.
Record t := mk {
  BundleID : string; Version : Z; Scope : string; IssuedAt : Z; Rules : option (list Rule.t); SigningKeyRef : string;
  SignatureAlgorithm : string; Signature : option string }.
#[global] Instance eta_t : Eta t := fun x =>
  mk (BundleID x) (Version x) (Scope x) (IssuedAt x) (Rules x) (SigningKeyRef x) (SignatureAlgorithm x) (Signature x).
End Bundle.
Import Bundle (BundleID, Version, Scope, IssuedAt, Rules, SigningKeyRef, SignatureAlgorithm, Signature).
Module EvaluationRequest.
Record t := mk {
  TenantID : string; ActorID : string; Phase : string; Scope : string; RecipeID : string; TargetClass : string;
  Attributes : option smap }.
End EvaluationRequest.
Module DecisionRecord.
Record t := mk {
  DecisionID : string; TenantID : string; ActorID : string; Phase : string; Scope : string; RecipeID : string;
  TargetClass : string; InputDigest : string; BundleID : string; BundleVersion : Z; BundleDigest : string; Allow : bool;
  RequiresApproval : bool; Denials : option (list string); Obligations : smap; EvaluatedAt : Z }.
End DecisionRecord.

(** ** JSON *)
Definition jmap (m : option smap) : jtree := match m with Some m => map_tree m | None => TNull end.
Definition no_entries (m : option smap) : bool := match m with Some m => m ==? ∅ | None => true end.
Definition rule_tree (r : Rule.t) : jtree :=
  TObj ([key "recipe_id" (jstr (Rule.RecipeID r)); key "target_class" (jstr (Rule.TargetClass r));
         key "allow" (TBool (Rule.Allow r)); key "requires_approval" (TBool (Rule.RequiresApproval r))] ++
        omitempty (no_elems (Rule.Denials r)) "denials" (jslice jstr (Rule.Denials r)) ++
        omitempty (no_entries (Rule.Obligations r)) "obligations" (jmap (Rule.Obligations r))).
Definition bundle_tree (b : Bundle.t) : jtree :=
  TObj [key "bundle_id" (jstr (BundleID b)); key "version" (jint (Version b)); key "scope" (jstr (Scope b));
        key "issued_at" (jtime (IssuedAt b)); key "rules" (jslice rule_tree (Rules b));
        key "signing_key_ref" (jstr (SigningKeyRef b)); key "signature_algorithm" (jstr (SignatureAlgorithm b));
        key "signature" (jbytes (option_map bytes (Signature b)))].
Definition marshal_bundle (b : Bundle.t) : result string :=
  if jtime_ok (IssuedAt b) then Ok (Marshal (bundle_tree b)) else Err year_error.
Definition request_tree (r : EvaluationRequest.t) : jtree :=
  TObj [key "TenantID" (jstr (EvaluationRequest.TenantID r)); key "ActorID" (jstr (EvaluationRequest.ActorID r));
        key "Phase" (jstr (EvaluationRequest.Phase r)); key "Scope" (jstr (EvaluationRequest.Scope r));
        key "RecipeID" (jstr (EvaluationRequest.RecipeID r)); key "TargetClass" (jstr (EvaluationRequest.TargetClass r));
        key "Attributes" (jmap (EvaluationRequest.Attributes r))].

Definition dec_rule (t : jtree) : option Rule.t :=
  match t with
  | TObj fs =>
    match decode_field dec_string "recipe_id" "" fs, decode_field dec_string "target_class" "" fs,
          decode_field dec_bool "allow" false fs, decode_field dec_bool "requires_approval" false fs,
          decode_field dec_strings "denials" None fs, decode_into dec_map "obligations" None fs with
    | Some recipe, Some class, Some allow, Some approval, Some denials, Some obligations =>
      Some (Rule.mk recipe class allow approval denials obligations)
    | _, _, _, _, _, _ => None
    end
  | _ => None
  end.
Definition dec_bundle (fs : list (list item * jtree)) : option Bundle.t :=
  match decode_field dec_string "bundle_id" "" fs, decode_field dec_int64 "version" 0 fs,
        decode_field dec_string "scope" "" fs, decode_field dec_time "issued_at" 0 fs,
        decode_field (dec_slice dec_rule Rule.zero) "rules" None fs, decode_field dec_string "signing_key_ref" "" fs,
        decode_field dec_string "signature_algorithm" "" fs, decode_field dec_bytes "signature" None fs with
  | Some id, Some version, Some scope, Some issued, Some rules, Some reference, Some algorithm, Some signature =>
    Some (Bundle.mk id version scope issued rules reference algorithm signature)
  | _, _, _, _, _, _, _, _ => None
  end.

(** ** Validation *)
Definition validateBundleContents (b : Bundle.t) : option error :=
  if (BundleID b ==? "") || (Version b <=? 0) || (Scope b ==? "") || IsZero (IssuedAt b) || no_elems (Rules b) then
    Some (Text "complete policy bundle identity, scope, issue time and rules are required")
  else if existsb (fun r => (Rule.RecipeID r ==? "") || (Rule.TargetClass r ==? "") ||
                            negb (Rule.Allow r) && no_elems (Rule.Denials r)) (elems (Rules b)) then
    Some (Text "policy rules require recipe, target class and denial reasons")
  else None.
Definition validateUnsignedBundle (b : Bundle.t) : option error := validateBundleContents b.
Definition validateSignedBundle (b : Bundle.t) : option error :=
  match validateBundleContents b with
  | Some e => Some e
  | None =>
    if (SigningKeyRef b ==? "") || (SignatureAlgorithm b ==? "") || (default "" (Signature b) ==? "") then
      Some (Text "signed policy bundle provenance is required")
    else None
  end.
Definition validateEvaluationRequest (r : EvaluationRequest.t) : option error :=
  if (EvaluationRequest.TenantID r ==? "") || (EvaluationRequest.ActorID r ==? "") || (EvaluationRequest.Scope r ==? "") ||
     (EvaluationRequest.RecipeID r ==? "") || (EvaluationRequest.TargetClass r ==? "") then
    Some (Text "complete policy evaluation identity and target are required")
  else if existsb (fun p => EvaluationRequest.Phase r ==? p) ["trigger"; "candidate"; "execution"; "disclosure"] then None
  else Some (Text "policy evaluation phase is invalid").

Fixpoint matchingRule (rules : list Rule.t) (recipeID targetClass : string) : result Rule.t :=
  match rules with
  | [] => Err ErrNoMatchingRule
  | rule :: rest =>
    if (Rule.RecipeID rule ==? recipeID) && (Rule.TargetClass rule ==? targetClass) then Ok rule
    else matchingRule rest recipeID targetClass
  end.
Definition bundleSigningPayload (b : Bundle.t) : result string :=
  match marshal_bundle (b <| Signature := None |>) with
  | Ok payload => Ok payload
  | Err e => Err (Wrapf "encode policy bundle: " e "")
  end.
Definition evaluationDigest (r : EvaluationRequest.t) : result string := Ok (sha256_hex (Marshal (request_tree r))).
Definition newDecisionID (random : result (list Z)) : result string :=
  match random with
  | Ok value => Ok ("decision-" +:+ hex_EncodeToString value)
  | Err e => Err (Wrapf "generate policy decision id: " e "")
  end.

(** ** The engine *)
Class BundleRepository (St : Type) := {
  LoadActiveBundle : string -> St -> result (Bundle.t * string);
  RecordDecision : DecisionRecord.t -> St -> result unit * St }.

Section Engine.
Context {P : Type} `{SigningProvider P}.

Definition SignBundle (signing : P) (b : Bundle.t) : result Bundle.t :=
  match validateUnsignedBundle b with
  | Some e => Err e
  | None =>
    match CurrentSigningKey signing "policy-bundle" with
    | Err e => Err (Wrapf "resolve policy signing key: " e "")
    | Ok k =>
      let b := b <| SigningKeyRef := SigningKey.Reference k |> <| SignatureAlgorithm := SigningKey.Algorithm k |> in
      match bundleSigningPayload b with
      | Err e => Err e
      | Ok payload =>
        match Sign signing (SigningKey.Reference k) payload with
        | Err e => Err (Wrapf "sign policy bundle: " e "")
        | Ok signature => Ok (b <| Signature := Some signature |>)
        end
      end
    end
  end.

Definition record_of (request : EvaluationRequest.t) (b : Bundle.t) (bundleDigest inputDigest decisionID : string)
    (rule : Rule.t) (evaluatedAt : Z) : DecisionRecord.t :=
  DecisionRecord.mk decisionID (EvaluationRequest.TenantID request) (EvaluationRequest.ActorID request)
    (EvaluationRequest.Phase request) (EvaluationRequest.Scope request) (EvaluationRequest.RecipeID request)
    (EvaluationRequest.TargetClass request) inputDigest (BundleID b) (Version b) bundleDigest (Rule.Allow rule)
    (Rule.RequiresApproval rule) (copy_slice (Rule.Denials rule)) (default ∅ (Rule.Obligations rule)) evaluatedAt.

Definition engine_Evaluate {St} `{BundleRepository St} (verifier : P) (now : Z) (random : result (list Z))
    (request : EvaluationRequest.t) (st : St) : result DecisionRecord.t * St :=
  match validateEvaluationRequest request with
  | Some e => (Err e, st)
  | None =>
  match LoadActiveBundle (EvaluationRequest.Scope request) st with
  | Err e => (Err e, st)
  | Ok (b, storedDigest) =>
  match validateSignedBundle b with
  | Some e => (Err e, st)
  | None =>
  match bundleSigningPayload b with
  | Err e => (Err e, st)
  | Ok payload =>
    if sha256_hex payload !=? storedDigest then (Err (Text "policy bundle digest does not match stored provenance"), st)
    else match Verify verifier (SigningKeyRef b) (SignatureAlgorithm b) payload (default "" (Signature b)) with
    | Some e => (Err (Wrapf "verify policy bundle: " e ""), st)
    | None =>
    match matchingRule (elems (Rules b)) (EvaluationRequest.RecipeID request) (EvaluationRequest.TargetClass request) with
    | Err e => (Err e, st)
    | Ok rule =>
    match evaluationDigest request with
    | Err e => (Err e, st)
    | Ok inputDigest =>
    match newDecisionID random with
    | Err e => (Err e, st)
    | Ok decisionID =>
      let record := record_of request b (sha256_hex payload) inputDigest decisionID rule now in
      match RecordDecision record st with
      | (Err e, st) => (Err (Wrapf "record policy decision: " e ""), st)
      | (Ok _, st) => (Ok record, st)
      end
    end end end end end end end end.
End Engine.

(** ** PostgreSQL *)
Module PostgresBundleRepository.
Section Repository.
Context `{Jsonb}.

Definition bundle_row (ts : Z) (b : Bundle.t) (document digest : string) : BundleRow.t :=
  BundleRow.mk (BundleID b) (Version b) (Scope b) (normaliseTime (IssuedAt b)) document digest (SigningKeyRef b)
    (SignatureAlgorithm b) (default "" (Signature b)) ts.
(** [INSERT ... ON CONFLICT (bundle_id, version) DO NOTHING]: whether a row was
    inserted. *)
Definition insert_bundle (ts : Z) (b : Bundle.t) (document digest : string) (db : DB.t) : result (bool * DB.t) :=
  if negb (all_encodable [BundleID b; Scope b; digest; SigningKeyRef b; SignatureAlgorithm b]) then Err invalid_text
  else match jsonb document with
  | None => Err invalid_json
  | Some document =>
    let row := bundle_row ts b document digest in
    if negb (BundleRow.check row) then Err check_violation
    else match DB.policy_bundles db !! BundleRow.primary_key row with
    | Some _ => Ok (false, db)
    | None => Ok (true, db <| DB.policy_bundles := <[BundleRow.primary_key row := row]> (DB.policy_bundles db) |>)
    end
  end.
Definition StoreBundle (ts : Z) (b : Bundle.t) (db : DB.t) : result string * DB.t :=
  match validateSignedBundle b with
  | Some e => (Err e, db)
  | None =>
  match marshal_bundle b with
  | Err e => (Err (Wrapf "encode stored policy bundle: " e ""), db)
  | Ok document =>
  match bundleSigningPayload b with
  | Err e => (Err e, db)
  | Ok payload =>
    let digest := sha256_hex payload in
    match insert_bundle ts b document digest db with
    | Err e => (Err (Wrapf "store policy bundle: " e ""), db)
    | Ok (false, db) => (Err (Text "policy bundle version already exists"), db)
    | Ok (true, db) => (Ok digest, db)
    end
  end end end.

(** One serializable transaction; [commit] is what its commit reports. *)
Definition ActivateBundle (ts : Z) (commit : option error) (scope bundleID : string) (version : Z) (actorID : string)
    (db : DB.t) : result unit * DB.t :=
  if (scope ==? "") || (bundleID ==? "") || (version <=? 0) || (actorID ==? "") then
    (Err (Text "policy activation scope, bundle, version and actor are required"), db)
  else if negb (all_encodable [bundleID]) then (Err (Wrapf "load policy bundle for activation: " invalid_text ""), db)
  else match DB.policy_bundles db !! (bundleID, version) with
  | None => (Err ErrNoActiveBundle, db)
  | Some row =>
    if BundleRow.scope row !=? scope then (Err (Text "policy bundle scope does not match activation scope"), db)
    else if negb (all_encodable [scope; bundleID; actorID]) then (Err (Wrapf "activate policy bundle: " invalid_text ""), db)
    else match commit with
    | Some e => (Err (Wrapf "commit policy activation: " e ""), db)
    | None =>
      (Ok tt, db <| DB.policy_activations := <[scope := ActivationRow.mk scope bundleID version ts actorID]> (DB.policy_activations db) |>
                 <| DB.policy_activation_events :=
                      DB.policy_activation_events db ++ [ActivationEventRow.mk scope bundleID version actorID ts] |>)
    end
  end.

Definition active_row (scope : string) (db : DB.t) : option BundleRow.t :=
  match DB.policy_activations db !! scope with
  | Some a => DB.policy_bundles db !! (ActivationRow.bundle_id a, ActivationRow.version a)
  | None => None
  end.
Definition LoadActiveBundle (scope : string) (db : DB.t) : result (Bundle.t * string) :=
  if scope ==? "" then Err (Text "policy scope is required")
  else if negb (all_encodable [scope]) then Err (Wrapf "load active policy bundle: " invalid_text "")
  else match active_row scope db with
  | None => Err ErrNoActiveBundle
  | Some row =>
    match members (BundleRow.document row) with
    | None => Err (Wrapf "decode active policy bundle: " (Text "json: cannot unmarshal value into Go value") "")
    | Some fs =>
      match dec_bundle fs with
      | None => Err (Wrapf "decode active policy bundle: " (Text "json: cannot unmarshal value into Go value") "")
      | Some b => Ok (b, BundleRow.document_digest row)
      end
    end
  end.

Definition decision_row (r : DecisionRecord.t) (denials obligations : string) : PolicyDecisionRow.t :=
  PolicyDecisionRow.mk (DecisionRecord.DecisionID r) (DecisionRecord.TenantID r) (DecisionRecord.ActorID r)
    (DecisionRecord.Phase r) (DecisionRecord.Scope r) (DecisionRecord.RecipeID r) (DecisionRecord.TargetClass r)
    (DecisionRecord.InputDigest r) (DecisionRecord.BundleID r) (DecisionRecord.BundleVersion r) (DecisionRecord.BundleDigest r)
    (DecisionRecord.Allow r) (DecisionRecord.RequiresApproval r) denials obligations (normaliseTime (DecisionRecord.EvaluatedAt r)).
Definition decision_params (r : DecisionRecord.t) : list string :=
  [DecisionRecord.DecisionID r; DecisionRecord.TenantID r; DecisionRecord.ActorID r; DecisionRecord.Phase r;
   DecisionRecord.Scope r; DecisionRecord.RecipeID r; DecisionRecord.TargetClass r; DecisionRecord.InputDigest r;
   DecisionRecord.BundleID r; DecisionRecord.BundleDigest r].
Definition insert_decision (r : DecisionRecord.t) (db : DB.t) : result DB.t :=
  if negb (all_encodable (decision_params r)) then Err invalid_text
  else match jsonb (Marshal (jslice jstr (DecisionRecord.Denials r))), jsonb (Marshal (map_tree (DecisionRecord.Obligations r))) with
  | Some denials, Some obligations =>
    let row := decision_row r denials obligations in
    if negb (PolicyDecisionRow.check row) then Err check_violation
    else match DB.policy_decisions db !! DecisionRecord.DecisionID r with
    | Some _ => Err unique_violation
    | None =>
      if is_null (DB.policy_bundles db !! (DecisionRecord.BundleID r, DecisionRecord.BundleVersion r)) then Err foreign_key_violation
      else Ok (db <| DB.policy_decisions := <[DecisionRecord.DecisionID r := row]> (DB.policy_decisions db) |>)
    end
  | _, _ => Err invalid_json
  end.
Definition RecordDecision (r : DecisionRecord.t) (db : DB.t) : result unit * DB.t :=
  match insert_decision r db with
  | Err e => (Err (Wrapf "insert policy decision: " e ""), db)
  | Ok db => (Ok tt, db)
  end.
End Repository.
End PostgresBundleRepository.
#[export] Instance postgres_bundles `{Jsonb} : BundleRepository DB.t := {|
  LoadActiveBundle := PostgresBundleRepository.LoadActiveBundle; RecordDecision := PostgresBundleRepository.RecordDecision |}.

(** ** Bundles as documents *)

(** Text that JSON represents exactly; obligations whose names differ by more
    than case. *)
Definition rule_fits (r : Rule.t) : Prop :=
  ValidString (Rule.RecipeID r) = true /\ ValidString (Rule.TargetClass r) = true /\
  Forall (fun s => ValidString s = true) (elems (Rule.Denials r)) /\ map_plain (default ∅ (Rule.Obligations r)).
Definition bundle_fits (b : Bundle.t) : Prop :=
  Forall (fun s => ValidString s = true) [BundleID b; Scope b; SigningKeyRef b; SignatureAlgorithm b] /\
  int64_range (Version b) /\ Forall rule_fits (elems (Rules b)).
(** What is read back: empty slices and maps that were left out are nil. *)
Definition copy_map (m : option smap) : option smap := if no_entries m then None else m.
Definition normal_rule (r : Rule.t) : Rule.t :=
  r <| Rule.Denials := copy_slice (Rule.Denials r) |> <| Rule.Obligations := copy_map (Rule.Obligations r) |>.
Definition normal (b : Bundle.t) : Bundle.t := b <| Rules := option_map (map normal_rule) (Rules b) |>.

Lemma copy_map_normal m : jmap (copy_map m) = (if no_entries m then TNull else jmap m) /\ no_entries (copy_map m) = no_entries m.
Proof. unfold copy_map. by destruct (no_entries m) eqn:E. Qed.
Lemma no_elems_copy {A} (s : option (list A)) :
  no_elems (copy_slice s) = no_elems s /\ (no_elems s = false -> copy_slice s = s).
Proof. by destruct s as [[|]|]. Qed.
Lemma rule_tree_normal r : rule_tree (normal_rule r) = rule_tree r.
Proof.
  destruct r as [a b c d e f]. unfold rule_tree, normal_rule. cbn [Rule.RecipeID Rule.TargetClass Rule.Allow Rule.RequiresApproval
    Rule.Denials Rule.Obligations set_field]. destruct (copy_map_normal f) as [H1 H2]. destruct (no_elems_copy e) as [H3 H4].
  do 3 f_equal.
  - change (omitempty (no_elems (copy_slice e)) "denials" (jslice jstr (copy_slice e)) =
      omitempty (no_elems e) "denials" (jslice jstr e)). rewrite H3. destruct (no_elems e); [done|]. by rewrite H4.
  - change (omitempty (no_entries (copy_map f)) "obligations" (jmap (copy_map f)) =
      omitempty (no_entries f) "obligations" (jmap f)). rewrite H2, H1. by destruct (no_entries f).
Qed.
Lemma bundle_tree_normal b : bundle_tree (normal b) = bundle_tree b.
Proof.
  assert (Hr : jslice rule_tree (Rules (normal b)) = jslice rule_tree (Rules b)).
  { destruct b as [id v sc at_ [l|] k alg sig]; [|done]. unfold jslice. cbn. f_equal. rewrite map_map. apply map_ext, rule_tree_normal. }
  unfold bundle_tree. by rewrite Hr.
Qed.

Lemma rule_roundtrip r : rule_fits r -> dec_rule (rule_tree r) = Some (normal_rule r).
Proof.
  destruct r as [a b c d e f]. intros (Ha & Hb & He & Hf). cbn [Rule.RecipeID Rule.TargetClass Rule.Denials Rule.Obligations] in *.
  assert (Hstr : Forall (elem_reads jstr dec_string) (elems e)).
  { eapply List.Forall_impl; [|exact He]. intros s Hs. by split; [|apply dec_string_jstr]. }
  unfold dec_rule, rule_tree. cbn [Rule.RecipeID Rule.TargetClass Rule.Allow Rule.RequiresApproval Rule.Denials Rule.Obligations].
  match goal with |- context [decode_into dec_map "obligations" None ?fs] =>
    assert (Ho : decode_into dec_map "obligations" None fs = Some (copy_map f)) end.
  { skip_members. unfold copy_map. destruct f as [m|]; [|done]. destruct (no_entries (Some m)) eqn:E; [done|].
    unfold omitempty. cbn [fold_left]. apply absorb_hit; [vm_compute; reflexivity|done|]. apply dec_map_tree, Hf. }
  rewrite Ho. unfold dec_strings. by decode_members.
Qed.

Lemma rule_good r : rule_fits r -> good 2 (rule_tree r).
Proof.
  intros (_ & _ & _ & Hf). apply good_obj; [done|..].
  - distinct (["recipe_id"; "target_class"; "allow"; "requires_approval"] ++ ["denials"] ++ ["obligations"]).
  - good_members; try (by first [apply good_str | apply good_bool]).
    + apply good_slice; [done|]. apply list.Forall_forall. intros s _. by apply good_str.
    + destruct (Rule.Obligations r) as [m|]; [by apply good_map|done].
Qed.
Lemma bundle_good b :
  bundle_fits b -> 0 < Version b -> jtime_ok (IssuedAt b) = true -> good 4 (bundle_tree b).
Proof.
  intros (_ & Hv & Hr) Hpos Ht. apply good_obj; [done|..].
  - apply (bool_decide_unpack _). vm_compute. exact I.
  - good_members; try (by apply good_str).
    + apply good_uint; [done|]. unfold uint64_range, max_uint64, int64_range, max_int64 in *. lia.
    + split; [by apply jtime_tree_ok|]. by split; [|cbn [nesting jtime]].
    + apply good_slice; [done|]. eapply List.Forall_impl; [|exact Hr]. intros r Hf. by apply rule_good.
    + destruct (Signature b); split_and!; try done; [apply (jbytes_ok (Some _))|cbn [nesting jbytes option_map]; lia..].
Qed.

Lemma bundle_roundtrip b signature :
  bundle_fits b -> jtime_ok (IssuedAt b) = true -> Signature b = Some signature ->
  exists fs, bundle_tree b = TObj fs /\ dec_bundle fs = Some (normal b).
Proof.
  intros (Hs & Hv & Hr) Ht Hsig. rewrite <- bundle_tree_normal.
  destruct b as [id v sc at_ rules k alg sig]. cbn [BundleID Version Scope IssuedAt Rules SigningKeyRef SignatureAlgorithm Signature] in *.
  subst sig. rewrite !list.Forall_cons in Hs. destruct Hs as (H1 & H2 & H3 & H4 & _).
  assert (Hrules : Forall (elem_reads rule_tree dec_rule) (elems (option_map (map normal_rule) rules))).
  { destruct rules as [l|]; [|constructor]. cbn [elems option_map] in *. apply Forall_map. eapply List.Forall_impl; [|exact Hr].
    intros r Hf. unfold elem_reads. rewrite rule_tree_normal. split; [done|]. by apply rule_roundtrip. }
  unfold bundle_tree, normal. eexists. split; [reflexivity|].
  cbn [BundleID Version Scope IssuedAt Rules SigningKeyRef SignatureAlgorithm Signature set_field option_map].
  unfold dec_bundle. generalize dependent (option_map (map normal_rule) rules). intros nrules Hn. by decode_members.
Qed.

Lemma dec_rule_equiv v v' : jequiv v v' -> dec_rule v = dec_rule v'.
Proof.
  intros Hv. unfold dec_rule. destruct v as [| | | | |fs], v' as [| | | | |fs']; try (by inversion Hv).
  rewrite (decode_into_equiv dec_map "obligations" None fs fs') by (done || (intros kv w _ _; apply dec_map_equiv)).
  unfold dec_strings. rewrite !(decode_field_equiv _ _ _ fs fs') by eauto with json. done.
Qed.
Lemma dec_bundle_equiv b fs fs' :
  bundle_tree b = TObj fs -> jequiv (TObj fs) (TObj fs') -> dec_bundle fs = dec_bundle fs'.
Proof.
  intros Hfs Hv.
  assert (Htime : decode_field dec_time "issued_at" 0 fs = decode_field dec_time "issued_at" 0 fs').
  { apply (decode_into_equiv (fun _ => dec_time)); [|done]. unfold bundle_tree in Hfs. injection Hfs as <-. intros kv v' Hin Hk Hkv _.
    repeat (apply elem_of_cons in Hin as [->|Hin]; [first [exfalso; revert Hk; clear; by vm_compute
      | symmetry; by apply dec_time_equiv]|]). by apply elem_of_nil in Hin. }
  unfold dec_bundle. rewrite Htime. clear Htime Hfs.
  rewrite !(decode_field_equiv _ _ _ fs fs') by (eauto using dec_rule_equiv with json). done.
Qed.

Section Documents.
Context `{JD : JsonbDocuments}.
Lemma stored_bundle_reads b signature doc :
  bundle_fits b -> 0 < Version b -> jtime_ok (IssuedAt b) = true -> Signature b = Some signature ->
  jsonb (Marshal (bundle_tree b)) = Some doc -> exists fs, members doc = Some fs /\ dec_bundle fs = Some (normal b).
Proof.
  intros Hf Hpos Ht Hsig Hdoc. destruct (bundle_good b Hf Hpos Ht) as (Hok & Hp & Hn).
  destruct (bundle_roundtrip b signature Hf Ht Hsig) as (fs & Htree & Hdec).
  destruct (jsonb_document _ doc Hok ltac:(unfold max_depth; lia) Hp Hdoc) as (t' & Hparse & He). rewrite Htree in He.
  destruct t' as [| | | | |fs']; try by inversion He. exists fs'. unfold members. rewrite Hparse. split; [done|].
  by rewrite <- (dec_bundle_equiv b fs fs' Htree He).
Qed.
End Documents.
