(* ===== verification/PolicyStore.v ===== *)
(** * Policy decisions over PostgreSQL

    Bundles stored and activated by anyone in any order, and the decisions of
    the engine: each one is made by the bundle that the reported activations
    left active. *)
From S2P Require Import Prelude GoStrings GoEncoding GoDecoding Json JsonStruct Keys Task Schema TaskPostgres Grants Outbox Resolution.
From S2P Require Import ResolutionPostgres Planning Artefacts ArtefactStore Policy.
Local Open Scope Z_scope.
Import Bundle (BundleID, Version, Scope, IssuedAt, Rules, SigningKeyRef, SignatureAlgorithm, Signature).

(** ** The registry

    What the reported successes say: the bundles by identifier and version, and
    the active one of each scope. *)
Module Registry.
Record t := mk { bundles : gmap (string * Z) Bundle.t; active : gmap string (string * Z) }.
#[global] Instance eta_t : Eta t := fun x => mk (bundles x) (active x).
Definition empty : t := mk ∅ ∅.
End Registry.
Import Registry (bundles, active).

Inductive pop : Type :=
| PStore (ts : Z) (b : Bundle.t)
| PActivate (ts : Z) (commit : option error) (scope bundleID : string) (version : Z) (actorID : string)
| PEvaluate (now : Z) (random : result (list Z)) (request : EvaluationRequest.t)
| POther (f : DB.t -> DB.t).
Inductive pout : Type :=
| OStored (r : result string)
| OActivated (r : result unit)
| ODecided (r : result DecisionRecord.t)
| OOther.

Definition learn (r : Registry.t) (x : pop * pout) : Registry.t :=
  match x with
  | (PStore _ b, OStored (Ok _)) => r <| bundles := <[(BundleID b, Version b) := b]> (bundles r) |>
  | (PActivate _ _ scope bundleID version _, OActivated (Ok _)) => r <| active := <[scope := (bundleID, version)]> (active r) |>
  | _ => r
  end.
Definition registry (log : list (pop * pout)) : Registry.t := fold_left learn log Registry.empty.
Definition active_bundle (r : Registry.t) (scope : string) : option Bundle.t :=
  match active r !! scope with Some k => bundles r !! k | None => None end.

Section Store.
Context `{JD : JsonbDocuments} {P : Type} `{SP : SigningProvider P} (verifier : P).

Definition pstep (op : pop) (db : DB.t) : pout * DB.t :=
  match op with
  | PStore ts b => let '(r, db) := PostgresBundleRepository.StoreBundle ts b db in (OStored r, db)
  | PActivate ts commit scope bundleID version actorID =>
    let '(r, db) := PostgresBundleRepository.ActivateBundle ts commit scope bundleID version actorID db in (OActivated r, db)
  | PEvaluate now random request => let '(r, db) := engine_Evaluate verifier now random request db in (ODecided r, db)
  | POther f => (OOther, f db)
  end.
Definition pop_ok (op : pop) : Prop :=
  match op with
  | PStore _ b => bundle_fits b
  | POther f => forall db, DB.policy_bundles (f db) = DB.policy_bundles db /\
      DB.policy_activations (f db) = DB.policy_activations db /\ DB.policy_decisions db ⊆ DB.policy_decisions (f db)
  | _ => True
  end.

(** ** What a decision is held to *)
Definition payload_of (b : Bundle.t) : string := Marshal (bundle_tree (b <| Signature := None |>)).
(** The rule of a bundle for a request: the first that matches, if the
    signature of the bundle verifies. *)
Definition first_match (b : Bundle.t) (request : EvaluationRequest.t) : result Rule.t :=
  match find (fun rule => bool_decide (Rule.RecipeID rule = EvaluationRequest.RecipeID request /\
                                       Rule.TargetClass rule = EvaluationRequest.TargetClass request)) (elems (Rules b)) with
  | Some rule => Ok rule
  | None => Err ErrNoMatchingRule
  end.
Definition ruling (b : Bundle.t) (request : EvaluationRequest.t) : result Rule.t :=
  match Verify verifier (SigningKeyRef b) (SignatureAlgorithm b) (payload_of b) (default "" (Signature b)) with
  | Some e => Err (Wrapf "verify policy bundle: " e "")
  | None => first_match b request
  end.
Lemma matchingRule_first b request :
  matchingRule (elems (Rules b)) (EvaluationRequest.RecipeID request) (EvaluationRequest.TargetClass request) = first_match b request.
Proof.
  unfold first_match. induction (elems (Rules b)) as [|rule rest IH]; [done|]. cbn [matchingRule find].
  rewrite bool_decide_and. by destruct (_ && _).
Qed.
Definition answers (r : Registry.t) (now : Z) (random : result (list Z)) (request : EvaluationRequest.t)
    (out : result DecisionRecord.t) : Prop :=
  match active_bundle r (EvaluationRequest.Scope request) with
  | None => out = Err ErrNoActiveBundle
  | Some b =>
    Scope b = EvaluationRequest.Scope request /\
    match ruling b request, newDecisionID random with
    | Err e, _ => out = Err e
    | Ok _, Err e => out = Err e
    | Ok rule, Ok decisionID =>
      out = Ok (record_of request b (sha256_hex (payload_of b)) (sha256_hex (Marshal (request_tree request))) decisionID rule now) \/
      exists e, out = Err (Wrapf "record policy decision: " e "")
    end
  end.

(** ** The tables and the registry *)
Definition holds (row : BundleRow.t) (b : Bundle.t) : Prop :=
  bundle_fits b /\ validateSignedBundle b = None /\ jtime_ok (IssuedAt b) = true /\
  jsonb (Marshal (bundle_tree b)) = Some (BundleRow.document row) /\
  BundleRow.document_digest row = sha256_hex (payload_of b) /\ BundleRow.scope row = Scope b.
Definition related (r : Registry.t) (db : DB.t) : Prop :=
  (forall k, match bundles r !! k, DB.policy_bundles db !! k with
             | Some b, Some row => holds row b
             | None, None => True
             | _, _ => False
             end) /\
  (forall scope, active r !! scope =
     option_map (fun a => (ActivationRow.bundle_id a, ActivationRow.version a)) (DB.policy_activations db !! scope)) /\
  (forall scope k, active r !! scope = Some k -> exists b, bundles r !! k = Some b /\ Scope b = scope).

Lemma payload_of_normal b : payload_of (normal b) = payload_of b.
Proof.
  unfold payload_of. change ((normal b) <| Signature := None |>) with (normal (b <| Signature := None |>)).
  by rewrite bundle_tree_normal.
Qed.
Lemma signing_payload b : jtime_ok (IssuedAt b) = true -> bundleSigningPayload b = Ok (payload_of b).
Proof. intros Ht. unfold bundleSigningPayload, marshal_bundle. change (IssuedAt (b <| Signature := None |>)) with (IssuedAt b). by rewrite Ht. Qed.

Lemma matchingRule_normal l recipeID targetClass :
  matchingRule (map normal_rule l) recipeID targetClass =
  match matchingRule l recipeID targetClass with Ok r => Ok (normal_rule r) | Err e => Err e end.
Proof.
  induction l as [|r l IH]; [done|]. cbn [map matchingRule]. change (Rule.RecipeID (normal_rule r)) with (Rule.RecipeID r).
  change (Rule.TargetClass (normal_rule r)) with (Rule.TargetClass r). by destruct (_ && _).
Qed.
Lemma validate_normal b : validateSignedBundle (normal b) = validateSignedBundle b.
Proof.
  assert (Hr : elems (Rules (normal b)) = map normal_rule (elems (Rules b))) by by destruct b as [? ? ? ? [l|] ? ? ?].
  unfold validateSignedBundle, validateBundleContents, no_elems. rewrite Hr.
  replace (existsb _ (map normal_rule (elems (Rules b)))) with
    (existsb (fun r => (Rule.RecipeID r ==? "") || (Rule.TargetClass r ==? "") ||
                            negb (Rule.Allow r) && no_elems (Rule.Denials r)) (elems (Rules b))); [by destruct (elems (Rules b))|].
  generalize (elems (Rules b)). intros l. induction l as [|r l IH]; [done|]. cbn [map existsb]. rewrite IH. f_equal.
  change (Rule.Denials (normal_rule r)) with (copy_slice (Rule.Denials r)).
  unfold no_elems. by rewrite elems_copy_slice.
Qed.

Lemma stored_facts row b :
  holds row b -> exists fs, members (BundleRow.document row) = Some fs /\ dec_bundle fs = Some (normal b) /\
    validateSignedBundle (normal b) = None /\ bundleSigningPayload (normal b) = Ok (payload_of b) /\
    BundleRow.document_digest row = sha256_hex (payload_of b).
Proof.
  intros (Hf & Hv & Ht & Hdoc & Hdig & _).
  assert (Hpos : 0 < Version b /\ exists signature, Signature b = Some signature).
  { unfold validateSignedBundle in Hv. destruct (validateBundleContents b) eqn:Hc; [done|]. unfold validateBundleContents in Hc.
    destruct (_ || no_elems _) eqn:H1 in Hc; [done|]. destruct (_ || _) eqn:H2 in Hv; [done|]. rewrite !orb_false_iff in H1.
    rewrite !orb_false_iff in H2.
    destruct H1 as ((((_ & H1) & _) & _) & _), H2 as [_ H2]. split; [by apply Z.leb_gt|].
    destruct (Signature b) as [s|]; [by exists s|done]. }
  destruct Hpos as [Hpos [signature Hsig]]. destruct (stored_bundle_reads b signature _ Hf Hpos Ht Hsig Hdoc) as (fs & Hm & Hd).
  exists fs. split_and!; [done|done|by rewrite validate_normal| |done].
  rewrite <- payload_of_normal. by apply signing_payload.
Qed.

(** ** The operations *)
Definition grows (db db' : DB.t) : Prop := DB.policy_decisions db ⊆ DB.policy_decisions db'.
#[local] Instance grows_preorder : PreOrder grows.
Proof. split; [intros db; unfold grows; reflexivity|]. intros a b c Hab Hbc. unfold grows in *. by etrans. Qed.

Definition recorded (db : DB.t) (record : DecisionRecord.t) : Prop :=
  exists denials obligations, DB.policy_decisions db !! DecisionRecord.DecisionID record =
    Some (PostgresBundleRepository.decision_row record denials obligations) /\
    jsonb (Marshal (jslice jstr (DecisionRecord.Denials record))) = Some denials /\
    jsonb (Marshal (map_tree (DecisionRecord.Obligations record))) = Some obligations.

(** The tables stay as they are. *)
Ltac kept := split; [match goal with H : related _ _ |- _ => exact H end|unfold grows; reflexivity].
Lemma StoreBundle_spec ts b r db :
  bundle_fits b -> related r db ->
  let '(res, db') := PostgresBundleRepository.StoreBundle ts b db in
  related (learn r (PStore ts b, OStored res)) db' /\ grows db db'.
Proof.
  intros Hf Hrel. unfold PostgresBundleRepository.StoreBundle. destruct (validateSignedBundle b) eqn:Hv; [kept|].
  unfold marshal_bundle. destruct (jtime_ok (IssuedAt b)) eqn:Ht; [|kept]. rewrite signing_payload by done.
  unfold PostgresBundleRepository.insert_bundle. destruct (negb (all_encodable _)); [kept|].
  destruct (jsonb (Marshal (bundle_tree b))) as [doc|] eqn:Hdoc; [|kept].
  set (row := PostgresBundleRepository.bundle_row ts b doc (sha256_hex (payload_of b))).
  destruct (negb (BundleRow.check row)); [kept|]. change (BundleRow.primary_key row) with (BundleID b, Version b).
  destruct Hrel as (Hb & Ha & Hs). pose proof (Hb (BundleID b, Version b)) as Hk.
  destruct (DB.policy_bundles db !! _) as [old|] eqn:Hold; [by split|]. destruct (bundles r !! _) as [b0|] eqn:Hnew; [done|].
  split; [|unfold grows; reflexivity]. cbn [learn]. split_and!; [|exact Ha|].
  - intros k. change (match <[(BundleID b, Version b) := b]> (bundles r) !! k,
      <[(BundleID b, Version b) := row]> (DB.policy_bundles db) !! k with
      | Some b, Some row => holds row b | None, None => True | _, _ => False end).
    destruct (decide ((BundleID b, Version b) = k)) as [<-|Hne]; [|rewrite !lookup_insert_ne by done; apply Hb].
    rewrite !lookup_insert_eq. split; [exact Hf|]. by split_and!.
  - intros scope k Hk'. change (active r !! scope = Some k) in Hk'. destruct (Hs scope k Hk') as (b0 & Hb0 & Hsc). exists b0.
    split; [|done]. change (<[(BundleID b, Version b) := b]> (bundles r) !! k = Some b0). rewrite lookup_insert_ne; [done|]. congruence.
Qed.

Lemma ActivateBundle_spec ts commit scope bundleID version actorID r db :
  related r db ->
  let '(res, db') := PostgresBundleRepository.ActivateBundle ts commit scope bundleID version actorID db in
  related (learn r (PActivate ts commit scope bundleID version actorID, OActivated res)) db' /\ grows db db'.
Proof.
  intros Hrel. unfold PostgresBundleRepository.ActivateBundle.
  destruct (_ || (actorID ==? "")); [kept|]. destruct (negb (all_encodable [bundleID])); [kept|].
  destruct (DB.policy_bundles db !! (bundleID, version)) as [row|] eqn:Hrow; [|kept].
  destruct (BundleRow.scope row !=? scope) eqn:Hsc; [kept|].
  destruct (negb (all_encodable [scope; bundleID; actorID])); [kept|]. destruct commit; [kept|].
  split; [|unfold grows; reflexivity].
  destruct Hrel as (Hb & Ha & Hs). pose proof (Hb (bundleID, version)) as Hk. rewrite Hrow in Hk.
  destruct (bundles r !! (bundleID, version)) as [b|] eqn:Hbk; [|done]. destruct Hk as (_ & _ & _ & _ & _ & Hscope). reflect_bools.
  cbn [learn]. split_and!; [exact Hb|..].
  - intros sc. change (<[scope := (bundleID, version)]> (active r) !! sc = option_map (fun a => (ActivationRow.bundle_id a, ActivationRow.version a))
      (<[scope := ActivationRow.mk scope bundleID version ts actorID]> (DB.policy_activations db) !! sc)).
    destruct (decide (scope = sc)) as [<-|Hne]; [by rewrite !lookup_insert_eq|by rewrite !lookup_insert_ne by done].
  - intros sc k Hk. change (<[scope := (bundleID, version)]> (active r) !! sc = Some k) in Hk.
    apply lookup_insert_Some in Hk as [[<- <-]|[_ Hk]]; [|by apply Hs]. exists b. split; [done|congruence].
Qed.

Lemma active_row_spec r db scope :
  related r db ->
  match active_bundle r scope, PostgresBundleRepository.active_row scope db with
  | Some b, Some row => holds row b /\ Scope b = scope
  | None, None => True
  | _, _ => False
  end.
Proof.
  intros (Hb & Ha & Hs). unfold active_bundle, PostgresBundleRepository.active_row. pose proof (Ha scope) as Hk. pose proof (Hs scope) as Hsc.
  destruct (DB.policy_activations db !! scope) as [a|]; cbn [option_map] in Hk; rewrite Hk in *; [|done].
  destruct (Hsc _ eq_refl) as (b & Hbk & Hscope). specialize (Hb (ActivationRow.bundle_id a, ActivationRow.version a)).
  rewrite Hbk in *. by destruct (DB.policy_bundles db !! _).
Qed.
Lemma RecordDecision_spec record db :
  let '(res, db') := PostgresBundleRepository.RecordDecision record db in
  DB.policy_bundles db' = DB.policy_bundles db /\ DB.policy_activations db' = DB.policy_activations db /\ grows db db' /\
  (is_ok res = true -> recorded db' record).
Proof.
  unfold PostgresBundleRepository.RecordDecision, PostgresBundleRepository.insert_decision.
  destruct (negb (all_encodable _)); [by split_and!; try reflexivity|].
  destruct (jsonb (Marshal (jslice _ _))) as [denials|] eqn:Hd; [|by split_and!; try reflexivity].
  destruct (jsonb (Marshal (map_tree _))) as [obligations|] eqn:Ho; [|by split_and!; try reflexivity].
  destruct (negb (PolicyDecisionRow.check _)); [by split_and!; try reflexivity|].
  destruct (DB.policy_decisions db !! _) eqn:Hold; [by split_and!; try reflexivity|].
  destruct (is_null _); [by split_and!; try reflexivity|]. split_and!; [done|done|by apply insert_subseteq|].
  intros _. exists denials, obligations. split; [apply lookup_insert_eq|done].
Qed.

Lemma record_of_normal request b digest input decisionID rule now :
  record_of request (normal b) digest input decisionID (normal_rule rule) now = record_of request b digest input decisionID rule now.
Proof.
  unfold record_of. destruct rule as [? ? ? ? e f]. cbn [normal_rule set_field]. f_equal.
  - apply copy_slice_idemp.
  - destruct f as [m|]; [|done]. cbn. unfold copy_map, no_entries. case_bool_decide; [by subst|done].
Qed.
Lemma rules_normal b : elems (Rules (normal b)) = map normal_rule (elems (Rules b)).
Proof. by destruct b as [? ? ? ? [l|] ? ? ?]. Qed.

Lemma requested_scope request : validateEvaluationRequest request = None -> (EvaluationRequest.Scope request ==? "") = false.
Proof.
  unfold validateEvaluationRequest. destruct (_ || (EvaluationRequest.TargetClass request ==? "")) eqn:E; [done|]. intros _.
  rewrite !orb_false_iff in E. apply E.
Qed.
Lemma Evaluate_spec now random request r db :
  related r db ->
  let '(out, db') := engine_Evaluate verifier now random request db in
  related r db' /\ grows db db' /\
  (validateEvaluationRequest request = None -> encodable (EvaluationRequest.Scope request) = true -> answers r now random request out) /\
  (forall record, out = Ok record -> recorded db' record).
Proof.
  intros Hrel. pose proof (active_row_spec r db (EvaluationRequest.Scope request) Hrel) as Hactive.
  unfold engine_Evaluate, answers. cbn [LoadActiveBundle RecordDecision postgres_bundles]. unfold PostgresBundleRepository.LoadActiveBundle.
  destruct (validateEvaluationRequest request) eqn:Hval; [by split_and!; try reflexivity|].
  rewrite (requested_scope request Hval). unfold all_encodable. cbn [forallb]. rewrite andb_true_r.
  destruct (encodable (EvaluationRequest.Scope request)); [|by split_and!; try reflexivity]. cbn [negb].
  destruct (active_bundle r _) as [b|], (PostgresBundleRepository.active_row _ db) as [row|]; try done.
  destruct Hactive as [Hholds Hscope]. destruct (stored_facts row b Hholds) as (fs & -> & -> & -> & -> & ->).
  rewrite bool_decide_eq_true_2 by done. cbn [negb]. unfold ruling.
  change (SigningKeyRef (normal b)) with (SigningKeyRef b). change (SignatureAlgorithm (normal b)) with (SignatureAlgorithm b).
  change (Signature (normal b)) with (Signature b).
  destruct (Verify _ _ _ _ _); [by split_and!; try reflexivity|]. rewrite rules_normal, matchingRule_normal, matchingRule_first.
  destruct (first_match _ _) as [rule|]; [|by split_and!; try reflexivity]. cbn [evaluationDigest].
  destruct (newDecisionID random) as [decisionID|]; [|by split_and!; try reflexivity]. rewrite record_of_normal.
  match goal with |- context [PostgresBundleRepository.RecordDecision ?x db] => set (record := x) end.
  pose proof (RecordDecision_spec record db) as Hrec. destruct (PostgresBundleRepository.RecordDecision record db) as [res db'].
  destruct Hrec as (H1 & H2 & H3 & H4). assert (Hrel' : related r db') by (unfold related; rewrite H1, H2; exact Hrel).
  destruct res as [[]|e]; (split; [exact Hrel'|]; split; [done|]); split; try done.
  - intros _ _. split; [done|]. by left.
  - intros x [= <-]. by apply H4.
  - intros _ _. split; [done|]. right. by exists e.
Qed.

(** ** Runs *)
Definition entry_ok (before : list (pop * pout)) (x : pop * pout) : Prop :=
  match x with
  | (PEvaluate now random request, ODecided out) =>
    validateEvaluationRequest request = None -> encodable (EvaluationRequest.Scope request) = true ->
    answers (registry before) now random request out
  | _ => True
  end.
Definition entries_ok (log : list (pop * pout)) : Prop :=
  forall before x after, log = before ++ x :: after -> entry_ok before x.
Definition policy_invariant (log : list (pop * pout)) (db : DB.t) : Prop :=
  related (registry log) db /\ entries_ok log /\
  forall now random request record, (PEvaluate now random request, ODecided (Ok record)) ∈ log -> recorded db record.

Lemma registry_snoc log x : registry (log ++ [x]) = learn (registry log) x.
Proof. unfold registry. by rewrite fold_left_app. Qed.
Lemma entries_snoc log x : entries_ok log -> entry_ok log x -> entries_ok (log ++ [x]).
Proof.
  intros Hlog Hx before y after Heq. destruct after as [|z after _] using rev_ind.
  - apply app_inj_tail in Heq as [-> ->]. exact Hx.
  - rewrite app_comm_cons, app_assoc in Heq. apply app_inj_tail in Heq as [-> _]. by eapply Hlog.
Qed.
Lemma recorded_grows db db' record : grows db db' -> recorded db record -> recorded db' record.
Proof. intros Hg (denials & obligations & Hl & Hj). exists denials, obligations. by split; [eapply lookup_weaken|]. Qed.

(** One step: the tables follow the registry, and the answer is as it must be. *)
Lemma pstep_spec r op db :
  pop_ok op -> related r db ->
  let '(out, db') := pstep op db in
  related (learn r (op, out)) db' /\ grows db db' /\
  match op, out with
  | PEvaluate now random request, ODecided res =>
    (validateEvaluationRequest request = None -> encodable (EvaluationRequest.Scope request) = true ->
     answers r now random request res) /\ (forall record, res = Ok record -> recorded db' record)
  | PEvaluate _ _ _, _ => False
  | _, ODecided _ => False
  | _, _ => True
  end.
Proof.
  intros Hop Hrel. destruct op as [ts b|ts commit scope bundleID version actorID|now random request|f]; cbn [pstep pop_ok] in *.
  - pose proof (StoreBundle_spec ts b r db Hop Hrel) as Hs. destruct (PostgresBundleRepository.StoreBundle ts b db) as [res db'].
    destruct Hs as [H1 H2]. by split_and!.
  - pose proof (ActivateBundle_spec ts commit scope bundleID version actorID r db Hrel) as Hs.
    destruct (PostgresBundleRepository.ActivateBundle _ _ _ _ _ _ db) as [res db']. destruct Hs as [H1 H2]. by split_and!.
  - pose proof (Evaluate_spec now random request r db Hrel) as Hs. destruct (engine_Evaluate _ _ _ _ _) as [res db'].
    destruct Hs as (H1 & H2 & H3 & H4). by split_and!.
  - destruct (Hop db) as (H1 & H2 & H3). split; [|by split]. cbn [learn]. unfold related. by rewrite H1, H2.
Qed.
Lemma policy_step log op db :
  pop_ok op -> policy_invariant log db -> policy_invariant (log ++ [(op, (pstep op db).1)]) (pstep op db).2.
Proof.
  intros Hop (Hrel & Hlog & Hrec). pose proof (pstep_spec (registry log) op db Hop Hrel) as Hs.
  destruct (pstep op db) as [out db']. cbn [fst snd]. destruct Hs as (Hrel' & Hg & Hout). split_and!.
  - by rewrite registry_snoc.
  - apply entries_snoc; [done|]. unfold entry_ok. destruct op as [| |now random request|]; [done..| |done].
    destruct out as [| |res|]; [done..| |done]. apply Hout.
  - intros now random request record [Hin|Hin]%elem_of_app; [eapply recorded_grows; [done|]; by eapply Hrec|].
    apply list_elem_of_singleton in Hin. injection Hin as <- <-. by apply (proj2 Hout).
Qed.

(** C11.  The active bundle decides.  Whatever bundles are stored and activated
    by anyone in whatever order, every answer of the engine is the one that the
    successes reported before it determine: no active bundle, or the refusal of
    a bundle whose signature does not verify, or no matching rule, or the
    decision of the first matching rule of the bundle that was last activated
    for the scope and was made for that scope, with the digests of that bundle
    and of the request, unless the record cannot be stored.  Every decision that
    was given out stays recorded.  A bundle comes back from its JSONB column
    with the bytes that were signed. *)
Theorem active_bundle_decides ops db0 (Hops : Forall pop_ok ops) (Hb0 : DB.policy_bundles db0 = ∅)
    (Ha0 : DB.policy_activations db0 = ∅) :
  let '(log, db) := run pstep ops db0 in
  (forall before now random request out after,
     log = before ++ (PEvaluate now random request, ODecided out) :: after ->
     validateEvaluationRequest request = None -> encodable (EvaluationRequest.Scope request) = true ->
     answers (registry before) now random request out) /\
  (forall now random request record, (PEvaluate now random request, ODecided (Ok record)) ∈ log -> recorded db record).
Proof.
  pose proof (run_log_invariant pstep pop_ok policy_invariant policy_step ops db0 Hops) as Hrun.
  destruct (run pstep ops db0) as [log db]. destruct Hrun as (_ & Hlog & Hrec).
  - split_and!; [|by intros [|] |by intros ? ? ? ? Hin%elem_of_nil]. unfold related. rewrite Hb0, Ha0.
    split_and!; [intros k|intros scope|intros scope k Hk]; cbn; rewrite ?lookup_empty in *; done.
  - split; [|exact Hrec]. intros before now random request out after Heq. exact (Hlog before _ after Heq).
Qed.
End Store.


(** A bundle that its provider signed is not refused. *)
Lemma signed_bundle_rules {P} `{SigningLaws P} (p : P) b b' request :
  provider_ok p -> SignBundle p b = Ok b' ->
  ruling p b' request = first_match b request.
Proof.
  intros Hp. unfold SignBundle. destruct (validateUnsignedBundle b); [done|]. destruct (CurrentSigningKey p _) as [k|] eqn:Hk; [|done].
  set (b1 := b <| SigningKeyRef := SigningKey.Reference k |> <| SignatureAlgorithm := SigningKey.Algorithm k |>).
  destruct (bundleSigningPayload b1) as [payload|] eqn:Hpay; [|done]. destruct (Sign p _ payload) as [s|] eqn:Hs; [|done].
  intros Hb. injection Hb as <-.
  assert (Hpo : payload_of (b1 <| Signature := Some s |>) = payload).
  { unfold bundleSigningPayload, marshal_bundle in Hpay. destruct (jtime_ok _); [|done]. injection Hpay as <-. reflexivity. }
  unfold ruling. rewrite Hpo. change (SigningKeyRef (b1 <| Signature := Some s |>)) with (SigningKey.Reference k).
  change (SignatureAlgorithm (b1 <| Signature := Some s |>)) with (SigningKey.Algorithm k).
  change (default "" (Signature (b1 <| Signature := Some s |>))) with s. by rewrite (sign_verifies p _ _ _ _ Hp Hk Hs).
Qed.

(** ** Witness

    Two versions of a bundle; the second takes over, and a bundle for another
    scope is refused. *)
#[local] Instance policy_provider : SigningProvider Keyring.t := Keyring.provider size_sign size_verify.
Definition policy_signer : Keyring.t := demo_keyring "k1" "a".
Definition core_rule (allow : bool) : Rule.t :=
  Rule.mk "show" "core" allow false (if allow then None else Some ["frozen"]) (Some {["max" := "10"]}).
Definition demo_bundle (version : Z) (allow : bool) : Bundle.t :=
  match SignBundle policy_signer (Bundle.mk "b1" version "s" demo_now (Some [core_rule allow]) "" "" None) with
  | Ok b => b
  | Err _ => Bundle.mk "" 0 "" 0 None "" "" None
  end.
Definition core_request : EvaluationRequest.t := EvaluationRequest.mk "tenant" "alice" "candidate" "s" "show" "core" None.
Definition policy_demo_ops : list pop :=
  [PEvaluate demo_now (Ok [1]) core_request; PStore demo_now (demo_bundle 1 true); PStore demo_now (demo_bundle 2 false);
   PActivate demo_now None "s" "b1" 1 "admin"; PEvaluate demo_now (Ok [1]) core_request;
   PActivate demo_now None "t" "b1" 2 "admin"; PActivate demo_now None "s" "b1" 2 "admin";
   PEvaluate demo_now (Ok [2]) core_request].
Lemma demo_bundle_fits version allow :
  (BundleID (demo_bundle version allow), Scope (demo_bundle version allow), SigningKeyRef (demo_bundle version allow),
   SignatureAlgorithm (demo_bundle version allow), Version (demo_bundle version allow), Rules (demo_bundle version allow)) =
    ("b1", "s", "k1", Ed25519Algorithm, version, Some [core_rule allow]) ->
  int64_range version -> bundle_fits (demo_bundle version allow).
Proof.
  generalize (demo_bundle version allow). intros b Hb Hv. injection Hb as H1 H2 H3 H4 H5 H6.
  unfold bundle_fits. rewrite H1, H2, H3, H4, H5, H6. split; [by repeat constructor|]. split; [done|].
  constructor; [|constructor]. split_and!; [done|done|destruct allow; by repeat constructor|].
  split; [by apply map_Forall_singleton|]. apply (bool_decide_unpack _). vm_compute. exact I.
Qed.
Lemma policy_demo_ok : Forall pop_ok policy_demo_ops.
Proof.
  assert (H1 : bundle_fits (demo_bundle 1 true)) by (apply demo_bundle_fits; [vm_compute; reflexivity|vm_compute; split; discriminate]).
  assert (H2 : bundle_fits (demo_bundle 2 false)) by (apply demo_bundle_fits; [vm_compute; reflexivity|vm_compute; split; discriminate]).
  unfold policy_demo_ops. constructor; [exact I|]. constructor; [exact H1|]. constructor; [exact H2|].
  do 5 (constructor; [exact I|]). constructor.
Qed.

Lemma active_bundle_decides_witness :
  let '(log, db) := run (pstep policy_signer) policy_demo_ops DB.empty in
  map (fun x => match x.2 with ODecided (Ok record) => Some (DecisionRecord.BundleVersion record, DecisionRecord.Allow record)
                             | _ => None end) log =
    [None; None; None; None; Some (1, true); None; None; Some (2, false)] /\
  forall now random request record, (PEvaluate now random request, ODecided (Ok record)) ∈ log -> recorded db record.
Proof.
  pose proof (active_bundle_decides policy_signer policy_demo_ops DB.empty policy_demo_ok eq_refl eq_refl) as Hw.
  assert (Hlog : map (fun x => match x.2 with ODecided (Ok record) => Some (DecisionRecord.BundleVersion record, DecisionRecord.Allow record)
                             | _ => None end) (run (pstep policy_signer) policy_demo_ops DB.empty).1 =
    [None; None; None; None; Some (1, true); None; None; Some (2, false)]) by (vm_compute; reflexivity).
  destruct (run _ policy_demo_ops DB.empty) as [log db]. split; [exact Hlog|]. exact (proj2 Hw).
Defined.
