(* ===== verification/ControlPlane.v ===== *)
(** * The commands ([cmd/controlplane/main.go], [cmd/collector/main.go])

    How the processes are configured and started: reading the environment,
    opening the database under the expected role after the migrations, which API
    is served to whom, how long a failed delivery waits, and the collector's
    policy for executions.  The part of Go's [time] and [strconv] that reads the
    environment is modelled here, with the double-precision arithmetic that
    [time.ParseDuration] uses for fractions. *)
From Stdlib Require Import Floats.SpecFloat.
From S2P Require Import Prelude GoStrings GoEncoding GoDecoding Json GoText Authctx Task Schema Outbox DeadLetter Parsing Identity.
From S2P Require Import Grants Worker Policy Http ResolutionApi OperatorApi Migrations.
Local Open Scope Z_scope.

(** ** Durations ([time.ParseDuration]) *)
Definition Millisecond : Z := 1000000.
Definition float := spec_float.
Definition prec : Z := 53.
Definition emax : Z := 1024.
Definition float64 (n : Z) : float := binary_normalize prec emax n 0 false.
(** [uint64(x)] of a finite number that is not negative. *)
Definition truncate (x : float) : Z :=
  match x with
  | S754_finite false m e => if 0 <=? e then Z.shiftl (Z.pos m) e else Z.shiftr (Z.pos m) (- e)
  | _ => 0
  end.
Definition units : list (string * Z) :=
  [ ("ns", 1); ("us", 1000); (of_bytes [194; 181; 115], 1000); (of_bytes [206; 188; 115], 1000); ("ms", Millisecond);
    ("s", Second); ("m", 60 * Second); ("h", 3600 * Second) ].
(** The digits in front; [None] on overflow. *)
Fixpoint leadingInt (x : Z) (bs : list Z) : option (Z * list Z) :=
  match bs with
  | b :: t =>
    if is_digit b then
      if 2 ^ 63 / 10 <? x then None
      else let x := x * 10 + (b - 48) in if 2 ^ 63 <? x then None else leadingInt x t
    else Some (x, bs)
  | [] => Some (x, [])
  end.
(** Digits after the point; those that no longer fit are dropped. *)
Fixpoint leadingFraction (overflow : bool) (x : Z) (scale : float) (bs : list Z) : Z * float * list Z :=
  match bs with
  | b :: t =>
    if is_digit b then
      if overflow || ((2 ^ 63 - 1) / 10 <? x) then leadingFraction true x scale t
      else let y := x * 10 + (b - 48) in
           if 2 ^ 63 <? y then leadingFraction true x scale t
           else leadingFraction false y (SFmul prec emax scale (float64 10)) t
    else (x, scale, bs)
  | [] => (x, scale, [])
  end.
Fixpoint take_unit (bs : list Z) : list Z * list Z :=
  match bs with
  | b :: t => if (b =? 46) || is_digit b then ([], bs) else let '(u, rest) := take_unit t in (b :: u, rest)
  | [] => ([], [])
  end.
(** One number with its unit. *)
Definition duration_part (bs : list Z) : option (Z * list Z) :=
  match bs with
  | b :: _ =>
    if negb ((b =? 46) || is_digit b) then None
    else match leadingInt 0 bs with
    | None => None
    | Some (v, s) =>
      let pre := negb (List.length s =? List.length bs)%nat in
      let '(f, scale, s, post) :=
        match s with
        | 46 :: t => let '(f, scale, s) := leadingFraction false 0 (float64 1) t in (f, scale, s, negb (List.length s =? List.length t)%nat)
        | _ => (0, float64 1, s, false)
        end in
      if negb pre && negb post then None
      else let '(u, s) := take_unit s in
        match find (fun nu => bytes nu.1 ==? u) units with
        | None => None
        | Some (_, unit) =>
          if 2 ^ 63 / unit <? v then None
          else
            let v := v * unit in
            let v := if 0 <? f then v + truncate (SFmul prec emax (float64 f) (SFdiv prec emax (float64 unit) scale)) else v in
            if 2 ^ 63 <? v then None else Some (v, s)
        end
    end
  | [] => None
  end.
(** Every round takes at least two bytes, so a round for every byte is enough. *)
Fixpoint duration_parts (fuel : nat) (d : Z) (bs : list Z) : option Z :=
  match fuel, bs with
  | _, [] => Some d
  | O, _ => None
  | S fuel, _ =>
    match duration_part bs with
    | Some (v, rest) => if 2 ^ 63 <? d + v then None else duration_parts fuel (d + v) rest
    | None => None
    end
  end.
Definition ParseDuration (s : string) : option Z :=
  let '(neg, bs) := match bytes s with 45 :: t => (true, t) | 43 :: t => (false, t) | bs => (false, bs) end in
  if bs ==? [48] then Some 0
  else match bs with
  | [] => None
  | _ =>
    match duration_parts (List.length bs) 0 bs with
    | Some d => if neg then Some (- d) else if 2 ^ 63 - 1 <? d then None else Some d
    | None => None
    end
  end.
Example durations :
  map ParseDuration ["250ms"; "1.5s"; "1h0.3s"; "0"; "-2m"; ""; "5"; ".s"; "9223372036854775807ns"; "9223372036854775808ns"; "0.1h"] =
  [Some (250 * Millisecond); Some (1500 * Millisecond); Some (3600300 * Millisecond); Some 0; Some (- 120 * Second); None; None; None;
   Some (2 ^ 63 - 1); None; Some (360 * Second)].
Proof. by vm_compute. Qed.
(** [strconv.ParseBool]. *)
Definition ParseBool (s : string) : option bool :=
  if existsb (fun t => s ==? t) ["1"; "t"; "T"; "TRUE"; "true"; "True"] then Some true
  else if existsb (fun t => s ==? t) ["0"; "f"; "F"; "FALSE"; "false"; "False"] then Some false else None.

(** ** Configuration *)
Module config.
Record t := mk {
  DatabaseURL : string; DatabaseRole : string; MigrationDatabaseURL : string; ListenAddress : string; ApplyMigrations : bool;
  NATSURL : string; NATSStream : string; NATSSubject : string; NATSCredentials : string; NATSCAFile : string; NATSCertFile : string;
  NATSKeyFile : string; OutboxWorkerID : string; ServerTLSCertFile : string; ServerTLSKeyFile : string; OperatorClientCAFile : string;
  OperatorSPIFFETrustDomain : string; ReconciliationBatchSize : Z; ReconciliationPoll : Z; ReconciliationFailureDelay : Z }.
#[global] Instance eta_t : Eta t := fun x =>
  mk (DatabaseURL x) (DatabaseRole x) (MigrationDatabaseURL x) (ListenAddress x) (ApplyMigrations x) (NATSURL x) (NATSStream x)
    (NATSSubject x) (NATSCredentials x) (NATSCAFile x) (NATSCertFile x) (NATSKeyFile x) (OutboxWorkerID x) (ServerTLSCertFile x)
    (ServerTLSKeyFile x) (OperatorClientCAFile x) (OperatorSPIFFETrustDomain x) (ReconciliationBatchSize x) (ReconciliationPoll x)
    (ReconciliationFailureDelay x).
End config.
Definition or_default (value fallback : string) : string := if value ==? "" then fallback else value.
Definition applyConfigDefaults (c : config.t) : config.t :=
  c <| config.ListenAddress := or_default (config.ListenAddress c) ":8080" |>
    <| config.NATSStream := or_default (config.NATSStream c) "BROKER_EVENTS" |>
    <| config.NATSSubject := or_default (config.NATSSubject c) "network-broker.events" |>.
(** The four values that turn the authenticated APIs on. *)
Definition operatorTLSValues (c : config.t) : list string :=
  [config.ServerTLSCertFile c; config.ServerTLSKeyFile c; config.OperatorClientCAFile c; config.OperatorSPIFFETrustDomain c].
Definition configured (values : list string) : nat := List.length (List.filter (fun v => v !=? "") values).

Section Configuration.
Context `{UnicodeTables}.
Definition validateRequiredConfig (c : config.t) : option error :=
  if config.DatabaseURL c ==? "" then Some (Text "DATABASE_URL is required")
  else match ValidateName (config.DatabaseRole c) with
  | Some e => Some (Wrapf "DATABASE_ROLE is required and invalid: " e "")
  | None =>
    if config.NATSURL c ==? "" then Some (Text "NATS_URL is required")
    else if config.OutboxWorkerID c ==? "" then Some (Text "OUTBOX_WORKER_ID is required")
    else if negb (Bool.eqb (config.NATSCertFile c ==? "") (config.NATSKeyFile c ==? "")) then
      Some (Text "NATS_CERT_FILE and NATS_KEY_FILE must be configured together")
    else if negb (configured (operatorTLSValues c) =? 0)%nat &&
            negb (configured (operatorTLSValues c) =? List.length (operatorTLSValues c))%nat then
      Some (Text "server TLS identity, operator client CA and SPIFFE trust domain must be configured together")
    else None
  end.
Definition loadMigrationConfig (getenv : string -> string) (c : config.t) : result config.t :=
  let raw := getenv "APPLY_MIGRATIONS" in
  match (if raw ==? "" then Some (config.ApplyMigrations c) else ParseBool raw) with
  | None => Err (Wrapf "APPLY_MIGRATIONS must be a boolean: " (Text ("strconv.ParseBool: parsing " +:+ quote raw +:+ ": invalid syntax")) "")
  | Some value =>
    let c := c <| config.ApplyMigrations := value |> in
    if value && (config.MigrationDatabaseURL c ==? "") then
      Err (Text "MIGRATION_DATABASE_URL is required when APPLY_MIGRATIONS is true")
    else if negb value && (config.MigrationDatabaseURL c !=? "") then Err (Text "MIGRATION_DATABASE_URL requires APPLY_MIGRATIONS=true")
    else if value && (config.MigrationDatabaseURL c ==? config.DatabaseURL c) then
      Err (Text "migration and runtime database identities must be separate")
    else Ok c
  end.
(** A variable that is set must be positive. *)
Definition positive_or (raw : string) (read : string -> option Z) (fallback maximum : Z) : option Z :=
  if raw ==? "" then Some fallback
  else match read raw with Some v => if (v <=? 0) || (maximum <? v) then None else Some v | None => None end.
Definition loadReconciliationConfig (getenv : string -> string) (c : config.t) : result config.t :=
  match positive_or (getenv "RECONCILIATION_BATCH_SIZE") (ParseInt 64) (config.ReconciliationBatchSize c) 10000 with
  | None => Err (Text "RECONCILIATION_BATCH_SIZE must be between 1 and 10000")
  | Some size =>
    match positive_or (getenv "RECONCILIATION_POLL_INTERVAL") ParseDuration (config.ReconciliationPoll c) max_int64 with
    | None => Err (Text "RECONCILIATION_POLL_INTERVAL must be a positive duration")
    | Some poll =>
      match positive_or (getenv "RECONCILIATION_FAILURE_DELAY") ParseDuration (config.ReconciliationFailureDelay c) max_int64 with
      | None => Err (Text "RECONCILIATION_FAILURE_DELAY must be a positive duration")
      | Some delay =>
        Ok (c <| config.ReconciliationBatchSize := size |> <| config.ReconciliationPoll := poll |>
              <| config.ReconciliationFailureDelay := delay |>)
      end
    end
  end.
Definition environment (getenv : string -> string) : config.t :=
  config.mk (getenv "DATABASE_URL") (getenv "DATABASE_ROLE") (getenv "MIGRATION_DATABASE_URL") (getenv "LISTEN_ADDRESS") false
    (getenv "NATS_URL") (getenv "NATS_STREAM") (getenv "NATS_SUBJECT") (getenv "NATS_CREDENTIALS_FILE") (getenv "NATS_CA_FILE")
    (getenv "NATS_CERT_FILE") (getenv "NATS_KEY_FILE") (getenv "OUTBOX_WORKER_ID") (getenv "SERVER_TLS_CERT_FILE")
    (getenv "SERVER_TLS_KEY_FILE") (getenv "OPERATOR_CLIENT_CA_FILE") (getenv "OPERATOR_SPIFFE_TRUST_DOMAIN") 100 (5 * Second) (5 * Second).
Definition loadConfig (getenv : option (string -> string)) : result config.t :=
  match getenv with
  | None => Err (Text "environment reader is required")
  | Some getenv =>
    let c := applyConfigDefaults (environment getenv) in
    match validateRequiredConfig c with
    | Some e => Err e
    | None =>
      match loadMigrationConfig getenv c with
      | Err e => Err e
      | Ok c => loadReconciliationConfig getenv c
      end
    end
  end.

End Configuration.

(** ** The database *)

(** Opening a database gives its catalogue and its migration state, or fails;
    closing can fail too. *)
Module Opened.
Record t (Schema : Type) := mk { catalogue : Catalogue.t; world : World.t Schema; closes : option error }.
Arguments mk {Schema}. Arguments catalogue {Schema}. Arguments world {Schema}. Arguments closes {Schema}.
End Opened.
Section Opening.
Context `{UnicodeTables} {Schema : Type}.
Variable execute : string -> Schema -> result Schema.
Variable contents : string -> string.
Variable lost_commit : bool.
(** [openDatabase]: what connecting gives, before or after the migrations. *)
Variable openDatabase : option (World.t Schema) -> string -> result (Opened.t Schema).
Definition with_close (e : error) (close : option error) : error := match close with Some c => Join e c | None => e end.
Definition openRuntime (c : config.t) (migrated : option (World.t Schema)) : result (Opened.t Schema) :=
  match openDatabase migrated (config.DatabaseURL c) with
  | Err e => Err e
  | Ok database =>
    match VerifyControlPlane (Some (Opened.catalogue database)) (config.DatabaseRole c) with
    | Err e => Err (Wrapf "verify database authority: " (with_close e (Opened.closes database)) "")
    | Ok _ => Ok database
    end
  end.
Definition openApplicationDatabase (c : config.t) : result (Opened.t Schema) :=
  if config.ApplyMigrations c then
    match openDatabase None (config.MigrationDatabaseURL c) with
    | Err e => Err (Wrapf "open migration database identity: " e "")
    | Ok migration =>
      match Apply execute contents lost_commit migrationFiles (Some (Opened.world migration)) with
      | (Some e, _) => Err (Wrapf "apply database migrations: " (with_close e (Opened.closes migration)) "")
      | (None, w) =>
        match Opened.closes migration with
        | Some e => Err (Wrapf "close migration database identity: " e "")
        | None => openRuntime c w
        end
      end
    end
  else openRuntime c None.
End Opening.

(** ** Who is served *)
Definition api_authenticator (trustDomain : string) (now : option Z) (role scope : string) : Authenticator.t :=
  Authenticator.mk trustDomain {[role := RoleBinding.mk [scope] [] "mtls-spiffe"]} now.
Definition planning_authenticator (c : config.t) (now : option Z) : Authenticator.t :=
  api_authenticator (config.OperatorSPIFFETrustDomain c) now "planner" "resolutions:plan".
Definition status_authenticator (c : config.t) (now : option Z) : Authenticator.t :=
  api_authenticator (config.OperatorSPIFFETrustDomain c) now "agent" resolutionReadScope.
Definition create_authenticator (c : config.t) (now : option Z) : Authenticator.t :=
  api_authenticator (config.OperatorSPIFFETrustDomain c) now "agent" resolutionCreateScope.
Definition watch_authenticator (c : config.t) (now : option Z) : Authenticator.t :=
  api_authenticator (config.OperatorSPIFFETrustDomain c) now "agent" resolutionWatchScope.

(** ** Delivery retries *)
Definition outboxRetryDelay (attempt : Z) : Z :=
  if attempt <=? 1 then Second else if 9 <=? attempt then 5 * 60 * Second else Z.shiftl Second (attempt - 1).

(** ** The collector's policy

    The error of [strconv.ParseInt] for a text that is no number. *)
Definition not_a_number (raw : string) : error := Text ("strconv.ParseInt: parsing " +:+ quote raw +:+ ": invalid syntax").
Definition AuthorizeExecution (request : ExecutionRequest.t) : result ExecutionAuthorization.t :=
  let recipe := Task.RecipeID (ExecutionRequest.Task_ request) in
  match Policy.Evaluate recipe "lab" with
  | Err e => Err e
  | Ok decision =>
    if negb (Decision.Allow decision) || Decision.RequiresApproval decision then
      Err (Text ("execution policy denied recipe " +:+ quote recipe))
    else match ParseInt 64 (default "" (Decision.Obligations decision !! "max_duration_ms")) with
    | None => Err (Wrapf "invalid policy duration obligation: " (not_a_number (default "" (Decision.Obligations decision !! "max_duration_ms"))) "")
    | Some durationMS =>
      match ParseInt 64 (default "" (Decision.Obligations decision !! "max_response_bytes")) with
      | None => Err (Wrapf "invalid policy byte obligation: " (not_a_number (default "" (Decision.Obligations decision !! "max_response_bytes"))) "")
      | Some maximumBytes =>
        let maximumDuration := int64 (durationMS * Millisecond) in
        Ok (ExecutionAuthorization.mk (Decision.DecisionID decision)
          (if ExecutionRequest.MaximumDuration request <? maximumDuration then ExecutionRequest.MaximumDuration request else maximumDuration)
          (if ExecutionRequest.MaximumBytes request <? maximumBytes then ExecutionRequest.MaximumBytes request else maximumBytes))
      end
    end
  end.

(** ** Starting up *)
Lemma positive_or_spec raw read fallback maximum v : 0 < fallback -> positive_or raw read fallback maximum = Some v -> 0 < v.
Proof.
  intros Hf. unfold positive_or. destruct (raw ==? ""); [by intros [= <-]|]. destruct (read raw) as [n|]; [|done].
  destruct (_ || _) eqn:E; [done|]. intros [= <-]. by apply orb_false_iff in E as [E%Z.leb_gt _].
Qed.
Lemma loadConfig_spec `{UnicodeTables} getenv c : loadConfig (Some getenv) = Ok c ->
  config.DatabaseURL c <> "" /\ ValidateName (config.DatabaseRole c) = None /\
  (configured (operatorTLSValues c) = 0%nat \/ configured (operatorTLSValues c) = 4%nat) /\
  (config.ApplyMigrations c = true -> config.MigrationDatabaseURL c <> "" /\ config.MigrationDatabaseURL c <> config.DatabaseURL c) /\
  0 < config.ReconciliationBatchSize c /\ 0 < config.ReconciliationPoll c /\ 0 < config.ReconciliationFailureDelay c.
Proof.
  unfold loadConfig. set (c0 := applyConfigDefaults (environment getenv)).
  assert (H0 : 0 < config.ReconciliationBatchSize c0 /\ 0 < config.ReconciliationPoll c0 /\ 0 < config.ReconciliationFailureDelay c0) by done.
  clearbody c0. destruct (validateRequiredConfig c0) eqn:Hv; [done|]. unfold validateRequiredConfig in Hv.
  destruct (config.DatabaseURL c0 ==? "") eqn:Hurl; [done|]. destruct (ValidateName (config.DatabaseRole c0)) eqn:Hrole; [done|].
  destruct (config.NATSURL c0 ==? ""); [done|]. destruct (config.OutboxWorkerID c0 ==? ""); [done|].
  destruct (negb (Bool.eqb _ _)); [done|]. destruct (negb _ && negb _) eqn:Htls; [done|]. clear Hv.
  assert (Hconf : configured (operatorTLSValues c0) = 0%nat \/ configured (operatorTLSValues c0) = 4%nat).
  { apply andb_false_iff in Htls as [E|E]; apply negb_false_iff, Nat.eqb_eq in E; auto. }
  destruct (loadMigrationConfig getenv c0) as [c1|] eqn:Hm; [|done]. unfold loadMigrationConfig in Hm.
  destruct (if getenv "APPLY_MIGRATIONS" ==? "" then _ else _) as [value|]; [|done].
  cbn [set_field config.ApplyMigrations config.MigrationDatabaseURL config.DatabaseURL] in Hm.
  destruct (value && _) eqn:M1 in Hm; [done|]. destruct (negb value && _) in Hm; [done|].
  destruct (value && (_ ==? config.DatabaseURL c0)) eqn:M2 in Hm; [done|]. injection Hm as <-.
  unfold loadReconciliationConfig. cbn [set_field config.ReconciliationBatchSize config.ReconciliationPoll config.ReconciliationFailureDelay].
  destruct (positive_or _ _ _ 10000) as [size|] eqn:R1; [|done]. destruct (positive_or _ _ (config.ReconciliationPoll c0) _) as [poll|] eqn:R2; [|done].
  destruct (positive_or _ _ (config.ReconciliationFailureDelay c0) _) as [delay|] eqn:R3; [|done]. intros [= <-].
  destruct H0 as (P1 & P2 & P3). apply (positive_or_spec _ _ _ _ _ P1) in R1. apply (positive_or_spec _ _ _ _ _ P2) in R2.
  apply (positive_or_spec _ _ _ _ _ P3) in R3.
  cbn [set_field config.DatabaseURL config.DatabaseRole config.ApplyMigrations config.MigrationDatabaseURL config.ReconciliationBatchSize
    config.ReconciliationPoll config.ReconciliationFailureDelay].
  split; [by apply bool_decide_eq_false in Hurl|]. split; [done|]. split; [exact Hconf|]. split; [|done].
  intros ->. cbn [andb] in M1, M2. apply bool_decide_eq_false in M1, M2. done.
Qed.

(** A control plane that starts does so under the role it was given, whose
    privileges are exactly the expected ones; when it applies migrations, it does
    so first, under another identity, and every migration is recorded with its
    checksum before the runtime connects. *)
Theorem starts_verified `{UnicodeTables} {Schema} execute contents lost_commit openDatabase getenv c (database : Opened.t Schema)
    (Hload : loadConfig (Some getenv) = Ok c)
    (Hopen : openApplicationDatabase execute contents lost_commit openDatabase c = Ok database) :
  exists migrated, openDatabase migrated (config.DatabaseURL c) = Ok database /\
    is_ok (VerifyControlPlane (Some (Opened.catalogue database)) (config.DatabaseRole c)) = true /\
    if config.ApplyMigrations c then
      config.MigrationDatabaseURL c <> config.DatabaseURL c /\
      exists migration, openDatabase None (config.MigrationDatabaseURL c) = Ok migration /\
        Apply execute contents lost_commit migrationFiles (Some (Opened.world migration)) = (None, migrated) /\
        forall w, migrated = Some w -> Forall (fun name => current contents name (World.db w)) migrationFiles
    else migrated = None.
Proof.
  destruct (loadConfig_spec getenv c Hload) as (_ & _ & _ & Hsep & _). revert Hopen. unfold openApplicationDatabase.
  assert (Hrun : forall migrated, openRuntime openDatabase c migrated = Ok database ->
    openDatabase migrated (config.DatabaseURL c) = Ok database /\
    is_ok (VerifyControlPlane (Some (Opened.catalogue database)) (config.DatabaseRole c)) = true).
  { intros migrated. unfold openRuntime. destruct (openDatabase _ _) as [d|]; [|done].
    destruct (VerifyControlPlane _ _) eqn:Hv; [|done]. intros [= ->]. by rewrite Hv. }
  destruct (config.ApplyMigrations c).
  - destruct (openDatabase None _) as [migration|] eqn:Hm; [|done].
    destruct (Apply _ _ _ _ _) as [[e|] w] eqn:Ha; [done|]. destruct (Opened.closes migration); [done|].
    intros [H1 H2]%Hrun. exists w. split; [done|]. split; [done|]. split; [by apply Hsep|].
    exists migration. split; [done|]. split; [done|]. intros w' ->. exact (Apply_current _ _ _ _ _ _ Ha).
  - intros [H1 H2]%Hrun. by exists None.
Qed.

(** Each API serves one role and gives it one scope: a caller whom it accepts has
    this role in its certificate and can do nothing else with the context. *)
Lemma api_serves_role trustDomain now role scope state actor :
  Authenticate (api_authenticator trustDomain now role scope) state = Ok actor ->
  AuthContext.Roles actor = [role] /\ AuthContext.AllowedScopes actor = [scope] /\
  exists identity workload, URL.Host identity = trustDomain /\ names_workload identity (AuthContext.TenantID actor) role workload.
Proof.
  intros (identity & role' & workload & binding & Hh & Hn & Hr & Hb & Hs)%Authenticate_role.
  unfold api_authenticator in Hb. cbn [Authenticator.Roles] in Hb. apply lookup_singleton_Some in Hb as [<- <-]. split; [done|]. split; [done|]. by exists identity, workload.
Qed.

(** Delays between a second and five minutes that never shrink. *)
Lemma outboxRetryDelay_middle attempt : 1 < attempt < 9 -> outboxRetryDelay attempt = Second * 2 ^ (attempt - 1).
Proof.
  intros Ha. unfold outboxRetryDelay. destruct (Z.leb_spec attempt 1); [lia|]. destruct (Z.leb_spec 9 attempt); [lia|].
  apply Z.shiftl_mul_pow2. lia.
Qed.
Lemma retry_delays attempt later : attempt <= later ->
  Second <= outboxRetryDelay attempt <= outboxRetryDelay later /\ outboxRetryDelay later <= 300 * Second.
Proof.
  assert (Hcases : forall n, n < 9 /\ outboxRetryDelay n = Second * 2 ^ (Z.min (Z.max n 1) 8 - 1) \/ 9 <= n /\ outboxRetryDelay n = 300 * Second).
  { intros n. destruct (Z.le_gt_cases n 1); [left; split; [lia|]; unfold outboxRetryDelay; rewrite (proj2 (Z.leb_le n 1)) by done; by rewrite Z.max_r by lia|].
    destruct (Z.lt_ge_cases n 9); [left; split; [done|]; rewrite outboxRetryDelay_middle by lia; do 2 f_equal; lia|right].
    split; [done|]. unfold outboxRetryDelay. destruct (Z.leb_spec n 1); [lia|]. by rewrite (proj2 (Z.leb_le 9 n)). }
  intros Hle. unfold Second in *.
  assert (Hpow : forall n, 1 <= 2 ^ (Z.min (Z.max n 1) 8 - 1) <= 128).
  { intros n. split; [apply (Z.pow_le_mono_r 2 0); lia|apply (Z.pow_le_mono_r 2 _ 7); lia]. }
  assert (Hmono : 2 ^ (Z.min (Z.max attempt 1) 8 - 1) <= 2 ^ (Z.min (Z.max later 1) 8 - 1)) by (apply Z.pow_le_mono_r; lia).
  pose proof (Hpow attempt). pose proof (Hpow later). destruct (Hcases attempt) as [[? ->]|[? ->]], (Hcases later) as [[? ->]|[? ->]]; lia.
Qed.

(** The collector executes only what the catalogue allows without approval,
    within the limits it was asked for and those of the policy. *)
Lemma execution_within_policy request a : AuthorizeExecution request = Ok a ->
  Task.RecipeID (ExecutionRequest.Task_ request) ∈ ["cached_openconfig_interfaces"; "gnmi_interface_get"] /\
  ExecutionAuthorization.DecisionID a = "decision-" +:+ Task.RecipeID (ExecutionRequest.Task_ request) /\
  ExecutionAuthorization.MaximumDuration a = Z.min (ExecutionRequest.MaximumDuration request) (10 * Second) /\
  ExecutionAuthorization.MaximumBytes a = Z.min (ExecutionRequest.MaximumBytes request) 1048576.
Proof.
  unfold AuthorizeExecution, Policy.Evaluate. generalize (Task.RecipeID (ExecutionRequest.Task_ request)) as recipe. intros recipe.
  destruct (recipe ==? ""); [done|]. cbv zeta.
  assert (Hlim : int64 (10000 * Millisecond) = 10 * Second) by by vm_compute.
  assert (Hmin : forall x y, (if x <? y then x else y) = Z.min x y) by (intros x y; destruct (Z.ltb_spec x y); lia).
  change ("lab" ==? "production_core") with false. cbv iota.
  destruct (recipe ==? "cached_openconfig_interfaces") eqn:E1; [|destruct (recipe ==? "gnmi_interface_get") eqn:E2;
    [|destruct (recipe ==? "vendor_cli_show_interface"); done]];
    cbn [Decision.Allow Decision.RequiresApproval Decision.Obligations Decision.DecisionID negb orb];
    repeat match goal with |- context [ParseInt 64 ?x] =>
      let v := eval vm_compute in (ParseInt 64 x) in replace (ParseInt 64 x) with v by (vm_compute; reflexivity) end;
    cbv beta iota zeta; rewrite Hlim, !Hmin;
    intros [= <-]; cbn; reflect_bools; subst; (split; [set_solver|done]).
Qed.
